(* ===== verification/_CoqProject ===== *)
-Q . S2P
Prelude.v
Amount.v
BatchLane.v
Json.v
Binary.v
ResourceBudget.v
Commitment.v
ChainTruth.v
Lineage.v
Bloom.v
LineageUpdate.v
Compaction.v
Template.v
Agreement.v
PaymentIdentifier.v
Dates.v
DateText.v
Channels.v
ExactHeads.v
ExactTransitions.v
ExactPhases.v
BatchAttempts.v
Store.v
StoreChannels.v
StoreBudget.v
StorePrune.v
StoreHistory.v
StoreProperties.v
HashChain.v
HashChainIssuer.v
HashChainGrants.v
HashChainRun.v
HashChainSteps.v
HashChainInvariant.v
HashChainProperties.v
TxV1.v
TxV1Artifacts.v
TxV1Commitments.v
JsonText.v
Authorization.v
AuthorizationProperties.v
HashChainVerifier.v
HashChainSigner.v
HashChainPayment.v
HashChainExchange.v
ClientStore.v
ClientStoreOps.v
ClientStoreSteps.v
ClientStoreInvariant.v
ClientStoreProperties.v
