(* ===== verification/Prelude.v ===== *)
(** * Kaspa x402: verification library

    Kaspa x402 is an HTTP payment protocol (status 402) over the Kaspa block DAG.  This
    library models the state-carrying core of its TypeScript packages under
    [src/protocol/packages/] and proves what the protocol relies on.  Paths below are
    relative to that directory.

    ** The program and its parts

    A payer pays a server in one of two ways.  An exact payment is one transaction per
    request, either plain or advancing a shared additive KIP-10 output (a head).  A batch
    payment is a signed voucher on a payment channel, that is a covenant output (the escrow)
    that the server later claims on chain.  The server keeps every durable fact in a state
    store: channels, leases, settlement attempts, exact heads and attempts, payment
    identifiers (client-chosen idempotency keys), claims, and a budget that bounds all of it.
    What the chain says arrives as evidence and as selected-chain updates, from which the
    lineage of a covenant is derived.

    ** Files and the code they model

    - Prelude: results and exceptions, object properties that may be absent, record update,
      association lists with insertion order, character classes, tactics.
    - Amount ([core/src/amount.ts], [constants.ts]); BatchLane ([core/src/batch-lane.ts]);
      Json ([core/src/stable-json.ts] and the servers' [stableJson]); Binary
      ([core/src/binary.ts], [network.ts]); ResourceBudget ([core/src/resource-budget.ts]);
      Commitment ([core/src/channel.ts], [voucher.ts], [batch-commitment.ts]).
    - ChainTruth ([core/src/chain-truth.ts]): evidence decisions, covenant lineages, their
      journal, compaction and extension.  Theorems: Lineage (derivation, conservation,
      reorganizations), Bloom (the filter of compacted blocks), LineageUpdate (updates keep
      states valid), Compaction (compaction, confirmation, concrete lineages).
    - Template ([covenant/src/template.ts] and its generated constants): escrow and KIP-10
      scripts, compute budget, voucher bytes.  Agreement: core and covenant sign the same
      voucher.
    - PaymentIdentifier ([server/src/payment-identifier-state.ts],
      [durable-record-budget.ts]); Dates ([Date.parse]) and DateText (its round trip with
      [toISOString]); Channels ([server/src/channel-lineage.ts] and the channel record of
      [types.ts]); ExactHeads ([server/src/exact-heads.ts]); ExactTransitions
      ([server/src/exact-payment-transitions.ts]), with ExactPhases for the phase machine of
      an attempt; BatchAttempts ([server/src/batch-settlement-attempts.ts]).
    - Store and StoreChannels: the class [MemoryServerChannelStore] of
      [server/src/stores.ts].  Store has its maps, budget, pruning, the application of exact
      transitions and head selection; StoreChannels its channel, lease, batch and claim
      methods and [exec], which runs any of them as a command.  Theorems: StoreBudget (the
      budget invariant), StorePrune (pruning), StoreHistory (channels as sequences of lane
      steps), StoreProperties (the store's guarantees on any run, concrete stores).
    - HashChain ([covenant/src/hash-chain.ts], [sighash.ts]): guards and head scripts of the
      hash-chain profile, where a payer spends a head with a one-time key the server
      discloses.  HashChainIssuer, HashChainGrants and HashChainRun model the server's grant
      issuer ([server/src/hash-chain-issuer.ts]): its records and tables, its methods, and the
      migrations, reopening and command language over them.  Theorems: HashChainSteps (the
      abstract machine and the refinement), HashChainInvariant (its invariant),
      HashChainProperties (guarantees on any run, a concrete issuer).
    - TxV1 ([covenant/src/tx-v1.ts], [storage-mass.ts]): version-1 transactions, their
      serialization, ids, signature hashes and storage mass.  TxV1Artifacts: the four builders
      of batch transactions (genesis, claim, top-up, refund), with their theorems.
      TxV1Commitments: what a serialization, an id and a signature hash determine.
    - Authorization ([core/src/exact-authorization.ts], [batch-presentation.ts],
      [batch-authorization.ts]): what a payer signs beside the chain transaction.  Theorems:
      AuthorizationProperties (deadlines, digests, intents as lane charges, a payer's
      exposure).
    - JsonText: the host's [JSON.parse], [String(value)], [Number(value)] and
      [Buffer.from(text, "hex")].  HashChainVerifier ([server/src/hash-chain-verifier.ts]): the
      server's check of a hash-chain payment, from the transaction's text to the outputs on
      the selected chain, with its cache of validations.  HashChainSigner
      ([client/src/hash-chain-signer.ts]): how the client builds and signs that payment.
      Theorems: HashChainPayment (what an accepted payment is, the cache, reading back),
      HashChainExchange (what the signer signs, the verifier accepts).
    - ClientStore ([client/src/types.ts] and the checks of [client/src/channel-store.ts]): the
      client's channels, funding and refund attempts and exact payment attempts.
      ClientStoreOps: the class [MemoryChannelStore], with [exec], which runs any of its
      methods as a command.  Theorems: ClientStoreSteps (an abstract machine that every call
      refines), ClientStoreInvariant (its invariant), ClientStoreProperties (guarantees on any
      run, a concrete store).

    ** How the code is represented

    A function that can throw returns a [result]; its guards and its throws are in the order
    of the code, messages included.  A store method is a function from the store to the store
    and a result, and a throw keeps what was written before it, as in the class.  JavaScript
    numbers that the code requires to be safe integers and [bigint]s are [Z] with the range
    checks written out; machine widths (64-bit amounts, 32-bit indexes, 16-bit compute
    budgets, script numbers) appear as explicit bounds.  A [Map] is a finite map, or an
    association list where its insertion order is observable.  A property that may be
    missing is a [prop], which separates absent from present-with-[undefined], since the code
    both reads and serializes such properties.  [structuredClone] is the identity: no value
    is mutated after it was stored.  SHA-256, BLAKE2b, BLAKE3, the address codec, signing and
    verification, and the readings of [Date.parse] outside the ISO form, of JSON numerals that
    are not safe integers and of [BigInt] on texts that are not decimals belong to libraries
    or to the host and are parameters; hypotheses on them (digest length, one pinned digest) are
    stated where they are used and have concrete instances.

    ** What the theorems show

    - Evidence and lineages: a decision is exactly the confirmation rule; the derived head is
      the unique result of running the canonical transitions; value is conserved; the states
      reached by successful updates are valid as long as checkpoint hashes are in lower case
      and the block of the genesis stays selected; every update is an append-only successor,
      which the extension check throws for only when a text is too long for the canonical
      encoder; reorganizations restore the head; compaction keeps the head and remembers every
      block.
    - Exact payments: the commands refine a phase machine; over any sequence of commands the
      paid-for handler starts at most once per reset, and a valid payment completes; heads
      move only along their claimed or proven successors, a claimed head only by the attempt
      that claimed it, and stay well formed.
    - Payment identifiers follow an ownership machine.
    - Batch payments: lane accounting accepts exactly the valid lanes, claims conserve value,
      commitments, vouchers and channel ids determine their fields, both packages build the
      same voucher bytes.
    - The store: on every run its budget is exact and within the configured limits, pruning
      ends and leaves replay records, channels advance by lane steps only, never rolling back
      what was charged or signed, and never share a covenant.
    - The grant issuer: its methods refine an abstract machine; a one-time key is disclosed to
      one claim only, what is disclosed opens the head it was issued for, payments on record
      were delivered and quoted, storage stays within its quota.  A transaction of the issuer
      is a state monad whose throw rolls back; a method that awaits is one step per part.
    - Batch transactions: every artifact conserves value and continues its covenant once, a
      claim artifact moves the covenant as lane accounting moves the lane, a refund is locked
      until its timeout; serializations, ids and signature hashes determine what they cover,
      unless the hash fails on the very bytes that the two transactions hash.
    - Hash-chain payments: a payment the server accepts increases the head by exactly the
      quoted amount, under the guard that the current one commits to and at the payer's
      expense, and was signed by the one-time key, by every payer input and for the request's
      terms; the cache of validations changes no outcome; what the client's signer produces
      for an advertised head the server's verifier accepts.
    - Payment authorizations: a deadline is accepted until it passes, a digest determines
      every field of what was authorized and its kind (unless SHA-256 maps the two signed
      texts to one digest), an approved batch intent is one charge of its lane,
      and over any run the payer's deposits and signatures stay within the payer's caps.
    - The client's store: funding and refund attempts on a channel exclude each other and
      stand for its head, the outcome of an exact payment is final, applying a confirmed
      transaction again changes nothing.
    - Scripts: constructor slots are the only difference to the compiled contract; the KIP-10
      parser is the inverse of the builder; the compute budget is the least sufficient one.
    - Text: decimal patterns, hexadecimal and little-endian round trips, the iterative
      resource budget equals the declarative one.
    - Six statements show where the code departs from what it means to do: compaction can
      strand a valid lineage (Compaction), an accepted update can leave an event that the
      extension check cannot write (Compaction, an Example), an upper-case checkpoint hash makes a created
      lineage invalid (LineageUpdate), an exact commit can leave a payment identifier
      reservation behind (ExactPhases), a registration under an upper-case id replaces a live
      channel (StoreProperties), a quarantine strands the open attempt of a client channel
      (ClientStoreProperties).

    ** Fuel

    Loops that are not structural carry a bound that provably suffices: the JSON pre-walk is
    bounded by the admitted node count (its equality with the declarative budget covers every
    input), the pruning loop by the length of the terminal queue, which each iteration
    shortens ([prune_exact] characterizes the result without the bound), and [JSON.parse] by
    twice the length of the text plus two, which no text exhausts ([parse_fuel_enough]).

    ** Not modelled

    - [MemoryChannelLockManager] of [stores.ts] and every other promise scheduling: store
      methods contain no suspension point, so each is one step here.
    - [server/src/direct-server.ts] and [client/src/direct-client.ts]: asynchronous
      orchestration of injected services (chain provider, funding provider, handler, fetch)
      around the stores, transitions, issuer, signer and verifier modelled here.
    - [core/src/schema-validation.ts]: the shapes of wire objects, decided by a JSON-schema
      library; [replay-identity.ts] and [security-context.ts] digest what it admits.
    - [server/src/hash-chain-rest-view.ts], [hash-chain-grants.ts], [hash-chain-grant-http.ts]:
      the REST client, the database binding and the HTTP handler of the hash-chain profile.
    - [covenant/src/exact-v0.ts] and [reproducibility.ts]: the wasm encoding of exact
      transactions and the re-verification of build artifacts.
    - AES-256-GCM sealing of the issuer's rows, the physical capacity of its database and
      cancellation signals: an aborted call is one whose remaining parts do not run.
    - Adapters, facilitator, command line, MCP and HTTP glue, the demonstration gateway, the
      web site and scripts: input and output around the modelled parts, or calls into
      third-party SDKs. *)

From Stdlib Require Export ZArith Lia Ascii String.
From stdpp Require Export base tactics numbers option list strings gmap.

Declare Scope js_scope.
Delimit Scope js_scope with js.
#[global] Open Scope Z_scope.
#[global] Open Scope js_scope.
String Notation string string_of_list_byte list_byte_of_string : js_scope.

(** ** Exceptions: [throw new Error(...)] and [throw new KaspaX402Error(...)] *)

Inductive error :=
  | Error (message : string)
  | KaspaX402Error (code message : string).

Inductive result (A : Type) :=
  | Ok (a : A)
  | Throw (e : error).
Arguments Ok {A} a.
Arguments Throw {A} e.

#[global] Instance result_ret : MRet result := fun _ a => Ok a.
#[global] Instance result_bind : MBind result := fun _ _ k m =>
  match m with Ok a => k a | Throw e => Throw e end.
#[global] Instance result_fmap : FMap result := fun _ _ f m =>
  match m with Ok a => Ok (f a) | Throw e => Throw e end.

(** [if (b) throw new Error(msg)] *)
Definition throw_if (b : bool) (msg : string) : result () :=
  if b then Throw (Error msg) else Ok tt.

(** [if (b) throw new KaspaX402Error(code, msg)] *)
Definition throw_code_if (b : bool) (code msg : string) : result () :=
  if b then Throw (KaspaX402Error code msg) else Ok tt.

(** Short-circuit [||] and [&&] whose right operand can throw. *)
Definition or_else (l : result bool) (r : result bool) : result bool :=
  b ← l; if (b : bool) then Ok true else r.
Definition and_also (l : result bool) (r : result bool) : result bool :=
  b ← l; if (b : bool) then r else Ok false.

(** [for (const x of l) body(x)], where the body can throw. *)
Fixpoint for_each {A} (f : A -> result ()) (l : list A) : result () :=
  match l with
  | [] => Ok tt
  | x :: l => f x;; for_each f l
  end.

(** A loop that threads its local variables through each iteration. *)
Fixpoint fold_result {A S} (f : S -> A -> result S) (l : list A) (s : S) : result S :=
  match l with
  | [] => Ok s
  | x :: l => s' ← f s x; fold_result f l s'
  end.

Definition is_ok {A} (m : result A) : bool :=
  match m with Ok _ => true | Throw _ => false end.

(** ** Strict equality [===] on values with decidable equality *)

Notation "a === b" := (bool_decide (a = b)) (at level 70, no associativity) : js_scope.
Notation "a !== b" := (negb (bool_decide (a = b))) (at level 70, no associativity) : js_scope.

(** ** Optional properties: missing, present with the value [undefined], or present *)

Inductive prop (A : Type) :=
  | Absent
  | Undefined
  | Present (a : A).
Arguments Absent {A}.
Arguments Undefined {A}.
Arguments Present {A} a.

(** Reading a property: a missing one reads as [undefined]. *)
Definition get {A} (p : prop A) : option A :=
  match p with Present a => Some a | _ => None end.

#[global] Instance prop_eq_dec `{EqDecision A} : EqDecision (prop A).
Proof. solve_decision. Defined.

Definition isNone {A} (o : option A) : bool :=
  match o with None => true | Some _ => false end.
Definition isSome {A} (o : option A) : bool := negb (isNone o).

(** Truthiness of an optional string ([undefined] and [""] are falsy). *)
Definition truthy (p : prop string) : bool :=
  match get p with Some s => s !== ""%string | None => false end.

(** ** Record update [{...r, f: v}] *)

Class Settable (R : Type) := rebuild : R -> R.
Class Setter {R T : Type} (proj : R -> T) := set_field : (T -> T) -> R -> R.

Ltac derive_setter :=
  lazymatch goal with
  | |- @Setter ?R ?T ?proj =>
      let inst := constr:(_ : Settable R) in
      let body := eval red in inst in
      lazymatch eval pattern proj in body with
      | ?build _ => exact (fun f r => build (fun r' => f (proj r')) r)
      end
  end.
#[global] Hint Extern 1 (Setter _) => derive_setter : typeclass_instances.

Notation "r <| proj := v |>" := (set_field (proj := proj) (fun _ => v) r)
  (at level 1, left associativity, format "r  <| proj  :=  v |>") : js_scope.

(** ** Numbers *)

Definition MAX_SAFE_INTEGER : Z := 2 ^ 53 - 1.
(** [Number.isSafeInteger] on an integral number. *)
Definition isSafeInteger (n : Z) : bool :=
  (- MAX_SAFE_INTEGER <=? n) && (n <=? MAX_SAFE_INTEGER).
Definition U32_MAX : Z := 4294967295.
Definition U64_MAX : Z := 18446744073709551615.

(** ** Strings, represented by their UTF-8 encoding *)

Fixpoint string_forall (p : ascii -> bool) (s : string) : bool :=
  match s with
  | EmptyString => true
  | String c s => p c && string_forall p s
  end.

Definition code (c : ascii) : Z := Z.of_N (N_of_ascii c).
Definition in_range (lo hi : Z) (c : ascii) : bool := (lo <=? code c) && (code c <=? hi).

Definition is_digit (c : ascii) : bool := in_range 48 57 c.
Definition is_lower_hex (c : ascii) : bool := is_digit c || in_range 97 102 c.
Definition is_hex (c : ascii) : bool := is_lower_hex c || in_range 65 70 c.

Definition lower_ascii (c : ascii) : ascii :=
  if in_range 65 90 c then ascii_of_N (Z.to_N (code c + 32)) else c.
Fixpoint toLowerCase (s : string) : string :=
  match s with
  | EmptyString => EmptyString
  | String c s => String (lower_ascii c) (toLowerCase s)
  end.

(** UTF-16 length: one unit per sequence of at most three bytes, two per sequence of four. *)
Fixpoint js_length (s : string) : Z :=
  match s with
  | EmptyString => 0
  | String c s =>
      (if in_range 128 191 c then 0 else if 240 <=? code c then 2 else 1) + js_length s
  end.

Definition byte_length (s : string) : Z := Z.of_nat (String.length s).
Arguments byte_length : simpl never.

(** [/^(?:[0-9a-fA-F]{2})+$/], [/^[0-9a-fA-F]{64}$/], [/^[0-9a-f]{64}$/], [/^0{64}$/] *)
Definition is_byte_hex (s : string) : bool :=
  string_forall is_hex s && Z.even (byte_length s) && (0 <? byte_length s).
Definition is_hash32 (s : string) : bool :=
  string_forall is_hex s && (byte_length s =? 64).
Definition is_lower_hash32 (s : string) : bool :=
  string_forall is_lower_hex s && (byte_length s =? 64).
Definition is_zero64 (s : string) : bool :=
  string_forall (in_range 48 48) s && (byte_length s =? 64).

(** Leading white space and line terminators, as [String.prototype.trim] removes them. *)
Fixpoint trim_start (fuel : nat) (l : list Z) : list Z :=
  match fuel, l with
  | S fuel, c :: rest =>
      if (9 <=? c) && (c <=? 13) || (c =? 32) then trim_start fuel rest
      else match rest with
           | d :: rest2 =>
               if (c =? 194) && (d =? 160) then trim_start fuel rest2
               else match rest2 with
                    | e :: rest3 =>
                        if (c =? 225) && (d =? 154) && (e =? 128)
                           || (c =? 226) && (d =? 128)
                              && ((128 <=? e) && (e <=? 138) || (e =? 168) || (e =? 169) || (e =? 175))
                           || (c =? 226) && (d =? 129) && (e =? 159)
                           || (c =? 227) && (d =? 128) && (e =? 128)
                           || (c =? 239) && (d =? 187) && (e =? 191)
                        then trim_start fuel rest3 else l
                    | [] => l
                    end
           | [] => l
           end
  | _, _ => l
  end.
(** [!s.trim()] *)
Definition blank (s : string) : bool :=
  match trim_start (String.length s) (code <$> list_ascii_of_string s) with
  | [] => true
  | _ => false
  end.

(** ** JavaScript [Map]: insertion-ordered, [set] on a present key keeps its place *)

Section JsMap.
Context {K V : Type} `{EqDecision K}.

Fixpoint map_get (k : K) (m : list (K * V)) : option V :=
  match m with
  | [] => None
  | (k', v) :: m => if decide (k = k') then Some v else map_get k m
  end.
Fixpoint map_set (k : K) (v : V) (m : list (K * V)) : list (K * V) :=
  match m with
  | [] => [(k, v)]
  | (k', v') :: m => if decide (k = k') then (k', v) :: m else (k', v') :: map_set k v m
  end.
Fixpoint map_delete (k : K) (m : list (K * V)) : list (K * V) :=
  match m with
  | [] => []
  | (k', v) :: m => if decide (k = k') then m else (k', v) :: map_delete k m
  end.
Definition map_has (k : K) (m : list (K * V)) : bool := isSome (map_get k m).
End JsMap.

(** * Lemmas *)

Section ResultLemmas.
Context {A B : Type}.

Lemma bind_ok (m : result A) (k : A -> result B) b :
  (x ← m; k x) = Ok b <-> exists a, m = Ok a /\ k a = Ok b.
Proof. destruct m; cbn; naive_solver. Qed.

Lemma bind_throw (m : result A) (k : A -> result B) e :
  (x ← m; k x) = Throw e <-> m = Throw e \/ exists a, m = Ok a /\ k a = Throw e.
Proof. destruct m; cbn; naive_solver. Qed.

Lemma fmap_ok (m : result A) (f : A -> B) b :
  f <$> m = Ok b <-> exists a, m = Ok a /\ b = f a.
Proof. destruct m; cbn; naive_solver. Qed.
End ResultLemmas.

Lemma Ok_inj {A} (a b : A) : Ok a = Ok b -> a = b.
Proof. congruence. Qed.

Lemma is_ok_value {A} (m : result A) : is_ok m = true -> exists a, m = Ok a.
Proof. destruct m; [eauto|done]. Qed.

Lemma throw_pass {A} b msg (k : () -> result A) r :
  b = false -> k tt = r -> (throw_if b msg ≫= k) = r.
Proof. by intros ->. Qed.
Lemma throw_if_ok b msg u : throw_if b msg = Ok u <-> b = false.
Proof. destruct b, u; cbn; naive_solver. Qed.
Lemma throw_code_if_ok b c msg u : throw_code_if b c msg = Ok u <-> b = false.
Proof. destruct b, u; cbn; naive_solver. Qed.

Lemma or_else_false l r : or_else l r = Ok false <-> l = Ok false /\ r = Ok false.
Proof. destruct l as [[]|]; cbn; naive_solver. Qed.

Lemma for_each_ok {A} (f : A -> result ()) l u :
  for_each f l = Ok u <-> Forall (fun x => f x = Ok tt) l.
Proof.
  destruct u; induction l as [|x l IH]; cbn; [by split|].
  rewrite Forall_cons, bind_ok, <- IH. split; [intros ([] & ? & ?); auto|intros [? ?]; eauto].
Qed.

Lemma fold_result_app {A S} (f : S -> A -> result S) l1 l2 s :
  fold_result f (l1 ++ l2) s = (s' ← fold_result f l1 s; fold_result f l2 s').
Proof. revert s; induction l1 as [|x l1 IH]; intros s; cbn; [done|]. destruct (f s x); cbn; auto. Qed.

(** An invariant of the loop body is one of the loop. *)
Lemma fold_result_inv {A S} (P : S -> Prop) (f : S -> A -> result S) l s s' :
  (forall t x t', x ∈ l -> P t -> f t x = Ok t' -> P t') ->
  P s -> fold_result f l s = Ok s' -> P s'.
Proof.
  revert s; induction l as [|x l IH]; intros s Hf Hs; cbn; [naive_solver|].
  rewrite bind_ok. intros (t & Ht & Hl).
  apply (IH t); [|eapply Hf; [left|done|done]|done].
  intros u y u' Hy. apply Hf. by right.
Qed.

Lemma append_cons c a b : String c a +:+ b = String c (a +:+ b).
Proof. done. Qed.
Lemma append_nil b : "" +:+ b = b.
Proof. done. Qed.
Lemma append_nil_r s : s +:+ "" = s.
Proof. induction s as [|c s IH]; [done|]. by rewrite append_cons, IH. Qed.
Lemma append_assoc a b c : (a +:+ b) +:+ c = a +:+ (b +:+ c).
Proof. induction a as [|x a IH]; [done|]. by rewrite !append_cons, IH. Qed.

Lemma string_forall_app p a b : string_forall p (a +:+ b) = string_forall p a && string_forall p b.
Proof.
  induction a as [|c a IH]; [done|].
  rewrite append_cons. cbn [string_forall]. by rewrite IH, andb_assoc.
Qed.

Lemma toLowerCase_idem s : toLowerCase (toLowerCase s) = toLowerCase s.
Proof.
  induction s as [|c s IH]; [done|]. cbn [toLowerCase]. rewrite IH. f_equal.
  destruct c as [[] [] [] [] [] [] [] []]; reflexivity.
Qed.

Lemma toLowerCase_lower s : string_forall is_lower_hex s = true -> toLowerCase s = s.
Proof.
  induction s as [|c s IH]; cbn [string_forall toLowerCase]; [done|]. intros [Hc Hs]%andb_true_iff.
  rewrite IH by done. f_equal. revert Hc. by destruct c as [[] [] [] [] [] [] [] []].
Qed.

Lemma length_append a b : String.length (a +:+ b) = (String.length a + String.length b)%nat.
Proof. induction a as [|c a IH]; [done|]. rewrite append_cons. cbn [String.length]. by rewrite IH. Qed.

Lemma byte_length_cons c s : byte_length (String c s) = 1 + byte_length s.
Proof. unfold byte_length. cbn [String.length]. lia. Qed.
Lemma byte_length_nonneg s : 0 <= byte_length s.
Proof. unfold byte_length. lia. Qed.

Lemma byte_length_append a b : byte_length (a +:+ b) = byte_length a + byte_length b.
Proof. unfold byte_length. rewrite length_append. lia. Qed.

Lemma drop_middle {A} (l : list A) x r : drop (S (length l)) (l ++ x :: r) = r.
Proof. induction l; done. Qed.

Lemma slice_app {A} (l m r : list A) n k :
  n = length l -> k = length m -> take k (drop n (l ++ m ++ r)) = m.
Proof. intros -> ->. by rewrite drop_app_length, take_app_length. Qed.

(** ** Insertion-ordered maps *)

Section JsMapLemmas.
Context {K V : Type} `{EqDecision K}.
Implicit Types (m : list (K * V)) (k : K).

Lemma map_get_None k m : map_get k m = None <-> k ∉ map fst m.
Proof.
  induction m as [|[k' v] m IH]; cbn [map_get map fst]; [split; [by intros _ ?%elem_of_nil|done]|].
  rewrite not_elem_of_cons. destruct (decide (k = k')); naive_solver.
Qed.
Lemma map_has_false k m : map_has k m = false <-> k ∉ map fst m.
Proof. rewrite <- map_get_None. unfold map_has, isSome. destruct (map_get k m); cbn; naive_solver. Qed.
Lemma map_get_app k m m' : k ∉ map fst m -> map_get k (m ++ m') = map_get k m'.
Proof.
  induction m as [|[k' v] m IH]; cbn [map_get map fst app]; [done|]. rewrite not_elem_of_cons. intros [? ?].
  by rewrite decide_False, IH.
Qed.
Lemma map_delete_app k m m' : k ∉ map fst m -> map_delete k (m ++ m') = m ++ map_delete k m'.
Proof.
  induction m as [|[k' v] m IH]; cbn [map_delete map fst app]; [done|]. rewrite not_elem_of_cons. intros [? ?].
  by rewrite decide_False, IH.
Qed.
Lemma map_set_fresh k v m : k ∉ map fst m -> map_set k v m = m ++ [(k, v)].
Proof.
  induction m as [|[k' v'] m IH]; cbn [map_set map fst app]; [done|]. rewrite not_elem_of_cons. intros [? ?].
  by rewrite decide_False, IH.
Qed.
Lemma map_set_get k k' v m : map_get k' (map_set k v m) = if decide (k' = k) then Some v else map_get k' m.
Proof.
  induction m as [|[k2 v2] m IH]; cbn [map_set map_get]; [by destruct (decide _)|].
  destruct (decide (k = k2)) as [->|]; cbn [map_get]; repeat destruct (decide _); naive_solver.
Qed.
Lemma map_delete_sub k m x : x ∈ map_delete k m -> x ∈ m.
Proof.
  induction m as [|[k' v] m IH]; cbn [map_delete]; [done|].
  destruct (decide _); rewrite !elem_of_cons; [by right|]. naive_solver.
Qed.
Lemma map_get_elem k v m : map_get k m = Some v -> (k, v) ∈ m.
Proof.
  induction m as [|[k' v'] m IH]; cbn [map_get]; [done|]. destruct (decide _) as [->|].
  - intros [= ->]. by left.
  - intros. right. auto.
Qed.
End JsMapLemmas.

(** ** Automation *)

(** Splits a successful run into the successful runs of its steps. *)
Ltac inv_result :=
  repeat match goal with
  | H : mbind _ _ = Ok _ |- _ => apply bind_ok in H as (? & ? & H)
  | H : fmap _ _ = Ok _ |- _ => apply fmap_ok in H as (? & ? & ->)
  | H : throw_if _ _ = Ok _ |- _ => apply throw_if_ok in H
  | H : throw_code_if _ _ _ = Ok _ |- _ => apply throw_code_if_ok in H
  | H : or_else _ _ = Ok false |- _ => apply or_else_false in H as [? ?]
  | H : Ok _ = Ok _ |- _ => injection H as H; try subst
  | H : Throw _ = Ok _ |- _ => discriminate H
  | H : Ok _ = Throw _ |- _ => discriminate H
  | H : mret _ = _ |- _ => unfold mret, result_ret in H
  | x : () |- _ => destruct x
  end.

(** Turns boolean guards into propositions. *)
Ltac inv_bool :=
  repeat match goal with
  | H : _ || _ = false |- _ => apply orb_false_iff in H as [? ?]
  | H : _ && _ = true |- _ => apply andb_true_iff in H as [? ?]
  | H : negb _ = false |- _ => apply negb_false_iff in H
  | H : negb _ = true |- _ => apply negb_true_iff in H
  | H : bool_decide _ = true |- _ => apply bool_decide_eq_true in H
  | H : bool_decide _ = false |- _ => apply bool_decide_eq_false in H
  | H : (_ <? _)%Z = true |- _ => apply Z.ltb_lt in H
  | H : (_ <? _)%Z = false |- _ => apply Z.ltb_ge in H
  | H : (_ <=? _)%Z = true |- _ => apply Z.leb_le in H
  | H : (_ <=? _)%Z = false |- _ => apply Z.leb_gt in H
  | H : (_ =? _)%Z = true |- _ => apply Z.eqb_eq in H
  | H : (_ =? _)%Z = false |- _ => apply Z.eqb_neq in H
  end.

Ltac inv_ok := repeat progress (inv_result; inv_bool).

(** Decides arithmetic guards of the goal from the context. *)
Ltac decide_guards :=
  repeat match goal with
  | |- context [(?a <? ?b)%Z] =>
      first [replace (a <? b)%Z with false by lia | replace (a <? b)%Z with true by lia]
  | |- context [(?a <=? ?b)%Z] =>
      first [replace (a <=? b)%Z with false by lia | replace (a <=? b)%Z with true by lia]
  | |- context [(?a =? ?b)%Z] =>
      first [replace (a =? b)%Z with false by lia | replace (a =? b)%Z with true by lia]
  end.
