(* ===== verification/Amount.v ===== *)
(** * Canonical decimal sompi amounts

    Models [protocol/packages/core/src/amount.ts] and the two decimal patterns of
    [constants.ts].  A pattern is kept as the list of its alternatives, so the
    equivalence with the numeric bound is a theorem about the regular expression
    the code tests and not about a paraphrase of it. *)

From S2P Require Import Prelude.

(** ** Decimal numerals *)

Fixpoint dec_value_acc (acc : Z) (s : string) : Z :=
  match s with
  | EmptyString => acc
  | String c s => dec_value_acc (acc * 10 + (code c - 48)) s
  end.
(** [BigInt(s)] on a string of digits. *)
Definition dec_value (s : string) : Z := dec_value_acc 0 s.
Arguments dec_value : simpl never.

Definition digit (d : Z) : ascii := ascii_of_N (Z.to_N (48 + d)).
Fixpoint dec_digits (fuel : nat) (n : Z) (acc : string) : string :=
  match fuel with
  | O => acc
  | S fuel =>
      let acc := String (digit (n mod 10)) acc in
      if n <? 10 then acc else dec_digits fuel (n / 10) acc
  end.
(** [n.toString()] on a bigint or an integral number. *)
Definition toString (n : Z) : string :=
  if n <? 0 then String "-" (dec_digits (S (Z.to_nat (Z.log2 (- n)))) (- n) "")
  else dec_digits (S (Z.to_nat (Z.log2 n))) n "".

Definition canonical_decimal (s : string) : bool :=
  match s with
  | EmptyString => false
  | String c rest => string_forall is_digit s && ((byte_length s =? 1) || negb (code c =? 48))
  end.

(** ** The anchored patterns of constants.ts: one alternative is a literal prefix, an
    optional character class, and between [low] and [high] further digits. *)

Record alternative := Alt {
  prefix : string;
  class : option (Z * Z);
  low : nat;
  high : nat
}.

Fixpoint strip (p s : string) : option string :=
  match p, s with
  | EmptyString, _ => Some s
  | String c p, String d s => if Ascii.eqb c d then strip p s else None
  | String _ _, EmptyString => None
  end.

Definition match_tail (lo hi : nat) (s : string) : bool :=
  string_forall is_digit s && (lo <=? String.length s)%nat && (String.length s <=? hi)%nat.

Definition match_alternative (a : alternative) (s : string) : bool :=
  match strip (prefix a) s with
  | None => false
  | Some rest =>
      match class a with
      | None => match_tail (low a) (high a) rest
      | Some (lo, hi) =>
          match rest with
          | EmptyString => false
          | String c rest =>
              in_range (48 + lo) (48 + hi) c && match_tail (low a) (high a) rest
          end
      end
  end.
Definition match_pattern (p : list alternative) (s : string) : bool :=
  existsb (fun a => match_alternative a s) p.

Definition fixed (p : string) (lo hi : Z) (n : nat) : alternative := Alt p (Some (lo, hi)) n n.
Definition literal (p : string) : alternative := Alt p None 0 0.

Definition U64_DECIMAL_PATTERN : list alternative := [
  literal "0";
  Alt "" (Some (1, 9)) 0 18;
  fixed "1" 0 7 18;
  fixed "18" 0 3 17;
  fixed "184" 0 3 16;
  fixed "1844" 0 5 15;
  fixed "18446" 0 6 14;
  fixed "184467" 0 3 13;
  fixed "1844674" 0 3 12;
  fixed "184467440" 0 6 10;
  fixed "1844674407" 0 2 9;
  fixed "18446744073" 0 6 8;
  fixed "1844674407370" 0 8 6;
  fixed "18446744073709" 0 4 5;
  fixed "184467440737095" 0 4 4;
  Alt "18446744073709550" None 3 3;
  fixed "18446744073709551" 0 5 2;
  Alt "1844674407370955160" None 1 1;
  fixed "1844674407370955161" 0 4 0;
  literal "18446744073709551615"].

Definition BATCH_AMOUNT_DECIMAL_PATTERN : list alternative := [
  literal "0";
  Alt "" (Some (1, 9)) 0 17;
  Alt "" (Some (1, 8)) 18 18;
  fixed "9" 0 1 17;
  fixed "92" 0 1 16;
  fixed "922" 0 2 15;
  fixed "9223" 0 2 14;
  fixed "92233" 0 6 13;
  fixed "922337" 0 1 12;
  fixed "92233720" 0 2 10;
  fixed "922337203" 0 5 9;
  fixed "9223372036" 0 7 8;
  fixed "92233720368" 0 4 7;
  fixed "922337203685" 0 3 6;
  fixed "9223372036854" 0 6 5;
  fixed "92233720368547" 0 6 4;
  fixed "922337203685477" 0 4 3;
  fixed "9223372036854775" 0 7 2;
  fixed "922337203685477580" 0 7 0].

Definition BATCH_SCRIPT_INT_MAX : Z := 9223372036854775807.

(** ** amount.ts *)

Definition isDecimalSompi (value : string) : bool := match_pattern U64_DECIMAL_PATTERN value.

Definition parseSompiString (value : string) : result Z :=
  _ ← throw_code_if (negb (isDecimalSompi value)) "invalid_kaspa_x402_amount"
        "amount must be a canonical uint64 decimal sompi string";
  Ok (dec_value value).

(** [bigint | number | string] *)
Inductive numeric :=
  | BigInt (z : Z)
  | Number (z : Z)
  | Text (s : string).

Definition numberToBigInt (value : Z) : result Z :=
  _ ← throw_code_if (negb (isSafeInteger value) || (value <? 0)) "invalid_kaspa_x402_amount"
        "number amount must be a non-negative safe integer";
  Ok value.

Definition formatSompiString (value : numeric) : result string :=
  normalized ← match value with
               | BigInt z => Ok z
               | Number z => numberToBigInt z
               | Text s => parseSompiString s
               end;
  _ ← throw_code_if ((normalized <? 0) || (U64_MAX <? normalized)) "invalid_kaspa_x402_amount"
        "amount is outside uint64 range";
  Ok (toString normalized).

(** * Numerals *)

Lemma dec_value_acc_spec s acc : dec_value_acc acc s = acc * 10 ^ byte_length s + dec_value s.
Proof.
  unfold dec_value, byte_length. revert acc; induction s as [|c s IH]; intros acc; cbn [dec_value_acc String.length].
  { rewrite Z.pow_0_r. lia. }
  rewrite IH, (IH (0 * 10 + _)), Nat2Z.inj_succ, Z.pow_succ_r by lia. ring.
Qed.

Lemma dec_value_cons c s :
  dec_value (String c s) = (code c - 48) * 10 ^ byte_length s + dec_value s.
Proof. unfold dec_value at 1; cbn. by rewrite dec_value_acc_spec. Qed.

Lemma dec_value_app a b : dec_value (a +:+ b) = dec_value a * 10 ^ byte_length b + dec_value b.
Proof.
  induction a as [|c a IH].
  { rewrite append_nil. change (dec_value "") with 0. lia. }
  rewrite append_cons, !dec_value_cons, IH.
  unfold byte_length. rewrite length_append, Nat2Z.inj_add, Z.pow_add_r by lia. ring.
Qed.

Lemma is_digit_bounds c : is_digit c = true -> 0 <= code c - 48 <= 9.
Proof. unfold is_digit, in_range. intros H; inv_bool. lia. Qed.

Lemma dec_value_bounds s : string_forall is_digit s = true -> 0 <= dec_value s < 10 ^ byte_length s.
Proof.
  unfold byte_length. induction s as [|c s IH]; cbn [string_forall String.length]; intros H.
  { change (dec_value "") with 0. cbn. lia. }
  apply andb_true_iff in H as [Hc Hs]. specialize (IH Hs). apply is_digit_bounds in Hc.
  rewrite dec_value_cons. unfold byte_length. rewrite Nat2Z.inj_succ, Z.pow_succ_r by lia. nia.
Qed.

Lemma code_inj c d : code c = code d -> c = d.
Proof.
  unfold code. intros H. apply N2Z.inj in H.
  by rewrite <- (ascii_N_embedding c), <- (ascii_N_embedding d), H.
Qed.

Lemma dec_value_inj s t :
  string_forall is_digit s = true -> string_forall is_digit t = true ->
  String.length s = String.length t -> dec_value s = dec_value t -> s = t.
Proof.
  revert t; induction s as [|c s IH]; intros [|d t]; cbn [string_forall String.length]; try done.
  intros Hs Ht [= Hl]. apply andb_true_iff in Hs as [Hc Hs], Ht as [Hd Ht].
  rewrite !dec_value_cons. unfold byte_length. rewrite Hl. intros Hv.
  pose proof (dec_value_bounds s Hs) as Bs. pose proof (dec_value_bounds t Ht) as Bt.
  unfold byte_length in *. rewrite Hl in Bs.
  assert (code c = code d) as E by nia. rewrite E in Hv.
  f_equal; [by apply code_inj|]. apply IH; try done. lia.
Qed.

Lemma code_digit d : 0 <= d < 10 -> code (digit d) = 48 + d.
Proof. unfold code, digit. intros. rewrite N_ascii_embedding; lia. Qed.

Lemma is_digit_digit d : 0 <= d < 10 -> is_digit (digit d) = true.
Proof. intros H. unfold is_digit, in_range. rewrite code_digit by done. lia. Qed.

Lemma dec_digits_spec fuel n acc :
  0 <= n < 2 ^ Z.of_nat fuel -> (0 < fuel)%nat -> exists p,
  dec_digits fuel n acc = p +:+ acc /\ string_forall is_digit p = true /\ dec_value p = n /\
  match p with EmptyString => False | String c _ => byte_length p = 1 \/ code c <> 48 end.
Proof.
  revert n acc; induction fuel as [|fuel IH]; intros n acc Hn Hf; [lia|]. cbn [dec_digits].
  pose proof (Z.mod_pos_bound n 10 ltac:(lia)) as Hm.
  destruct (n <? 10) eqn:E; inv_bool.
  - exists (String (digit (n mod 10)) ""). rewrite Z.mod_small by lia.
    cbn [string_forall]. rewrite is_digit_digit, dec_value_cons, code_digit by lia.
    change (dec_value "") with 0. change (byte_length "") with 0.
    repeat split; [lia|by left].
  - assert (n / 10 < 2 ^ Z.of_nat fuel).
    { apply Z.div_lt_upper_bound; [lia|]. rewrite Nat2Z.inj_succ, Z.pow_succ_r in Hn by lia. lia. }
    assert (fuel <> 0%nat). { intros ->. cbn in *. assert (n / 10 > 0) by (apply Z.lt_gt, Z.div_str_pos; lia). lia. }
    destruct (IH (n / 10) (String (digit (n mod 10)) acc)) as (p & -> & Hp & Hv & Hc);
      [split; [apply Z.div_pos; lia|done]|lia|].
    exists (p +:+ String (digit (n mod 10)) ""). repeat split.
    + by rewrite append_assoc.
    + rewrite string_forall_app, Hp. cbn. by rewrite is_digit_digit.
    + rewrite dec_value_app, Hv, dec_value_cons, code_digit by lia.
      change (dec_value "") with 0. change (byte_length "") with 0.
      change (byte_length (String (digit (n mod 10)) "")) with 1.
      pose proof (Z.div_mod n 10). lia.
    + destruct p as [|c p]; [done|]. rewrite append_cons. right. destruct Hc as [Hc|Hc]; [|done].
      intros Hz. assert (p = "") as -> by (destruct p; [done|unfold byte_length in Hc; cbn in Hc; lia]).
      rewrite dec_value_cons in Hv. change (dec_value "") with 0 in Hv. change (byte_length "") with 0 in Hv.
      assert (0 < n / 10) by (apply Z.div_str_pos; lia). lia.
Qed.

Lemma toString_spec n : 0 <= n -> canonical_decimal (toString n) = true /\ dec_value (toString n) = n.
Proof.
  intros Hn. unfold toString. destruct (n <? 0) eqn:E; inv_bool; [lia|].
  destruct (dec_digits_spec (S (Z.to_nat (Z.log2 n))) n "") as (p & -> & Hp & Hv & Hc); [|lia|].
  { rewrite Nat2Z.inj_succ, Z2Nat.id by apply Z.log2_nonneg.
    destruct (decide (n = 0)) as [->|]; [done|]. pose proof (Z.log2_spec n). lia. }
  rewrite append_nil_r. split; [|done]. destruct p as [|c p]; [done|].
  unfold canonical_decimal. rewrite Hp. cbn [andb]. destruct Hc as [->|Hc]; [done|].
  apply Z.eqb_neq in Hc. rewrite Hc. apply orb_true_r.
Qed.

Lemma canonical_digits s : canonical_decimal s = true -> string_forall is_digit s = true.
Proof. destruct s; [done|]. unfold canonical_decimal. intros H. by apply andb_true_iff in H as [? _]. Qed.

Lemma canonical_lower s :
  canonical_decimal s = true -> s <> "0" -> 10 ^ (byte_length s - 1) <= dec_value s.
Proof.
  destruct s as [|c s]; [done|]. unfold canonical_decimal. intros H Hne.
  apply andb_true_iff in H as [Hd Hc]. cbn in Hd. apply andb_true_iff in Hd as [Hdc Hds].
  pose proof (dec_value_bounds s Hds). apply is_digit_bounds in Hdc.
  rewrite dec_value_cons. unfold byte_length in *. cbn [String.length] in *.
  replace (Z.of_nat (S (String.length s)) - 1) with (Z.of_nat (String.length s)) by lia.
  assert (code c <> 48) as Hnz; [|nia].
  intros E. apply orb_true_iff in Hc as [Hc|Hc]; inv_bool; [|done].
  destruct s; [|cbn in Hc; lia]. apply Hne. f_equal. by apply code_inj.
Qed.

(** A canonical numeral is determined by its value. *)
Lemma canonical_inj s t :
  canonical_decimal s = true -> canonical_decimal t = true -> dec_value s = dec_value t -> s = t.
Proof.
  intros Hs Ht Hv.
  pose proof (dec_value_bounds s (canonical_digits s Hs)) as Bs.
  pose proof (dec_value_bounds t (canonical_digits t Ht)) as Bt.
  assert (forall x, canonical_decimal x = true -> dec_value x = 0 -> x = "0") as Hz.
  { intros x Hx Hx0. destruct (decide (x = "0")) as [|Hne]; [done|].
    pose proof (canonical_lower x Hx Hne). pose proof (Z.pow_pos_nonneg 10 (byte_length x - 1)).
    destruct x; [done|]. unfold byte_length in *. cbn [String.length] in *. lia. }
  destruct (decide (s = "0")) as [->|Hs0]; [symmetry; apply Hz; done|].
  destruct (decide (t = "0")) as [->|Ht0]; [by apply Hz|].
  pose proof (canonical_lower s Hs Hs0). pose proof (canonical_lower t Ht Ht0).
  apply dec_value_inj; auto using canonical_digits.
  unfold byte_length in *.
  assert (Z.of_nat (String.length s) - 1 < Z.of_nat (String.length t)) by (apply (Z.pow_lt_mono_r_iff 10); lia).
  assert (Z.of_nat (String.length t) - 1 < Z.of_nat (String.length s)) by (apply (Z.pow_lt_mono_r_iff 10); lia).
  lia.
Qed.

Lemma toString_inj n m : 0 <= n -> 0 <= m -> toString n = toString m -> n = m.
Proof.
  intros Hn Hm E. rewrite <- (proj2 (toString_spec n Hn)), <- (proj2 (toString_spec m Hm)). by rewrite E.
Qed.

(** * Patterns as intervals *)

(** Number of fixed positions of an alternative and the interval of their values. *)
Definition width (a : alternative) : Z :=
  byte_length (prefix a) + match class a with Some _ => 1 | None => 0 end.
Definition floor (a : alternative) : Z :=
  match class a with Some (lo, _) => dec_value (prefix a) * 10 + lo | None => dec_value (prefix a) end.
Definition ceiling (a : alternative) : Z :=
  match class a with Some (_, hi) => dec_value (prefix a) * 10 + hi + 1 | None => dec_value (prefix a) + 1 end.
Definition well_formed (a : alternative) : bool :=
  string_forall is_digit (prefix a) &&
  match class a with Some (lo, hi) => (0 <=? lo) && (hi <=? 9) | None => true end.

(** What an alternative says of a string of [n] digits with value [v]. *)
Definition covers (a : alternative) (n v : Z) : bool :=
  let k := n - width a in
  (Z.of_nat (low a) <=? k) && (k <=? Z.of_nat (high a)) &&
  (floor a * 10 ^ k <=? v) && (v <? ceiling a * 10 ^ k).

Lemma strip_spec p s r : strip p s = Some r <-> s = p +:+ r.
Proof.
  revert s; induction p as [|c p IH]; intros s.
  { rewrite append_nil. cbn. naive_solver. }
  rewrite append_cons. destruct s as [|d s]; cbn; [done|].
  destruct (Ascii.eqb_spec c d) as [->|Hne]; [|naive_solver].
  rewrite IH. split; [by intros ->|by intros [= ->]].
Qed.

Lemma string_split n s :
  (n <= String.length s)%nat -> exists x r, s = x +:+ r /\ String.length x = n.
Proof.
  revert s; induction n as [|n IH]; intros s Hn; [by exists "", s|].
  destruct s as [|c s]; cbn in Hn; [lia|].
  destruct (IH s) as (x & r & -> & <-); [lia|]. by exists (String c x), r.
Qed.

Lemma match_tail_spec lo hi s :
  match_tail lo hi s = true <->
  string_forall is_digit s = true /\ Z.of_nat lo <= byte_length s <= Z.of_nat hi.
Proof.
  unfold match_tail, byte_length. rewrite !andb_true_iff, !Nat.leb_le.
  split; [intros [[? ?] ?]|intros [? ?]]; repeat split; try done; lia.
Qed.

(** The digits of [s] after a prefix of known width pin the value of that prefix. *)
Lemma prefix_value x r f c :
  string_forall is_digit r = true ->
  f * 10 ^ byte_length r <= dec_value (x +:+ r) < c * 10 ^ byte_length r ->
  f <= dec_value x < c.
Proof.
  rewrite dec_value_app. intros Hr Hv. apply dec_value_bounds in Hr.
  split; [|nia]. destruct (decide (f <= dec_value x)); [done|]. nia.
Qed.

Lemma match_alternative_spec a s :
  well_formed a = true ->
  match_alternative a s = string_forall is_digit s && covers a (byte_length s) (dec_value s).
Proof.
  unfold well_formed, match_alternative, covers, width, floor, ceiling.
  destruct a as [p cl lo hi]; cbn. intros Hwf. apply andb_true_iff in Hwf as [Hp Hcl].
  apply eq_true_iff_eq. rewrite !andb_true_iff, !Z.leb_le, Z.ltb_lt.
  destruct cl as [[l h]|].
  - split.
    + destruct (strip p s) as [[|c rest]|] eqn:E; [done| |done]. apply strip_spec in E as ->.
      rewrite andb_true_iff, match_tail_spec. intros [Hc [Hr Hb]].
      unfold in_range in Hc. inv_bool.
      rewrite string_forall_app, byte_length_append, dec_value_app, dec_value_cons, Hp. cbn [string_forall].
      pose proof (dec_value_bounds rest Hr) as B.
      rewrite byte_length_cons.
      replace (byte_length p + (1 + byte_length rest) - (byte_length p + 1)) with (byte_length rest) by lia.
      rewrite Z.pow_add_r by (unfold byte_length; lia). rewrite Hr.
      assert (is_digit c = true) as -> by (unfold is_digit, in_range; lia).
      repeat split; try done; try lia; nia.
    + intros (Hd & ((Hlo & Hhi) & Hf) & Hc).
      destruct (string_split (String.length p) s) as (x & r & -> & Hx);
        [unfold byte_length in *; lia|].
      rewrite byte_length_append in *. rewrite string_forall_app in Hd. apply andb_true_iff in Hd as [Hdx Hdr].
      assert (byte_length x = byte_length p) as Hxp by (unfold byte_length; lia). rewrite Hxp in *.
      destruct r as [|c r]; [change (byte_length "") with 0 in *; lia|].
      cbn [string_forall] in Hdr. apply andb_true_iff in Hdr as [Hdc Hdr].
      rewrite byte_length_cons in *. replace (byte_length p + (1 + byte_length r) - (byte_length p + 1)) with (byte_length r) in * by lia.
      change (String c r) with (String c "" +:+ r) in Hf, Hc. rewrite <- append_assoc in Hf, Hc.
      pose proof (prefix_value (x +:+ String c "") r _ _ Hdr (conj Hf Hc)) as Hv.
      rewrite dec_value_app, dec_value_cons in Hv. change (dec_value "") with 0 in Hv.
      change (10 ^ byte_length (String c "")) with 10 in Hv. change (10 ^ byte_length "") with 1 in Hv.
      apply is_digit_bounds in Hdc. inv_bool.
      assert (x = p) as -> by (apply dec_value_inj; try done; lia).
      rewrite (proj2 (strip_spec p _ (String c r)) eq_refl), andb_true_iff, match_tail_spec.
      unfold in_range. repeat split; try done; lia.
  - split.
    + destruct (strip p s) as [rest|] eqn:E; [|done]. apply strip_spec in E as ->.
      rewrite match_tail_spec. intros [Hr Hb].
      rewrite string_forall_app, byte_length_append, dec_value_app, Hp, Hr.
      pose proof (dec_value_bounds rest Hr) as B.
      replace (byte_length p + byte_length rest - (byte_length p + 0)) with (byte_length rest) by lia.
      repeat split; try lia; nia.
    + intros (Hd & ((Hlo & Hhi) & Hf) & Hc).
      destruct (string_split (String.length p) s) as (x & r & -> & Hx);
        [unfold byte_length in *; lia|].
      rewrite byte_length_append in *. rewrite string_forall_app in Hd. apply andb_true_iff in Hd as [Hdx Hdr].
      assert (byte_length x = byte_length p) as Hxp by (unfold byte_length; lia). rewrite Hxp in *.
      replace (byte_length p + byte_length r - (byte_length p + 0)) with (byte_length r) in * by lia.
      pose proof (prefix_value x r _ _ Hdr (conj Hf Hc)) as Hv.
      assert (x = p) as -> by (apply dec_value_inj; try done; lia).
      rewrite (proj2 (strip_spec p _ r) eq_refl), match_tail_spec. repeat split; try done; lia.
Qed.

Lemma match_pattern_spec p s :
  forallb well_formed p = true ->
  match_pattern p s =
  string_forall is_digit s && existsb (fun a => covers a (byte_length s) (dec_value s)) p.
Proof.
  unfold match_pattern. induction p as [|a p IH]; cbn; intros H; [by rewrite andb_false_r|].
  apply andb_true_iff in H as [Ha Hp]. rewrite IH, match_alternative_spec by done.
  by destruct (string_forall is_digit s), (covers a _ _).
Qed.

Lemma covers_long p N n v :
  forallb (fun a => width a + Z.of_nat (high a) <=? N) p = true -> N < n ->
  existsb (fun a => covers a n v) p = false.
Proof.
  induction p as [|a p IH]; cbn; [done|]. intros H Hn. apply andb_true_iff in H as [Ha Hp].
  rewrite (IH Hp Hn). unfold covers. inv_bool.
  destruct (n - width a <=? Z.of_nat (high a)) eqn:E; inv_bool; [lia|]. by rewrite andb_false_r.
Qed.

Lemma canonical_iff s :
  canonical_decimal s =
  string_forall is_digit s && (1 <=? byte_length s) &&
  ((byte_length s =? 1) || (10 ^ (byte_length s - 1) <=? dec_value s)).
Proof.
  destruct (canonical_decimal s) eqn:E; symmetry.
  - rewrite (canonical_digits s E).
    assert (1 <= byte_length s) by (destruct s; [done|rewrite byte_length_cons; pose proof (byte_length_nonneg s); lia]).
    destruct (decide (s = "0")) as [->|Hne]; [done|].
    pose proof (canonical_lower s E Hne). rewrite !andb_true_iff, orb_true_iff. lia.
  - apply not_true_iff_false. rewrite !andb_true_iff, orb_true_iff. intros [[Hd Hl] Hv].
    destruct s as [|c s]; [done|]. unfold canonical_decimal in E. rewrite Hd in E. cbn [andb] in E.
    apply orb_false_iff in E as [E1 E2]. inv_bool.
    destruct Hv as [Hv|Hv]; inv_bool; [done|].
    cbn [string_forall] in Hd. apply andb_true_iff in Hd as [_ Hd].
    pose proof (dec_value_bounds s Hd). rewrite dec_value_cons in Hv.
    unfold byte_length in *. cbn [String.length] in *.
    replace (Z.of_nat (S (String.length s)) - 1) with (Z.of_nat (String.length s)) in Hv by lia. lia.
Qed.

(** The intervals a pattern covers among the strings of [n] digits. *)
Definition intervals (p : list alternative) (n : Z) : list (Z * Z) :=
  (fun a => (floor a * 10 ^ (n - width a), ceiling a * 10 ^ (n - width a))) <$>
  filter (fun a => Z.of_nat (low a) <= n - width a <= Z.of_nat (high a)) p.

Lemma covers_intervals p n v :
  existsb (fun a => covers a n v) p =
  existsb (fun '(f, c) => (f <=? v) && (v <? c)) (intervals p n).
Proof.
  unfold intervals. induction p as [|a p IH]; [done|]. rewrite filter_cons. cbn [existsb].
  rewrite IH. unfold covers at 1. case_decide as Hd.
  - rewrite fmap_cons. cbn [existsb]. f_equal.
    rewrite (proj2 (Z.leb_le _ _) (proj1 Hd)), (proj2 (Z.leb_le _ _) (proj2 Hd)). done.
  - destruct (Z.of_nat (low a) <=? n - width a) eqn:E1, (n - width a <=? Z.of_nat (high a)) eqn:E2;
      inv_bool; try done. by destruct Hd.
Qed.

(** Splits a bounded integer into its values. *)
Ltac split_upto n k :=
  lazymatch k with
  | 0 => assert (n = 0) by lia
  | _ => let k' := eval vm_compute in (k - 1) in
         destruct (decide (n = k)); [|split_upto n k']
  end.

Ltac decide_interval :=
  match goal with
  | E : ?n = ?k |- context [intervals ?p ?n] =>
      rewrite E in *;
      let l := eval vm_compute in (intervals p k) in change (intervals p k) with l;
      let m := eval vm_compute in (10 ^ k) in change (10 ^ k) with m in *;
      let m := eval vm_compute in (10 ^ (k - 1)) in change (10 ^ (k - 1)) with m in *;
      cbn [existsb]; lia
  end.

Lemma u64_intervals n v :
  0 <= n -> 0 <= v < 10 ^ n ->
  existsb (fun a => covers a n v) U64_DECIMAL_PATTERN =
  (1 <=? n) && ((n =? 1) || (10 ^ (n - 1) <=? v)) && (v <=? U64_MAX).
Proof.
  intros Hn Hv. destruct (decide (20 < n)) as [Hl|Hl].
  - rewrite (covers_long _ 20) by done. symmetry. unfold U64_MAX.
    assert (10 ^ 20 <= 10 ^ (n - 1)) by (apply Z.pow_le_mono_r; lia).
    change (10 ^ 20) with 100000000000000000000 in *. lia.
  - rewrite covers_intervals. unfold U64_MAX. split_upto n 20; decide_interval.
Qed.

Lemma batch_intervals n v :
  0 <= n -> 0 <= v < 10 ^ n ->
  existsb (fun a => covers a n v) BATCH_AMOUNT_DECIMAL_PATTERN =
  (1 <=? n) && ((n =? 1) || (10 ^ (n - 1) <=? v)) && (v <=? BATCH_SCRIPT_INT_MAX).
Proof.
  intros Hn Hv. destruct (decide (19 < n)) as [Hl|Hl].
  - rewrite (covers_long _ 19) by done. symmetry. unfold BATCH_SCRIPT_INT_MAX.
    assert (10 ^ 19 <= 10 ^ (n - 1)) by (apply Z.pow_le_mono_r; lia).
    change (10 ^ 19) with 10000000000000000000 in *. lia.
  - rewrite covers_intervals. unfold BATCH_SCRIPT_INT_MAX. split_upto n 19; decide_interval.
Qed.

Lemma pattern_canonical p max s :
  forallb well_formed p = true ->
  (forall n v, 0 <= n -> 0 <= v < 10 ^ n ->
     existsb (fun a => covers a n v) p = (1 <=? n) && ((n =? 1) || (10 ^ (n - 1) <=? v)) && (v <=? max)) ->
  match_pattern p s = canonical_decimal s && (dec_value s <=? max).
Proof.
  intros Hp Hi. rewrite match_pattern_spec, canonical_iff by done.
  destruct (string_forall is_digit s) eqn:E; [|done].
  rewrite Hi by auto using dec_value_bounds, byte_length_nonneg. by rewrite !andb_true_l.
Qed.

Lemma isDecimalSompi_iff s : isDecimalSompi s = canonical_decimal s && (dec_value s <=? U64_MAX).
Proof. apply pattern_canonical; [done|]. apply u64_intervals. Qed.

Lemma canonical_toString s : canonical_decimal s = true -> toString (dec_value s) = s.
Proof.
  intros Hs. pose proof (dec_value_bounds s (canonical_digits s Hs)).
  destruct (toString_spec (dec_value s)); [lia|]. by apply canonical_inj.
Qed.

(** [parseSompiString] is the inverse of [toString] on the 64-bit range. *)
Lemma parse_ok s n : parseSompiString s = Ok n <-> s = toString n /\ 0 <= n <= U64_MAX.
Proof.
  unfold parseSompiString. rewrite isDecimalSompi_iff. split.
  - intros H. inv_ok. pose proof (dec_value_bounds s ltac:(by apply canonical_digits)).
    rewrite canonical_toString by done. split; [done|lia].
  - intros [-> Hn]. destruct (toString_spec n) as [Hc Hv]; [lia|]. rewrite Hc, Hv.
    rewrite (proj2 (Z.leb_le _ _)) by lia. done.
Qed.

Lemma parse_toString n : 0 <= n <= U64_MAX -> parseSompiString (toString n) = Ok n.
Proof. intros. by apply parse_ok. Qed.

Lemma parse_throws s e :
  parseSompiString s = Throw e ->
  e = KaspaX402Error "invalid_kaspa_x402_amount" "amount must be a canonical uint64 decimal sompi string".
Proof. unfold parseSompiString. destruct (negb _); cbn; congruence. Qed.

Create HintDb amounts.
#[export] Hint Resolve parse_toString : amounts.

(** * Properties *)

(** The two anchored alternations of constants.ts accept exactly the
    canonical decimal numerals (no sign, no leading zero) up to 2^64-1 and up to the
    SilverScript bound 2^63-1, although neither mentions a number. *)
Theorem decimal_patterns_exact s :
  match_pattern U64_DECIMAL_PATTERN s = canonical_decimal s && (dec_value s <=? U64_MAX) /\
  match_pattern BATCH_AMOUNT_DECIMAL_PATTERN s = canonical_decimal s && (dec_value s <=? BATCH_SCRIPT_INT_MAX).
Proof. split; apply pattern_canonical; auto using u64_intervals, batch_intervals. Qed.

(** Formatting is total on the 64-bit range and parsing inverts it in both
    directions; outside the range formatting throws, and a number is formatted only when
    it is a non-negative safe integer. *)
Theorem sompi_roundtrip z s :
  (formatSompiString (BigInt z) = Ok s <-> parseSompiString s = Ok z) /\
  (formatSompiString (Number z) = Ok s <-> parseSompiString s = Ok z /\ z <= MAX_SAFE_INTEGER) /\
  (formatSompiString (Text s) = Ok s <-> exists n, parseSompiString s = Ok n).
Proof.
  unfold formatSompiString, numberToBigInt, isSafeInteger, MAX_SAFE_INTEGER. setoid_rewrite parse_ok.
  change (2 ^ 53 - 1) with 9007199254740991. unfold U64_MAX.
  split; [|split]; split; intros H.
  - inv_ok. split; [done|lia].
  - destruct H as [-> ?]. cbn. decide_guards. done.
  - inv_ok. split; [split; [done|lia]|lia].
  - destruct H as [[-> ?] ?]. cbn. decide_guards. cbn. decide_guards. done.
  - inv_ok. eexists. by apply parse_ok.
  - destruct H as [n [-> Hn]]. cbn. rewrite parse_toString by (unfold U64_MAX; lia).
    cbn. decide_guards. done.
Qed.
