(* ===== verification/BatchLane.v ===== *)
(** * Batch lane accounting

    Models [protocol/packages/core/src/batch-lane.ts]: the four cumulative amounts of a
    payment lane, the checks that derive its accounting, the voucher a request needs, the
    reserve check and the effect of an on-chain claim.  [Lane] is the abstract contract:
    four integers and their invariant; the code is shown to refine it. *)

From S2P Require Import Prelude Amount.

Record BatchLaneState := {
  fundingAmount : string;
  chargedCumulativeAmount : string;
  claimedCumulativeAmount : string;
  signedMaxClaimable : string
}.

Record BatchLaneAccounting := {
  acc_fundingAmount : Z;
  acc_chargedCumulativeAmount : Z;
  acc_claimedCumulativeAmount : Z;
  acc_signedMaxClaimable : Z;
  activeChargedAmount : Z;
  remainingAuthorizedAmount : Z
}.

(** [throw amountError(message)] *)
Definition amountError_if (b : bool) (message : string) : result () :=
  throw_code_if b "invalid_kaspa_x402_amount" message.

Definition parseBatchLaneAmount (value label : string) : result Z :=
  parsed ← parseSompiString value;
  _ ← throw_code_if (BATCH_SCRIPT_INT_MAX <? parsed) "invalid_kaspa_x402_amount"
        (label +:+ " exceeds the batch covenant signed-int64 range");
  Ok parsed.

Definition batchLaneAccounting (state : BatchLaneState) : result BatchLaneAccounting :=
  funding ← parseBatchLaneAmount (fundingAmount state) "funding amount";
  charged ← parseBatchLaneAmount (chargedCumulativeAmount state) "charged cumulative amount";
  claimed ← parseBatchLaneAmount (claimedCumulativeAmount state) "claimed cumulative amount";
  signed ← parseBatchLaneAmount (signedMaxClaimable state) "signed cumulative ceiling";
  _ ← amountError_if (charged <? claimed)
        "claimed cumulative amount cannot exceed charged cumulative amount";
  _ ← amountError_if (signed <? charged)
        "charged cumulative amount cannot exceed the signed cumulative ceiling";
  _ ← amountError_if (funding <? charged - claimed)
        "unsettled charges cannot exceed the active covenant value";
  _ ← amountError_if (funding <? signed - claimed)
        "remaining voucher authorization cannot exceed the active covenant value";
  Ok {| acc_fundingAmount := funding;
        acc_chargedCumulativeAmount := charged;
        acc_claimedCumulativeAmount := claimed;
        acc_signedMaxClaimable := signed;
        activeChargedAmount := charged - claimed;
        remainingAuthorizedAmount := signed - claimed |}.

Definition requiredBatchVoucherAmount (state : BatchLaneState) (maximumNewCharge : string) : result string :=
  accounting ← batchLaneAccounting state;
  maximumCharge ← parseBatchLaneAmount maximumNewCharge "maximum new charge";
  let required := acc_chargedCumulativeAmount accounting + maximumCharge in
  _ ← amountError_if (BATCH_SCRIPT_INT_MAX <? required)
        "required voucher ceiling exceeds the batch covenant signed-int64 range";
  _ ← amountError_if
        (negb (acc_signedMaxClaimable accounting =? acc_chargedCumulativeAmount accounting) &&
         negb (acc_signedMaxClaimable accounting =? required))
        "existing voucher authorization does not match the current or requested fixed cumulative charge";
  _ ← amountError_if (acc_fundingAmount accounting <? required - acc_claimedCumulativeAmount accounting)
        "required voucher authorization exceeds the active covenant value";
  Ok (toString required).

Definition assertBatchVoucherReserve (state : BatchLaneState) (reserveAmount : string) : result () :=
  accounting ← batchLaneAccounting state;
  reserve ← parseBatchLaneAmount reserveAmount "batch reserve";
  amountError_if (acc_fundingAmount accounting <? remainingAuthorizedAmount accounting + reserve)
    "remaining voucher authorization plus reserve cannot exceed the active covenant value".

Definition applyBatchClaimAccounting (state : BatchLaneState) (claimAmount : string) : result BatchLaneState :=
  accounting ← batchLaneAccounting state;
  claim ← parseBatchLaneAmount claimAmount "claim amount";
  _ ← amountError_if (claim =? 0) "claim amount must be positive";
  _ ← amountError_if (activeChargedAmount accounting <? claim)
        "claim amount cannot exceed unsettled actual charges";
  _ ← amountError_if (remainingAuthorizedAmount accounting <? claim)
        "claim amount cannot exceed remaining voucher authorization";
  _ ← amountError_if (acc_fundingAmount accounting <=? claim)
        "claim must leave a positive covenant successor";
  Ok {| fundingAmount := toString (acc_fundingAmount accounting - claim);
        chargedCumulativeAmount := toString (acc_chargedCumulativeAmount accounting);
        claimedCumulativeAmount := toString (acc_claimedCumulativeAmount accounting + claim);
        signedMaxClaimable := toString (acc_signedMaxClaimable accounting) |}.

(** ** The abstract lane *)

Module Lane.

Record t := Make { funding : Z; charged : Z; claimed : Z; signed : Z }.

(** The contract: claimed <= charged <= signed, and the covenant covers what is authorized
    and not yet claimed. *)
Definition valid (l : t) : Prop :=
  0 <= claimed l <= charged l /\ charged l <= signed l <= BATCH_SCRIPT_INT_MAX /\
  signed l - claimed l <= funding l <= BATCH_SCRIPT_INT_MAX.

#[global] Instance valid_dec l : Decision (valid l).
Proof. unfold valid. apply _. Defined.

(** The wire form: four canonical decimal strings. *)
Definition encode (l : t) : BatchLaneState :=
  {| fundingAmount := toString (funding l);
     chargedCumulativeAmount := toString (charged l);
     claimedCumulativeAmount := toString (claimed l);
     signedMaxClaimable := toString (signed l) |}.

Definition claim (l : t) (c : Z) : t := Make (funding l - c) (charged l) (claimed l + c) (signed l).
Definition claimable (l : t) (c : Z) : Prop := 0 < c <= charged l - claimed l /\ c < funding l.
#[global] Instance claimable_dec l c : Decision (claimable l c).
Proof. unfold claimable. apply _. Defined.

(** The buyer signs, and the server charges, exactly the next cumulative amount. *)
Definition charge (l : t) (c : Z) : t := Make (funding l) (charged l + c) (claimed l) (charged l + c).
Definition chargeable (l : t) (c : Z) : Prop :=
  0 <= c /\ charged l + c <= BATCH_SCRIPT_INT_MAX /\ charged l + c - claimed l <= funding l /\
  (signed l = charged l \/ signed l = charged l + c).
#[global] Instance chargeable_dec l c : Decision (chargeable l c).
Proof. unfold chargeable. apply _. Defined.

(** Value accounting of a whole history of claims. *)
Inductive claims : t -> list Z -> t -> Prop :=
  | claims_nil l : claims l [] l
  | claims_cons l c cs l' : claimable l c -> claims (claim l c) cs l' -> claims l (c :: cs) l'.

End Lane.

(** Applies a sequence of claims with the code's function. *)
Definition apply_claims (state : BatchLaneState) (amounts : list string) : result BatchLaneState :=
  fold_result applyBatchClaimAccounting amounts state.

(** * Lemmas *)

Lemma amountError_if_ok b m u : amountError_if b m = Ok u <-> b = false.
Proof. apply throw_code_if_ok. Qed.

Ltac inv_lane := repeat (progress inv_ok ||
  match goal with H : amountError_if _ _ = Ok _ |- _ => apply amountError_if_ok in H end).

Lemma parse_lane_ok s label n :
  parseBatchLaneAmount s label = Ok n <-> s = toString n /\ 0 <= n <= BATCH_SCRIPT_INT_MAX.
Proof.
  unfold parseBatchLaneAmount. split.
  - intros H. inv_ok. apply parse_ok in H0 as [-> ?]. by split; [|lia].
  - intros [-> Hn]. rewrite parse_toString by (unfold U64_MAX, BATCH_SCRIPT_INT_MAX in *; lia).
    cbn. decide_guards. done.
Qed.

Lemma parse_lane_toString n label :
  0 <= n <= BATCH_SCRIPT_INT_MAX -> parseBatchLaneAmount (toString n) label = Ok n.
Proof. intros. by apply parse_lane_ok. Qed.

Lemma parse_lane_toString_big n label e :
  0 <= n -> parseBatchLaneAmount (toString n) label = Throw e -> BATCH_SCRIPT_INT_MAX < n.
Proof.
  intros Hn H. destruct (decide (n <= BATCH_SCRIPT_INT_MAX)); [|lia].
  rewrite parse_lane_toString in H by lia. done.
Qed.
#[export] Hint Resolve parse_lane_toString : amounts.

Definition accounting_of (l : Lane.t) : BatchLaneAccounting :=
  {| acc_fundingAmount := Lane.funding l; acc_chargedCumulativeAmount := Lane.charged l;
     acc_claimedCumulativeAmount := Lane.claimed l; acc_signedMaxClaimable := Lane.signed l;
     activeChargedAmount := Lane.charged l - Lane.claimed l;
     remainingAuthorizedAmount := Lane.signed l - Lane.claimed l |}.

Lemma accounting_encode l : Lane.valid l -> batchLaneAccounting (Lane.encode l) = Ok (accounting_of l).
Proof.
  unfold Lane.valid, batchLaneAccounting. destruct l as [f c s t]; cbn. intros H.
  rewrite !parse_lane_toString by lia. cbn. unfold amountError_if. decide_guards. done.
Qed.

(** The accounting accepts exactly the encodings of valid lanes. *)
Lemma accounting_ok st acc :
  batchLaneAccounting st = Ok acc <-> exists l, Lane.valid l /\ st = Lane.encode l /\ acc = accounting_of l.
Proof.
  split.
  - unfold batchLaneAccounting. destruct st as [f c s t]; cbn. intros H. inv_lane.
    repeat match goal with H : parseBatchLaneAmount _ _ = Ok _ |- _ => apply parse_lane_ok in H as [-> ?] end.
    eexists (Lane.Make _ _ _ _). unfold Lane.valid, Lane.encode, accounting_of. cbn.
    split; [|split; reflexivity]. lia.
  - intros (l & Hl & -> & ->). by apply accounting_encode.
Qed.

Lemma encode_inj l l' : Lane.valid l -> Lane.valid l' -> Lane.encode l = Lane.encode l' -> l = l'.
Proof.
  unfold Lane.valid. destruct l, l'; cbn. unfold Lane.encode; cbn. intros H H' [= E1 E2 E3 E4].
  apply toString_inj in E1, E2, E3, E4; try lia. by subst.
Qed.

Lemma claim_valid l c : Lane.valid l -> Lane.claimable l c -> Lane.valid (Lane.claim l c).
Proof. unfold Lane.valid, Lane.claimable, Lane.claim; cbn. lia. Qed.

Lemma charge_valid l c : Lane.valid l -> Lane.chargeable l c -> Lane.valid (Lane.charge l c).
Proof. unfold Lane.valid, Lane.chargeable, Lane.charge; cbn. lia. Qed.

Lemma apply_claim_encode l c :
  Lane.valid l -> 0 <= c <= BATCH_SCRIPT_INT_MAX ->
  match applyBatchClaimAccounting (Lane.encode l) (toString c) with
  | Ok st => Lane.claimable l c /\ st = Lane.encode (Lane.claim l c)
  | Throw _ => ~ Lane.claimable l c
  end.
Proof.
  intros Hl Hc. unfold applyBatchClaimAccounting, Lane.claimable.
  rewrite accounting_encode by done. cbn. rewrite parse_lane_toString by done. cbn.
  unfold amountError_if, throw_code_if, Lane.valid in *.
  repeat match goal with |- context [if ?b then _ else _] => destruct b eqn:?; cbn end; inv_bool; try lia.
  split; [lia|]. reflexivity.
Qed.

Lemma apply_claim_ok st a st' :
  applyBatchClaimAccounting st a = Ok st' <->
  exists l c, Lane.valid l /\ st = Lane.encode l /\ a = toString c /\
    Lane.claimable l c /\ st' = Lane.encode (Lane.claim l c).
Proof.
  split.
  - intros H. pose proof H as H'. unfold applyBatchClaimAccounting in H'. inv_lane.
    apply accounting_ok in H0 as (l & Hl & -> & ->). apply parse_lane_ok in H1 as [-> Hc].
    pose proof (apply_claim_encode l x0 Hl Hc) as Ha. rewrite H in Ha.
    exists l, x0. naive_solver.
  - intros (l & c & Hl & -> & -> & Hc & ->).
    pose proof (apply_claim_encode l c Hl) as Ha. unfold Lane.claimable, Lane.valid in *.
    specialize (Ha ltac:(lia)). destruct (applyBatchClaimAccounting _ _); naive_solver.
Qed.

Lemma claims_conserve l cs l' :
  Lane.claims l cs l' -> Lane.valid l ->
  Lane.valid l' /\ Lane.funding l' + foldr Z.add 0 cs = Lane.funding l /\
  Lane.claimed l' = Lane.claimed l + foldr Z.add 0 cs /\
  Lane.charged l' = Lane.charged l /\ Lane.signed l' = Lane.signed l.
Proof.
  induction 1 as [l|l c cs l' Hc _ IH]; intros Hl; cbn [foldr]; [repeat split; try apply Hl; lia|].
  destruct (IH (claim_valid l c Hl Hc)) as (? & ? & ? & ? & ?). cbn in *. repeat split; try lia; apply H.
Qed.

Lemma accounting_throws st e :
  batchLaneAccounting st = Throw e -> exists m, e = KaspaX402Error "invalid_kaspa_x402_amount" m.
Proof.
  assert (forall s label e, parseBatchLaneAmount s label = Throw e ->
    exists m, e = KaspaX402Error "invalid_kaspa_x402_amount" m) as Hp.
  { unfold parseBatchLaneAmount. intros s label e'. rewrite bind_throw. intros [H|(n & _ & H)].
    - apply parse_throws in H as ->. eauto.
    - destruct (_ <? n); cbn in H; [injection H as <-; eauto|done]. }
  unfold batchLaneAccounting, amountError_if, throw_code_if. intros H.
  repeat (apply bind_throw in H as [H|(? & _ & H)]; [eauto; fail|]).
  repeat match type of H with context [if ?b then _ else _] => destruct b; cbn in H end;
    try (injection H as <-; eauto; fail); done.
Qed.

(** * Properties *)

(** A lane snapshot is accepted exactly when it is the encoding of four integers with
    claimed <= charged <= signed <= 2^63-1 and signed - claimed <= funding <= 2^63-1; the
    derived amounts are then the differences, and every rejection carries the amount code. *)
Theorem lane_accounting_exact st :
  match batchLaneAccounting st with
  | Ok acc => exists l, Lane.valid l /\ st = Lane.encode l /\ acc = accounting_of l
  | Throw e => (forall l, Lane.valid l -> st <> Lane.encode l) /\
      exists m, e = KaspaX402Error "invalid_kaspa_x402_amount" m
  end.
Proof.
  destruct (batchLaneAccounting st) as [acc|e] eqn:E; [by apply accounting_ok|].
  split; [|by apply (accounting_throws st)].
  intros l Hl ->. by rewrite accounting_encode in E.
Qed.

(** C30: any sequence of on-chain claims run by the code is a sequence of claims of the
    abstract lane and conversely; it conserves funding + claimed, leaves the charged and
    signed amounts alone, and can never take more than the unsettled charges nor empty the
    covenant. *)
Theorem claims_refine_and_conserve l cs st :
  Lane.valid l -> Forall (fun c => 0 <= c <= BATCH_SCRIPT_INT_MAX) cs ->
  apply_claims (Lane.encode l) (toString <$> cs) = Ok st <->
  exists l', Lane.claims l cs l' /\ st = Lane.encode l' /\ Lane.valid l' /\
    Lane.funding l' + foldr Z.add 0 cs = Lane.funding l /\
    Lane.claimed l' - foldr Z.add 0 cs = Lane.claimed l /\
    foldr Z.add 0 cs <= Lane.charged l - Lane.claimed l /\
    (cs <> [] -> 0 < Lane.funding l').
Proof.
  intros Hl Hcs. unfold apply_claims. split.
  - intros H. assert (exists l', Lane.claims l cs l' /\ st = Lane.encode l') as (l' & Hc & ->).
    { revert l Hl H. induction cs as [|c cs IH]; intros l Hl H; cbn in H.
      - injection H as <-. exists l. split; [constructor|done].
      - inv_result. apply Forall_cons in Hcs as [Hc Hcs].
        pose proof (apply_claim_encode l c Hl Hc) as Ha. rewrite H0 in Ha. destruct Ha as [Hcl ->].
        destruct (IH Hcs _ (claim_valid l c Hl Hcl) H) as (l' & Hl' & ->).
        exists l'. split; [by constructor|done]. }
    exists l'. pose proof (claims_conserve l cs l' Hc Hl) as (Hv & ? & ? & ? & ?).
    repeat split; try done; try lia; try (unfold Lane.valid in Hv; lia).
    intros Hne. clear -Hc Hl Hne. induction Hc as [|l c cs l' Hcl Hc IH]; [done|].
    inversion Hc; subst; [cbn; unfold Lane.claimable in Hcl; lia|].
    apply IH; [|done]. by apply claim_valid.
  - intros (l' & Hc & -> & _). clear Hcs. induction Hc as [|l c cs l' Hcl _ IH]; [done|].
    cbn. pose proof (apply_claim_encode l c Hl) as Ha. unfold Lane.valid, Lane.claimable in *.
    specialize (Ha ltac:(lia)). destruct (applyBatchClaimAccounting _ _) as [st|]; [|naive_solver].
    destruct Ha as [_ ->]. apply IH. apply claim_valid; done.
Qed.

Lemma claims_refine_and_conserve_witness :
  exists st, apply_claims (Lane.encode (Lane.Make 1000 300 100 400)) (toString <$> [50; 150]) = Ok st /\
    fundingAmount st = "800"%string /\ claimedCumulativeAmount st = "300"%string.
Proof.
  pose proof (proj2 (claims_refine_and_conserve (Lane.Make 1000 300 100 400) [50; 150]
    (Lane.encode (Lane.Make 800 300 300 400)) ltac:(vm_compute; repeat split; discriminate)
    ltac:(repeat constructor; vm_compute; discriminate))) as H.
  eexists. split; [apply H|split; reflexivity].
  exists (Lane.Make 800 300 300 400). repeat split; try (vm_compute; congruence); try lia.
  repeat (apply Lane.claims_cons; [vm_compute; repeat split; congruence|]). apply Lane.claims_nil.
Defined.

(** The voucher a request needs is computed exactly when the lane can bear the charge;
    it is the previous charges plus the new one, the lane with that voucher signed and
    charged is valid, and re-requesting after signing asks for the same voucher. *)
Theorem required_voucher_exact l c :
  Lane.valid l -> 0 <= c <= BATCH_SCRIPT_INT_MAX ->
  match requiredBatchVoucherAmount (Lane.encode l) (toString c) with
  | Ok v => Lane.chargeable l c /\ v = toString (Lane.charged l + c) /\
      Lane.valid (Lane.charge l c) /\
      let signed := Lane.Make (Lane.funding l) (Lane.charged l) (Lane.claimed l) (Lane.charged l + c) in
      Lane.valid signed /\ requiredBatchVoucherAmount (Lane.encode signed) (toString c) = Ok v
  | Throw _ => ~ Lane.chargeable l c
  end.
Proof.
  assert (forall l c, Lane.valid l -> 0 <= c <= BATCH_SCRIPT_INT_MAX ->
    requiredBatchVoucherAmount (Lane.encode l) (toString c) =
    if decide (Lane.chargeable l c) then Ok (toString (Lane.charged l + c))
    else requiredBatchVoucherAmount (Lane.encode l) (toString c)) as Hok.
  { clear. intros l c Hl Hc. case_decide as Hch; [|done]. unfold requiredBatchVoucherAmount.
    rewrite accounting_encode by done. cbn. rewrite parse_lane_toString by done. cbn.
    unfold Lane.chargeable, amountError_if in *. decide_guards. cbn. decide_guards.
    destruct Hch as (_ & _ & _ & [-> | ->]); rewrite Z.eqb_refl, ?andb_false_r; done. }
  intros Hl Hc. rewrite Hok by done. case_decide as Hch.
  - split; [done|]. split; [done|]. split; [by apply charge_valid|]. cbn.
    assert (Lane.valid (Lane.Make (Lane.funding l) (Lane.charged l) (Lane.claimed l) (Lane.charged l + c))) as Hs.
    { unfold Lane.valid, Lane.chargeable in *; cbn. lia. }
    split; [done|]. rewrite Hok by done. rewrite decide_True; [done|].
    unfold Lane.valid, Lane.chargeable in *; cbn in *. lia.
  - unfold requiredBatchVoucherAmount. rewrite accounting_encode by done. cbn.
    rewrite parse_lane_toString by done. cbn. unfold amountError_if, throw_code_if.
    repeat match goal with |- context [if ?b then _ else _] => destruct b eqn:?; cbn end; try done.
    exfalso. apply Hch. unfold Lane.chargeable, Lane.valid in *. lia.
Qed.

Lemma required_voucher_exact_witness :
  requiredBatchVoucherAmount (Lane.encode (Lane.Make 1000 300 100 300)) "25" = Ok "325"%string /\
  Lane.valid (Lane.charge (Lane.Make 1000 300 100 300) 25).
Proof.
  pose proof (required_voucher_exact (Lane.Make 1000 300 100 300) 25
    ltac:(vm_compute; repeat split; discriminate) ltac:(vm_compute; split; discriminate)) as H.
  assert (requiredBatchVoucherAmount (Lane.encode (Lane.Make 1000 300 100 300)) (toString 25) = Ok "325"%string) as E
    by (vm_compute; reflexivity).
  rewrite E in H. split; [exact E|]. exact (proj1 (proj2 (proj2 H))).
Defined.
