(* ===== verification/Json.v ===== *)
(** * JSON values, [JSON.stringify] and key-sorted stringification

    JSON trees as the code handles them: an own property may hold [undefined].
    [stableJson] is the helper of the server modules (exact-payment-transitions.ts,
    exact-heads.ts, batch-settlement-attempts.ts, stores.ts); [stringifyJson] is the body of
    [protocol/packages/core/src/stable-json.ts].  Strings are UTF-8 encoded. *)

From S2P Require Import Prelude Amount.

Inductive json :=
  | JUndefined
  | JNull
  | JBool (b : bool)
  | JNumber (z : Z)
  | JString (s : string)
  | JArray (items : list json)
  | JObject (fields : list (string * json)).

Definition is_undefined (j : json) : bool := match j with JUndefined => true | _ => false end.

Definition chr (n : N) : ascii := ascii_of_N n.
Definition text (l : list N) : string := string_of_list_ascii (chr <$> l).
Definition dquote : string := text [34%N].

(** ** [JSON.stringify] of a string *)

Definition hex_digit (d : Z) : ascii := ascii_of_N (Z.to_N (if d <? 10 then 48 + d else 87 + d)).

Definition escape_char (c : ascii) : string :=
  let n := code c in
  if n =? 34 then text [92; 34]%N
  else if n =? 92 then text [92; 92]%N
  else if n =? 8 then text [92; 98]%N
  else if n =? 9 then text [92; 116]%N
  else if n =? 10 then text [92; 110]%N
  else if n =? 12 then text [92; 102]%N
  else if n =? 13 then text [92; 114]%N
  else if n <? 32 then text [92; 117; 48; 48]%N +:+
    String (hex_digit (n / 16)) (String (hex_digit (n mod 16)) "")
  else String c "".
Fixpoint escape (s : string) : string :=
  match s with
  | EmptyString => EmptyString
  | String c s => escape_char c +:+ escape s
  end.
Definition quote (s : string) : string := dquote +:+ escape s +:+ dquote.
Arguments quote : simpl never.

Fixpoint join (sep : string) (l : list string) : string :=
  match l with
  | [] => ""
  | [x] => x
  | x :: l => x +:+ sep +:+ join sep l
  end.

(** Text of a tree, keys in the order they stand; [undefined] interpolates as its name in a
    template literal and as the empty string in [Array.prototype.join]. *)
Fixpoint render (j : json) : string :=
  match j with
  | JUndefined => "undefined"
  | JNull => "null"
  | JBool true => "true"
  | JBool false => "false"
  | JNumber z => toString z
  | JString s => quote s
  | JArray items =>
      "[" +:+ join "," (map (fun i => if is_undefined i then "" else render i) items) +:+ "]"
  | JObject fields =>
      "{" +:+ join "," (map (fun kv => quote kv.1 +:+ ":" +:+ render kv.2) fields) +:+ "}"
  end.

(** [JSON.stringify]: a property holding [undefined] is omitted, an array item becomes null. *)
Fixpoint serializable (j : json) : json :=
  match j with
  | JArray items =>
      JArray (map (fun i => if is_undefined i then JNull else serializable i) items)
  | JObject fields =>
      JObject (List.concat (map (fun kv =>
        if is_undefined kv.2 then [] else [(kv.1, serializable kv.2)]) fields))
  | _ => j
  end.
Definition JSON_stringify (j : json) : string := render (serializable j).

(** ** Key order: [Array.prototype.sort] compares UTF-16 code units; on UTF-8 bytes this is
    byte order with the lead bytes of supplementary characters moved below 0xEE. *)
Definition unit_rank (c : ascii) : Z :=
  let n := code c in if 240 <=? n then n - 2 else if 238 <=? n then n + 5 else n.
Fixpoint key_le (a b : string) : bool :=
  match a, b with
  | EmptyString, _ => true
  | _, EmptyString => false
  | String c a, String d b =>
      if unit_rank c <? unit_rank d then true
      else if unit_rank d <? unit_rank c then false
      else key_le a b
  end.

Fixpoint insert_field {A} (kv : string * A) (l : list (string * A)) : list (string * A) :=
  match l with
  | [] => [kv]
  | kv' :: l' => if key_le kv.1 kv'.1 then kv :: l else kv' :: insert_field kv l'
  end.
Definition sort_fields {A} (l : list (string * A)) : list (string * A) := foldr insert_field [] l.

(** The tree with every object's keys sorted. *)
Fixpoint sorted_keys (j : json) : json :=
  match j with
  | JArray items => JArray (map sorted_keys items)
  | JObject fields => JObject (sort_fields (map (fun kv => (kv.1, sorted_keys kv.2)) fields))
  | _ => j
  end.

(** [stableJson] of the server modules. *)
Definition stableJson (j : json) : string := render (sorted_keys j).

(** [stringifyJson] of stable-json.ts: [undefined] anywhere is a [TypeError]. *)
Fixpoint map_result {A B} (f : A -> result B) (l : list A) : result (list B) :=
  match l with
  | [] => Ok []
  | x :: l => y ← f x; ys ← map_result f l; Ok (y :: ys)
  end.

Fixpoint stringifyJson (path : string) (j : json) : result string :=
  match j with
  | JNull => Ok "null"
  | JArray items =>
      parts ← (fix go (index : Z) (l : list json) : result (list string) :=
                 match l with
                 | [] => Ok []
                 | i :: l =>
                     p ← stringifyJson (path +:+ "[" +:+ toString index +:+ "]") i;
                     ps ← go (index + 1) l;
                     Ok (p :: ps)
                 end) 0 items;
      Ok ("[" +:+ join "," parts +:+ "]")
  | JObject fields =>
      members ← map_result (fun kv => t ← kv.2; Ok (quote kv.1 +:+ ":" +:+ t))
                  (sort_fields (map (fun kv => (kv.1, stringifyJson (path +:+ "." +:+ kv.1) kv.2)) fields));
      Ok ("{" +:+ join "," members +:+ "}")
  | JString s => Ok (quote s)
  | JBool true => Ok "true"
  | JBool false => Ok "false"
  | JNumber z => Ok (toString z)
  | JUndefined => Throw (Error (path +:+ " is not JSON-serializable"))
  end.

(** ** Encoding helpers for records *)

Definition jopt {A} (f : A -> json) (o : option A) : json :=
  match o with Some a => f a | None => JNull end.
(** An optional property contributes no entry when it is missing. *)
Definition jprop {A} (k : string) (f : A -> json) (p : prop A) : list (string * json) :=
  match p with
  | Absent => []
  | Undefined => [(k, JUndefined)]
  | Present a => [(k, f a)]
  end.

(** * Induction over JSON trees *)

Section JsonInd.
Context (P : json -> Prop).
Context (Hundef : P JUndefined) (Hnull : P JNull) (Hbool : forall b, P (JBool b))
  (Hnum : forall z, P (JNumber z)) (Hstr : forall s, P (JString s))
  (Harr : forall l, Forall P l -> P (JArray l))
  (Hobj : forall l, Forall (fun kv : string * json => P kv.2) l -> P (JObject l)).

Fixpoint json_tree_ind (j : json) : P j :=
  match j with
  | JUndefined => Hundef
  | JNull => Hnull
  | JBool b => Hbool b
  | JNumber z => Hnum z
  | JString s => Hstr s
  | JArray l => Harr l ((fix go l : Forall P l :=
      match l with [] => Forall_nil_2 _ | x :: l => Forall_cons_2 _ x l (json_tree_ind x) (go l) end) l)
  | JObject l => Hobj l ((fix go l : Forall (fun kv => P kv.2) l :=
      match l with [] => Forall_nil_2 _ | kv :: l => Forall_cons_2 _ kv l (json_tree_ind kv.2) (go l) end) l)
  end.
End JsonInd.

(** * Injectivity of the rendered text *)

(** Characters that end a value. *)
Definition delimiter (c : ascii) : bool := (code c =? 44) || (code c =? 93) || (code c =? 125).
Definition delimited (r : string) : bool :=
  match r with EmptyString => true | String c _ => delimiter c end.

(** Trees without [undefined] as an array item, the only value whose text is empty. *)
Fixpoint dense (j : json) : bool :=
  match j with
  | JArray items => forallb (fun i => negb (is_undefined i) && dense i) items
  | JObject fields => forallb (fun kv => dense kv.2) fields
  | _ => true
  end.

(** Reads one escaped character back. *)
Definition unescape_char (s : string) : option (ascii * string) :=
  match s with
  | String c s' =>
      if code c =? 92 then
        match s' with
        | String d s'' =>
            let n := code d in
            if n =? 98 then Some (chr 8, s'')
            else if n =? 116 then Some (chr 9, s'')
            else if n =? 110 then Some (chr 10, s'')
            else if n =? 102 then Some (chr 12, s'')
            else if n =? 114 then Some (chr 13, s'')
            else if n =? 117 then
              match s'' with
              | String _ (String _ (String a (String b rest))) =>
                  let v x := if code x <? 58 then code x - 48 else code x - 87 in
                  Some (chr (Z.to_N (v a * 16 + v b)), rest)
              | _ => None
              end
            else Some (d, s'')
        | EmptyString => None
        end
      else Some (c, s')
  | EmptyString => None
  end.

Lemma unescape_escape c s : unescape_char (escape_char c +:+ s) = Some (c, s).
Proof. destruct c as [[] [] [] [] [] [] [] []]; reflexivity. Qed.

Lemma escape_char_head c s : exists d t, escape_char c +:+ s = String d t /\ code d <> 34.
Proof.
  destruct c as [[] [] [] [] [] [] [] []]; do 2 eexists; (split; [reflexivity|vm_compute; congruence]).
Qed.

Lemma escape_app_inj s s' r r' :
  escape s +:+ dquote +:+ r = escape s' +:+ dquote +:+ r' -> s = s' /\ r = r'.
Proof.
  revert s'. induction s as [|c s IH]; intros [|c' s']; cbn [escape].
  - intros E. injection E as E. by split; [|exact E].
  - rewrite append_assoc. destruct (escape_char_head c' (escape s' +:+ dquote +:+ r')) as (d & t & -> & Hd).
    intros E. injection E as <- _. by vm_compute in Hd.
  - rewrite append_assoc. destruct (escape_char_head c (escape s +:+ dquote +:+ r)) as (d & t & -> & Hd).
    intros E. injection E as -> _. by vm_compute in Hd.
  - rewrite !append_assoc. intros E. apply (f_equal unescape_char) in E. rewrite !unescape_escape in E.
    injection E as -> E. by destruct (IH s' E) as [-> ->].
Qed.

Lemma quote_app_inj s s' r r' : quote s +:+ r = quote s' +:+ r' -> s = s' /\ r = r'.
Proof. unfold quote. rewrite !append_assoc. intros E. injection E as E. by apply escape_app_inj. Qed.

(** Text made of one class of characters is cut off from what follows it. *)
Lemma class_app_inj (p : ascii -> bool) a a' r r' :
  (forall c, p c = true -> delimiter c = false) ->
  string_forall p a = true -> string_forall p a' = true ->
  delimited r = true -> delimited r' = true -> a +:+ r = a' +:+ r' -> a = a' /\ r = r'.
Proof.
  intros Hp. revert a'. induction a as [|c a IH]; intros [|c' a']; cbn [string_forall];
    rewrite ?append_cons, ?append_nil; intros Ha Ha' Hr Hr' E.
  - done.
  - subst r. cbn in Hr. apply andb_true_iff in Ha' as [Hc _]. by rewrite Hp in Hr.
  - subst r'. cbn in Hr'. apply andb_true_iff in Ha as [Hc _]. by rewrite Hp in Hr'.
  - injection E as -> E. apply andb_true_iff in Ha as [_ Ha], Ha' as [_ Ha'].
    by destruct (IH a' Ha Ha' Hr Hr' E) as [-> ->].
Qed.

Definition number_char (c : ascii) : bool := is_digit c || (code c =? 45).

Lemma toString_chars z : string_forall number_char (toString z) = true /\ toString z <> "".
Proof.
  assert (forall n, 0 <= n -> string_forall number_char (toString n) = true /\ toString n <> "") as Hpos.
  { intros n Hn. destruct (toString_spec n Hn) as [Hc _]. split.
    - apply canonical_digits in Hc. clear Hn. induction (toString n) as [|c s IH]; [done|].
      cbn in *. apply andb_true_iff in Hc as [H1 H2]. unfold number_char at 1. rewrite H1. auto.
    - by intros E; rewrite E in Hc. }
  destruct (Z.ltb_spec z 0); [|by apply Hpos].
  unfold toString. destruct (z <? 0) eqn:E; inv_bool; [|lia].
  destruct (Hpos (- z)) as [H1 _]; [lia|]. unfold toString in H1.
  replace (- z <? 0) with false in H1 by lia. cbn [string_forall]. by rewrite H1.
Qed.

Lemma toString_inj_all z z' : toString z = toString z' -> z = z'.
Proof.
  assert (forall n m, 0 <= n -> m < 0 -> toString n <> toString m) as Hsign.
  { intros n m Hn Hm E. destruct (toString_spec n Hn) as [Hc _]. apply canonical_digits in Hc.
    rewrite E in Hc. unfold toString in Hc. by replace (m <? 0) with true in Hc by lia. }
  destruct (Z.ltb_spec z 0), (Z.ltb_spec z' 0); intros E.
  - unfold toString in E. replace (z <? 0) with true in E by lia. replace (z' <? 0) with true in E by lia.
    assert (toString (- z) = toString (- z')) as E'.
    { unfold toString. replace (- z <? 0) with false by lia. replace (- z' <? 0) with false by lia. congruence. }
    apply toString_inj in E'; lia.
  - by destruct (Hsign z' z).
  - by destruct (Hsign z z').
  - by apply toString_inj.
Qed.

(** A value's text starts with a character that ends no value. *)
Lemma render_head j : j <> JUndefined -> exists c t, render j = String c t /\ delimiter c = false.
Proof.
  destruct j as [| |[]|z|s|l|l]; intros H; try done; try (do 2 eexists; split; [reflexivity|reflexivity]).
  destruct (toString_chars z) as [Hc Hn]. cbn [render]. destruct (toString z) as [|c t]; [done|].
  exists c, t. split; [done|]. cbn in Hc. apply andb_true_iff in Hc as [Hc _].
  unfold number_char, is_digit, in_range, delimiter in *. lia.
Qed.

Lemma join_inj {A} (f : A -> string) (close : ascii) l l' r r' :
  delimiter close = true -> close <> chr 44 ->
  Forall (fun x => forall y s s', y ∈ l' -> delimited s = true -> delimited s' = true ->
                     f x +:+ s = f y +:+ s' -> x = y /\ s = s') l ->
  Forall (fun x => exists c t, f x = String c t /\ delimiter c = false) (l ++ l') ->
  join "," (map f l) +:+ String close r = join "," (map f l') +:+ String close r' ->
  l = l' /\ r = r'.
Proof.
  intros Hcl Hne Hinj Hhd. apply Forall_app in Hhd as [Hl Hl'].
  assert (forall x xs, join "," (map f (x :: xs)) = f x +:+ match xs with [] => "" | _ => "," +:+ join "," (map f xs) end) as Hj.
  { intros x [|y xs]; cbn [map join]; [by rewrite append_nil_r|done]. }
  assert (forall (xs : list A) t, delimited (match xs with [] => "" | _ => "," +:+ join "," (map f xs) end +:+ String close t) = true) as Hd.
  { intros [|? ?] t; [exact Hcl|reflexivity]. }
  revert l' Hinj Hl'. induction l as [|x l IH]; intros [|x' l'] Hinj Hl' E.
  - by injection E as ->.
  - rewrite Hj in E. apply Forall_cons in Hl' as [(c & t & Hc & Hdc) _]. rewrite Hc in E.
    injection E as E _. by rewrite E, Hdc in Hcl.
  - rewrite Hj in E. apply Forall_cons in Hl as [(c & t & Hc & Hdc) _]. rewrite Hc in E.
    injection E as E _. by rewrite <- E, Hdc in Hcl.
  - rewrite !Hj, !append_assoc in E. apply Forall_cons in Hinj as [Hx Hinj].
    apply Forall_cons in Hl as [_ Hl]. apply Forall_cons in Hl' as [_ Hl'].
    destruct (Hx x' _ _ (list_elem_of_here _ _) (Hd _ _) (Hd _ _) E) as [-> E'].
    assert (Forall (fun x => forall y s s', y ∈ l' -> delimited s = true -> delimited s' = true ->
                     f x +:+ s = f y +:+ s' -> x = y /\ s = s') l) as Hinj'.
    { eapply Forall_impl; [exact Hinj|]. intros z Hz y s s' Hy. apply Hz. by right. }
    destruct l as [|y l], l' as [|y' l']; rewrite ?append_nil in E'.
    + by injection E' as ->.
    + injection E' as E' _. by rewrite E' in Hne.
    + injection E' as E' _. by rewrite <- E' in Hne.
    + rewrite !append_assoc in E'. injection E' as E'.
      by destruct (IH Hl (y' :: l') Hinj' Hl' E') as [-> ->].
Qed.

Lemma item_render (j : json) : is_undefined j = false -> (if is_undefined j then "" else render j) = render j.
Proof. by intros ->. Qed.

Lemma render_array items :
  forallb (fun i => negb (is_undefined i) && dense i) items = true ->
  render (JArray items) = "[" +:+ join "," (map render items) +:+ "]".
Proof.
  intros H. cbn [render]. do 3 f_equal. apply map_ext_in. intros i Hi.
  rewrite forallb_forall in H. specialize (H i Hi). by destruct (is_undefined i).
Qed.

(** Two values whose texts agree up to a delimiter are equal: the text is self-delimiting. *)
Lemma render_app_inj j : forall j' r r',
  dense j = true -> dense j' = true -> delimited r = true -> delimited r' = true ->
  render j +:+ r = render j' +:+ r' -> j = j' /\ r = r'.
Proof.
  induction j as [| |b|z|s|items IH|fields IH] using json_tree_ind; intros j' r r' Hj Hj' Hr Hr' E.
  all: destruct j' as [| |b'|z'|s'|items'|fields'];
    try (destruct b); try (destruct b');
    try (cbn in E; discriminate E);
    try (injection E as E; split; [reflexivity|exact E]);
    try (destruct (render_head (JNumber z) ltac:(done)) as (c & t & Hc & _);
         destruct (toString_chars z) as [Hz _]; cbn [render] in Hc; rewrite Hc in Hz;
         cbn [render] in E; rewrite Hc in E; injection E as -> _; cbn in Hz; done);
    try (destruct (render_head (JNumber z') ltac:(done)) as (c & t & Hc & _);
         destruct (toString_chars z') as [Hz _]; cbn [render] in Hc; rewrite Hc in Hz;
         cbn [render] in E; rewrite Hc in E; injection E as <- _; cbn in Hz; done).
  - apply (class_app_inj number_char) in E as [E ->]; try done.
    + apply toString_inj_all in E as ->. done.
    + intros c Hc. unfold number_char, is_digit, in_range, delimiter in *. lia.
    + apply toString_chars.
    + apply toString_chars.
  - apply quote_app_inj in E as [-> ->]. done.
  - cbn [dense] in Hj, Hj'. rewrite !render_array, !append_assoc in E by done. injection E as E.
    apply join_inj in E as [-> ->]; [done|reflexivity|done| |].
    + apply Forall_forall. intros x Hx y s s' Hy Hs Hs'.
      rewrite forallb_forall in Hj, Hj'. rewrite Forall_forall in IH.
      specialize (Hj x (proj1 (list_elem_of_In _ _) Hx)). specialize (Hj' y (proj1 (list_elem_of_In _ _) Hy)).
      apply andb_true_iff in Hj as [_ Hj], Hj' as [_ Hj']. by apply IH.
    + apply Forall_app; split; apply Forall_forall; intros x Hx; apply render_head; intros ->;
        apply list_elem_of_In in Hx; rewrite forallb_forall in Hj, Hj'; [by specialize (Hj _ Hx)|by specialize (Hj' _ Hx)].
  - cbn [dense render] in *. rewrite !append_assoc in E. injection E as E.
    apply join_inj in E as [-> ->]; [done|reflexivity|done| |].
    + apply Forall_forall. intros [k x] Hx [k' y] s s' Hy Hs Hs' E'. cbn [fst snd] in E'.
      rewrite !append_assoc in E'. apply quote_app_inj in E' as [-> E']. injection E' as E'.
      rewrite forallb_forall in Hj, Hj'. rewrite Forall_forall in IH.
      specialize (Hj _ (proj1 (list_elem_of_In _ _) Hx)). specialize (Hj' _ (proj1 (list_elem_of_In _ _) Hy)).
      destruct (IH _ Hx y s s' Hj Hj' Hs Hs' E') as [Heq ->]. cbn in Heq. by subst.
    + apply Forall_forall. intros [k x] _. eexists _, _. split; [reflexivity|reflexivity].
Qed.

Lemma render_inj j j' : dense j = true -> dense j' = true -> render j = render j' -> j = j'.
Proof.
  intros Hj Hj' E. apply (render_app_inj j j' "" ""); try done. by rewrite !append_nil_r.
Qed.

Lemma insert_field_elem {A} (kv : string * A) l x : x ∈ insert_field kv l <-> x = kv \/ x ∈ l.
Proof.
  induction l as [|kv' l IH]; cbn [insert_field]; [set_solver|].
  destruct (key_le _ _); [set_solver|]. rewrite !elem_of_cons, IH. tauto.
Qed.

Lemma sort_fields_elem {A} (l : list (string * A)) x : x ∈ sort_fields l <-> x ∈ l.
Proof.
  unfold sort_fields. induction l as [|kv l IH]; cbn [foldr]; [done|].
  by rewrite insert_field_elem, IH, elem_of_cons.
Qed.

Lemma forallb_elem {A} (p : A -> bool) l : forallb p l = true <-> forall x, x ∈ l -> p x = true.
Proof. rewrite forallb_forall. by setoid_rewrite list_elem_of_In. Qed.

Lemma sorted_keys_dense j : dense j = true -> dense (sorted_keys j) = true.
Proof.
  induction j as [| |b|z|s|items IH|fields IH] using json_tree_ind; cbn [dense sorted_keys]; try done;
    rewrite Forall_forall in IH; rewrite !forallb_elem; intros H x Hx.
  - apply list_elem_of_In, in_map_iff in Hx as (y & <- & Hy). apply list_elem_of_In in Hy.
    specialize (H y Hy). apply andb_true_iff in H as [H1 H2]. rewrite IH by done. by destruct y.
  - apply sort_fields_elem, list_elem_of_In, in_map_iff in Hx as (y & <- & Hy). apply list_elem_of_In in Hy.
    by apply IH; [|apply H].
Qed.

(** Key-sorted texts agree exactly when the key-sorted trees do. *)
Lemma stableJson_inj j j' :
  dense j = true -> dense j' = true -> stableJson j = stableJson j' <-> sorted_keys j = sorted_keys j'.
Proof.
  intros Hj Hj'. split; [|by unfold stableJson; intros ->].
  intros E. apply render_inj in E; auto using sorted_keys_dense.
Qed.

(** Objects with equal key-sorted trees have the same fields. *)
Lemma sorted_object_fields l l' k v :
  sorted_keys (JObject l) = sorted_keys (JObject l') -> (k, v) ∈ l ->
  exists v', (k, v') ∈ l' /\ sorted_keys v = sorted_keys v'.
Proof.
  cbn [sorted_keys]. intros E Hin. injection E as E.
  assert ((k, sorted_keys v) ∈ sort_fields (map (fun kv => (kv.1, sorted_keys kv.2)) l')) as H.
  { rewrite <- E. apply sort_fields_elem, list_elem_of_In, in_map_iff. exists (k, v).
    split; [done|by apply list_elem_of_In]. }
  apply sort_fields_elem, list_elem_of_In, in_map_iff in H as ([k' v'] & [= -> <-] & H).
  exists v'. split; [by apply list_elem_of_In|done].
Qed.

(** Reads a field of a literal object off a membership hypothesis. *)
Ltac inv_field H :=
  repeat (apply elem_of_cons in H as [H|H]; [try discriminate H; try (injection H as ?; subst)|]);
  try (by apply elem_of_nil in H).
