(* ===== verification/Binary.v ===== *)
(** * Bytes, hexadecimal text and little-endian integers

    Models [protocol/packages/core/src/binary.ts] and [network.ts].  A [Uint8Array] is a
    list of characters; [node:crypto]'s SHA-256 is a parameter, of which only the digest
    length is ever used. *)

From S2P Require Import Prelude Amount Json.

Abbreviation bytes := (list ascii).

(** ** Hexadecimal *)

Definition hex_value (c : ascii) : Z :=
  if is_digit c then code c - 48 else if in_range 97 102 c then code c - 87 else code c - 55.
Definition byte_of (n : Z) : ascii := ascii_of_N (Z.to_N n).

(** [Buffer.from(hex, "hex")] on text of hexadecimal pairs. *)
Fixpoint hex_decode (hex : string) : bytes :=
  match hex with
  | String a (String b rest) => byte_of (hex_value a * 16 + hex_value b) :: hex_decode rest
  | _ => []
  end.

(** [/^(?:[0-9a-fA-F]{2})*$/] *)
Definition HEX_BYTE_PATTERN (hex : string) : bool :=
  string_forall is_hex hex && Z.even (byte_length hex).

Definition hexToBytes (expectedLength : option Z) (errorCode label : string) (hex : string) : result bytes :=
  _ ← throw_code_if (negb (HEX_BYTE_PATTERN hex)) errorCode
        (label +:+ " must be an even-length hex byte string");
  _ ← throw_code_if (match expectedLength with Some n => js_length hex !== n * 2 | None => false end)
        errorCode (label +:+ " must be " +:+ toString (default 0 expectedLength) +:+ " bytes");
  Ok (hex_decode hex).

(** [Buffer.from(bytes).toString("hex")] *)
Fixpoint bytesToHex (b : bytes) : string :=
  match b with
  | [] => ""
  | c :: b => String (hex_digit (code c / 16)) (String (hex_digit (code c mod 16)) (bytesToHex b))
  end.

Definition utf8Bytes (value : string) : bytes := list_ascii_of_string value.
Definition concatBytes (parts : list bytes) : bytes := List.concat parts.

(** ** Little-endian integers *)

Fixpoint little_endian (n : nat) (v : Z) : bytes :=
  match n with
  | O => []
  | S n => byte_of (v mod 256) :: little_endian n (v / 256)
  end.
Fixpoint little_endian_value (b : bytes) : Z :=
  match b with
  | [] => 0
  | c :: b => code c + 256 * little_endian_value b
  end.

Definition le32 (errorCode : string) (value : Z) : result bytes :=
  _ ← throw_code_if ((value <? 0) || (U32_MAX <? value)) errorCode "value must fit in uint32";
  Ok (little_endian 4 value).

Definition numberToUint64 (value : Z) : result Z :=
  _ ← throw_code_if (negb (isSafeInteger value) || (value <? 0)) "invalid_kaspa_x402_amount"
        "number must be a non-negative safe integer";
  Ok value.

Definition normalizeUint64 (value : numeric) : result Z :=
  normalized ← match value with
               | BigInt n => Ok n
               | Number n => numberToUint64 n
               | Text s => parseSompiString s
               end;
  _ ← throw_code_if ((normalized <? 0) || (U64_MAX <? normalized)) "invalid_kaspa_x402_amount"
        "value must fit in uint64";
  Ok normalized.

Definition le64 (value : numeric) : result bytes :=
  normalized ← normalizeUint64 value; Ok (little_endian 8 normalized).

(** ** network.ts *)

Definition SUPPORTED_NETWORKS : list string := ["kaspa:mainnet"; "kaspa:testnet-10"].
Definition isKaspaX402Network (value : string) : bool :=
  existsb (fun n => value === n) SUPPORTED_NETWORKS.
Definition parseKaspaNetwork (value : string) : result string :=
  _ ← throw_code_if (negb (isKaspaX402Network value)) "invalid_kaspa_x402_network"
        "unsupported Kaspa x402 network";
  Ok value.
Definition assertSupportedNetwork (supported : list string) (value : string) : result string :=
  _ ← throw_code_if (negb (existsb (fun n => value === n) supported)) "invalid_kaspa_x402_network"
        "network is not supported by this implementation";
  Ok value.
Definition assertMainnetAllowed (network : string) (allowMainnet : bool) (component : string) : result () :=
  throw_code_if ((network === "kaspa:mainnet") && negb allowMainnet) "invalid_kaspa_x402_network"
    (component +:+ " requires allowMainnet for kaspa:mainnet").

(** ** Digests *)

Section Sha.
Context (sha256 : bytes -> bytes).
Definition sha256Text (s : string) : bytes := sha256 (utf8Bytes s).
Definition sha256Hex (s : string) : string := bytesToHex (sha256Text s).
End Sha.

(** * Lemmas *)

Lemma code_range c : 0 <= code c < 256.
Proof. destruct c as [[] [] [] [] [] [] [] []]; vm_compute; split; congruence. Qed.

Lemma byte_of_code c : byte_of (code c) = c.
Proof. unfold byte_of, code. by rewrite N2Z.id, ascii_N_embedding. Qed.

Lemma code_byte_of n : 0 <= n < 256 -> code (byte_of n) = n.
Proof. intros. unfold byte_of, code. rewrite N_ascii_embedding; lia. Qed.

Lemma hex_byte c :
  is_lower_hex (hex_digit (code c / 16)) = true /\ is_lower_hex (hex_digit (code c mod 16)) = true /\
  byte_of (hex_value (hex_digit (code c / 16)) * 16 + hex_value (hex_digit (code c mod 16))) = c.
Proof. destruct c as [[] [] [] [] [] [] [] []]; vm_compute; auto. Qed.

Lemma bytesToHex_lower b : string_forall is_lower_hex (bytesToHex b) = true.
Proof.
  induction b as [|c b IH]; cbn [bytesToHex string_forall]; [done|].
  destruct (hex_byte c) as (-> & -> & _). by rewrite IH.
Qed.

Lemma bytesToHex_length b : byte_length (bytesToHex b) = 2 * Z.of_nat (length b).
Proof. induction b as [|c b IH]; cbn [bytesToHex length]; [done|]. rewrite !byte_length_cons, IH. lia. Qed.

Lemma hex_decode_bytesToHex b : hex_decode (bytesToHex b) = b.
Proof. induction b as [|c b IH]; cbn [bytesToHex hex_decode]; [done|]. destruct (hex_byte c) as (_ & _ & ->). by rewrite IH. Qed.

Lemma bytesToHex_inj b b' : bytesToHex b = bytesToHex b' -> b = b'.
Proof. intros E%(f_equal hex_decode). by rewrite !hex_decode_bytesToHex in E. Qed.

Lemma hex_pair_lower a b :
  is_hex a = true -> is_hex b = true ->
  hex_digit (code (byte_of (hex_value a * 16 + hex_value b)) / 16) = lower_ascii a /\
  hex_digit (code (byte_of (hex_value a * 16 + hex_value b)) mod 16) = lower_ascii b.
Proof.
  assert (forall c, is_hex c = true -> 0 <= hex_value c < 16 /\ hex_digit (hex_value c) = lower_ascii c) as H.
  { intros c; destruct c as [[] [] [] [] [] [] [] []]; vm_compute; try done; repeat split; congruence. }
  intros [Ha Ea]%H [Hb Eb]%H. rewrite code_byte_of by lia.
  rewrite Z.div_add_l, Z.div_small, Z.add_0_r by lia.
  rewrite Z.add_comm, Z.mod_add, Z.mod_small by lia. done.
Qed.

Lemma string_pair_ind (P : string -> Prop) :
  P "" -> (forall a, P (String a "")) -> (forall a b s, P s -> P (String a (String b s))) -> forall s, P s.
Proof.
  intros H0 H1 H2. fix F 1. intros [|a [|b s]]; [exact H0|apply H1|apply H2, F].
Qed.

(** Decoding forgets only the case of the digits. *)
Lemma bytesToHex_hex_decode s : HEX_BYTE_PATTERN s = true -> bytesToHex (hex_decode s) = toLowerCase s.
Proof.
  unfold HEX_BYTE_PATTERN. induction s as [|a|a b s IH] using string_pair_ind; intros H; [done| |].
  - by rewrite andb_false_r in H.
  - cbn [string_forall] in H. rewrite !byte_length_cons in H.
    replace (1 + (1 + byte_length s)) with (2 + byte_length s) in H by lia.
    rewrite Z.even_add in H. cbn [hex_decode bytesToHex toLowerCase].
    apply andb_true_iff in H as [[Ha [Hb Hs]%andb_true_iff]%andb_true_iff He].
    destruct (hex_pair_lower a b Ha Hb) as [-> ->]. rewrite IH; [done|].
    rewrite Hs. by destruct (Z.even (byte_length s)).
Qed.

Lemma hex_js_length s : string_forall is_hex s = true -> js_length s = byte_length s.
Proof.
  induction s as [|c s IH]; cbn [string_forall js_length]; [done|]. intros [Hc Hs]%andb_true_iff.
  rewrite IH, byte_length_cons by done. unfold is_hex, is_lower_hex, is_digit, in_range in *.
  replace ((128 <=? code c) && (code c <=? 191)) with false by lia.
  by replace (240 <=? code c) with false by lia.
Qed.

Lemma lower_hex_hex s : string_forall is_lower_hex s = true -> string_forall is_hex s = true.
Proof.
  induction s as [|c s IH]; cbn [string_forall]; [done|]. intros [Hc Hs]%andb_true_iff.
  rewrite IH, andb_true_r by done. unfold is_hex. by rewrite Hc.
Qed.

Lemma byte_hex_of b : HEX_BYTE_PATTERN (bytesToHex b) = true.
Proof.
  unfold HEX_BYTE_PATTERN. rewrite lower_hex_hex by apply bytesToHex_lower. by rewrite bytesToHex_length, Z.even_mul.
Qed.

Lemma hexToBytes_ok n err lbl hex b :
  hexToBytes n err lbl hex = Ok b <->
  b = hex_decode hex /\ HEX_BYTE_PATTERN hex = true /\
  match n with Some n => byte_length hex = n * 2 | None => True end.
Proof.
  unfold hexToBytes. rewrite bind_ok. setoid_rewrite throw_code_if_ok. setoid_rewrite bind_ok.
  setoid_rewrite throw_code_if_ok. split.
  - intros ([] & Hp & [] & Hn & [= <-]). inv_bool. split; [done|]. split; [done|].
    destruct n; [|done]. inv_bool. unfold HEX_BYTE_PATTERN in Hp. apply andb_true_iff in Hp as [Hp _].
    by rewrite <- hex_js_length.
  - intros (-> & Hp & Hn). exists (). rewrite Hp. split; [done|]. exists (). split; [|done].
    destruct n; [|done]. unfold HEX_BYTE_PATTERN in Hp. apply andb_true_iff in Hp as [Hp _].
    rewrite hex_js_length, Hn by done. by rewrite bool_decide_eq_true_2.
Qed.

Lemma hex_decode_length s : HEX_BYTE_PATTERN s = true -> 2 * Z.of_nat (length (hex_decode s)) = byte_length s.
Proof.
  intros H. rewrite <- bytesToHex_length, bytesToHex_hex_decode by done.
  clear. induction s as [|c s IH]; cbn [toLowerCase]; [done|]. by rewrite !byte_length_cons, IH.
Qed.

Lemma hex_decode_inj s s' :
  HEX_BYTE_PATTERN s = true -> HEX_BYTE_PATTERN s' = true ->
  hex_decode s = hex_decode s' <-> toLowerCase s = toLowerCase s'.
Proof.
  intros H H'. rewrite <- !bytesToHex_hex_decode by done.
  split; [congruence|]. apply bytesToHex_inj.
Qed.

Lemma little_endian_length n v : length (little_endian n v) = n.
Proof. revert v. induction n as [|n IH]; intros v; cbn; [done|]. by rewrite IH. Qed.

Lemma little_endian_read n v : 0 <= v < 256 ^ Z.of_nat n -> little_endian_value (little_endian n v) = v.
Proof.
  revert v. induction n as [|n IH]; intros v Hv; cbn [little_endian little_endian_value]; [lia|].
  rewrite Nat2Z.inj_succ, Z.pow_succ_r in Hv by lia. pose proof (Z.mod_pos_bound v 256).
  pose proof (Z.div_mod v 256). rewrite code_byte_of by lia.
  rewrite IH; [lia|]. split; [apply Z.div_pos; lia|]. apply Z.div_lt_upper_bound; lia.
Qed.

Lemma little_endian_inj n v v' :
  0 <= v < 256 ^ Z.of_nat n -> 0 <= v' < 256 ^ Z.of_nat n ->
  little_endian n v = little_endian n v' -> v = v'.
Proof. intros H H' E%(f_equal little_endian_value). by rewrite !little_endian_read in E. Qed.

Lemma le32_ok err v b : le32 err v = Ok b <-> b = little_endian 4 v /\ 0 <= v <= U32_MAX.
Proof.
  unfold le32. rewrite bind_ok. setoid_rewrite throw_code_if_ok. split.
  - intros ([] & H & [= <-]). inv_bool. done.
  - intros [-> H]. exists (). split; [lia|done].
Qed.

Definition numeric_value (v : numeric) (n : Z) : Prop :=
  match v with
  | BigInt z => n = z
  | Number z => n = z /\ z <= MAX_SAFE_INTEGER
  | Text s => s = toString n
  end /\ 0 <= n <= U64_MAX.

Lemma normalizeUint64_ok v n : normalizeUint64 v = Ok n <-> numeric_value v n.
Proof.
  unfold normalizeUint64, numeric_value. rewrite bind_ok. setoid_rewrite bind_ok.
  setoid_rewrite throw_code_if_ok. destruct v as [z|z|s].
  1, 2: split.
  - intros (m & [= <-] & [] & H & [= <-]). inv_bool. done.
  - intros [-> H]. eexists. split; [done|]. exists (). split; [lia|done].
  - intros (m & Hm & [] & H & [= <-]). unfold numberToUint64, isSafeInteger in Hm. inv_ok. subst. repeat split; lia.
  - intros [[-> Hz] H]. exists z. split; [|exists (); split; [lia|done]].
    unfold numberToUint64, isSafeInteger. replace (_ || _) with false; [done|]. unfold MAX_SAFE_INTEGER in *. lia.
  - setoid_rewrite parse_ok. split.
    + intros (m & [-> Hm] & [] & _ & [= <-]). done.
    + intros [-> H]. exists n. split; [done|]. exists (). split; [lia|done].
Qed.

Lemma le64_ok v b : le64 v = Ok b <-> exists n, numeric_value v n /\ b = little_endian 8 n.
Proof.
  unfold le64. rewrite bind_ok. setoid_rewrite normalizeUint64_ok.
  split; intros (n & Hn & H); exists n; split; try done; congruence.
Qed.

Lemma sha256Hex_lower sha256 s :
  (forall b, length (sha256 b) = 32%nat) -> is_lower_hash32 (sha256Hex sha256 s) = true.
Proof.
  intros H. unfold is_lower_hash32, sha256Hex, sha256Text. by rewrite bytesToHex_lower, bytesToHex_length, H.
Qed.

(** A concrete 32-byte digest, for instantiating the parameter in the witnesses. *)
Definition toy_sha256 (b : bytes) : bytes :=
  little_endian 32 (foldl (fun acc c => Z.land (acc * 33 + code c) 4294967295) 5381 b).
Lemma toy_sha256_length b : length (toy_sha256 b) = 32%nat.
Proof. apply little_endian_length. Qed.

(** ** Properties *)

(** Hex text round trips: decoding the text of bytes gives the bytes back, and
    encoding decoded bytes gives the text back in lower case; accepted text is exactly
    the even-length hexadecimal text of the expected byte count, and the little-endian
    encodings keep every 32-bit and 64-bit value distinct and readable. *)
Theorem binary_roundtrip err lbl n hex b b' v :
  hexToBytes None err lbl (bytesToHex b) = Ok b /\
  (hexToBytes (Some n) err lbl hex = Ok b' <->
     HEX_BYTE_PATTERN hex = true /\ Z.of_nat (length b') = n /\ bytesToHex b' = toLowerCase hex) /\
  (0 <= v <= U32_MAX -> exists e, le32 err v = Ok e /\ length e = 4%nat /\ little_endian_value e = v) /\
  (0 <= v <= U64_MAX -> exists e, le64 (BigInt v) = Ok e /\ le64 (Text (toString v)) = Ok e /\
     length e = 8%nat /\ little_endian_value e = v) /\
  (is_ok (le32 err v) = (0 <=? v) && (v <=? U32_MAX)) /\
  (is_ok (le64 (BigInt v)) = (0 <=? v) && (v <=? U64_MAX)).
Proof.
  split; [|split; [|split; [|split; [|split]]]].
  - apply hexToBytes_ok. rewrite hex_decode_bytesToHex. split; [done|]. split; [|done].
    unfold HEX_BYTE_PATTERN. rewrite lower_hex_hex by apply bytesToHex_lower.
    rewrite bytesToHex_length, Z.even_mul. done.
  - rewrite hexToBytes_ok. split.
    + intros (-> & Hp & Hl). pose proof (hex_decode_length _ Hp). split; [done|].
      split; [lia|by apply bytesToHex_hex_decode].
    + intros (Hp & Hl & E). rewrite <- bytesToHex_hex_decode in E by done. apply bytesToHex_inj in E as ->.
      pose proof (hex_decode_length _ Hp). split; [done|]. split; [done|]. lia.
  - intros H. exists (little_endian 4 v). rewrite le32_ok, little_endian_length, little_endian_read; [done|].
    unfold U32_MAX in H. lia.
  - intros H. exists (little_endian 8 v). rewrite !le64_ok, little_endian_length, little_endian_read
      by (unfold U64_MAX in H; lia).
    repeat split; exists v; unfold numeric_value; auto.
  - unfold le32, throw_code_if. destruct (_ || _) eqn:E; cbn; lia.
  - unfold le64, normalizeUint64, throw_code_if. cbn. destruct (_ || _) eqn:E; cbn; lia.
Qed.
