(* ===== verification/ResourceBudget.v ===== *)
(** * The structural admission budget and canonical stringification

    Models [protocol/packages/core/src/resource-budget.ts] and [stable-json.ts].  The
    pre-walk is the code's loop over an explicit stack of pending values; inputs are JSON
    trees, so the branches for accessors, symbols, sparse arrays, foreign prototypes and
    cycles, which no such tree takes, are not represented. *)

From S2P Require Import Prelude Amount Json.

Record ResourceBudgetProfile := {
  maxEncodedHeaderBytes : Z;
  maxDecodedHeaderBytes : Z;
  maxStringBytes : Z;
  maxArtifactBytes : Z;
  maxArrayItems : Z;
  maxObjectProperties : Z;
  maxAccepts : Z;
  maxExtensionProperties : Z;
  maxDepth : Z;
  maxNodes : Z;
  maxCanonicalBytes : Z;
  maxValidationWork : Z;
  maxMcpAudienceBytes : Z;
  maxMcpToolNameBytes : Z
}.

Definition KASPA_X402_RESOURCE_BUDGET : ResourceBudgetProfile := {|
  maxEncodedHeaderBytes := 131072;
  maxDecodedHeaderBytes := 98304;
  maxStringBytes := 16384;
  maxArtifactBytes := 65536;
  maxArrayItems := 256;
  maxObjectProperties := 128;
  maxAccepts := 16;
  maxExtensionProperties := 32;
  maxDepth := 32;
  maxNodes := 4096;
  maxCanonicalBytes := 98304;
  maxValidationWork := 8191;
  maxMcpAudienceBytes := 2048;
  maxMcpToolNameBytes := 1024 |}.

Record JsonResourceBudgetResult := Usage { nodes : Z; work : Z; canonicalBytes : Z }.

Definition ARTIFACT_FIELDS : list string := [
  "activeScriptPublicKey"; "clientSignature"; "fundingTransaction"; "headRedeemScript";
  "headScriptPublicKey"; "signature"; "transaction"]%string.

Record PendingValue := Pending {
  value : json;
  depth : Z;
  field : option string;
  exit : bool
}.

(** [charCodeAt]-level UTF-8 length of a UTF-16 string. *)
Fixpoint utf8ByteLength_from (units : list Z) (bytes : Z) : Z :=
  match units with
  | [] => bytes
  | code :: rest =>
      if code <=? 127 then utf8ByteLength_from rest (bytes + 1)
      else if code <=? 2047 then utf8ByteLength_from rest (bytes + 2)
      else if (55296 <=? code) && (code <=? 56319) then
        match rest with
        | next :: rest' =>
            if (56320 <=? next) && (next <=? 57343) then utf8ByteLength_from rest' (bytes + 4)
            else utf8ByteLength_from rest (bytes + 3)
        | [] => utf8ByteLength_from rest (bytes + 3)
        end
      else utf8ByteLength_from rest (bytes + 3)
  end.
Definition utf8ByteLength (units : list Z) : Z := utf8ByteLength_from units 0.

Section Walk.
Variables (profile : ResourceBudgetProfile) (label errorCode : string).

Definition budget_fail {A} (message : string) : result A :=
  Throw (KaspaX402Error errorCode (label +:+ " " +:+ message)).
Definition budget_fail_if (b : bool) (message : string) : result () :=
  if b then budget_fail message else Ok tt.

Definition addWork (amount : Z) (u : JsonResourceBudgetResult) : result JsonResourceBudgetResult :=
  let work' := work u + amount in
  _ ← budget_fail_if (maxValidationWork profile <? work')
        ("exceeds validation work limit " +:+ toString (maxValidationWork profile));
  Ok (Usage (nodes u) work' (canonicalBytes u)).

Definition addCanonicalBytes (amount : Z) (u : JsonResourceBudgetResult) : result JsonResourceBudgetResult :=
  let bytes := canonicalBytes u + amount in
  _ ← budget_fail_if (maxCanonicalBytes profile <? bytes)
        ("exceeds canonical JSON limit " +:+ toString (maxCanonicalBytes profile) +:+ " bytes");
  Ok (Usage (nodes u) (work u) bytes).

Definition field_is (f : option string) (name : string) : bool := f === Some name.
Definition field_label (f : option string) (otherwise : string) : string :=
  match f with Some f => f | None => otherwise end.

Definition string_limit (f : option string) : Z :=
  match f with
  | Some name => if (name !== "") && existsb (fun a => name === a) ARTIFACT_FIELDS
                 then maxArtifactBytes profile else maxStringBytes profile
  | None => maxStringBytes profile
  end.
Definition array_limit (f : option string) : Z :=
  if field_is f "accepts" then maxAccepts profile else maxArrayItems profile.
Definition object_limit (f : option string) : Z :=
  if field_is f "extensions" || field_is f "_meta" then maxExtensionProperties profile
  else maxObjectProperties profile.

(** [for (let index = keys.length - 1; ...)]: each key is charged and its value pushed. *)
Definition push_field (child_depth : Z) (s : list PendingValue * JsonResourceBudgetResult)
    (kv : string * json) : result (list PendingValue * JsonResourceBudgetResult) :=
  let '(pending, u) := s in
  let '(key, v) := kv in
  _ ← budget_fail_if (maxStringBytes profile <? byte_length key)
        ("property name exceeds string limit " +:+ toString (maxStringBytes profile) +:+ " bytes");
  u ← addCanonicalBytes (byte_length (quote key) + 1) u;
  Ok (Pending v child_depth (Some key) false :: pending, u).

(** One iteration of the loop on the popped value. *)
Definition visit (current : PendingValue) (pending : list PendingValue)
    (u : JsonResourceBudgetResult) : result (list PendingValue * JsonResourceBudgetResult) :=
  if exit current then Ok (pending, u) else
  let u := Usage (nodes u + 1) (work u) (canonicalBytes u) in
  u ← addWork 1 u;
  _ ← budget_fail_if (maxNodes profile <? nodes u)
        ("exceeds node limit " +:+ toString (maxNodes profile));
  _ ← budget_fail_if (maxDepth profile <? depth current)
        ("exceeds depth limit " +:+ toString (maxDepth profile));
  match value current with
  | JNull => u ← addCanonicalBytes 4 u; Ok (pending, u)
  | JString s =>
      let maximum := string_limit (field current) in
      _ ← budget_fail_if (maximum <? byte_length s)
            (field_label (field current) "string" +:+ " exceeds string limit " +:+ toString maximum +:+ " bytes");
      u ← addCanonicalBytes (byte_length (quote s)) u; Ok (pending, u)
  | JBool b => u ← addCanonicalBytes (if b then 4 else 5) u; Ok (pending, u)
  | JNumber z => u ← addCanonicalBytes (byte_length (toString z)) u; Ok (pending, u)
  | JUndefined => budget_fail "is not JSON-serializable"
  | JArray items =>
      let pending := Pending (value current) (depth current) (field current) true :: pending in
      let length := Z.of_nat (List.length items) in
      let maximum := array_limit (field current) in
      _ ← budget_fail_if (maximum <? length)
            (field_label (field current) "array" +:+ " exceeds array limit " +:+ toString maximum);
      u ← addWork length u;
      u ← addCanonicalBytes (2 + Z.max 0 (length - 1)) u;
      Ok (foldr (fun v pending => Pending v (depth current + 1) None false :: pending) pending items, u)
  | JObject fields =>
      let pending := Pending (value current) (depth current) (field current) true :: pending in
      let length := Z.of_nat (List.length fields) in
      let maximum := object_limit (field current) in
      _ ← budget_fail_if (maximum <? length)
            (field_label (field current) "object" +:+ " exceeds property limit " +:+ toString maximum);
      u ← addWork length u;
      u ← addCanonicalBytes (2 + Z.max 0 (length - 1)) u;
      fold_result (push_field (depth current + 1)) (rev fields) (pending, u)
  end.

(** [while (pending.length > 0)]; [None] when the fuel does not suffice. *)
Fixpoint walk (fuel : nat) (pending : list PendingValue) (u : JsonResourceBudgetResult)
  : option (result JsonResourceBudgetResult) :=
  match pending with
  | [] => Some (Ok u)
  | current :: pending =>
      match fuel with
      | O => None
      | S fuel =>
          match visit current pending u with
          | Throw e => Some (Throw e)
          | Ok (pending, u) => walk fuel pending u
          end
      end
  end.

(** Every admitted node is visited once and left at most once. *)
Definition walk_fuel : nat := S (S (2 * Z.to_nat (maxNodes profile))).

Definition assertJsonResourceBudget_with (root : json) : result JsonResourceBudgetResult :=
  match walk walk_fuel [Pending root 0 None false] (Usage 0 0 0) with
  | Some r => r
  | None => Throw (Error "out of fuel")
  end.

End Walk.

Definition assertJsonResourceBudget (label : string) (root : json) : result JsonResourceBudgetResult :=
  assertJsonResourceBudget_with KASPA_X402_RESOURCE_BUDGET label "invalid_kaspa_x402_payload" root.

(** ** stable-json.ts *)

Definition stableStringify (value : json) : result string :=
  _ ← assertJsonResourceBudget "canonical JSON value" value;
  stringifyJson "$" value.

(** ** Transport headers *)

Definition is_base64_char (c : ascii) : bool :=
  in_range 65 90 c || in_range 97 122 c || is_digit c || (code c =? 43) || (code c =? 47).

(** [/^(?:[A-Za-z0-9+/]{4})*(?:[A-Za-z0-9+/]{2}==|[A-Za-z0-9+/]{3}=)?$/] *)
Fixpoint canonical_base64 (s : string) : bool :=
  match s with
  | EmptyString => true
  | String a (String b (String c (String d rest))) =>
      is_base64_char a && is_base64_char b && is_base64_char c && is_base64_char d && canonical_base64 rest
      || is_base64_char a && is_base64_char b && (rest === ""%string) && (code d =? 61) &&
         (is_base64_char c || (code c =? 61))
  | _ => false
  end.

(** Number of trailing [=] signs counted by [endsWith]. *)
Definition padding (s : string) : Z :=
  match rev (list_ascii_of_string s) with
  | a :: b :: _ => if code a =? 61 then if code b =? 61 then 2 else 1 else 0
  | [a] => if code a =? 61 then 1 else 0
  | [] => 0
  end.

Definition assertEncodedHeaderBudget (value label : string) : result Z :=
  let profile := KASPA_X402_RESOURCE_BUDGET in
  _ ← throw_code_if (maxEncodedHeaderBytes profile <? js_length value) "invalid_kaspa_x402_payload"
        (label +:+ " exceeds encoded limit " +:+ toString (maxEncodedHeaderBytes profile) +:+ " bytes");
  _ ← throw_code_if ((js_length value =? 0) || negb (js_length value mod 4 =? 0) ||
                     negb (canonical_base64 value)) "invalid_kaspa_x402_payload"
        (label +:+ " must use canonical padded base64");
  let decodedBytes := js_length value / 4 * 3 - padding value in
  _ ← throw_code_if (maxDecodedHeaderBytes profile <? decodedBytes) "invalid_kaspa_x402_payload"
        (label +:+ " exceeds decoded limit " +:+ toString (maxDecodedHeaderBytes profile) +:+ " bytes");
  Ok decodedBytes.

Definition assertDecodedByteBudget (value label : string) : result () :=
  throw_code_if (maxDecodedHeaderBytes KASPA_X402_RESOURCE_BUDGET <? byte_length value)
    "invalid_kaspa_x402_payload"
    (label +:+ " exceeds decoded limit " +:+
     toString (maxDecodedHeaderBytes KASPA_X402_RESOURCE_BUDGET) +:+ " bytes").

(** * The declarative reading of the budget *)

Fixpoint tree_nodes (j : json) : Z :=
  match j with
  | JArray items => 1 + foldr Z.add 0 (map tree_nodes items)
  | JObject fields => 1 + foldr Z.add 0 (map (fun kv => tree_nodes kv.2) fields)
  | _ => 1
  end.
Fixpoint tree_work (j : json) : Z :=
  match j with
  | JArray items => 1 + Z.of_nat (length items) + foldr Z.add 0 (map tree_work items)
  | JObject fields => 1 + Z.of_nat (length fields) + foldr Z.add 0 (map (fun kv => tree_work kv.2) fields)
  | _ => 1
  end.
Definition separators {A} (l : list A) : Z := 2 + Z.max 0 (Z.of_nat (length l) - 1).
Fixpoint tree_bytes (j : json) : Z :=
  match j with
  | JUndefined => 0
  | JNull => 4
  | JBool b => if b then 4 else 5
  | JNumber z => byte_length (toString z)
  | JString s => byte_length (quote s)
  | JArray items => separators items + foldr Z.add 0 (map tree_bytes items)
  | JObject fields =>
      separators fields +
      foldr Z.add 0 (map (fun kv => byte_length (quote kv.1) + 1 + tree_bytes kv.2) fields)
  end.

(** The limits every single value must respect, given its depth and field name. *)
Fixpoint shape_ok (profile : ResourceBudgetProfile) (d : Z) (f : option string) (j : json) : bool :=
  (d <=? maxDepth profile) &&
  match j with
  | JUndefined => false
  | JString s => byte_length s <=? string_limit profile f
  | JArray items =>
      (Z.of_nat (length items) <=? array_limit profile f) &&
      forallb (shape_ok profile (d + 1) None) items
  | JObject fields =>
      (Z.of_nat (length fields) <=? object_limit profile f) &&
      forallb (fun kv => (byte_length kv.1 <=? maxStringBytes profile) &&
                         shape_ok profile (d + 1) (Some kv.1) kv.2) fields
  | _ => true
  end.

Definition usage_of (j : json) : JsonResourceBudgetResult :=
  Usage (tree_nodes j) (tree_work j) (tree_bytes j).
Definition within (profile : ResourceBudgetProfile) (u : JsonResourceBudgetResult) : Prop :=
  nodes u <= maxNodes profile /\ work u <= maxValidationWork profile /\
  canonicalBytes u <= maxCanonicalBytes profile.

Definition frame_ok profile (p : PendingValue) : bool :=
  exit p || shape_ok profile (depth p) (field p) (value p).
Definition frame_usage (p : PendingValue) : JsonResourceBudgetResult :=
  if exit p then Usage 0 0 0 else usage_of (value p).
Definition add_usage (a b : JsonResourceBudgetResult) : JsonResourceBudgetResult :=
  Usage (nodes a + nodes b) (work a + work b) (canonicalBytes a + canonicalBytes b).
Definition total (pending : list PendingValue) (u : JsonResourceBudgetResult) : JsonResourceBudgetResult :=
  foldr (fun p u => add_usage u (frame_usage p)) u pending.

(** Iterations left: two per node still admissible, one per exit frame. *)
Definition exits (pending : list PendingValue) : Z :=
  foldr Z.add 0 (map (fun p => if exit p then 1 else 0) pending).
Definition potential (profile : ResourceBudgetProfile) (pending : list PendingValue)
    (u : JsonResourceBudgetResult) : Z :=
  2 * (maxNodes profile - nodes u) + exits pending.

(** * Lemmas *)

Lemma foldr_sum_nonneg {A} (f : A -> Z) l : Forall (fun x => 0 <= f x) l -> 0 <= foldr Z.add 0 (map f l).
Proof. induction 1; cbn; lia. Qed.

Lemma usage_nonneg j : 0 <= tree_nodes j /\ 0 <= tree_work j /\ 0 <= tree_bytes j.
Proof.
  induction j as [| |[]|z|s|items IH|fields IH] using json_tree_ind; cbn [tree_nodes tree_work tree_bytes];
    try (pose proof (byte_length_nonneg (toString z))); try (pose proof (byte_length_nonneg (quote s))); try lia.
  - pose proof (foldr_sum_nonneg tree_nodes items ltac:(eapply Forall_impl; [exact IH|naive_solver])).
    pose proof (foldr_sum_nonneg tree_work items ltac:(eapply Forall_impl; [exact IH|naive_solver])).
    pose proof (foldr_sum_nonneg tree_bytes items ltac:(eapply Forall_impl; [exact IH|naive_solver])).
    unfold separators. lia.
  - pose proof (foldr_sum_nonneg (fun kv => tree_nodes kv.2) fields ltac:(eapply Forall_impl; [exact IH|naive_solver])).
    pose proof (foldr_sum_nonneg (fun kv => tree_work kv.2) fields ltac:(eapply Forall_impl; [exact IH|naive_solver])).
    pose proof (foldr_sum_nonneg (fun kv : string * json => byte_length (quote kv.1) + 1 + tree_bytes kv.2) fields
      ltac:(eapply Forall_impl; [exact IH|intros kv (_ & _ & ?); pose proof (byte_length_nonneg (quote kv.1)); lia])).
    unfold separators. lia.
Qed.

Lemma usage_eq a b c a' b' c' : a = a' -> b = b' -> c = c' -> Usage a b c = Usage a' b' c'.
Proof. congruence. Qed.

Lemma total_mono pending u :
  nodes u <= nodes (total pending u) /\ work u <= work (total pending u) /\
  canonicalBytes u <= canonicalBytes (total pending u).
Proof.
  unfold total. induction pending as [|p pending IH]; cbn [foldr]; [lia|].
  set (t := foldr _ u pending) in *. clearbody t. unfold frame_usage, add_usage, usage_of. pose proof (usage_nonneg (value p)).
  destruct (exit p); cbn [nodes work canonicalBytes]; lia.
Qed.

Lemma total_app a b u : total (a ++ b) u = total a (total b u).
Proof. unfold total. by rewrite foldr_app. Qed.

Lemma total_add pending u v : total pending (add_usage u v) = add_usage (total pending u) v.
Proof.
  unfold total. induction pending as [|p pending IH]; cbn [foldr]; [done|]. rewrite IH.
  set (t := foldr _ u pending) in *. clearbody t. unfold add_usage; cbn [nodes work canonicalBytes]. apply usage_eq; lia.
Qed.

Lemma foldr_add_app l l' : foldr Z.add 0 (l ++ l') = foldr Z.add 0 l + foldr Z.add 0 l'.
Proof. induction l as [|x l IH]; cbn; [done|]. lia. Qed.
Lemma foldr_add_rev l : foldr Z.add 0 (rev l) = foldr Z.add 0 l.
Proof. induction l as [|x l IH]; cbn; [done|]. rewrite foldr_add_app. cbn. lia. Qed.
Lemma forallb_rev {A} (f : A -> bool) l : forallb f (rev l) = forallb f l.
Proof. induction l as [|x l IH]; cbn; [done|]. rewrite forallb_app. cbn. by rewrite IH, andb_true_r, andb_comm. Qed.
Lemma forallb_andb {A} (f g : A -> bool) l : forallb (fun x => f x && g x) l = forallb f l && forallb g l.
Proof. induction l as [|x l IH]; cbn; [done|]. rewrite IH. destruct (f x), (g x), (forallb f l); done. Qed.

Section WalkLemmas.
Context (profile : ResourceBudgetProfile) (lbl err : string).
#[local] Abbreviation visit := (visit profile lbl err).
#[local] Abbreviation walk := (walk profile lbl err).

Lemma budget_fail_if_ok b m u : budget_fail_if lbl err b m = Ok u <-> b = false.
Proof. destruct b, u; cbn; naive_solver. Qed.

Lemma addWork_ok n u u' :
  addWork profile lbl err n u = Ok u' <->
  u' = Usage (nodes u) (work u + n) (canonicalBytes u) /\ work u + n <= maxValidationWork profile.
Proof.
  unfold addWork. rewrite bind_ok. setoid_rewrite budget_fail_if_ok. split.
  - intros ([] & H & [= <-]). inv_bool. done.
  - intros [-> H]. exists (). split; [lia|done].
Qed.

Lemma addCanonicalBytes_ok n u u' :
  addCanonicalBytes profile lbl err n u = Ok u' <->
  u' = Usage (nodes u) (work u) (canonicalBytes u + n) /\ canonicalBytes u + n <= maxCanonicalBytes profile.
Proof.
  unfold addCanonicalBytes. rewrite bind_ok. setoid_rewrite budget_fail_if_ok. split.
  - intros ([] & H & [= <-]). inv_bool. done.
  - intros [-> H]. exists (). split; [lia|done].
Qed.

Definition field_frame (d : Z) (kv : string * json) : PendingValue := Pending kv.2 d (Some kv.1) false.
Definition key_bytes (kv : string * json) : Z := byte_length (quote kv.1) + 1.

Lemma key_bytes_sum_nonneg l : 0 <= foldr Z.add 0 (map key_bytes l).
Proof.
  apply foldr_sum_nonneg, Forall_true. intros kv. unfold key_bytes.
  pose proof (byte_length_nonneg (quote kv.1)). lia.
Qed.

Lemma fields_bytes fields :
  0 <= foldr Z.add 0 (map key_bytes fields) <=
  foldr Z.add 0 (map (fun kv => byte_length (quote kv.1) + 1 + tree_bytes kv.2) fields).
Proof.
  split; [apply key_bytes_sum_nonneg|]. induction fields as [|[k v] fields IH]; cbn [map foldr]; [lia|].
  assert (key_bytes (k, v) = byte_length (quote k) + 1) as -> by done. cbn [fst snd].
  pose proof (usage_nonneg v). lia.
Qed.

Lemma push_fields_ok d l pending u pending' u' :
  fold_result (push_field profile lbl err d) l (pending, u) = Ok (pending', u') <->
  pending' = rev (map (field_frame d) l) ++ pending /\
  u' = Usage (nodes u) (work u) (canonicalBytes u + foldr Z.add 0 (map key_bytes l)) /\
  forallb (fun kv => byte_length kv.1 <=? maxStringBytes profile) l = true /\
  (l <> [] -> canonicalBytes u + foldr Z.add 0 (map key_bytes l) <= maxCanonicalBytes profile).
Proof.
  revert pending u. induction l as [|[k v] l IH]; intros pending u; cbn [fold_result].
  { cbn. rewrite Z.add_0_r. destruct u. naive_solver. }
  unfold push_field at 1. rewrite bind_ok. cbn [rev map foldr forallb].
  assert (key_bytes (k, v) = byte_length (quote k) + 1) as -> by done.
  setoid_rewrite bind_ok. setoid_rewrite budget_fail_if_ok. setoid_rewrite bind_ok.
  setoid_rewrite addCanonicalBytes_ok. split.
  - intros ([pn un] & ([] & Hk & un' & [-> Hb] & [= <- <-]) & Hrec). apply IH in Hrec as (-> & -> & Hks & Hl).
    inv_bool. rewrite <- app_assoc. cbn [nodes work canonicalBytes fst snd] in *.
    split; [done|]. split; [apply usage_eq; try done; lia|].
    split; [rewrite Hks, andb_true_r; lia|]. intros _.
    destruct l; [cbn [map foldr]; lia|]. specialize (Hl ltac:(done)). lia.
  - intros (-> & -> & Hks & Hl). specialize (Hl ltac:(done)). apply andb_true_iff in Hks as [Hk Hks].
    pose proof (key_bytes_sum_nonneg l). cbn [nodes work canonicalBytes fst snd] in *.
    eexists (_, _). split.
    { exists (). split; [lia|]. eexists. split; [split; [reflexivity|lia]|reflexivity]. }
    apply IH. rewrite <- app_assoc. cbn [nodes work canonicalBytes fst snd].
    split; [done|]. split; [apply usage_eq; lia|]. split; [done|]. lia.
Qed.

Definition item_frame (d : Z) (v : json) : PendingValue := Pending v d None false.

Lemma array_frames (d : Z) items pending :
  foldr (fun v pending => Pending v d None false :: pending) pending items =
  map (item_frame d) items ++ pending.
Proof. induction items as [|v items IH]; cbn; [done|]. by rewrite IH. Qed.

Lemma total_items d items pending u :
  total (map (item_frame d) items ++ pending) u =
  add_usage (total pending u)
    (Usage (foldr Z.add 0 (map tree_nodes items)) (foldr Z.add 0 (map tree_work items))
           (foldr Z.add 0 (map tree_bytes items))).
Proof.
  rewrite total_app. unfold total at 1. set (t := total pending u). clearbody t.
  induction items as [|v items IH]; cbn [map foldr].
  - destruct t. unfold add_usage. cbn. f_equal; lia.
  - rewrite IH. unfold add_usage, frame_usage, usage_of. cbn. apply usage_eq; lia.
Qed.

Lemma total_fields d fields pending n w b :
  total (map (field_frame d) fields ++ pending) (Usage n w (b + foldr Z.add 0 (map key_bytes fields))) =
  add_usage (total pending (Usage n w b))
    (Usage (foldr Z.add 0 (map (fun kv => tree_nodes kv.2) fields))
           (foldr Z.add 0 (map (fun kv => tree_work kv.2) fields))
           (foldr Z.add 0 (map (fun kv => byte_length (quote kv.1) + 1 + tree_bytes kv.2) fields))).
Proof.
  rewrite total_app.
  assert (Usage n w (b + foldr Z.add 0 (map key_bytes fields)) =
          add_usage (Usage n w b) (Usage 0 0 (foldr Z.add 0 (map key_bytes fields)))) as ->.
  { unfold add_usage. cbn. apply usage_eq; lia. }
  generalize (Usage n w b). intros u.
  rewrite !total_add. set (t := total pending u). clearbody t. unfold total.
  induction fields as [|[k v] fields IH]; cbn [map foldr].
  - destruct t. unfold add_usage. cbn. apply usage_eq; lia.
  - assert (key_bytes (k, v) = byte_length (quote k) + 1) as -> by done.
    set (a := foldr _ t _) in *. clearbody a. unfold add_usage, frame_usage, usage_of in *. cbn in *.
    injection IH as H1 H2 H3. apply usage_eq; lia.
Qed.

Lemma exits_cons p pending : exits (p :: pending) = (if exit p then 1 else 0) + exits pending.
Proof. done. Qed.

Lemma exits_frames {A} (f : A -> PendingValue) l pending :
  (forall x, exit (f x) = false) -> exits (map f l ++ pending) = exits pending.
Proof.
  intros Hf. induction l as [|x l IH]; cbn [map app]; [done|]. by rewrite exits_cons, Hf, IH.
Qed.

Lemma frames_ok {A} (f : A -> PendingValue) l pending :
  forallb (frame_ok profile) (map f l ++ pending) =
  forallb (fun x => frame_ok profile (f x)) l && forallb (frame_ok profile) pending.
Proof. induction l as [|x l IH]; cbn; [done|]. by rewrite IH, andb_assoc. Qed.

(** A successful iteration keeps the total usage and the verdict on the remaining values,
    stays inside the limits, and brings the loop closer to its end. *)
Definition step_keeps p pending u pending' u' : Prop :=
  total pending' u' = total (p :: pending) u /\
  forallb (frame_ok profile) pending' = forallb (frame_ok profile) (p :: pending) /\
  potential profile pending' u' < potential profile (p :: pending) u /\
  (within profile u -> within profile u').

Lemma total_cons p pending u : total (p :: pending) u = total pending (add_usage u (frame_usage p)).
Proof. by rewrite total_add. Qed.

Lemma leaf_keeps p pending u n :
  exit p = false -> shape_ok profile (depth p) (field p) (value p) = true ->
  usage_of (value p) = Usage 1 1 n ->
  nodes u + 1 <= maxNodes profile -> work u + 1 <= maxValidationWork profile ->
  canonicalBytes u + n <= maxCanonicalBytes profile ->
  step_keeps p pending u pending (Usage (nodes u + 1) (work u + 1) (canonicalBytes u + n)).
Proof.
  intros He Hs Hu ???. unfold step_keeps, potential. rewrite total_cons, exits_cons. cbn [forallb nodes].
  unfold frame_ok, frame_usage. rewrite He, Hs, Hu. repeat split; cbn; lia.
Qed.

Ltac inv_visit :=
  repeat match goal with
  | H : mbind _ _ = Ok _ |- _ => apply bind_ok in H as (? & ? & H)
  | H : budget_fail_if _ _ _ _ = Ok _ |- _ => apply budget_fail_if_ok in H
  | H : addWork _ _ _ _ _ = Ok _ |- _ => apply addWork_ok in H as [-> H]
  | H : addCanonicalBytes _ _ _ _ _ = Ok _ |- _ => apply addCanonicalBytes_ok in H as [-> H]
  | H : Ok _ = Ok _ |- _ => injection H as <- <-
  | x : () |- _ => destruct x
  end; inv_bool; cbn [nodes work canonicalBytes] in *.

Lemma visit_keeps p pending u pending' u' :
  visit p pending u = Ok (pending', u') -> step_keeps p pending u pending' u'.
Proof.
  unfold ResourceBudget.visit. destruct (exit p) eqn:He.
  { intros [= <- <-]. unfold step_keeps, potential. rewrite exits_cons. cbn [forallb].
    rewrite total_cons. unfold frame_ok, frame_usage, add_usage. rewrite He, !Z.add_0_r.
    destruct u. split; [done|split; [done|split; [lia|done]]]. }
  intros Hv. destruct (value p) as [| |b|z|s|items|fields] eqn:Ev; inv_visit.
  - discriminate.
  - apply leaf_keeps; rewrite ?Ev; cbn; try done; lia.
  - apply leaf_keeps; rewrite ?Ev; cbn; try done; lia.
  - apply leaf_keeps; rewrite ?Ev; cbn; try done; lia.
  - apply leaf_keeps; rewrite ?Ev; cbn; try done; lia.
  - rewrite array_frames. unfold step_keeps, potential. rewrite total_items, frames_ok, (exits_frames (item_frame _)) by done.
    rewrite !exits_cons. cbn [forallb nodes exit].
    split; [|split; [|split; [rewrite He; lia|intros _; unfold within; cbn [nodes work canonicalBytes]; lia]]].
    + rewrite !total_cons, <- total_add. f_equal. unfold frame_usage. rewrite He, Ev. unfold add_usage, usage_of.
      cbn. unfold separators. apply usage_eq; lia.
    + unfold frame_ok. cbn. rewrite He, Ev. cbn. f_equal.
      assert (depth p <=? maxDepth profile = true) as -> by lia.
      replace (Z.of_nat (length items) <=? array_limit profile (field p)) with true by lia. done.
  - apply push_fields_ok in Hv as (-> & -> & Hk & Hb). rewrite forallb_rev in Hk.
    rewrite (map_rev key_bytes), foldr_add_rev in *. rewrite (map_rev (field_frame _)), rev_involutive. cbn [nodes work canonicalBytes] in *.
    unfold step_keeps, potential. rewrite total_fields, frames_ok, (exits_frames (field_frame _)) by done.
    rewrite !exits_cons. cbn [forallb nodes work canonicalBytes exit] in *.
    split; [|split; [|split; [rewrite He; lia|]]].
    + rewrite !total_cons, <- total_add. f_equal. unfold frame_usage. rewrite He, Ev. unfold add_usage, usage_of.
      cbn. unfold separators. apply usage_eq; lia.
    + unfold frame_ok. cbn. rewrite He, Ev. cbn. f_equal.
      replace (depth p <=? maxDepth profile) with true by lia.
      replace (Z.of_nat (length fields) <=? object_limit profile (field p)) with true by lia.
      cbn [andb]. by rewrite forallb_andb, Hk.
    + unfold within; cbn [nodes work canonicalBytes]. destruct fields; [cbn in *; lia|].
      specialize (Hb ltac:(intros E%(f_equal List.length); by rewrite length_rev in E)). lia.
Qed.

Lemma potential_nonneg pending u : nodes u <= maxNodes profile -> 0 <= potential profile pending u.
Proof.
  intros. unfold potential, exits.
  pose proof (foldr_sum_nonneg (fun p => if exit p then 1 else 0) pending
    ltac:(apply Forall_true; intros q; destruct (exit q); lia)). lia.
Qed.

(** Enough fuel: the loop ends. *)
Lemma walk_terminates fuel pending u :
  within profile u -> potential profile pending u < Z.of_nat fuel -> exists r, walk fuel pending u = Some r.
Proof.
  revert pending u. induction fuel as [|fuel IH]; intros pending u Hu Hf.
  { pose proof (potential_nonneg pending u (proj1 Hu)). lia. }
  destruct pending as [|p pending]; cbn [ResourceBudget.walk]; [eauto|].
  destruct (visit p pending u) as [[pending' u']|e] eqn:Hv; [|eauto].
  apply visit_keeps in Hv as (_ & _ & Hp & Hw). apply IH; [auto|lia].
Qed.

(** A walk that succeeds has seen only allowed values and counted them all. *)
Lemma walk_sound fuel pending u r :
  within profile u -> walk fuel pending u = Some (Ok r) ->
  r = total pending u /\ forallb (frame_ok profile) pending = true /\ within profile r.
Proof.
  revert pending u. induction fuel as [|fuel IH]; intros [|p pending] u Hu Hw; cbn [ResourceBudget.walk] in Hw;
    [naive_solver|done|naive_solver|].
  destruct (visit p pending u) as [[pending' u']|e] eqn:Hv; [|done].
  apply visit_keeps in Hv as (Ht & Hf & _ & Hw'). rewrite <- Ht, <- Hf. apply IH; auto.
Qed.

Lemma addWork_run n u : work u + n <= maxValidationWork profile ->
  addWork profile lbl err n u = Ok (Usage (nodes u) (work u + n) (canonicalBytes u)).
Proof. intros. by apply addWork_ok. Qed.
Lemma addCanonicalBytes_run n u : canonicalBytes u + n <= maxCanonicalBytes profile ->
  addCanonicalBytes profile lbl err n u = Ok (Usage (nodes u) (work u) (canonicalBytes u + n)).
Proof. intros. by apply addCanonicalBytes_ok. Qed.
Lemma budget_pass b m : b = false -> budget_fail_if lbl err b m = Ok tt.
Proof. by intros ->. Qed.

Ltac run_visit :=
  repeat first
    [ rewrite addWork_run by (cbn [nodes work canonicalBytes]; unfold separators in *; lia)
    | rewrite addCanonicalBytes_run by (cbn [nodes work canonicalBytes]; unfold separators in *; lia)
    | rewrite budget_pass by (cbn [nodes work canonicalBytes]; lia)
    | progress cbn [mbind result_bind nodes work canonicalBytes] ].

(** A walk whose total stays within the limits over allowed values never throws. *)
Lemma visit_complete p pending u :
  forallb (frame_ok profile) (p :: pending) = true -> within profile (total (p :: pending) u) ->
  exists s, visit p pending u = Ok s.
Proof.
  rewrite total_cons. cbn [forallb]. unfold frame_ok at 1, frame_usage, ResourceBudget.visit.
  destruct (exit p) eqn:He; [eauto|]. cbn [orb]. intros [Hs _]%andb_true_iff (Hw1 & Hw2 & Hw3).
  pose proof (total_mono pending (add_usage u (usage_of (value p)))) as Hm.
  destruct (value p) as [| |b|z|s|items|fields] eqn:Ev; cbn [shape_ok usage_of tree_nodes tree_work tree_bytes
    add_usage nodes work canonicalBytes] in *; apply andb_true_iff in Hs as [Hd Hs];
    [done| | | | |apply andb_true_iff in Hs as [Hl _]|apply andb_true_iff in Hs as [Hl Hs]].
  1-4: run_visit; eauto.
  - pose proof (foldr_sum_nonneg tree_nodes items ltac:(apply Forall_true; intros; apply usage_nonneg)).
    pose proof (foldr_sum_nonneg tree_work items ltac:(apply Forall_true; intros; apply usage_nonneg)).
    pose proof (foldr_sum_nonneg tree_bytes items ltac:(apply Forall_true; intros; apply usage_nonneg)).
    run_visit; eauto.
  - pose proof (foldr_sum_nonneg (fun kv => tree_nodes kv.2) fields ltac:(apply Forall_true; intros; apply usage_nonneg)).
    pose proof (foldr_sum_nonneg (fun kv => tree_work kv.2) fields ltac:(apply Forall_true; intros; apply usage_nonneg)).
    pose proof (fields_bytes fields).
    rewrite forallb_andb in Hs. apply andb_true_iff in Hs as [Hk _].
    run_visit. eexists. apply push_fields_ok. split; [reflexivity|]. split; [reflexivity|].
    rewrite forallb_rev, (map_rev key_bytes), foldr_add_rev. split; [done|]. intros _. cbn [canonicalBytes].
    unfold separators in *. lia.
Qed.

Lemma walk_complete fuel pending u :
  within profile u -> forallb (frame_ok profile) pending = true -> within profile (total pending u) ->
  potential profile pending u < Z.of_nat fuel -> walk fuel pending u = Some (Ok (total pending u)).
Proof.
  revert pending u. induction fuel as [|fuel IH]; intros pending u Hu Hf Ht Hp.
  { pose proof (potential_nonneg pending u (proj1 Hu)). lia. }
  destruct pending as [|p pending]; [done|]. cbn [ResourceBudget.walk].
  destruct (visit_complete p pending u Hf Ht) as [[pending' u'] Hv]. rewrite Hv.
  apply visit_keeps in Hv as (Ht' & Hf' & Hp' & Hw'). rewrite <- Ht', <- Hf' in *. apply IH; auto. lia.
Qed.

End WalkLemmas.

(** ** The counted bytes are those of the canonical text *)

Fixpoint no_undefined (j : json) : bool :=
  match j with
  | JUndefined => false
  | JArray items => forallb no_undefined items
  | JObject fields => forallb (fun kv => no_undefined kv.2) fields
  | _ => true
  end.

Lemma shape_no_undefined profile d f j : shape_ok profile d f j = true -> no_undefined j = true.
Proof.
  revert d f. induction j as [| |b|z|s|items IH|fields IH] using json_tree_ind; intros d f H;
    cbn [shape_ok no_undefined] in *; try done; apply andb_true_iff in H as [_ H]; try done;
    apply andb_true_iff in H as [_ H]; rewrite forallb_elem in *; rewrite Forall_forall in IH; intros x Hx.
  - eapply IH; eauto.
  - specialize (H x Hx). apply andb_true_iff in H as [_ H]. eapply IH; eauto.
Qed.

Lemma insert_field_map {A B} (g : string * A -> B) kv l :
  insert_field (kv.1, g kv) (map (fun kv => (kv.1, g kv)) l) = map (fun kv => (kv.1, g kv)) (insert_field kv l).
Proof. induction l as [|kv' l IH]; cbn; [done|]. destruct (key_le _ _); cbn; [done|]. by rewrite IH. Qed.

Lemma sort_fields_map {A B} (g : string * A -> B) l :
  sort_fields (map (fun kv => (kv.1, g kv)) l) = map (fun kv => (kv.1, g kv)) (sort_fields l).
Proof. unfold sort_fields. induction l as [|kv l IH]; cbn; [done|]. by rewrite IH, insert_field_map. Qed.

Lemma sort_fields_permutation {A} (l : list (string * A)) : sort_fields l ≡ₚ l.
Proof.
  assert (forall kv (l : list (string * A)), insert_field kv l ≡ₚ kv :: l) as Hins.
  { intros kv m. induction m as [|kv' m IH]; cbn; [done|]. destruct (key_le _ _); [done|]. rewrite IH. constructor. }
  unfold sort_fields. induction l as [|kv l IH]; cbn; [done|]. by rewrite Hins, IH.
Qed.

Lemma sum_permutation l l' : l ≡ₚ l' -> foldr Z.add 0 l = foldr Z.add 0 l'.
Proof. induction 1; cbn; lia. Qed.

Lemma map_result_ok {A B} (f : A -> result B) (g : A -> B) l :
  (forall x, x ∈ l -> f x = Ok (g x)) -> map_result f l = Ok (map g l).
Proof.
  induction l as [|x l IH]; intros H; cbn; [done|].
  rewrite H by (by left). cbn. rewrite IH; [done|]. intros y Hy. apply H. by right.
Qed.

Lemma render_sorted_array items :
  forallb no_undefined items = true ->
  stableJson (JArray items) = "[" +:+ join "," (map stableJson items) +:+ "]".
Proof.
  intros H. unfold stableJson. cbn [sorted_keys render]. rewrite map_map. do 3 f_equal.
  apply map_ext_in. intros j Hj%list_elem_of_In. rewrite forallb_elem in H. by destruct j; [specialize (H _ Hj)|..].
Qed.

Lemma render_sorted_object fields :
  stableJson (JObject fields) =
  "{" +:+ join "," (map (fun kv => quote kv.1 +:+ ":" +:+ stableJson kv.2) (sort_fields fields)) +:+ "}".
Proof.
  unfold stableJson. cbn [sorted_keys render].
  by rewrite (sort_fields_map (fun kv => sorted_keys kv.2)), map_map.
Qed.

(** The core package's [stableStringify] and the server's [stableJson] agree. *)
Lemma stringifyJson_stable j path : no_undefined j = true -> stringifyJson path j = Ok (stableJson j).
Proof.
  revert path. induction j as [| |[]|z|s|items IH|fields IH] using json_tree_ind; intros path H; try done;
    cbn [no_undefined] in H; rewrite Forall_forall in IH; rewrite forallb_elem in H.
  - cbn [stringifyJson]. rewrite render_sorted_array by (by apply forallb_elem).
    match goal with |- (parts ← ?go 0 items; _) = _ =>
      assert (forall l n, (forall x, x ∈ l -> x ∈ items) -> go n l = Ok (map stableJson l)) as Hgo end.
    { intros l. induction l as [|x l IHl]; intros n Hl; [done|].
      rewrite (IH x); [|by apply Hl; left|by apply H, Hl; left]. cbn [mbind result_bind].
      rewrite IHl; [done|]. intros y Hy. apply Hl. by right. }
    by rewrite Hgo.
  - cbn [stringifyJson]. rewrite render_sorted_object.
    rewrite (sort_fields_map (fun kv => stringifyJson (path +:+ "." +:+ kv.1) kv.2)).
    assert (forall l, (forall x, x ∈ l -> x ∈ fields) ->
      map_result (fun kv : string * result string => t ← kv.2; Ok (quote kv.1 +:+ ":" +:+ t))
        (map (fun kv => (kv.1, stringifyJson (path +:+ "." +:+ kv.1) kv.2)) l) =
      Ok (map (fun kv => quote kv.1 +:+ ":" +:+ stableJson kv.2) l)) as Hm.
    { induction l as [|x l IHl]; intros Hl; cbn [map map_result fst snd]; [done|].
      rewrite (IH x); [|by apply Hl; left|by apply H, Hl; left]. cbn [mbind result_bind].
      rewrite IHl; [done|]. intros y Hy. apply Hl. by right. }
    rewrite Hm; [done|]. intros x. by rewrite sort_fields_elem.
Qed.

Lemma join_bytes l :
  byte_length (join "," l) = foldr Z.add 0 (map byte_length l) + Z.max 0 (Z.of_nat (length l) - 1).
Proof.
  induction l as [|x [|y l] IH]; [done|cbn; lia|].
  change (join "," (x :: y :: l)) with (x +:+ "," +:+ join "," (y :: l)).
  rewrite !byte_length_append, IH. cbn [map foldr length]. change (byte_length ",") with 1. lia.
Qed.

Lemma tree_bytes_stable j : no_undefined j = true -> tree_bytes j = byte_length (stableJson j).
Proof.
  induction j as [| |[]|z|s|items IH|fields IH] using json_tree_ind; intros H; try done;
    cbn [no_undefined] in H; rewrite Forall_forall in IH; cbn [tree_bytes]; unfold separators.
  - rewrite render_sorted_array, !byte_length_append, join_bytes, length_map by done.
    rewrite forallb_elem in H. change (byte_length "[") with 1. change (byte_length "]") with 1.
    rewrite map_map. rewrite (map_ext_in tree_bytes (fun x => byte_length (stableJson x))); [lia|].
    intros x Hx%list_elem_of_In. by apply IH; [|apply H].
  - rewrite render_sorted_object, !byte_length_append, join_bytes, length_map, map_map.
    rewrite forallb_elem in H. change (byte_length "{") with 1. change (byte_length "}") with 1.
    rewrite (Permutation_length (sort_fields_permutation fields)).
    rewrite (sum_permutation _ _ (Permutation_map (fun kv => byte_length (quote kv.1 +:+ ":" +:+ stableJson kv.2))
      (sort_fields_permutation fields))).
    rewrite (map_ext_in _ (fun kv => byte_length (quote kv.1 +:+ ":" +:+ stableJson kv.2))); [lia|].
    intros kv Hkv%list_elem_of_In. rewrite !byte_length_append, (IH kv) by auto. change (byte_length ":") with 1. lia.
Qed.

(** ** Errors *)

Definition budget_error (lbl err : string) (e : error) : Prop :=
  exists msg, e = KaspaX402Error err (lbl +:+ " " +:+ msg).

Section Errors.
Context (profile : ResourceBudgetProfile) (lbl err : string).

Lemma budget_fail_if_error b m e : budget_fail_if lbl err b m = Throw e -> budget_error lbl err e.
Proof. destruct b; cbn; intros [=]; subst. by eexists. Qed.
Lemma addWork_error n u e : addWork profile lbl err n u = Throw e -> budget_error lbl err e.
Proof. unfold addWork. intros [?%budget_fail_if_error|(? & ? & [=])]%bind_throw; done. Qed.
Lemma addCanonicalBytes_error n u e :
  addCanonicalBytes profile lbl err n u = Throw e -> budget_error lbl err e.
Proof. unfold addCanonicalBytes. intros [?%budget_fail_if_error|(? & ? & [=])]%bind_throw; done. Qed.

Ltac inv_throw :=
  repeat match goal with
  | H : budget_fail_if _ _ _ _ = Throw _ |- _ => by apply budget_fail_if_error in H
  | H : addWork _ _ _ _ _ = Throw _ |- _ => by apply addWork_error in H
  | H : addCanonicalBytes _ _ _ _ _ = Throw _ |- _ => by apply addCanonicalBytes_error in H
  | H : Ok _ = Throw _ |- _ => discriminate H
  | H : mbind _ _ = Throw _ |- _ => apply bind_throw in H as [H|(? & _ & H)]
  end.

Lemma push_fields_error d l s e :
  fold_result (push_field profile lbl err d) l s = Throw e -> budget_error lbl err e.
Proof.
  revert s. induction l as [|[k v] l IH]; intros [pending u]; cbn [fold_result]; [done|].
  intros [H|(s & _ & H)]%bind_throw; [|by apply IH in H]. unfold push_field in H. inv_throw.
Qed.

Lemma visit_error p pending u e : visit profile lbl err p pending u = Throw e -> budget_error lbl err e.
Proof.
  unfold visit. destruct (exit p); [done|]. intros H.
  destruct (value p); inv_throw; [|by apply push_fields_error in H].
  unfold budget_fail in H. injection H as <-. by eexists.
Qed.

Lemma walk_error fuel pending u e :
  walk profile lbl err fuel pending u = Some (Throw e) -> budget_error lbl err e.
Proof.
  revert pending u. induction fuel as [|fuel IH]; intros [|p pending] u; cbn [walk]; try done.
  destruct (visit profile lbl err p pending u) as [[pending' u']|e'] eqn:Hv; [apply IH|].
  intros [= ->]. by apply visit_error in Hv.
Qed.
End Errors.

Lemma singleton_total profile j :
  total [Pending j 0 None false] (Usage 0 0 0) = usage_of j /\
  forallb (frame_ok profile) [Pending j 0 None false] = shape_ok profile 0 None j /\
  potential profile [Pending j 0 None false] (Usage 0 0 0) = 2 * maxNodes profile.
Proof.
  unfold total, frame_ok, potential. cbn. split; [done|]. split; [by rewrite andb_true_r|lia].
Qed.

Lemma no_undefined_dense j : no_undefined j = true -> dense j = true.
Proof.
  induction j as [| |b|z|s|items IH|fields IH] using json_tree_ind; cbn [no_undefined dense]; try done;
    rewrite Forall_forall in IH; rewrite !forallb_elem; intros H x Hx; specialize (H x Hx).
  - rewrite IH by done. by destruct x.
  - by apply IH.
Qed.

Lemma assert_budget_ok profile label err j r :
  0 <= maxNodes profile -> 0 <= maxValidationWork profile -> 0 <= maxCanonicalBytes profile ->
  assertJsonResourceBudget_with profile label err j = Ok r -> shape_ok profile 0 None j = true /\ r = usage_of j.
Proof.
  intros H1 H2 H3. unfold assertJsonResourceBudget_with. destruct (walk _ _ _ _ _ _) as [[?|?]|] eqn:Hw; [|done..].
  intros [= ->]. apply walk_sound in Hw as (-> & Hs & _); [|done].
  destruct (singleton_total profile j) as (Ht & Hf & _). by rewrite <- Hf, <- Ht.
Qed.

(** Canonical text identifies the key-sorted tree. *)
Lemma stableStringify_ok j s : stableStringify j = Ok s -> s = stableJson j /\ no_undefined j = true.
Proof.
  unfold stableStringify. intros (r & Hr & Hs)%bind_ok.
  apply assert_budget_ok in Hr as [Hr _]; [|done..]. apply shape_no_undefined in Hr.
  rewrite stringifyJson_stable in Hs by done. by injection Hs as <-.
Qed.

Lemma stableStringify_inj j j' s :
  stableStringify j = Ok s -> stableStringify j' = Ok s -> sorted_keys j = sorted_keys j'.
Proof.
  intros [-> Hj]%stableStringify_ok [E Hj']%stableStringify_ok.
  by apply stableJson_inj; auto using no_undefined_dense.
Qed.

(** C39.  [assertJsonResourceBudget] always ends (its loop never outlives the admitted
    node count).  It accepts exactly the trees whose every value respects the depth, string,
    array and property limits of its field and whose node, work and canonical-byte totals
    stay inside the profile, reports those totals, and on acceptance the canonical bytes are
    the length of the text [stableStringify] produces, which then never throws.  Every
    rejection carries the payload error code and the caller's label. *)
Theorem json_budget_exact label j :
  let P := KASPA_X402_RESOURCE_BUDGET in
  match assertJsonResourceBudget label j with
  | Ok r =>
      r = usage_of j /\ shape_ok P 0 None j = true /\ within P r /\
      stringifyJson "$" j = Ok (stableJson j) /\ canonicalBytes r = byte_length (stableJson j)
  | Throw e =>
      budget_error label "invalid_kaspa_x402_payload" e /\
      (shape_ok P 0 None j = false \/ ~ within P (usage_of j))
  end.
Proof.
  intros P. unfold assertJsonResourceBudget, assertJsonResourceBudget_with.
  destruct (singleton_total P j) as (Ht & Hf & Hp).
  assert (within P (Usage 0 0 0)) as H0 by (unfold within; cbn; lia).
  assert (potential P [Pending j 0 None false] (Usage 0 0 0) < Z.of_nat (walk_fuel P)) as Hfuel
    by (rewrite Hp; vm_compute; done).
  destruct (walk_terminates P label "invalid_kaspa_x402_payload" _ _ _ H0 Hfuel) as [[r|e] Hw];
    fold P; rewrite Hw.
  - apply walk_sound in Hw as (-> & Hs & Hr); [|done]. rewrite Ht in *. rewrite Hf in Hs.
    pose proof (shape_no_undefined _ _ _ _ Hs) as Hn.
    repeat split; try apply Hr; [done|by apply stringifyJson_stable|by apply tree_bytes_stable].
  - split; [by apply walk_error in Hw|].
    destruct (shape_ok P 0 None j) eqn:Hs; [right|by left]. intros Hr. rewrite <- Ht in Hr.
    by rewrite (walk_complete _ label "invalid_kaspa_x402_payload" _ _ _ H0 Hf Hr Hfuel) in Hw.
Qed.
