(* ===== verification/Commitment.v ===== *)
(** * Channel ids, voucher digests and batch commitments

    Models [protocol/packages/core/src/channel.ts], [voucher.ts] and [batch-commitment.ts]:
    the byte strings that are hashed and signed, with every check made while they are built.
    SHA-256 is a parameter; the theorems only use that its digests are 32 bytes. *)

From S2P Require Import Prelude Amount BatchLane Json Binary ResourceBudget.

Definition ASSET_ID : string := "KAS".
Definition ESCROW_BINDING_ID : string := "kaspa-escrow-v3".
Definition ESCROW_TEMPLATE_ID : string := "kaspa-x402-escrow-v5".
Definition VOUCHER_DOMAIN_TAG : string := "kaspa:x402:escrow-voucher:v3".
Definition CHANNEL_DOMAIN_TAG : string := "kaspa:x402:channel:v2".
Definition BATCH_PAYMENT_REQUIREMENTS_DOMAIN_TAG : string := "kaspa:x402:batch-payment-requirements:v3".
Definition BATCH_COMMITMENT_DOMAIN_TAG : string := "kaspa:x402:batch-commitment:v3".
Definition KASPA_LOCK_TIME_THRESHOLD : Z := 500000000000.

(** ** [BigInt(text)] *)

Fixpoint trim_end (fuel : nat) (l : list Z) : list Z :=
  match l with
  | [] => []
  | c :: l' => match trim_start fuel l with [] => [] | _ => c :: trim_end fuel l' end
  end.
Definition radix_digit (radix c : Z) : option Z :=
  let d := if (48 <=? c) && (c <=? 57) then c - 48
           else if (97 <=? c) && (c <=? 102) then c - 87
           else if (65 <=? c) && (c <=? 70) then c - 55 else 99 in
  if d <? radix then Some d else None.
Definition radix_value (radix : Z) (l : list Z) : option Z :=
  match l with
  | [] => None
  | _ => foldl (fun acc c => acc ← acc; d ← radix_digit radix c; Some (acc * radix + d)) (Some 0) l
  end.
(** White space is trimmed, no text is zero, and hexadecimal, octal, binary and signed
    decimal literals are read; anything else is a [SyntaxError]. *)
Definition StringToBigInt (s : string) : option Z :=
  let l := code <$> list_ascii_of_string s in
  let l := trim_end (length l) (trim_start (length l) l) in
  match l with
  | [] => Some 0
  | c :: rest =>
      if c =? 45 then Z.opp <$> radix_value 10 rest
      else if c =? 43 then radix_value 10 rest
      else match rest with
           | d :: digits =>
               if negb (c =? 48) then radix_value 10 l
               else if (d =? 120) || (d =? 88) then radix_value 16 digits
               else if (d =? 111) || (d =? 79) then radix_value 8 digits
               else if (d =? 98) || (d =? 66) then radix_value 2 digits
               else radix_value 10 l
           | [] => radix_value 10 l
           end
  end.
Definition BigInt_text (s : string) : result Z :=
  match StringToBigInt s with Some n => Ok n | None => Throw (Error "Cannot convert to a BigInt") end.

Record ChannelConfig := {
  cc_network : string;
  cc_asset : string;
  cc_templateId : string;
  cc_clientPublicKey : string;
  cc_serverPublicKey : string;
  cc_payTo : string;
  cc_refundAddress : string;
  cc_refundTimeoutDaa : string;
  cc_salt : string
}.

Record VoucherDigestInput := {
  vd_network : string;
  vd_covenantId : string;
  vd_authorizedCumulativeAmount : string
}.

Record Voucher := {
  v_covenantId : string;
  v_authorizedCumulativeAmount : string;
  v_signature : string
}.

Record BatchRequirementsExtra := {
  binding : string;
  be_templateId : string;
  be_serverPublicKey : string;
  minDepositSompi : string;
  claimReserveSompi : string;
  be_refundTimeoutDaa : string;
  securityContextHash : string;
  mcpErrorChargeSompi : prop string;
  claimPolicy : prop json;
  channelState : prop json;
  assetKind : prop string;
  assetDecimals : prop Z
}.

Record BatchPaymentRequirements := {
  scheme : string;
  br_network : string;
  br_amount : string;
  br_asset : string;
  br_payTo : string;
  maxTimeoutSeconds : Z;
  extra : BatchRequirementsExtra
}.

Definition extra_json (e : BatchRequirementsExtra) : json :=
  JObject (
    [("binding", JString (binding e)); ("templateId", JString (be_templateId e));
     ("serverPublicKey", JString (be_serverPublicKey e)); ("minDepositSompi", JString (minDepositSompi e));
     ("claimReserveSompi", JString (claimReserveSompi e)); ("refundTimeoutDaa", JString (be_refundTimeoutDaa e));
     ("securityContextHash", JString (securityContextHash e))]
    ++ jprop "mcpErrorChargeSompi" JString (mcpErrorChargeSompi e)
    ++ jprop "claimPolicy" id (claimPolicy e) ++ jprop "channelState" id (channelState e)
    ++ jprop "assetKind" JString (assetKind e) ++ jprop "assetDecimals" JNumber (assetDecimals e)).

Definition requirements_json (r : BatchPaymentRequirements) : json :=
  JObject
    [("scheme", JString (scheme r)); ("network", JString (br_network r)); ("amount", JString (br_amount r));
     ("asset", JString (br_asset r)); ("payTo", JString (br_payTo r));
     ("maxTimeoutSeconds", JNumber (maxTimeoutSeconds r)); ("extra", extra_json (extra r))].

Record BatchCommitmentInput := {
  accepted : BatchPaymentRequirements;
  bc_channelId : string;
  presentationDigest : string;
  requestFingerprint : string;
  activeOutpoint_txid : string;
  activeOutpoint_index : Z;
  voucher : Voucher;
  fixedCharge : string;
  authorizedCumulativeBefore : string;
  authorizedCumulativeAfter : string;
  bc_claimedCumulativeAmount : string
}.

Section Sha.
Context (sha256 : bytes -> bytes).
#[local] Abbreviation digest := (sha256Text sha256).

(** ** channel.ts *)

Definition channelIdPreimage (input : ChannelConfig) : result bytes :=
  network ← parseKaspaNetwork (cc_network input);
  _ ← throw_code_if (cc_asset input !== ASSET_ID) "invalid_kaspa_x402_asset" "channel asset must be KAS";
  _ ← throw_code_if (cc_templateId input !== ESCROW_TEMPLATE_ID) "invalid_kaspa_x402_payload"
        "unsupported channel template id";
  timeout ← BigInt_text (cc_refundTimeoutDaa input);
  _ ← throw_code_if (KASPA_LOCK_TIME_THRESHOLD <=? timeout) "invalid_kaspa_x402_payload"
        "refundTimeoutDaa must remain below the consensus timestamp boundary";
  clientPublicKey ← hexToBytes (Some 32) "invalid_kaspa_public_key" "clientPublicKey" (cc_clientPublicKey input);
  serverPublicKey ← hexToBytes (Some 32) "invalid_kaspa_public_key" "serverPublicKey" (cc_serverPublicKey input);
  refundTimeoutDaa ← le64 (Text (cc_refundTimeoutDaa input));
  salt ← hexToBytes (Some 32) "invalid_kaspa_hex" "salt" (cc_salt input);
  Ok (concatBytes [
    digest CHANNEL_DOMAIN_TAG; digest network; digest (cc_asset input); digest (cc_templateId input);
    clientPublicKey; serverPublicKey; digest (cc_payTo input); digest (cc_refundAddress input);
    refundTimeoutDaa; salt]).

Definition channelId (input : ChannelConfig) : result string :=
  preimage ← channelIdPreimage input; Ok (bytesToHex (sha256 preimage)).

Definition validateChannelId (input : ChannelConfig) (expected : string) : result bool :=
  id ← channelId input;
  _ ← throw_code_if (toLowerCase id !== toLowerCase expected) "invalid_kaspa_channel_id"
        "channel id does not match channel config";
  Ok true.

(** ** voucher.ts *)

Definition voucherPreimage (input : VoucherDigestInput) : result bytes :=
  network ← parseKaspaNetwork (vd_network input);
  covenantId ← hexToBytes (Some 32) "invalid_kaspa_x402_binding" "covenantId" (vd_covenantId input);
  _ ← throw_code_if (forallb (fun byte => code byte =? 0) covenantId) "invalid_kaspa_x402_binding"
        "covenantId must identify a bound KIP-20 lineage";
  parsed ← parseBatchLaneAmount (vd_authorizedCumulativeAmount input) "voucher authorized cumulative amount";
  amount ← le64 (BigInt parsed);
  Ok (concatBytes [digest VOUCHER_DOMAIN_TAG; digest network; covenantId; amount]).

Definition voucherDigest (input : VoucherDigestInput) : result string :=
  preimage ← voucherPreimage input; Ok (bytesToHex (sha256 preimage)).

(** ** batch-commitment.ts *)

(** [JSON.parse] of the canonical text reads back the same property values. *)
Definition batchPaymentRequirementsPreimage (accepted : BatchPaymentRequirements) : result bytes :=
  preimage ← stableStringify
    (JObject [("scope", JString BATCH_PAYMENT_REQUIREMENTS_DOMAIN_TAG); ("accepted", requirements_json accepted)]);
  let snapshot := accepted in
  _ ← throw_code_if ((br_network snapshot !== "kaspa:testnet-10") && (br_network snapshot !== "kaspa:mainnet"))
        "invalid_kaspa_x402_network" "batch settlement v3 requires a supported Kaspa network";
  _ ← throw_code_if ((scheme snapshot !== "batch-settlement") || (br_asset snapshot !== ASSET_ID) ||
                     (binding (extra snapshot) !== ESCROW_BINDING_ID) ||
                     (be_templateId (extra snapshot) !== ESCROW_TEMPLATE_ID))
        "invalid_kaspa_x402_binding" "unsupported batch payment requirements";
  amount ← parseBatchLaneAmount (br_amount snapshot) "payment requirement amount";
  _ ← throw_code_if (amount =? 0) "invalid_kaspa_x402_amount" "batch fixed charge must be positive";
  minimumDeposit ← parseBatchLaneAmount (minDepositSompi (extra snapshot)) "minimum deposit";
  claimReserve ← parseBatchLaneAmount (claimReserveSompi (extra snapshot)) "claim reserve";
  refundTimeoutDaa ← parseBatchLaneAmount (be_refundTimeoutDaa (extra snapshot)) "refund timeout DAA";
  _ ← throw_code_if (KASPA_LOCK_TIME_THRESHOLD <=? refundTimeoutDaa) "invalid_kaspa_x402_amount"
        "refund timeout DAA must remain below the consensus timestamp boundary";
  _ ← le64 (Number (maxTimeoutSeconds snapshot));
  let requiredMinimumDeposit := amount + claimReserve in
  _ ← throw_code_if (BATCH_SCRIPT_INT_MAX <? requiredMinimumDeposit) "invalid_kaspa_x402_amount"
        "payment requirement amount plus claim reserve exceeds the batch covenant signed-int64 range";
  _ ← throw_code_if (minimumDeposit <? requiredMinimumDeposit) "invalid_kaspa_x402_amount"
        "minimum deposit must cover the payment requirement amount plus claim reserve";
  _ ← hexToBytes (Some 32) "invalid_kaspa_hex" "securityContextHash" (securityContextHash (extra snapshot));
  errorChargeDiffers ← match get (mcpErrorChargeSompi (extra snapshot)) with
                       | Some charge => charge ← parseBatchLaneAmount charge "MCP error charge"; Ok (charge !== amount)
                       | None => Ok false
                       end;
  _ ← throw_code_if errorChargeDiffers "invalid_kaspa_x402_amount"
        "MCP error charge must equal the batch fixed charge";
  _ ← hexToBytes (Some 32) "invalid_kaspa_public_key" "serverPublicKey" (be_serverPublicKey (extra snapshot));
  Ok (utf8Bytes preimage).

Definition batchPaymentRequirementsHash (accepted : BatchPaymentRequirements) : result string :=
  preimage ← batchPaymentRequirementsPreimage accepted; Ok (bytesToHex (sha256 preimage)).

Definition batchCommitmentPreimage (input : BatchCommitmentInput) : result bytes :=
  channelId ← hexToBytes (Some 32) "invalid_kaspa_hex" "channelId" (bc_channelId input);
  covenantId ← hexToBytes (Some 32) "invalid_kaspa_x402_binding" "voucher.covenantId"
                 (v_covenantId (voucher input));
  presentation ← hexToBytes (Some 32) "invalid_kaspa_hex" "presentationDigest" (presentationDigest input);
  fingerprint ← hexToBytes (Some 32) "invalid_kaspa_hex" "requestFingerprint" (requestFingerprint input);
  hash ← batchPaymentRequirementsHash (accepted input);
  requirements ← hexToBytes (Some 32) "invalid_kaspa_hex" "paymentRequirementsHash" hash;
  txid ← hexToBytes (Some 32) "invalid_kaspa_outpoint" "activeOutpoint.txid" (activeOutpoint_txid input);
  index ← le32 "invalid_kaspa_outpoint" (activeOutpoint_index input);
  before ← parseBatchLaneAmount (authorizedCumulativeBefore input) "authorized cumulative before";
  before ← le64 (BigInt before);
  after ← parseBatchLaneAmount (authorizedCumulativeAfter input) "authorized cumulative after";
  after ← le64 (BigInt after);
  signature ← hexToBytes (Some 64) "invalid_kaspa_hex" "voucher.signature" (v_signature (voucher input));
  charge ← parseBatchLaneAmount (fixedCharge input) "fixed charge";
  charge ← le64 (BigInt charge);
  claimed ← parseBatchLaneAmount (bc_claimedCumulativeAmount input) "claimed cumulative amount";
  claimed ← le64 (BigInt claimed);
  Ok (concatBytes [
    digest BATCH_COMMITMENT_DOMAIN_TAG; channelId; covenantId; presentation; fingerprint; requirements;
    txid; index; before; after; sha256 signature; charge; claimed]).

Definition batchCommitmentId (input : BatchCommitmentInput) : result string :=
  before ← parseBatchLaneAmount (authorizedCumulativeBefore input) "authorized cumulative before";
  fixedCharge ← parseBatchLaneAmount (fixedCharge input) "fixed charge";
  after ← parseBatchLaneAmount (authorizedCumulativeAfter input) "authorized cumulative after";
  claimed ← parseBatchLaneAmount (bc_claimedCumulativeAmount input) "claimed cumulative amount";
  voucherAuthorized ← parseBatchLaneAmount (v_authorizedCumulativeAmount (voucher input))
                        "voucher authorized cumulative amount";
  _ ← throw_code_if (before <? claimed) "invalid_kaspa_x402_amount"
        "claimed cumulative amount cannot exceed the prior authorization";
  _ ← throw_code_if ((fixedCharge =? 0) || (before + fixedCharge !== after)) "invalid_kaspa_x402_amount"
        "authorized cumulative amount must equal the prior amount plus the positive fixed charge";
  _ ← throw_code_if (after !== voucherAuthorized) "invalid_kaspa_x402_amount"
        "voucher must sign the exact authorized cumulative amount after this charge";
  preimage ← batchCommitmentPreimage input;
  Ok (bytesToHex (sha256 preimage)).

End Sha.

(** * Lemmas *)

(** ** [BigInt(text)] on numerals *)

Definition is_digit_code (c : Z) : bool := (48 <=? c) && (c <=? 57).

Lemma trim_start_digit fuel c l : is_digit_code c = true -> trim_start fuel (c :: l) = c :: l.
Proof.
  unfold is_digit_code. intros H. destruct fuel as [|fuel]; [done|]. cbn [trim_start].
  replace ((9 <=? c) && (c <=? 13) || (c =? 32)) with false by lia.
  destruct l as [|d l]; [done|]. replace ((c =? 194) && (d =? 160)) with false by lia.
  destruct l as [|e l]; [done|].
  replace (c =? 225) with false by lia. replace (c =? 226) with false by lia.
  replace (c =? 227) with false by lia. by replace (c =? 239) with false by lia.
Qed.

Lemma trim_end_digits fuel l : forallb is_digit_code l = true -> trim_end fuel l = l.
Proof.
  induction l as [|c l IH]; cbn [forallb trim_end]; [done|]. intros [Hc Hl]%andb_true_iff.
  rewrite trim_start_digit by done. by rewrite IH.
Qed.

Lemma radix_value_digits l acc :
  forallb is_digit_code l = true ->
  foldl (fun acc c => acc ← acc; d ← radix_digit 10 c; Some (acc * 10 + d)) (Some acc) l =
  Some (foldl (fun acc c => acc * 10 + (c - 48)) acc l).
Proof.
  revert acc. induction l as [|c l IH]; intros acc; cbn [forallb foldl]; [done|].
  intros [Hc Hl]%andb_true_iff. rewrite <- IH by done. f_equal. cbn.
  unfold radix_digit, is_digit_code in *. rewrite Hc. replace (c - 48 <? 10) with true by lia. done.
Qed.

Lemma StringToBigInt_digits s :
  s <> "" -> string_forall is_digit s = true -> StringToBigInt s = Some (dec_value s).
Proof.
  intros Hn Hd. unfold StringToBigInt.
  assert (forallb is_digit_code (code <$> list_ascii_of_string s) = true /\
          forall acc, foldl (fun acc c => acc * 10 + (c - 48)) acc (code <$> list_ascii_of_string s) = dec_value_acc acc s)
    as [Hl Hv].
  { clear Hn. induction s as [|c s IH]; [done|]. cbn [string_forall] in Hd.
    apply andb_true_iff in Hd as [Hc Hd]. destruct (IH Hd) as [IH1 IH2].
    split; [by apply andb_true_iff|]. intros acc. exact (IH2 _). }
  destruct s as [|a s]; [done|]. cbn [list_ascii_of_string fmap list_fmap] in *.
  cbn [forallb] in Hl. apply andb_true_iff in Hl as [Ha Hl].
  rewrite trim_start_digit by done. rewrite trim_end_digits by (cbn [forallb]; by rewrite Ha).
  specialize (Hv 0).
  set (l := code <$> list_ascii_of_string s) in *. clearbody l.
  assert (radix_value 10 (code a :: l) = Some (dec_value (String a s))) as <-.
  { unfold radix_value. rewrite radix_value_digits by (cbn [forallb]; by rewrite Ha). by rewrite Hv. }
  cbn [forallb] in Ha. unfold is_digit_code in Ha.
  replace (code a =? 45) with false by lia. replace (code a =? 43) with false by lia.
  destruct l as [|d l]; [done|]. destruct (negb _); [done|].
  cbn [forallb] in Hl. apply andb_true_iff in Hl as [Hd' _]. unfold is_digit_code in Hd'.
  replace ((d =? 120) || (d =? 88)) with false by lia. replace ((d =? 111) || (d =? 79)) with false by lia.
  by replace ((d =? 98) || (d =? 66)) with false by lia.
Qed.

Lemma BigInt_toString n : 0 <= n -> BigInt_text (toString n) = Ok n.
Proof.
  intros Hn. destruct (toString_spec n Hn) as [Hc Hv]. unfold BigInt_text.
  rewrite StringToBigInt_digits, Hv; [done|by intros E; rewrite E in Hc|by apply canonical_digits].
Qed.

(** ** Layouts *)

(** [digits] hex characters, compared without case. *)
Definition hex_of (n : Z) (h : string) : Prop := HEX_BYTE_PATTERN h = true /\ byte_length h = n * 2.

Lemma hexToBytes_field n err lbl h b :
  hexToBytes (Some n) err lbl h = Ok b <-> b = hex_decode h /\ hex_of n h.
Proof. rewrite hexToBytes_ok. unfold hex_of. tauto. Qed.

Lemma hex_of_length n h : hex_of n h -> Z.of_nat (length (hex_decode h)) = n.
Proof. intros [H1 H2]. pose proof (hex_decode_length h H1). lia. Qed.

Lemma hex_of_inj n h h' :
  hex_of n h -> hex_of n h' -> hex_decode h = hex_decode h' -> toLowerCase h = toLowerCase h'.
Proof. intros [H _] [H' _]. by apply hex_decode_inj. Qed.

Ltac invert_build :=
  repeat match goal with
  | H : mbind _ _ = Ok _ |- _ => apply bind_ok in H as (? & ? & H)
  | H : throw_code_if _ _ _ = Ok _ |- _ => apply throw_code_if_ok in H
  | H : hexToBytes (Some _) _ _ _ = Ok _ |- _ => apply hexToBytes_field in H as [-> H]
  | H : parseBatchLaneAmount _ _ = Ok _ |- _ => apply parse_lane_ok in H as [? H]
  | H : le32 _ _ = Ok _ |- _ => apply le32_ok in H as [-> H]
  | H : le64 _ = Ok _ |- _ => apply le64_ok in H as (? & H & ->)
  | H : numeric_value _ _ |- _ => unfold numeric_value in H; destruct H
  | H : Ok _ = Ok _ |- _ => apply Ok_inj in H
  | H : parseKaspaNetwork _ = Ok _ |- _ => unfold parseKaspaNetwork in H
  | x : () |- _ => destruct x
  end; inv_bool; subst.

Section Layouts.
Context (sha256 : bytes -> bytes) (sha256_length : forall b, length (sha256 b) = 32%nat).
#[local] Abbreviation digest := (sha256Text sha256).

(** Splits an equation between concatenations of parts of equal length. *)
Ltac part_length :=
  unfold sha256Text; rewrite ?sha256_length, ?little_endian_length;
  repeat match goal with H : hex_of _ ?h |- context [length (hex_decode ?h)] =>
    apply hex_of_length in H; try lia end; try lia; try done.
Ltac split_parts E :=
  unfold concatBytes in E; cbn [List.concat] in E;
  repeat (apply app_inj_1 in E as [? E]; [|part_length]); clear E.

Lemma channel_preimage_ok input p :
  channelIdPreimage sha256 input = Ok p ->
  exists n, cc_refundTimeoutDaa input = toString n /\ 0 <= n < KASPA_LOCK_TIME_THRESHOLD /\
    cc_asset input = ASSET_ID /\ cc_templateId input = ESCROW_TEMPLATE_ID /\
    isKaspaX402Network (cc_network input) = true /\
    hex_of 32 (cc_clientPublicKey input) /\ hex_of 32 (cc_serverPublicKey input) /\ hex_of 32 (cc_salt input) /\
    p = concatBytes [digest CHANNEL_DOMAIN_TAG; digest (cc_network input); digest ASSET_ID; digest ESCROW_TEMPLATE_ID;
      hex_decode (cc_clientPublicKey input); hex_decode (cc_serverPublicKey input); digest (cc_payTo input);
      digest (cc_refundAddress input); little_endian 8 n; hex_decode (cc_salt input)].
Proof.
  unfold channelIdPreimage. intros H. invert_build.
  match goal with H : BigInt_text _ = Ok _ |- _ => rename H into Hb end.
  match goal with H : cc_refundTimeoutDaa input = toString ?n |- _ =>
    exists n; rewrite H, BigInt_toString in Hb by lia; apply Ok_inj in Hb; subst; rename H into Hn end.
  match goal with H : _ = ASSET_ID |- _ => rewrite H end. match goal with H : _ = ESCROW_TEMPLATE_ID |- _ => rewrite H end.
  repeat split; auto; try lia; by match goal with H : hex_of _ _ |- _ => apply H end.
Qed.

Lemma voucher_preimage_ok input p :
  voucherPreimage sha256 input = Ok p ->
  exists n, vd_authorizedCumulativeAmount input = toString n /\ 0 <= n <= BATCH_SCRIPT_INT_MAX /\
    isKaspaX402Network (vd_network input) = true /\ hex_of 32 (vd_covenantId input) /\
    forallb (fun byte => code byte =? 0) (hex_decode (vd_covenantId input)) = false /\
    p = concatBytes [digest VOUCHER_DOMAIN_TAG; digest (vd_network input); hex_decode (vd_covenantId input);
      little_endian 8 n].
Proof.
  unfold voucherPreimage. intros H. invert_build.
  eexists; repeat split; eauto; try lia; by match goal with H : hex_of _ _ |- _ => apply H end.
Qed.

Lemma commitment_preimage_ok input p :
  batchCommitmentPreimage sha256 input = Ok p ->
  exists before after charge claimed hash,
    authorizedCumulativeBefore input = toString before /\ 0 <= before <= BATCH_SCRIPT_INT_MAX /\
    authorizedCumulativeAfter input = toString after /\ 0 <= after <= BATCH_SCRIPT_INT_MAX /\
    fixedCharge input = toString charge /\ 0 <= charge <= BATCH_SCRIPT_INT_MAX /\
    bc_claimedCumulativeAmount input = toString claimed /\ 0 <= claimed <= BATCH_SCRIPT_INT_MAX /\
    batchPaymentRequirementsHash sha256 (accepted input) = Ok hash /\
    Forall (hex_of 32) [bc_channelId input; v_covenantId (voucher input); presentationDigest input;
      requestFingerprint input; hash; activeOutpoint_txid input] /\
    hex_of 64 (v_signature (voucher input)) /\ 0 <= activeOutpoint_index input <= U32_MAX /\
    p = concatBytes [digest BATCH_COMMITMENT_DOMAIN_TAG; hex_decode (bc_channelId input);
      hex_decode (v_covenantId (voucher input)); hex_decode (presentationDigest input);
      hex_decode (requestFingerprint input); hex_decode hash; hex_decode (activeOutpoint_txid input);
      little_endian 4 (activeOutpoint_index input); little_endian 8 before; little_endian 8 after;
      sha256 (hex_decode (v_signature (voucher input))); little_endian 8 charge; little_endian 8 claimed].
Proof.
  unfold batchCommitmentPreimage. intros H. invert_build.
  do 5 eexists. repeat split; eauto; try lia; try by match goal with H : hex_of _ _ |- _ => apply H end.
  repeat constructor; auto; by match goal with H : hex_of _ _ |- _ => apply H end.
Qed.

(** A channel id commits to the whole configuration: two configurations with the
    same preimage agree on both public keys and the salt (up to hex case) and on the refund
    timeout exactly, and the digests of network, payee and refund address agree; and a
    configuration is only ever hashed with the KAS asset, the v5 template, a known network
    and a refund timeout below the consensus timestamp boundary. *)
Theorem channel_id_binds a b p :
  channelIdPreimage sha256 a = Ok p -> channelIdPreimage sha256 b = Ok p ->
  toLowerCase (cc_clientPublicKey a) = toLowerCase (cc_clientPublicKey b) /\
  toLowerCase (cc_serverPublicKey a) = toLowerCase (cc_serverPublicKey b) /\
  toLowerCase (cc_salt a) = toLowerCase (cc_salt b) /\
  cc_refundTimeoutDaa a = cc_refundTimeoutDaa b /\
  digest (cc_network a) = digest (cc_network b) /\ digest (cc_payTo a) = digest (cc_payTo b) /\
  digest (cc_refundAddress a) = digest (cc_refundAddress b) /\
  length p = 296%nat /\ cc_asset a = ASSET_ID /\ cc_templateId a = ESCROW_TEMPLATE_ID /\
  (cc_network a = "kaspa:mainnet" \/ cc_network a = "kaspa:testnet-10") /\
  exists n, cc_refundTimeoutDaa a = toString n /\ 0 <= n < 500000000000.
Proof.
  intros (n & Hn & Hr & Ha & Ht & Hnet & Hc & Hs & Hx & ->)%channel_preimage_ok
         (n' & Hn' & Hr' & Ha' & Ht' & Hnet' & Hc' & Hs' & Hx' & E)%channel_preimage_ok.
  split_parts E.
  assert (n = n') as -> by (apply (little_endian_inj 8); unfold KASPA_LOCK_TIME_THRESHOLD in *; lia || done).
  repeat split; eauto using hex_of_inj; try congruence.
  - apply Nat2Z.inj. unfold concatBytes. cbn [List.concat]. rewrite !length_app, !Nat2Z.inj_add.
    rewrite !hex_of_length with (n := 32) by done. unfold sha256Text. by rewrite !sha256_length, little_endian_length.
  - unfold isKaspaX402Network, SUPPORTED_NETWORKS in Hnet. cbn [existsb] in Hnet.
    apply orb_true_iff in Hnet as [H'|H']; [inv_bool; auto|].
    apply orb_true_iff in H' as [H'|H']; [inv_bool; auto|done].
Qed.

(** The bytes a voucher signs commit to the lineage, the amount and the network:
    vouchers with one preimage name the same covenant (up to hex case), authorize exactly the
    same cumulative amount and agree on the network digest; the covenant id is a non-zero
    32-byte value and the amount fits the covenant's signed 64-bit state. *)
Theorem voucher_binds a b p :
  voucherPreimage sha256 a = Ok p -> voucherPreimage sha256 b = Ok p ->
  toLowerCase (vd_covenantId a) = toLowerCase (vd_covenantId b) /\
  vd_authorizedCumulativeAmount a = vd_authorizedCumulativeAmount b /\
  digest (vd_network a) = digest (vd_network b) /\
  length p = 104%nat /\ Exists (fun byte => code byte <> 0) (hex_decode (vd_covenantId a)) /\
  exists n, vd_authorizedCumulativeAmount a = toString n /\ 0 <= n <= BATCH_SCRIPT_INT_MAX /\
    little_endian_value (drop 96 p) = n.
Proof.
  intros (n & Hn & Hr & Hnet & Hc & Hz & ->)%voucher_preimage_ok
         (n' & Hn' & Hr' & Hnet' & Hc' & Hz' & E)%voucher_preimage_ok.
  split_parts E. unfold BATCH_SCRIPT_INT_MAX in *.
  assert (n = n') as -> by (apply (little_endian_inj 8); lia || done).
  assert (length (digest VOUCHER_DOMAIN_TAG ++ digest (vd_network a) ++ hex_decode (vd_covenantId a)) = 96%nat) as Hl.
  { apply Nat2Z.inj. rewrite !length_app, !Nat2Z.inj_add, hex_of_length with (n := 32) by done.
    unfold sha256Text. by rewrite !sha256_length. }
  assert (forall x y z w : bytes, concatBytes [x; y; z; w] = (x ++ y ++ z) ++ w) as Hcat.
  { intros. unfold concatBytes. cbn [List.concat]. by rewrite app_nil_r, <- !app_assoc. }
  split; [eauto using hex_of_inj|]. split; [congruence|]. split; [done|]. rewrite Hcat.
  split; [by rewrite length_app, Hl, little_endian_length|]. split.
  - clear - Hz. induction (hex_decode (vd_covenantId a)) as [|c l IH]; [done|]. cbn [forallb] in Hz.
    destruct (Z.eqb_spec (code c) 0); [right; auto|by left].
  - exists n'. rewrite <- Hl, drop_app_length, little_endian_read by lia. auto.
Qed.

(** A batch commitment is only issued for a consistent charge: the new
    cumulative authorization is the old one plus a positive fixed charge, the voucher signs
    exactly that amount, the on-chain claimed amount does not exceed the old authorization,
    and nothing leaves the signed 64-bit range. *)
Theorem commitment_accounts input id :
  batchCommitmentId sha256 input = Ok id ->
  exists before charge claimed,
    authorizedCumulativeBefore input = toString before /\
    fixedCharge input = toString charge /\ 0 < charge /\
    authorizedCumulativeAfter input = toString (before + charge) /\
    before + charge <= BATCH_SCRIPT_INT_MAX /\
    v_authorizedCumulativeAmount (voucher input) = toString (before + charge) /\
    bc_claimedCumulativeAmount input = toString claimed /\ 0 <= claimed <= before /\
    is_lower_hash32 id = true.
Proof.
  unfold batchCommitmentId. intros H. invert_build. do 3 eexists. repeat split; eauto; try lia; try congruence.
  unfold is_lower_hash32. by rewrite bytesToHex_lower, bytesToHex_length, sha256_length.
Qed.

(** A commitment preimage determines every field it is built from: the
    channel, lineage, presentation, request, requirements hash and outpoint (hex up to case),
    the outpoint index and the four amounts exactly, and the digest of the voucher signature. *)
Theorem commitment_binds a b p :
  batchCommitmentPreimage sha256 a = Ok p -> batchCommitmentPreimage sha256 b = Ok p ->
  toLowerCase (bc_channelId a) = toLowerCase (bc_channelId b) /\
  toLowerCase (v_covenantId (voucher a)) = toLowerCase (v_covenantId (voucher b)) /\
  toLowerCase (presentationDigest a) = toLowerCase (presentationDigest b) /\
  toLowerCase (requestFingerprint a) = toLowerCase (requestFingerprint b) /\
  batchPaymentRequirementsHash sha256 (accepted a) = batchPaymentRequirementsHash sha256 (accepted b) /\
  toLowerCase (activeOutpoint_txid a) = toLowerCase (activeOutpoint_txid b) /\
  activeOutpoint_index a = activeOutpoint_index b /\
  authorizedCumulativeBefore a = authorizedCumulativeBefore b /\
  authorizedCumulativeAfter a = authorizedCumulativeAfter b /\
  fixedCharge a = fixedCharge b /\
  bc_claimedCumulativeAmount a = bc_claimedCumulativeAmount b /\
  sha256 (hex_decode (v_signature (voucher a))) = sha256 (hex_decode (v_signature (voucher b))).
Proof.
  intros (x & y & z & w & h & Hx & Rx & Hy & Ry & Hz & Rz & Hw & Rw & Hh & Hf & Hs & Hi & ->)%commitment_preimage_ok
    (x' & y' & z' & w' & h' & Hx' & Rx' & Hy' & Ry' & Hz' & Rz' & Hw' & Rw' & Hh' & Hf' & Hs' & Hi' & E)%commitment_preimage_ok.
  repeat match goal with H : Forall _ (_ :: _) |- _ => apply Forall_cons in H as [? H] end.
  split_parts E. unfold BATCH_SCRIPT_INT_MAX, U32_MAX in *.
  repeat match goal with H : little_endian _ _ = little_endian _ _ |- _ => apply little_endian_inj in H; [|lia..] end.
  assert (toLowerCase h = toLowerCase h') as Hlow by eauto using hex_of_inj.
  assert (h = h') as Heq.
  { unfold batchPaymentRequirementsHash in Hh, Hh'. apply bind_ok in Hh as (q & _ & Hq), Hh' as (q' & _ & Hq').
    apply Ok_inj in Hq as <-, Hq' as <-. f_equal. by rewrite !hex_decode_bytesToHex in *. }
  repeat split; eauto using hex_of_inj; try congruence.
Qed.

End Layouts.

Definition requirements_document (accepted : BatchPaymentRequirements) : json :=
  JObject [("scope", JString BATCH_PAYMENT_REQUIREMENTS_DOMAIN_TAG); ("accepted", requirements_json accepted)].

Definition honourable_terms (r : BatchPaymentRequirements) : Prop :=
  exists amount reserve deposit timeout,
    br_amount r = toString amount /\ claimReserveSompi (extra r) = toString reserve /\
    minDepositSompi (extra r) = toString deposit /\ be_refundTimeoutDaa (extra r) = toString timeout /\
    0 < amount /\ 0 <= reserve /\ amount + reserve <= deposit <= BATCH_SCRIPT_INT_MAX /\
    0 <= timeout < KASPA_LOCK_TIME_THRESHOLD /\
    (forall c, get (mcpErrorChargeSompi (extra r)) = Some c -> c = toString amount).

Lemma requirements_preimage_ok r p :
  batchPaymentRequirementsPreimage r = Ok p ->
  honourable_terms r /\ exists text, stableStringify (requirements_document r) = Ok text /\ p = utf8Bytes text.
Proof.
  unfold batchPaymentRequirementsPreimage. intros H. invert_build.
  match goal with H : stableStringify ?j = Ok ?t |- _ =>
    change j with (requirements_document r) in H; split; [|exists t; split; [assumption|reflexivity]]
  end.
  match goal with
  | H1 : br_amount r = toString ?a, H2 : claimReserveSompi _ = toString ?b,
    H3 : minDepositSompi _ = toString ?c, H4 : be_refundTimeoutDaa _ = toString ?d |- _ => exists a, b, c, d
  end. split_and!; try assumption; try lia. intros c Hc.
  match goal with H : context [match get _ with _ => _ end] |- _ => rewrite Hc in H end. invert_build. done.
Qed.

Lemma jprop_elem {A} k (f : A -> json) q k' v :
  (k', v) ∈ jprop k f q -> k' = k /\ (q = Undefined /\ v = JUndefined \/ exists a, q = Present a /\ v = f a).
Proof. destruct q; cbn; intros H; inv_field H; eauto. Qed.

(** The value at key [k] in two objects with equal key-sorted trees. *)
Ltac cases_field H :=
  rewrite ?elem_of_app, ?elem_of_cons, ?elem_of_nil in H;
  repeat match type of H with _ \/ _ => destruct H as [H|H] end;
  try (exfalso; exact H);
  try (apply jprop_elem in H as [H _]; discriminate H);
  try discriminate H.
Ltac same_field E k v :=
  let w := fresh in let H := fresh in let Hw := fresh in
  destruct (sorted_object_fields _ _ k v E) as (w & H & Hw);
  [rewrite ?elem_of_app, ?elem_of_cons; tauto|];
  cases_field H; injection H as ->; cbn [sorted_keys] in Hw; try (injection Hw as Hw).

Lemma extra_sorted_inj a b :
  sorted_keys (extra_json a) = sorted_keys (extra_json b) ->
  (be_serverPublicKey a, minDepositSompi a, claimReserveSompi a, be_refundTimeoutDaa a, securityContextHash a) =
  (be_serverPublicKey b, minDepositSompi b, claimReserveSompi b, be_refundTimeoutDaa b, securityContextHash b).
Proof.
  unfold extra_json. intros E.
  same_field E "serverPublicKey" (JString (be_serverPublicKey a)).
  same_field E "minDepositSompi" (JString (minDepositSompi a)).
  same_field E "claimReserveSompi" (JString (claimReserveSompi a)).
  same_field E "refundTimeoutDaa" (JString (be_refundTimeoutDaa a)).
  same_field E "securityContextHash" (JString (securityContextHash a)).
  congruence.
Qed.

Lemma extra_error_charge a b c :
  sorted_keys (extra_json a) = sorted_keys (extra_json b) ->
  get (mcpErrorChargeSompi a) = Some c -> get (mcpErrorChargeSompi b) = Some c.
Proof.
  unfold extra_json. intros E Hc. destruct (mcpErrorChargeSompi a) as [| |c'] eqn:Ha; [done..|].
  injection Hc as ->.
  destruct (sorted_object_fields _ _ "mcpErrorChargeSompi" (JString c) E) as (w & H & Hw).
  { rewrite !elem_of_app. right; left. cbn. by left. }
  rewrite ?elem_of_app in H. destruct H as [H|[H|H]].
  - cases_field H.
  - apply jprop_elem in H as [_ [[_ ->]|(d & -> & ->)]]; [done|]. cbn in Hw. by injection Hw as ->.
  - cases_field H.
Qed.

Lemma requirements_sorted_inj a b :
  sorted_keys (requirements_json a) = sorted_keys (requirements_json b) ->
  (br_network a, br_amount a, br_payTo a, maxTimeoutSeconds a) =
    (br_network b, br_amount b, br_payTo b, maxTimeoutSeconds b) /\
  sorted_keys (extra_json (extra a)) = sorted_keys (extra_json (extra b)).
Proof.
  unfold requirements_json. intros E.
  same_field E "network" (JString (br_network a)).
  same_field E "amount" (JString (br_amount a)).
  same_field E "payTo" (JString (br_payTo a)).
  same_field E "maxTimeoutSeconds" (JNumber (maxTimeoutSeconds a)).
  destruct (sorted_object_fields _ _ "extra" (extra_json (extra a)) E) as (w & H & Hw).
  { rewrite ?elem_of_cons; tauto. }
  cases_field H; injection H as ->. split; [congruence|exact Hw].
Qed.

Lemma utf8Bytes_inj s t : utf8Bytes s = utf8Bytes t -> s = t.
Proof. intros E%(f_equal string_of_list_ascii). by rewrite !string_of_list_ascii_of_string in E. Qed.

(** The canonical bytes of batch payment requirements are only built for terms
    the covenant can honour (positive charge, deposit covering charge plus reserve, all within
    the signed 64-bit range, refund timeout below the timestamp boundary, MCP error charge equal
    to the charge), and they bind those terms: requirements with the same bytes agree on every
    scalar term. *)
Theorem requirements_bind a b p :
  batchPaymentRequirementsPreimage a = Ok p -> batchPaymentRequirementsPreimage b = Ok p ->
  (br_network a, br_amount a, br_payTo a, maxTimeoutSeconds a) =
    (br_network b, br_amount b, br_payTo b, maxTimeoutSeconds b) /\
  (be_serverPublicKey (extra a), minDepositSompi (extra a), claimReserveSompi (extra a),
   be_refundTimeoutDaa (extra a), securityContextHash (extra a)) =
    (be_serverPublicKey (extra b), minDepositSompi (extra b), claimReserveSompi (extra b),
     be_refundTimeoutDaa (extra b), securityContextHash (extra b)) /\
  get (mcpErrorChargeSompi (extra a)) = get (mcpErrorChargeSompi (extra b)) /\
  honourable_terms a.
Proof.
  intros [Ha (s & Hs & ->)]%requirements_preimage_ok [_ (s' & Hs' & <-%utf8Bytes_inj)]%requirements_preimage_ok.
  pose proof (stableStringify_inj _ _ _ Hs Hs') as E. unfold requirements_document in E.
  destruct (sorted_object_fields _ _ "accepted" (requirements_json a) E) as (w & H & Hw).
  { rewrite ?elem_of_cons; tauto. }
  cases_field H; injection H as ->. apply requirements_sorted_inj in Hw as [H1 H2].
  split; [done|]. split; [by apply extra_sorted_inj|]. split; [|done].
  destruct (get (mcpErrorChargeSompi (extra a))) as [c|] eqn:Hc;
    [symmetry; by eapply extra_error_charge|].
  destruct (get (mcpErrorChargeSompi (extra b))) as [c|] eqn:Hd; [|done].
  symmetry in H2. by rewrite (extra_error_charge _ _ c H2 Hd) in Hc.
Qed.

(** ** Concrete instances *)

Definition hex64 (pair : string) : string := String.concat "" (repeat pair 32).
Arguments hex64 : simpl never.

Definition sample_config (key : string) : ChannelConfig := {|
  cc_network := "kaspa:testnet-10"; cc_asset := "KAS"; cc_templateId := "kaspa-x402-escrow-v5";
  cc_clientPublicKey := key; cc_serverPublicKey := hex64 "b1"; cc_payTo := "kaspatest:payee";
  cc_refundAddress := "kaspatest:payer"; cc_refundTimeoutDaa := "499999999999"; cc_salt := hex64 "05" |}.

Lemma channel_id_binds_witness :
  exists p, channelIdPreimage toy_sha256 (sample_config (hex64 "Ab")) = Ok p /\ length p = 296%nat.
Proof.
  destruct (is_ok_value (channelIdPreimage toy_sha256 (sample_config (hex64 "Ab")))) as [p E]; [vm_compute; reflexivity|].
  assert (channelIdPreimage toy_sha256 (sample_config (hex64 "aB")) = Ok p) as E' by (rewrite <- E; vm_compute; reflexivity).
  exists p. split; [exact E|].
  exact (proj1 (proj2 (proj2 (proj2 (proj2 (proj2 (proj2 (proj2
    (channel_id_binds toy_sha256 toy_sha256_length _ _ p E E'))))))))).
Defined.

Definition sample_voucher (covenant : string) : VoucherDigestInput := {|
  vd_network := "kaspa:mainnet"; vd_covenantId := covenant; vd_authorizedCumulativeAmount := "1500" |}.

Lemma voucher_binds_witness :
  exists p, voucherPreimage toy_sha256 (sample_voucher (hex64 "cD")) = Ok p /\ length p = 104%nat.
Proof.
  destruct (is_ok_value (voucherPreimage toy_sha256 (sample_voucher (hex64 "cD")))) as [p E]; [vm_compute; reflexivity|].
  assert (voucherPreimage toy_sha256 (sample_voucher (hex64 "Cd")) = Ok p) as E' by (rewrite <- E; vm_compute; reflexivity).
  exists p. split; [exact E|].
  exact (proj1 (proj2 (proj2 (proj2 (voucher_binds toy_sha256 toy_sha256_length _ _ p E E'))))).
Defined.

Definition sample_requirements : BatchPaymentRequirements := {|
  scheme := "batch-settlement"; br_network := "kaspa:testnet-10"; br_amount := "500"; br_asset := "KAS";
  br_payTo := "kaspatest:payee"; maxTimeoutSeconds := 60;
  extra := {|
    binding := "kaspa-escrow-v3"; be_templateId := "kaspa-x402-escrow-v5"; be_serverPublicKey := hex64 "b1";
    minDepositSompi := "1000"; claimReserveSompi := "500"; be_refundTimeoutDaa := "7200";
    securityContextHash := hex64 "5e"; mcpErrorChargeSompi := Present "500"; claimPolicy := Absent;
    channelState := Absent; assetKind := Present "native"; assetDecimals := Present 8 |} |}.

Lemma requirements_bind_witness : honourable_terms sample_requirements.
Proof.
  destruct (is_ok_value (batchPaymentRequirementsPreimage sample_requirements)) as [p E]; [vm_compute; reflexivity|].
  exact (proj2 (proj2 (proj2 (requirements_bind _ _ p E E)))).
Defined.

Definition sample_commitment (channel : string) : BatchCommitmentInput := {|
  accepted := sample_requirements; bc_channelId := channel; presentationDigest := hex64 "0a";
  requestFingerprint := hex64 "0b"; activeOutpoint_txid := hex64 "0c"; activeOutpoint_index := 4294967295;
  voucher := {| v_covenantId := hex64 "cd"; v_authorizedCumulativeAmount := "1500"; v_signature := hex64 "5151" |};
  fixedCharge := "500"; authorizedCumulativeBefore := "1000"; authorizedCumulativeAfter := "1500";
  bc_claimedCumulativeAmount := "700" |}.

Lemma commitment_accounts_witness :
  exists id before charge, batchCommitmentId toy_sha256 (sample_commitment (hex64 "ee")) = Ok id /\
    authorizedCumulativeAfter (sample_commitment (hex64 "ee")) = toString (before + charge).
Proof.
  destruct (is_ok_value (batchCommitmentId toy_sha256 (sample_commitment (hex64 "ee")))) as [id E]; [vm_compute; reflexivity|].
  destruct (commitment_accounts toy_sha256 toy_sha256_length _ _ E) as (before & charge & _ & _ & _ & _ & H & _).
  exists id, before, charge. split; [exact E|exact H].
Defined.

Lemma commitment_binds_witness :
  toLowerCase (bc_channelId (sample_commitment (hex64 "eE"))) = toLowerCase (bc_channelId (sample_commitment (hex64 "Ee"))).
Proof.
  destruct (is_ok_value (batchCommitmentPreimage toy_sha256 (sample_commitment (hex64 "eE")))) as [p E]; [vm_compute; reflexivity|].
  assert (batchCommitmentPreimage toy_sha256 (sample_commitment (hex64 "Ee")) = Ok p) as E' by (rewrite <- E; vm_compute; reflexivity).
  exact (proj1 (commitment_binds toy_sha256 toy_sha256_length _ _ p E E')).
Defined.
