(* ===== verification/ChainTruth.v ===== *)
(** * Chain evidence and covenant lineages

    Models [protocol/packages/core/src/chain-truth.ts]: the policy that turns adapter evidence
    into a decision, the launch manifest and lineage data with their validation, the
    derivation of the current covenant head from the journal, selected-chain updates,
    compaction of the journal with its Bloom filter, the extension check between two durable
    states and the observer.  Values whose validity the code checks at run time (formats,
    networks, kinds, availability) stay strings; [structuredClone] is the identity on values. *)

From S2P Require Import Prelude Amount Json Binary ResourceBudget.

Definition MAX_LINEAGE_REMOVED_BLOCKS : Z := 32.
Definition MAX_LINEAGE_UPDATE_EVENTS : Z := 64.
Definition MAX_LINEAGE_JOURNAL_EVENTS : Z := 128.
Definition MAX_LINEAGE_STATE_BYTES : Z := 512 * 1024.
Definition MAX_LINEAGE_UPDATE_BYTES : Z := 128 * 1024.

Record FundingOutpoint := Outpoint { txid : string; index : Z }.

Record ChainCheckpoint := Checkpoint { blockHash : string; blueScore : string; daaScore : string }.

Record AcceptedTransactionEvidence := AcceptedEvidence {
  ae_transactionId : string;
  acceptingBlockHash : string;
  acceptingBlockBlueScore : string;
  confirmationCount : Z;
  ae_checkpoint : ChainCheckpoint
}.

Inductive AbsenceProof :=
  | ConfirmedConflictingSpend (spentOutpoint : FundingOutpoint)
      (conflictingTransaction : AcceptedTransactionEvidence)
  | ConsensusRejection (rejectedTransactionId rejectionCode : string) (checkpoint : ChainCheckpoint).

Record AbsentTransactionEvidence := AbsentEvidence {
  abs_transactionId : string;
  abs_reason : string;
  proof : AbsenceProof
}.

Record UnknownTransactionEvidence := UnknownEvidence {
  unk_transactionId : string;
  unk_reason : string;
  unk_checkpoint : option ChainCheckpoint
}.

Inductive TrustedTransactionEvidence :=
  | StatusAccepted (e : AcceptedTransactionEvidence)
  | StatusAbsent (e : AbsentTransactionEvidence)
  | StatusUnknown (e : UnknownTransactionEvidence).

Inductive ChainEvidenceDecision :=
  | DecidedAccepted (e : AcceptedTransactionEvidence)
  | DecidedConfirmed (e : AcceptedTransactionEvidence)
  | DecidedAbsent (e : AbsentTransactionEvidence)
  | DecidedUnknown (e : UnknownTransactionEvidence).

(** ** Field checks *)

Definition assertHash32 (value label : string) (nonzero : bool) : result () :=
  throw_if (negb (is_hash32 value) || (nonzero && is_zero64 value))
    (label +:+ " must be " +:+ (if nonzero then "non-zero " else "") +:+ "32-byte hex").

Definition assertByteHex (value label : string) : result () :=
  throw_if (negb (is_byte_hex value)) (label +:+ " must be non-empty byte hex").

Definition is_u32 (n : Z) : bool := isSafeInteger n && negb (n <? 0) && negb (U32_MAX <? n).

Definition assertOutpoint (outpoint : FundingOutpoint) (label : string) : result () :=
  _ ← assertHash32 (txid outpoint) (label +:+ " transaction id") false;
  throw_if (negb (is_u32 (index outpoint))) (label +:+ " index is invalid").

Definition assertCheckpoint (checkpoint : ChainCheckpoint) : result () :=
  _ ← assertHash32 (blockHash checkpoint) "chain checkpoint block hash" false;
  _ ← parseSompiString (blueScore checkpoint);
  _ ← parseSompiString (daaScore checkpoint);
  Ok tt.

Definition assertConfirmationThreshold (value : Z) : result () :=
  throw_if (negb (isSafeInteger value) || (value <? 1))
    "confirmation threshold must be a positive safe integer".

Definition sameOutpoint (left right : FundingOutpoint) : bool :=
  (toLowerCase (txid left) === toLowerCase (txid right)) && (index left =? index right).

Definition outpointKey (outpoint : FundingOutpoint) : string :=
  toLowerCase (txid outpoint) +:+ ":" +:+ toString (index outpoint).

Definition sameCheckpoint (left right : ChainCheckpoint) : bool :=
  (toLowerCase (blockHash left) === toLowerCase (blockHash right)) &&
  (blueScore left === blueScore right) && (daaScore left === daaScore right).

(** ** Evidence decisions *)

Definition assertAcceptedEvidence (evidence : AcceptedTransactionEvidence) : result () :=
  _ ← assertHash32 (ae_transactionId evidence) "accepted transaction id" false;
  _ ← assertHash32 (acceptingBlockHash evidence) "accepting block hash" false;
  _ ← assertCheckpoint (ae_checkpoint evidence);
  acceptingBlueScore ← parseSompiString (acceptingBlockBlueScore evidence);
  checkpointBlueScore ← parseSompiString (blueScore (ae_checkpoint evidence));
  _ ← throw_if (negb (isSafeInteger (confirmationCount evidence)) || (confirmationCount evidence <? 1) ||
                (checkpointBlueScore <? acceptingBlueScore))
        "accepted transaction confirmation evidence is inconsistent";
  throw_if ((toLowerCase (acceptingBlockHash evidence) === toLowerCase (blockHash (ae_checkpoint evidence))) &&
            (negb (acceptingBlueScore =? checkpointBlueScore) || negb (confirmationCount evidence =? 1)))
    "accepting block cannot differ from its identical checkpoint".

(** [decideChainEvidence] on accepted evidence. *)
Definition decideAccepted (evidence : AcceptedTransactionEvidence) (requiredConfirmations : Z)
  : result ChainEvidenceDecision :=
  _ ← assertConfirmationThreshold requiredConfirmations;
  _ ← assertHash32 (ae_transactionId evidence) "transaction evidence id" false;
  _ ← assertAcceptedEvidence evidence;
  Ok (if requiredConfirmations <=? confirmationCount evidence
      then DecidedConfirmed evidence else DecidedAccepted evidence).

(** [/^[A-Z0-9_]{3,64}$/] *)
Definition is_rejection_code (s : string) : bool :=
  string_forall (fun c => in_range 65 90 c || is_digit c || (code c =? 95)) s &&
  (3 <=? byte_length s) && (byte_length s <=? 64).

Definition assertAbsentEvidence (evidence : AbsentTransactionEvidence) (requiredConfirmations : Z) : result () :=
  _ ← throw_if (blank (abs_reason evidence)) "absent chain evidence requires a reason";
  match proof evidence with
  | ConfirmedConflictingSpend spentOutpoint conflictingTransaction =>
      _ ← assertOutpoint spentOutpoint "conflicting spent outpoint";
      decision ← decideAccepted conflictingTransaction requiredConfirmations;
      throw_if (match decision with DecidedConfirmed _ => false | _ => true end ||
                (toLowerCase (ae_transactionId conflictingTransaction) === toLowerCase (abs_transactionId evidence)))
        "absent evidence needs a distinct confirmed conflicting spend"
  | ConsensusRejection rejectedTransactionId rejectionCode checkpoint =>
      _ ← assertHash32 rejectedTransactionId "consensus rejected transaction id" false;
      _ ← throw_if (toLowerCase rejectedTransactionId !== toLowerCase (abs_transactionId evidence))
            "consensus rejection is not bound to the absent transaction";
      _ ← throw_if (negb (is_rejection_code rejectionCode))
            "consensus rejection evidence requires a stable rejection code";
      assertCheckpoint checkpoint
  end.

Definition decideChainEvidence (evidence : TrustedTransactionEvidence) (requiredConfirmations : Z)
  : result ChainEvidenceDecision :=
  match evidence with
  | StatusAccepted e => decideAccepted e requiredConfirmations
  | StatusAbsent e =>
      _ ← assertConfirmationThreshold requiredConfirmations;
      _ ← assertHash32 (abs_transactionId e) "transaction evidence id" false;
      _ ← assertAbsentEvidence e requiredConfirmations;
      Ok (DecidedAbsent e)
  | StatusUnknown e =>
      _ ← assertConfirmationThreshold requiredConfirmations;
      _ ← assertHash32 (unk_transactionId e) "transaction evidence id" false;
      _ ← throw_if (blank (unk_reason e)) "unknown chain evidence requires a reason";
      _ ← match unk_checkpoint e with Some c => assertCheckpoint c | None => Ok tt end;
      Ok (DecidedUnknown e)
  end.

(** ** Lineage data *)

Record Compiler := { compiler_name : string; checkedCommit : string; command : string }.
Record SourceFile := { path : string; source_sha256 : string }.
Record Bytecode := { templateId : string; compiledBaseSha256 : string }.

Record Genesis := {
  derivation : string;
  genesis_covenantId : string;
  authorizingInputOutpoint : FundingOutpoint;
  genesis_transactionId : string;
  genesis_outpoint : FundingOutpoint;
  genesis_scriptPublicKey : string;
  genesis_value : string;
  genesis_claimedCumulativeAmount : string;
  acceptance : AcceptedTransactionEvidence
}.

Record CovenantLaunchManifest := {
  format : string;
  network : string;
  compiler : Compiler;
  source : SourceFile;
  bytecode : Bytecode;
  constructorSlots : json;
  abi : json;
  selectors : json;
  identitySha256 : string;
  genesis : Genesis
}.

Record CovenantLineageHead := Head {
  outpoint : FundingOutpoint;
  scriptPublicKey : string;
  value : string;
  claimedCumulativeAmount : string
}.

Record CovenantLineageSuccessor := Successor {
  successor_head : CovenantLineageHead;
  successor_covenantId : string;
  authorizingInput : Z
}.

Record CovenantTerminalOutput := TerminalOutput {
  output_index : Z;
  output_scriptPublicKey : string;
  output_value : string
}.

Record CovenantLineageTransition := Transition {
  kind : string;
  covenantId : string;
  transition_templateId : string;
  consumedOutpoint : FundingOutpoint;
  transactionId : string;
  authorizedSuccessorCount : Z;
  successor : option CovenantLineageSuccessor;
  terminalOutput : option CovenantTerminalOutput;
  transition_acceptance : AcceptedTransactionEvidence
}.

Inductive CovenantLineageEvent :=
  | EventAccepted (sequence : Z) (transition : CovenantLineageTransition)
  | EventGenesisAccepted (sequence : Z) (acceptance : AcceptedTransactionEvidence)
  | EventRemoved (sequence : Z) (blockHash : string) (transactionIds : list string).

Record LineageAnchor := Anchor {
  compactedEvents : Z;
  anchor_head : option CovenantLineageHead;
  genesisAcceptance : option AcceptedTransactionEvidence;
  tipTransition : option CovenantLineageTransition;
  manifestIdentitySha256 : string;
  checkpointBlockHash : string;
  historyHash : string;
  snapshotHash : string;
  relevantBlocksBloom : string
}.

Record CovenantLineageState := LineageState {
  manifest : CovenantLaunchManifest;
  anchor : LineageAnchor;
  journal : list CovenantLineageEvent;
  currentHead : option CovenantLineageHead;
  checkpoint : ChainCheckpoint;
  availability : string;
  unavailableReason : option string
}.

#[export] Instance eLineageState : Settable CovenantLineageState := fun s =>
  LineageState (manifest s) (anchor s) (journal s) (currentHead s) (checkpoint s) (availability s)
    (unavailableReason s).

Record SelectedChainBlock := {
  block_blockHash : string;
  block_genesisAcceptance : option AcceptedTransactionEvidence;
  transitions : list CovenantLineageTransition
}.

Record CovenantSelectedChainUpdate := {
  fromCheckpoint : ChainCheckpoint;
  update_checkpoint : ChainCheckpoint;
  continuity : string;
  removedChainBlockHashes : list string;
  addedChainBlocks : list SelectedChainBlock
}.

(** ** Their JSON form *)

Definition joption {A} (k : string) (f : A -> json) (o : option A) : list (string * json) :=
  match o with Some a => [(k, f a)] | None => [] end.

Definition outpoint_json (o : FundingOutpoint) : json :=
  JObject [("txid", JString (txid o)); ("index", JNumber (index o))].
Definition checkpoint_json (c : ChainCheckpoint) : json :=
  JObject [("blockHash", JString (blockHash c)); ("blueScore", JString (blueScore c));
           ("daaScore", JString (daaScore c))].
Definition accepted_json (e : AcceptedTransactionEvidence) : json :=
  JObject [("status", JString "accepted"); ("transactionId", JString (ae_transactionId e));
           ("acceptingBlockHash", JString (acceptingBlockHash e));
           ("acceptingBlockBlueScore", JString (acceptingBlockBlueScore e));
           ("confirmationCount", JNumber (confirmationCount e));
           ("checkpoint", checkpoint_json (ae_checkpoint e))].
Definition head_fields (h : CovenantLineageHead) : list (string * json) :=
  [("outpoint", outpoint_json (outpoint h)); ("scriptPublicKey", JString (scriptPublicKey h));
   ("value", JString (value h)); ("claimedCumulativeAmount", JString (claimedCumulativeAmount h))].
Definition head_json (h : CovenantLineageHead) : json := JObject (head_fields h).
Definition successor_json (s : CovenantLineageSuccessor) : json :=
  JObject (head_fields (successor_head s) ++
    [("covenantId", JString (successor_covenantId s)); ("authorizingInput", JNumber (authorizingInput s))]).
Definition terminal_json (o : CovenantTerminalOutput) : json :=
  JObject [("index", JNumber (output_index o)); ("scriptPublicKey", JString (output_scriptPublicKey o));
           ("value", JString (output_value o))].
Definition transition_json (t : CovenantLineageTransition) : json :=
  JObject [("kind", JString (kind t)); ("covenantId", JString (covenantId t));
           ("templateId", JString (transition_templateId t));
           ("consumedOutpoint", outpoint_json (consumedOutpoint t));
           ("transactionId", JString (transactionId t));
           ("authorizedSuccessorCount", JNumber (authorizedSuccessorCount t));
           ("successor", jopt successor_json (successor t));
           ("terminalOutput", jopt terminal_json (terminalOutput t));
           ("acceptance", accepted_json (transition_acceptance t))].
Definition event_json (e : CovenantLineageEvent) : json :=
  match e with
  | EventAccepted sequence transition =>
      JObject [("event", JString "accepted"); ("sequence", JNumber sequence);
               ("transition", transition_json transition)]
  | EventGenesisAccepted sequence acceptance =>
      JObject [("event", JString "genesis-accepted"); ("sequence", JNumber sequence);
               ("acceptance", accepted_json acceptance)]
  | EventRemoved sequence hash ids =>
      JObject [("event", JString "removed"); ("sequence", JNumber sequence);
               ("acceptingBlockHash", JString hash); ("transactionIds", JArray (map JString ids))]
  end.
Definition anchor_fields (a : LineageAnchor) : list (string * json) :=
  [("compactedEvents", JNumber (compactedEvents a)); ("head", jopt head_json (anchor_head a))]
  ++ joption "genesisAcceptance" accepted_json (genesisAcceptance a)
  ++ joption "tipTransition" transition_json (tipTransition a)
  ++ [("manifestIdentitySha256", JString (manifestIdentitySha256 a));
      ("checkpointBlockHash", JString (checkpointBlockHash a)); ("historyHash", JString (historyHash a));
      ("relevantBlocksBloom", JString (relevantBlocksBloom a))].
Definition anchor_json (a : LineageAnchor) : json :=
  JObject (anchor_fields a ++ [("snapshotHash", JString (snapshotHash a))]).
Definition compiler_json (c : Compiler) : json :=
  JObject [("name", JString (compiler_name c)); ("checkedCommit", JString (checkedCommit c));
           ("command", JString (command c))].
Definition source_json (s : SourceFile) : json :=
  JObject [("path", JString (path s)); ("sha256", JString (source_sha256 s))].
Definition bytecode_json (b : Bytecode) : json :=
  JObject [("templateId", JString (templateId b)); ("compiledBaseSha256", JString (compiledBaseSha256 b))].
Definition identity_fields (m : CovenantLaunchManifest) : list (string * json) :=
  [("compiler", compiler_json (compiler m)); ("source", source_json (source m));
   ("bytecode", bytecode_json (bytecode m)); ("constructorSlots", constructorSlots m);
   ("abi", abi m); ("selectors", selectors m)].
Definition genesis_json (g : Genesis) : json :=
  JObject [("derivation", JString (derivation g)); ("covenantId", JString (genesis_covenantId g));
           ("authorizingInput", outpoint_json (authorizingInputOutpoint g));
           ("transactionId", JString (genesis_transactionId g)); ("outpoint", outpoint_json (genesis_outpoint g));
           ("scriptPublicKey", JString (genesis_scriptPublicKey g)); ("value", JString (genesis_value g));
           ("claimedCumulativeAmount", JString (genesis_claimedCumulativeAmount g));
           ("acceptance", accepted_json (acceptance g))].
Definition manifest_json (m : CovenantLaunchManifest) : json :=
  JObject ([("format", JString (format m)); ("network", JString (network m))] ++ identity_fields m ++
    [("identitySha256", JString (identitySha256 m)); ("genesis", genesis_json (genesis m))]).
Definition state_json (s : CovenantLineageState) : json :=
  JObject ([("manifest", manifest_json (manifest s)); ("anchor", anchor_json (anchor s));
            ("journal", JArray (map event_json (journal s))); ("currentHead", jopt head_json (currentHead s));
            ("checkpoint", checkpoint_json (checkpoint s)); ("availability", JString (availability s))]
           ++ joption "unavailableReason" JString (unavailableReason s)).
Definition block_json (b : SelectedChainBlock) : json :=
  JObject ([("blockHash", JString (block_blockHash b))]
           ++ joption "genesisAcceptance" accepted_json (block_genesisAcceptance b)
           ++ [("transitions", JArray (map transition_json (transitions b)))]).
Definition update_json (u : CovenantSelectedChainUpdate) : json :=
  JObject [("fromCheckpoint", checkpoint_json (fromCheckpoint u));
           ("checkpoint", checkpoint_json (update_checkpoint u)); ("continuity", JString (continuity u));
           ("removedChainBlockHashes", JArray (map JString (removedChainBlockHashes u)));
           ("addedChainBlocks", JArray (map block_json (addedChainBlocks u)))].

Definition serializedBytes (j : json) : Z := byte_length (JSON_stringify j).

Definition assertLineageBudget (state : CovenantLineageState) : result () :=
  throw_if ((MAX_LINEAGE_JOURNAL_EVENTS <? Z.of_nat (length (journal state))) ||
            (MAX_LINEAGE_STATE_BYTES <? serializedBytes (state_json state)))
    "covenant lineage state exceeds the event or byte limit".

(** ** The journal's canonical events: [active] is a JavaScript [Map] from transaction ids to
    the accepted event; only the event's transition is ever read. *)

Definition is_removed_from (event_hash : string) (t : CovenantLineageTransition) : bool :=
  toLowerCase (acceptingBlockHash (transition_acceptance t)) === toLowerCase event_hash.

Definition remove_active (hash : string) (active : list (string * CovenantLineageTransition)) (id : string)
  : list (string * CovenantLineageTransition) :=
  match map_get (toLowerCase id) active with
  | Some candidate => if is_removed_from hash candidate then map_delete (toLowerCase id) active else active
  | None => active
  end.

Definition apply_event (active : list (string * CovenantLineageTransition)) (event : CovenantLineageEvent)
  : result (list (string * CovenantLineageTransition)) :=
  match event with
  | EventAccepted _ transition =>
      let id := toLowerCase (transactionId transition) in
      _ ← throw_if (map_has id active) "canonical covenant lineage repeats a transaction";
      Ok (map_set id transition active)
  | EventGenesisAccepted _ _ => Ok active
  | EventRemoved _ hash ids => Ok (foldl (remove_active hash) active ids)
  end.

Definition canonicalAcceptedEvents (journal : list CovenantLineageEvent) : result (list CovenantLineageTransition) :=
  active ← fold_result apply_event journal []; Ok (map snd active).

Definition genesis_event (genesisId : string) (active : option AcceptedTransactionEvidence)
    (event : CovenantLineageEvent) : option AcceptedTransactionEvidence :=
  match event with
  | EventGenesisAccepted _ acceptance => Some acceptance
  | EventRemoved _ hash ids =>
      match active with
      | Some a => if (toLowerCase (acceptingBlockHash a) === toLowerCase hash) &&
                     existsb (fun id => toLowerCase id === genesisId) ids
                  then None else active
      | None => None
      end
  | EventAccepted _ _ => active
  end.

Definition canonicalGenesisAcceptance (state : CovenantLineageState) : option AcceptedTransactionEvidence :=
  foldl (genesis_event (toLowerCase (genesis_transactionId (genesis (manifest state)))))
    (genesisAcceptance (anchor state)) (journal state).

(** ** The derived head *)

Definition manifest_head (m : CovenantLaunchManifest) : CovenantLineageHead :=
  Head (genesis_outpoint (genesis m)) (toLowerCase (genesis_scriptPublicKey (genesis m)))
    (genesis_value (genesis m)) (genesis_claimedCumulativeAmount (genesis m)).

(** One canonical transition consumes the current head. *)
Definition advance_head (s : option CovenantLineageHead * list string) (transition : CovenantLineageTransition)
  : result (option CovenantLineageHead * list string) :=
  let '(head, seenTransactions) := s in
  let transactionId := toLowerCase (transactionId transition) in
  _ ← throw_if (existsb (fun t => t === transactionId) seenTransactions)
        "canonical covenant lineage repeats a transaction";
  let seenTransactions := transactionId :: seenTransactions in
  match head with
  | None => Throw (Error "covenant lineage is missing a unique predecessor")
  | Some head =>
      _ ← throw_if (negb (sameOutpoint (outpoint head) (consumedOutpoint transition)))
            "covenant lineage is missing a unique predecessor";
      if kind transition === "refund" then
        match terminalOutput transition with
        | None => Throw (Error "Cannot read properties of null")
        | Some output =>
            terminalValue ← parseSompiString (output_value output);
            headValue ← parseSompiString (value head);
            _ ← throw_if (headValue <? terminalValue) "refund terminal output exceeds the consumed value";
            Ok (None, seenTransactions)
        end
      else
        priorValue ← parseSompiString (value head);
        match successor transition with
        | None => Throw (Error "Cannot read properties of null")
        | Some successor =>
            let next := successor_head successor in
            nextValue ← parseSompiString (value next);
            priorClaimed ← parseSompiString (claimedCumulativeAmount head);
            nextClaimed ← parseSompiString (claimedCumulativeAmount next);
            _ ← (if kind transition === "claim" then
                   throw_if ((priorValue <=? nextValue) || (nextClaimed <=? priorClaimed) ||
                             negb (priorValue - nextValue =? nextClaimed - priorClaimed))
                     "claim successor has inconsistent value or covenant state"
                 else
                   throw_if ((nextValue <=? priorValue) || negb (nextClaimed =? priorClaimed))
                     "top-up successor has inconsistent value or covenant state");
            Ok (Some (Head (outpoint next) (toLowerCase (scriptPublicKey next)) (value next)
                        (claimedCumulativeAmount next)), seenTransactions)
        end
  end.

Definition starting_head (state : CovenantLineageState) : option CovenantLineageHead :=
  match canonicalGenesisAcceptance state with
  | None => None
  | Some _ =>
      match genesisAcceptance (anchor state) with
      | Some _ => anchor_head (anchor state)
      | None => Some (manifest_head (manifest state))
      end
  end.

Definition deriveCanonicalLineage (state : CovenantLineageState) : result CovenantLineageState :=
  events ← canonicalAcceptedEvents (journal state);
  s ← fold_result advance_head events (starting_head state, []);
  Ok (state <| currentHead := s.1 |>).

Definition sameLineageHead (left right : option CovenantLineageHead) : bool :=
  match left, right with
  | Some l, Some r =>
      sameOutpoint (outpoint l) (outpoint r) &&
      (toLowerCase (scriptPublicKey l) === toLowerCase (scriptPublicKey r)) &&
      (value l === value r) && (claimedCumulativeAmount l === claimedCumulativeAmount r)
  | None, None => true
  | _, _ => false
  end.

(** ** Validation of transitions *)

Definition assertTerminalOutput (output : CovenantTerminalOutput) : result () :=
  _ ← throw_if (negb (is_u32 (output_index output))) "terminal output index is invalid";
  _ ← assertByteHex (output_scriptPublicKey output) "terminal output script";
  v ← parseSompiString (output_value output);
  throw_if (v <=? 0) "terminal output value must be positive".

Definition assertLineageTransition (manifest : CovenantLaunchManifest) (transition : CovenantLineageTransition)
  : result () :=
  _ ← assertHash32 (covenantId transition) "lineage covenant id" true;
  _ ← assertHash32 (transactionId transition) "lineage transaction id" false;
  _ ← assertOutpoint (consumedOutpoint transition) "consumed outpoint";
  _ ← assertAcceptedEvidence (transition_acceptance transition);
  _ ← throw_if ((toLowerCase (covenantId transition) !== toLowerCase (genesis_covenantId (genesis manifest))) ||
                (transition_templateId transition !== templateId (bytecode manifest)))
        "lineage transition belongs to the wrong covenant or template";
  _ ← throw_if (toLowerCase (ae_transactionId (transition_acceptance transition)) !==
                toLowerCase (transactionId transition))
        "lineage acceptance transaction id is inconsistent";
  if kind transition === "refund" then
    match authorizedSuccessorCount transition =? 0, successor transition, terminalOutput transition with
    | true, None, Some output => assertTerminalOutput output
    | _, _, _ => Throw (Error "terminal refund must have no covenant successor")
    end
  else
    match ((kind transition === "claim") || (kind transition === "top-up")) &&
          (authorizedSuccessorCount transition =? 1), successor transition, terminalOutput transition with
    | true, Some successor, None =>
        let next := successor_head successor in
        _ ← assertOutpoint (outpoint next) "covenant successor outpoint";
        _ ← assertByteHex (scriptPublicKey next) "covenant successor script";
        _ ← assertHash32 (successor_covenantId successor) "successor covenant id" true;
        _ ← throw_if ((toLowerCase (txid (outpoint next)) !== toLowerCase (transactionId transition)) ||
                      (toLowerCase (successor_covenantId successor) !== toLowerCase (covenantId transition)) ||
                      negb (is_u32 (authorizingInput successor)))
              "covenant successor binding is inconsistent";
        _ ← parseSompiString (value next);
        _ ← parseSompiString (claimedCumulativeAmount next);
        Ok tt
    | _, _, _ => Throw (Error "non-terminal covenant transition must have one unique successor")
    end.

(** ** Bloom filter over accepting blocks *)

Definition parse_hex (s : string) : Z :=
  foldl (fun acc c => acc * 16 + hex_value c) 0 (list_ascii_of_string s).
Definition slice (from len : Z) (s : string) : string := String.substring (Z.to_nat from) (Z.to_nat len) s.
(** [parseInt(bloom.slice(index * 2, index * 2 + 2), 16)] *)
Definition bloom_byte (bloom : string) (index : Z) : Z := parse_hex (slice (index * 2) 2 bloom).
(** [byte.toString(16).padStart(2, "0")] on a byte. *)
Definition hex_byte_text (byte : Z) : string :=
  String (hex_digit (byte / 16)) (String (hex_digit (byte mod 16)) "").

Definition is_bloom (s : string) : bool := string_forall is_lower_hex s && (byte_length s =? 512).

Section Sha.
Context (sha256 : bytes -> bytes).
#[local] Abbreviation sha256Hex := (sha256Hex sha256).

Definition bloomIndexes (blockHash : string) : list Z :=
  map (fun salt => parse_hex (slice 0 8 (sha256Hex (toString salt +:+ ":" +:+ toLowerCase blockHash))) mod 2048)
    [0; 1; 2; 3].

Definition bloomContains (bloom blockHash : string) : bool :=
  forallb (fun index =>
    negb (Z.land (bloom_byte bloom (Z.shiftr index 3)) (Z.shiftl 1 (Z.land index 7)) =? 0))
    (bloomIndexes blockHash).

Definition set_bit (bytes : list Z) (index : Z) : list Z :=
  alter (fun byte => Z.lor byte (Z.shiftl 1 (Z.land index 7))) (Z.to_nat (Z.shiftr index 3)) bytes.

Definition bloomAdd (bloom blockHash : string) : string :=
  let bytes := map (fun index => bloom_byte bloom (Z.of_nat index)) (seq 0 256) in
  String.concat "" (map hex_byte_text (foldl set_bit bytes (bloomIndexes blockHash))).

(** ** Anchors *)

(** The argument's own [snapshotHash] is not read. *)
Definition makeLineageAnchor (input : LineageAnchor) : result LineageAnchor :=
  data ← stableStringify (JObject (anchor_fields input));
  Ok (Anchor (compactedEvents input) (anchor_head input) (genesisAcceptance input) (tipTransition input)
        (manifestIdentitySha256 input) (checkpointBlockHash input) (historyHash input) (sha256Hex data)
        (relevantBlocksBloom input)).

Definition compactedLineageAnchor (state : CovenantLineageState) (prefix : list CovenantLineageEvent)
    (checkpointBlockHash : string) : result LineageAnchor :=
  let prefixState := state <| journal := prefix |> <| currentHead := anchor_head (anchor state) |> in
  prefixState ← deriveCanonicalLineage prefixState;
  canonicalPrefix ← canonicalAcceptedEvents prefix;
  let tip := match last canonicalPrefix with
             | Some t => Some t
             | None => tipTransition (anchor state)
             end in
  let bloom := foldl (fun bloom event => match event with
                 | EventAccepted _ t => bloomAdd bloom (acceptingBlockHash (transition_acceptance t))
                 | _ => bloom
                 end) (relevantBlocksBloom (anchor state)) prefix in
  history ← stableStringify (JObject [("prior", JString (historyHash (anchor state)));
                                      ("events", JArray (map event_json prefix))]);
  makeLineageAnchor (Anchor (compactedEvents (anchor state) + Z.of_nat (length prefix))
    (currentHead prefixState) (canonicalGenesisAcceptance prefixState) tip
    (identitySha256 (manifest state)) checkpointBlockHash (sha256Hex history) "" bloom).

Definition with_sequence (sequence : Z) (event : CovenantLineageEvent) : CovenantLineageEvent :=
  match event with
  | EventAccepted _ t => EventAccepted sequence t
  | EventGenesisAccepted _ a => EventGenesisAccepted sequence a
  | EventRemoved _ h ids => EventRemoved sequence h ids
  end.
Definition renumber (events : list CovenantLineageEvent) : list CovenantLineageEvent :=
  imap (fun index event => with_sequence (Z.of_nat index) event) events.

Definition removed_ids (event : CovenantLineageEvent) : list string :=
  match event with EventRemoved _ _ ids => map toLowerCase ids | _ => [] end.

Definition accepts_one_of (ids : list string) (event : CovenantLineageEvent) : bool :=
  match event with
  | EventAccepted _ t => existsb (fun id => id === toLowerCase (transactionId t)) ids
  | _ => false
  end.
Fixpoint find_index {A} (p : A -> bool) (l : list A) : option nat :=
  match l with
  | [] => None
  | x :: l => if p x then Some 0%nat else S <$> find_index p l
  end.

(** The number of events to compact: all but the last 64, moved back to the first accepted
    event that one of those 64 removes. *)
Definition compaction_cutoff (journal : list CovenantLineageEvent) : nat :=
  let cutoff := (length journal - 64)%nat in
  let suffixRemovals := List.concat (map removed_ids (drop cutoff journal)) in
  default cutoff (find_index (accepts_one_of suffixRemovals) (take cutoff journal)).

Definition compactLineage (state : CovenantLineageState) : result CovenantLineageState :=
  if (length (journal state) <=? 64)%nat then Ok state
  else
    let cutoff := compaction_cutoff (journal state) in
    if (cutoff =? 0)%nat then Ok state
    else
      anchor' ← compactedLineageAnchor state (take cutoff (journal state)) (blockHash (checkpoint state));
      Ok (state <| anchor := anchor' |> <| journal := renumber (drop cutoff (journal state)) |>).

(** ** Validation of manifests and states *)

Definition isRecord (j : json) : bool := match j with JObject _ => true | _ => false end.
Definition entries (j : json) : list (string * json) := match j with JObject l => l | _ => [] end.
Definition no_entries (j : json) : bool := match entries j with [] => true | _ => false end.

Definition is_git_object_id (s : string) : bool := string_forall is_hex s && (byte_length s =? 40).

Definition assertSelector (entry : string * json) : result () :=
  let '(name, selector) := entry in
  _ ← throw_if (blank name) "covenant launch manifest selector name is invalid";
  match selector with
  | JString s => assertByteHex s ("covenant selector " +:+ name)
  | _ => Throw (Error ("covenant selector " +:+ name +:+ " must be non-empty byte hex"))
  end.

Definition assertLaunchManifest (manifest : CovenantLaunchManifest) : result () :=
  let g := genesis manifest in
  _ ← throw_if (format manifest !== "kaspa-x402-covenant-launch-v1") "covenant launch manifest format is invalid";
  _ ← throw_if ((network manifest !== "kaspa:testnet-10") && (network manifest !== "kaspa:mainnet"))
        "covenant launch manifest network is invalid";
  _ ← throw_if (negb (is_git_object_id (checkedCommit (compiler manifest))))
        "compiler checked commit must be a 20-byte git object id";
  _ ← assertHash32 (source_sha256 (source manifest)) "covenant source hash" false;
  _ ← assertHash32 (compiledBaseSha256 (bytecode manifest)) "compiled bytecode hash" false;
  _ ← throw_if (blank (compiler_name (compiler manifest)) || blank (command (compiler manifest)) ||
                blank (path (source manifest)))
        "covenant launch manifest build identity is incomplete";
  _ ← throw_if (blank (templateId (bytecode manifest)) ||
                negb (isRecord (constructorSlots manifest)) || no_entries (constructorSlots manifest) ||
                negb (isRecord (abi manifest)) || no_entries (abi manifest) ||
                negb (isRecord (selectors manifest)) || no_entries (selectors manifest))
        "covenant launch manifest template identity is incomplete";
  _ ← assertHash32 (identitySha256 manifest) "covenant launch identity hash" false;
  identity ← stableStringify (JObject (identity_fields manifest));
  let computedIdentity := sha256Hex identity in
  _ ← throw_if (computedIdentity !== toLowerCase (identitySha256 manifest))
        "covenant launch identity hash is inconsistent";
  _ ← for_each assertSelector (entries (selectors manifest));
  _ ← throw_if (derivation g !== "kip20-covenant-id-v1") "covenant launch manifest genesis derivation is invalid";
  _ ← assertHash32 (genesis_covenantId g) "genesis covenant id" true;
  _ ← assertHash32 (genesis_transactionId g) "genesis transaction id" false;
  _ ← assertOutpoint (authorizingInputOutpoint g) "genesis authorizing input";
  _ ← assertOutpoint (genesis_outpoint g) "genesis outpoint";
  _ ← throw_if ((toLowerCase (txid (genesis_outpoint g)) !== toLowerCase (genesis_transactionId g)) ||
                (toLowerCase (ae_transactionId (acceptance g)) !== toLowerCase (genesis_transactionId g)))
        "covenant launch manifest genesis transaction is inconsistent";
  _ ← assertByteHex (genesis_scriptPublicKey g) "genesis script public key";
  _ ← parseSompiString (genesis_value g);
  _ ← parseSompiString (genesis_claimedCumulativeAmount g);
  assertAcceptedEvidence (acceptance g).

Definition assertJournalEvent (m : CovenantLaunchManifest) (indexed : nat * CovenantLineageEvent) : result () :=
  let '(position, event) := indexed in
  let sequence := match event with
                  | EventAccepted n _ | EventGenesisAccepted n _ | EventRemoved n _ _ => n
                  end in
  _ ← throw_if (negb (sequence =? Z.of_nat position)) "covenant lineage journal sequence is not append-only";
  match event with
  | EventAccepted _ transition => assertLineageTransition m transition
  | EventGenesisAccepted _ acceptance =>
      _ ← assertAcceptedEvidence acceptance;
      throw_if (toLowerCase (ae_transactionId acceptance) !== toLowerCase (genesis_transactionId (genesis m)))
        "covenant genesis reacceptance transaction is inconsistent"
  | EventRemoved _ hash ids =>
      _ ← assertHash32 hash "removed accepting block hash" false;
      for_each (fun id => assertHash32 id "removed transaction id" false) ids
  end.

Definition genesis_head (m : CovenantLaunchManifest) : CovenantLineageHead :=
  Head (genesis_outpoint (genesis m)) (genesis_scriptPublicKey (genesis m))
    (genesis_value (genesis m)) (genesis_claimedCumulativeAmount (genesis m)).

Definition assertLineageState (state : CovenantLineageState) : result () :=
  _ ← assertLineageBudget state;
  _ ← assertLaunchManifest (manifest state);
  detached ← or_else (Ok (negb (isSafeInteger (compactedEvents (anchor state))) ||
                          (compactedEvents (anchor state) <? 0) ||
                          negb (is_bloom (relevantBlocksBloom (anchor state)))))
               (made ← makeLineageAnchor (anchor state);
                Ok (snapshotHash (anchor state) !== snapshotHash made));
  _ ← throw_if detached "covenant lineage compact checkpoint is invalid";
  _ ← throw_if ((manifestIdentitySha256 (anchor state) !== identitySha256 (manifest state)) ||
                negb (is_lower_hash32 (checkpointBlockHash (anchor state))))
        "covenant lineage compact checkpoint is detached from the manifest";
  _ ← match tipTransition (anchor state) with
      | Some tipTransition =>
          _ ← assertLineageTransition (manifest state) tipTransition;
          let tipHead := successor_head <$> successor tipTransition in
          throw_if (negb (sameLineageHead tipHead (anchor_head (anchor state))))
            "covenant lineage compact head lacks its accepted tip witness"
      | None =>
          let genesisHead := match genesisAcceptance (anchor state) with
                             | Some _ => Some (genesis_head (manifest state))
                             | None => None
                             end in
          throw_if (negb (sameLineageHead genesisHead (anchor_head (anchor state))))
            "covenant lineage compact genesis head is invalid"
      end;
  _ ← assertCheckpoint (checkpoint state);
  _ ← throw_if ((availability state !== "available") && (availability state !== "unknown"))
        "covenant lineage availability is invalid";
  _ ← for_each (assertJournalEvent (manifest state)) (imap (fun i e => (i, e)) (journal state));
  derived ← deriveCanonicalLineage state;
  _ ← throw_if (negb (sameLineageHead (currentHead derived) (currentHead state)))
        "covenant current head is not the derived journal index";
  throw_if ((availability state === "available") && isNone (canonicalGenesisAcceptance state))
    "available covenant lineage is missing its canonical genesis".

(** ** Operations *)

Definition createCovenantLineageState (manifest : CovenantLaunchManifest) : result CovenantLineageState :=
  _ ← throw_if (MAX_LINEAGE_STATE_BYTES - 4096 <? serializedBytes (manifest_json manifest))
        "covenant launch manifest exceeds the lineage byte limit";
  _ ← assertLaunchManifest manifest;
  let head := manifest_head manifest in
  origin ← stableStringify (JObject [("genesis", JString (identitySha256 manifest))]);
  anchor ← makeLineageAnchor (Anchor 0 (Some head) (Some (acceptance (genesis manifest))) None
             (identitySha256 manifest) (blockHash (ae_checkpoint (acceptance (genesis manifest))))
             (sha256Hex origin) "" (String.concat "" (repeat "00" 256)));
  let state := LineageState manifest anchor [] (Some head) (ae_checkpoint (acceptance (genesis manifest)))
                 "available" None in
  _ ← assertLineageBudget state;
  Ok state.

(** The [Map] from accepting block hashes to the transaction ids accepted in them. *)
Definition collect_accepted (events : list CovenantLineageTransition) : list (string * list string) :=
  foldl (fun acceptedByBlock transition =>
    let hash := toLowerCase (acceptingBlockHash (transition_acceptance transition)) in
    let ids := default [] (map_get hash acceptedByBlock) in
    map_set hash (ids ++ [toLowerCase (transactionId transition)]) acceptedByBlock) [] events.

(** [{...structuredClone(current), availability: "unknown", unavailableReason}] *)
Definition unavailable (current : CovenantLineageState) (reason : string) : CovenantLineageState :=
  current <| availability := "unknown" |> <| unavailableReason := Some reason |>.

(** [next.journal.push(event)], [sequence++]: the two loops thread the journal and the counter. *)
Definition push_event (event : Z -> CovenantLineageEvent) (s : list CovenantLineageEvent * Z)
  : list CovenantLineageEvent * Z :=
  let '(journal, sequence) := s in (journal ++ [event sequence], sequence + 1).

(** The loop over removed blocks: it either returns from the whole update with [inl]. *)
Fixpoint remove_blocks (current : CovenantLineageState) (acceptedByBlock : list (string * list string))
    (genesisAcceptance : option AcceptedTransactionEvidence) (removed : list string)
    (hashes : list string) (s : list CovenantLineageEvent * Z)
  : result (CovenantLineageState + list CovenantLineageEvent * Z) :=
  match hashes with
  | [] => Ok (inr s)
  | hash :: hashes =>
      _ ← assertHash32 hash "removed chain block hash" false;
      let normalized := toLowerCase hash in
      _ ← throw_if (existsb (fun h => h === normalized) removed) "selected-chain update repeats a removed block";
      let genesisId := toLowerCase (genesis_transactionId (ChainTruth.genesis (manifest current))) in
      let transactionIds :=
        default [] (map_get normalized acceptedByBlock) ++
        match genesisAcceptance with
        | Some g => if toLowerCase (acceptingBlockHash g) === normalized then [genesisId] else []
        | None => []
        end in
      match transactionIds with
      | [] =>
          if bloomContains (relevantBlocksBloom (anchor current)) normalized
          then Ok (inl (unavailable current "selected-chain removal exceeds the compact reorganization window"))
          else remove_blocks current acceptedByBlock genesisAcceptance (normalized :: removed) hashes s
      | _ =>
          if (0 <? compactedEvents (anchor current)) && existsb (fun id => id === genesisId) transactionIds
          then Ok (inl (unavailable current "covenant genesis removal exceeds the compact reorganization window"))
          else remove_blocks current acceptedByBlock genesisAcceptance (normalized :: removed) hashes
                 (push_event (fun n => EventRemoved n normalized transactionIds) s)
      end
  end.

Definition add_transition (next : CovenantLineageState) (update : CovenantSelectedChainUpdate) (blockHash : string)
    (s : list string * (list CovenantLineageEvent * Z)) (transition : CovenantLineageTransition)
  : result (list string * (list CovenantLineageEvent * Z)) :=
  let '(spends, s) := s in
  _ ← assertLineageTransition (manifest next) transition;
  _ ← throw_if (toLowerCase (acceptingBlockHash (transition_acceptance transition)) !== blockHash)
        "lineage transition accepting block is inconsistent";
  _ ← throw_if (negb (sameCheckpoint (ae_checkpoint (transition_acceptance transition)) (update_checkpoint update)))
        "lineage transition checkpoint is inconsistent";
  let spentKey := outpointKey (consumedOutpoint transition) in
  _ ← throw_if (existsb (fun k => k === spentKey) spends)
        "selected-chain update contains branching covenant spends";
  Ok (spentKey :: spends, push_event (fun n => EventAccepted n transition) s).

Definition add_genesis (next : CovenantLineageState) (update : CovenantSelectedChainUpdate) (blockHash : string)
    (genesis : option AcceptedTransactionEvidence) (s : list CovenantLineageEvent * Z)
  : result (list CovenantLineageEvent * Z) :=
  match genesis with
  | None => Ok s
  | Some acceptance =>
      _ ← assertAcceptedEvidence acceptance;
      _ ← throw_if ((toLowerCase (ae_transactionId acceptance) !==
                       toLowerCase (genesis_transactionId (ChainTruth.genesis (manifest next)))) ||
                    (toLowerCase (acceptingBlockHash acceptance) !== blockHash) ||
                    negb (sameCheckpoint (ae_checkpoint acceptance) (update_checkpoint update)))
            "reaccepted covenant genesis evidence is inconsistent";
      _ ← throw_if (isSome (canonicalGenesisAcceptance (next <| journal := s.1 |>)))
            "selected-chain update repeats an accepted covenant genesis";
      Ok (push_event (fun n => EventGenesisAccepted n acceptance) s)
  end.

(** The loop over added blocks; the sets of block hashes and of spent outpoints grow with it. *)
Definition add_block (next : CovenantLineageState) (update : CovenantSelectedChainUpdate)
    (s : list string * (list string * (list CovenantLineageEvent * Z))) (block : SelectedChainBlock)
  : result (list string * (list string * (list CovenantLineageEvent * Z))) :=
  let '(addedBlocks, (spends, s)) := s in
  _ ← assertHash32 (block_blockHash block) "added chain block hash" false;
  let blockHash := toLowerCase (block_blockHash block) in
  _ ← throw_if (existsb (fun h => h === blockHash) addedBlocks) "selected-chain update repeats an added block";
  s ← add_genesis next update blockHash (block_genesisAcceptance block) s;
  s ← fold_result (add_transition next update blockHash) (transitions block) (spends, s);
  Ok (blockHash :: addedBlocks, s).

Definition additions (update : CovenantSelectedChainUpdate) : Z :=
  foldl (fun count block => count + Z.of_nat (length (transitions block)) +
                            (if isSome (block_genesisAcceptance block) then 1 else 0))
    0 (addedChainBlocks update).

Definition no_genesis_reason : string :=
  "covenant genesis was removed from the selected chain and has not been authoritatively reaccepted".

(** Everything after the update's guards: compaction, derivation and availability. *)
Definition finish_update (next : CovenantLineageState) : result CovenantLineageState :=
  next ← compactLineage next;
  next ← deriveCanonicalLineage next;
  _ ← assertLineageBudget next;
  Ok (match canonicalGenesisAcceptance next with
      | Some _ => next <| availability := "available" |> <| unavailableReason := None |>
      | None => next <| availability := "unknown" |> <| unavailableReason := Some no_genesis_reason |>
      end).

Definition applyCovenantSelectedChainUpdate (current : CovenantLineageState) (update : CovenantSelectedChainUpdate)
  : result CovenantLineageState :=
  let removals := Z.of_nat (length (removedChainBlockHashes update)) in
  _ ← throw_if (MAX_LINEAGE_REMOVED_BLOCKS <? removals) "selected-chain removed block count exceeds the limit";
  let updateBytes := serializedBytes (update_json update) in
  _ ← throw_if ((MAX_LINEAGE_UPDATE_EVENTS <? additions update + removals) || (MAX_LINEAGE_UPDATE_BYTES <? updateBytes))
        "selected-chain update exceeds the event or byte limit";
  _ ← assertLineageBudget current;
  _ ← throw_if ((MAX_LINEAGE_JOURNAL_EVENTS <? Z.of_nat (length (journal current)) + additions update + removals) ||
                (MAX_LINEAGE_STATE_BYTES <? serializedBytes (state_json current) + updateBytes))
        "projected covenant lineage exceeds the event or byte limit";
  _ ← assertLineageState current;
  _ ← assertCheckpoint (fromCheckpoint update);
  _ ← assertCheckpoint (update_checkpoint update);
  _ ← throw_if (negb (sameCheckpoint (checkpoint current) (fromCheckpoint update)))
        "selected-chain update does not resume from durable checkpoint";
  if continuity update === "pruned" then
    Ok (unavailable current "selected-chain continuity cannot be proven across the pruning horizon")
  else
    _ ← throw_if (continuity update !== "complete") "selected-chain update continuity is invalid";
    events ← canonicalAcceptedEvents (journal current);
    removed ← remove_blocks current (collect_accepted events) (canonicalGenesisAcceptance current) []
                (removedChainBlockHashes update) (journal current, Z.of_nat (length (journal current)));
    match removed with
    | inl early => Ok early
    | inr s =>
        s ← fold_result (add_block current update) (addedChainBlocks update) ([], ([], s));
        finish_update (current <| journal := s.2.2.1 |> <| checkpoint := update_checkpoint update |>)
    end.

Definition canonicalCovenantTransitions (state : CovenantLineageState) : result (list CovenantLineageTransition) :=
  _ ← assertLineageState state; canonicalAcceptedEvents (journal state).

(** The retained events of the previous journal, compared one by one with the next journal. *)
Definition same_retained (position : nat) (event : CovenantLineageEvent) (next : list CovenantLineageEvent)
  : result () :=
  left_text ← stableStringify (event_json (with_sequence (Z.of_nat position) event));
  right_text ← match next !! position with
               | Some e => stableStringify (event_json e)
               | None => stableStringify JUndefined
               end;
  throw_if (left_text !== right_text) "covenant lineage journal is not append-only".

Definition assertCovenantLineageExtension (previous next : CovenantLineageState) : result () :=
  let reject := Throw (Error "covenant lineage journal is not append-only") in
  let compacted := compactedEvents (anchor next) - compactedEvents (anchor previous) in
  if negb (isSafeInteger compacted) || (compacted <? 0) || (Z.of_nat (length (journal previous)) <? compacted)
  then reject else
  let retained := drop (Z.to_nat compacted) (journal previous) in
  if (length (journal next) <? length retained)%nat then reject else
  _ ← for_each (fun '(position, event) => same_retained position event (journal next))
        (imap (fun i e => (i, e)) retained);
  if compacted =? 0 then
    before ← stableStringify (anchor_json (anchor previous));
    after ← stableStringify (anchor_json (anchor next));
    if before !== after then reject else Ok tt
  else
    match compactedLineageAnchor previous (take (Z.to_nat compacted) (journal previous))
            (blockHash (checkpoint next)) with
    | Throw _ => reject
    | Ok expectedAnchor =>
        expected ← stableStringify (anchor_json expectedAnchor);
        actual ← stableStringify (anchor_json (anchor next));
        if expected !== actual then reject else Ok tt
    end.

Definition assertCovenantLineageConfirmed (state : CovenantLineageState) (requiredConfirmations : Z) : result () :=
  _ ← assertLineageState state;
  _ ← throw_if (availability state !== "available")
        (default "covenant lineage is unavailable" (unavailableReason state));
  match canonicalGenesisAcceptance state with
  | None => Throw (Error "covenant genesis is not on the selected chain")
  | Some genesisAcceptance =>
      events ← canonicalAcceptedEvents (journal state);
      for_each (fun item =>
        decision ← decideAccepted item requiredConfirmations;
        throw_if (match decision with DecidedConfirmed _ => false | _ => true end)
          "covenant lineage has not reached the configured confirmation threshold")
        (genesisAcceptance :: map transition_acceptance events)
  end.

(** [CovenantChainObserver.synchronize]: the loaded state, the source's update for its
    checkpoint and the compare-and-set save are calls to the given store and source. *)
Definition synchronize (loaded : CovenantLineageState)
    (selectedChainFrom : ChainCheckpoint -> Z -> result CovenantSelectedChainUpdate)
    (saveCovenantLineage : ChainCheckpoint -> CovenantLineageState -> result ()) (requiredConfirmations : Z)
  : result CovenantLineageState :=
  update ← selectedChainFrom (checkpoint loaded) requiredConfirmations;
  next ← applyCovenantSelectedChainUpdate loaded update;
  _ ← saveCovenantLineage (checkpoint loaded) next;
  Ok next.

End Sha.
