(* ===== verification/Lineage.v ===== *)
(** * Chain evidence and lineage derivation: theorems

    What a decision on evidence means, how the journal determines the covenant head, value
    conservation along a lineage, and the effect of reorganizations on the derived head. *)

From S2P Require Import Prelude Amount Json Binary ResourceBudget ChainTruth.

(** ** Numeric amounts *)

Definition amount (s : string) (n : Z) : Prop := s = toString n /\ 0 <= n <= U64_MAX.

Lemma parse_amount s n : parseSompiString s = Ok n <-> amount s n.
Proof. apply parse_ok. Qed.
Lemma amount_fun s n n' : amount s n -> amount s n' -> n = n'.
Proof. intros [-> H] [E H']. apply toString_inj in E; lia. Qed.
Lemma parse_amount_run s n : amount s n -> parseSompiString s = Ok n.
Proof. apply parse_amount. Qed.

(** Inverts a successful run of validation code into propositions. *)
Ltac inv_check :=
  repeat match goal with
  | H : mbind _ _ = Ok _ |- _ => apply bind_ok in H as (? & ? & H)
  | H : throw_if _ _ = Ok _ |- _ => apply throw_if_ok in H
  | H : parseSompiString _ = Ok _ |- _ => apply parse_amount in H
  | H : Ok _ = Ok _ |- _ => injection H as H
  | H : Throw _ = Ok _ |- _ => discriminate H
  | x : () |- _ => destruct x
  end; inv_bool.

(** ** Valid evidence *)

Definition valid_checkpoint (c : ChainCheckpoint) : Prop :=
  is_hash32 (blockHash c) = true /\ (exists b, amount (blueScore c) b) /\ exists d, amount (daaScore c) d.

Definition same_hex (a b : string) : Prop := toLowerCase a = toLowerCase b.

Definition valid_evidence (e : AcceptedTransactionEvidence) : Prop :=
  is_hash32 (ae_transactionId e) = true /\ is_hash32 (acceptingBlockHash e) = true /\
  valid_checkpoint (ae_checkpoint e) /\ 1 <= confirmationCount e <= MAX_SAFE_INTEGER /\
  exists accepting tip, amount (acceptingBlockBlueScore e) accepting /\
    amount (blueScore (ae_checkpoint e)) tip /\ accepting <= tip /\
    (same_hex (acceptingBlockHash e) (blockHash (ae_checkpoint e)) -> accepting = tip /\ confirmationCount e = 1).

Definition valid_outpoint (o : FundingOutpoint) : Prop := is_hash32 (txid o) = true /\ 0 <= index o <= U32_MAX.

Lemma assertHash32_ok v l nz u :
  assertHash32 v l nz = Ok u <-> is_hash32 v = true /\ (nz = true -> is_zero64 v = false).
Proof.
  unfold assertHash32. rewrite throw_if_ok, orb_false_iff, negb_false_iff, andb_false_iff.
  destruct nz, (is_zero64 v); naive_solver.
Qed.

Lemma is_u32_ok n : is_u32 n = true <-> 0 <= n <= U32_MAX.
Proof. unfold is_u32, isSafeInteger, MAX_SAFE_INTEGER, U32_MAX. lia. Qed.

Lemma assertOutpoint_ok o l u : assertOutpoint o l = Ok u <-> valid_outpoint o.
Proof.
  unfold assertOutpoint, valid_outpoint. rewrite bind_ok. setoid_rewrite assertHash32_ok.
  setoid_rewrite throw_if_ok. setoid_rewrite negb_false_iff. setoid_rewrite is_u32_ok.
  split; [naive_solver|]. intros [H1 H2]. exists (). naive_solver.
Qed.

Lemma assertCheckpoint_ok c u : assertCheckpoint c = Ok u <-> valid_checkpoint c.
Proof.
  unfold assertCheckpoint, valid_checkpoint. destruct u. split.
  - intros H. inv_check. apply assertHash32_ok in H0 as [? _]. eauto.
  - intros (H & (b & Hb) & (d & Hd)). rewrite (proj2 (assertHash32_ok _ _ _ ())) by done. cbn.
    by rewrite (parse_amount_run _ _ Hb), (parse_amount_run _ _ Hd).
Qed.

Lemma assertAcceptedEvidence_ok e u : assertAcceptedEvidence e = Ok u <-> valid_evidence e.
Proof.
  unfold assertAcceptedEvidence, valid_evidence, same_hex. destruct u. split.
  - intros H. inv_check. apply assertHash32_ok in H0 as [H0 _], H1 as [H1 _]. apply assertCheckpoint_ok in H2.
    unfold isSafeInteger in *. inv_bool. split; [done|]. split; [done|]. split; [done|]. split; [lia|].
    exists x2, x3. split; [done|]. split; [done|]. split; [lia|]. intros E.
    apply andb_false_iff in H as [H|H]; [by apply bool_decide_eq_false in H|]. inv_bool. lia.
  - intros (H0 & H1 & H2 & H3 & a & t & Ha & Ht & Hat & Hs).
    rewrite !(proj2 (assertHash32_ok _ _ _ ())) by done. cbn [mbind result_bind].
    rewrite (proj2 (assertCheckpoint_ok _ ()) H2). cbn [mbind result_bind].
    rewrite (parse_amount_run _ _ Ha), (parse_amount_run _ _ Ht). cbn [mbind result_bind].
    apply bind_ok. exists (). rewrite !throw_if_ok. unfold isSafeInteger. split; [lia|].
    destruct (decide (toLowerCase (acceptingBlockHash e) = toLowerCase (blockHash (ae_checkpoint e)))) as [E|E].
    + destruct (Hs E) as [-> ->]. rewrite bool_decide_eq_true_2 by done. by rewrite Z.eqb_refl.
    + by rewrite bool_decide_eq_false_2.
Qed.

Definition threshold (n : Z) : Prop := 1 <= n <= MAX_SAFE_INTEGER.

Lemma assertConfirmationThreshold_ok n u : assertConfirmationThreshold n = Ok u <-> threshold n.
Proof. unfold assertConfirmationThreshold, threshold, isSafeInteger. rewrite throw_if_ok. unfold MAX_SAFE_INTEGER. lia. Qed.

Lemma decideAccepted_ok e n d :
  decideAccepted e n = Ok d <->
  threshold n /\ valid_evidence e /\
  d = if n <=? confirmationCount e then DecidedConfirmed e else DecidedAccepted e.
Proof.
  unfold decideAccepted. split.
  - intros H. inv_check. apply assertConfirmationThreshold_ok in H0. apply assertAcceptedEvidence_ok in H2. by subst.
  - intros (Ht & He & ->). rewrite (proj2 (assertConfirmationThreshold_ok _ ()) Ht). cbn [mbind result_bind].
    rewrite (proj2 (assertHash32_ok _ _ _ ())) by (split; [apply He|done]). cbn [mbind result_bind].
    by rewrite (proj2 (assertAcceptedEvidence_ok _ ()) He).
Qed.

(** What permanent absence requires: a distinct transaction, itself confirmed at the same
    threshold, spending the outpoint, or a stable consensus rejection of this transaction. *)
Definition valid_absence (e : AbsentTransactionEvidence) (n : Z) : Prop :=
  is_hash32 (abs_transactionId e) = true /\ blank (abs_reason e) = false /\
  match proof e with
  | ConfirmedConflictingSpend spent conflicting =>
      valid_outpoint spent /\ valid_evidence conflicting /\ n <= confirmationCount conflicting /\
      ~ same_hex (ae_transactionId conflicting) (abs_transactionId e)
  | ConsensusRejection rejected code checkpoint =>
      is_hash32 rejected = true /\ same_hex rejected (abs_transactionId e) /\
      is_rejection_code code = true /\ valid_checkpoint checkpoint
  end.

Definition valid_unknown (e : UnknownTransactionEvidence) : Prop :=
  is_hash32 (unk_transactionId e) = true /\ blank (unk_reason e) = false /\
  match unk_checkpoint e with Some c => valid_checkpoint c | None => True end.

Lemma assertAbsentEvidence_ok e n u :
  threshold n -> is_hash32 (abs_transactionId e) = true ->
  assertAbsentEvidence e n = Ok u <-> valid_absence e n.
Proof.
  intros Ht Hid. unfold assertAbsentEvidence, valid_absence, same_hex. destruct u. split.
  - intros H. inv_check. split; [done|]. split; [done|]. destruct (proof e) as [spent c|rejected code cp]; inv_check.
    + match goal with H : assertOutpoint _ _ = _ |- _ => apply assertOutpoint_ok in H end.
      match goal with H : decideAccepted _ _ = _ |- _ => apply decideAccepted_ok in H as (_ & He & ->) end.
      destruct (n <=? confirmationCount c) eqn:En; [|done]. split_and!; try done. lia.
    + match goal with H : assertHash32 _ _ _ = _ |- _ => apply assertHash32_ok in H as [? _] end.
      match goal with H : assertCheckpoint _ = _ |- _ => apply assertCheckpoint_ok in H end. done.
  - intros (_ & Hb & H). rewrite Hb. cbn [throw_if mbind result_bind].
    destruct (proof e) as [spent c|rejected code cp].
    + destruct H as (Ho & He & Hc & Hne). rewrite (proj2 (assertOutpoint_ok _ _ ()) Ho). cbn [mbind result_bind].
      rewrite (proj2 (decideAccepted_ok c n _) (conj Ht (conj He eq_refl))). cbn [mbind result_bind].
      replace (n <=? confirmationCount c) with true by lia. by rewrite bool_decide_eq_false_2.
    + destruct H as (Hr & He & Hc & Hk). rewrite (proj2 (assertHash32_ok _ _ _ ())) by done. cbn [mbind result_bind].
      rewrite He, bool_decide_eq_true_2 by done. cbn [negb throw_if mbind result_bind].
      rewrite Hc. by apply assertCheckpoint_ok.
Qed.

(** A decision is reached exactly for well-formed evidence under a positive safe
    threshold, returns the evidence unchanged, and is confirmed exactly when the observed
    confirmation count reaches the threshold: an adapter cannot declare confirmation, and
    absence needs a confirmed distinct conflicting spend or a bound consensus rejection. *)
Theorem decide_evidence_exact evidence n d :
  decideChainEvidence evidence n = Ok d <->
  threshold n /\
  match evidence, d with
  | StatusAccepted e, DecidedConfirmed e' => e' = e /\ valid_evidence e /\ n <= confirmationCount e
  | StatusAccepted e, DecidedAccepted e' => e' = e /\ valid_evidence e /\ confirmationCount e < n
  | StatusAbsent e, DecidedAbsent e' => e' = e /\ valid_absence e n
  | StatusUnknown e, DecidedUnknown e' => e' = e /\ valid_unknown e
  | _, _ => False
  end.
Proof.
  destruct evidence as [e|e|e]; cbn [decideChainEvidence].
  - rewrite decideAccepted_ok. destruct (n <=? confirmationCount e) eqn:En; inv_bool; destruct d; naive_solver lia.
  - split.
    + intros H. inv_check. apply assertConfirmationThreshold_ok in H0. apply assertHash32_ok in H1 as [H1 _].
      apply assertAbsentEvidence_ok in H2; [|done..]. subst. done.
    + intros [Ht H]. destruct d; try done. destruct H as [-> H].
      rewrite (proj2 (assertConfirmationThreshold_ok _ ()) Ht). cbn [mbind result_bind].
      rewrite (proj2 (assertHash32_ok _ _ _ ())) by (split; [apply H|done]). cbn [mbind result_bind].
      by rewrite (proj2 (assertAbsentEvidence_ok e n () Ht (proj1 H)) H).
  - unfold valid_unknown. split.
    + intros H. inv_check. apply assertConfirmationThreshold_ok in H0. apply assertHash32_ok in H1 as [H1 _].
      subst. split; [done|]. split; [done|]. split; [done|]. split; [done|].
      destruct (unk_checkpoint e); [|done]. by apply assertCheckpoint_ok in H3.
    + intros [Ht H]. destruct d; try done. destruct H as [-> (H1 & H2 & H3)].
      rewrite (proj2 (assertConfirmationThreshold_ok _ ()) Ht). cbn [mbind result_bind].
      rewrite (proj2 (assertHash32_ok _ _ _ ())) by done. cbn [mbind result_bind]. rewrite H2.
      destruct (unk_checkpoint e); [|done]. cbn [throw_if mbind result_bind].
      by rewrite (proj2 (assertCheckpoint_ok _ ()) H3).
Qed.

(** ** The head as a run of transitions *)

Definition lower_id (t : CovenantLineageTransition) : string := toLowerCase (transactionId t).

Definition normalized_head (s : CovenantLineageSuccessor) : CovenantLineageHead :=
  let h := successor_head s in
  Head (outpoint h) (toLowerCase (scriptPublicKey h)) (value h) (claimedCumulativeAmount h).

(** What one covenant transition may do to the head it consumes. *)
Inductive step (h : CovenantLineageHead) (t : CovenantLineageTransition) : option CovenantLineageHead -> Prop :=
  | step_refund out v paid :
      kind t = "refund" -> sameOutpoint (outpoint h) (consumedOutpoint t) = true ->
      terminalOutput t = Some out -> amount (output_value out) paid -> amount (value h) v -> paid <= v ->
      step h t None
  | step_claim s v c v' c' :
      kind t = "claim" -> sameOutpoint (outpoint h) (consumedOutpoint t) = true ->
      successor t = Some s -> amount (value h) v -> amount (claimedCumulativeAmount h) c ->
      amount (value (successor_head s)) v' -> amount (claimedCumulativeAmount (successor_head s)) c' ->
      v' < v -> v' + c' = v + c -> step h t (Some (normalized_head s))
  | step_top_up s v c v' :
      kind t <> "refund" -> kind t <> "claim" -> sameOutpoint (outpoint h) (consumedOutpoint t) = true ->
      successor t = Some s -> amount (value h) v -> amount (claimedCumulativeAmount h) c ->
      amount (value (successor_head s)) v' -> amount (claimedCumulativeAmount (successor_head s)) c ->
      v < v' -> step h t (Some (normalized_head s)).

Inductive lineage : option CovenantLineageHead -> list CovenantLineageTransition ->
    option CovenantLineageHead -> Prop :=
  | lineage_nil o : lineage o [] o
  | lineage_cons h t o ts o' : step h t o -> lineage o ts o' -> lineage (Some h) (t :: ts) o'.

Lemma step_functional h t o o' : step h t o -> step h t o' -> o = o'.
Proof. destruct 1, 1; congruence. Qed.

Lemma lineage_functional o ts m m' : lineage o ts m -> lineage o ts m' -> m = m'.
Proof.
  intros Hl. revert m'. induction Hl as [|h t o ts o' Hs Hl IH]; intros m' H; inversion H; subst; [done|].
  apply IH. by rewrite (step_functional _ _ _ _ Hs H3).
Qed.

Lemma existsb_seen (x : string) l : existsb (fun t => t === x) l = true <-> x ∈ l.
Proof.
  rewrite existsb_exists. split.
  - intros (y & Hy & E). inv_bool. subst. by apply list_elem_of_In.
  - intros Hx. exists x. split; [by apply list_elem_of_In|]. by apply bool_decide_eq_true_2.
Qed.

Lemma not_seen (x : string) l : existsb (fun t => t === x) l = false <-> x ∉ l.
Proof. rewrite <- existsb_seen. destruct (existsb _ l); naive_solver. Qed.

Lemma advance_head_ok o seen t s :
  advance_head (o, seen) t = Ok s <->
  exists h o', o = Some h /\ lower_id t ∉ seen /\ step h t o' /\ s = (o', lower_id t :: seen).
Proof.
  cbn [advance_head]. fold (lower_id t). split.
  - intros H. inv_check. apply not_seen in H0. destruct o as [h|]; [|done]. inv_check.
    exists h. destruct (kind t === "refund") eqn:Ek; inv_bool.
    + destruct (terminalOutput t) as [out|] eqn:Eo; [|done]. inv_check. subst. exists None.
      split; [done|]. split; [done|]. split; [|done]. by eapply step_refund; eauto.
    + inv_check. destruct (successor t) as [sc|] eqn:Es; [|done]. inv_check. subst. exists (Some (normalized_head sc)).
      split; [done|]. split; [done|]. split; [|done].
      destruct (kind t === "claim") eqn:Ec; inv_check; inv_bool.
      * eapply step_claim; eauto; lia.
      * match goal with H : ?a = ?b :> Z |- _ => subst a end. eapply step_top_up; eauto.
  - intros (h & o' & -> & Hn & Hs & ->). rewrite (proj2 (not_seen _ _) Hn). cbn [throw_if mbind result_bind].
    destruct Hs as [out v paid Hk Ho Ht Hp Hv Hle|sc v c v' c' Hk Ho Hsc Hv Hc Hv' Hc' Hlt Heq|sc v c v' Hk1 Hk2 Ho Hsc Hv Hc Hv' Hc' Hlt];
      rewrite Ho; cbn [negb throw_if mbind result_bind].
    + rewrite Hk, Ht. cbn [bool_decide]. rewrite bool_decide_eq_true_2 by done.
      rewrite (parse_amount_run _ _ Hp), (parse_amount_run _ _ Hv). cbn [mbind result_bind].
      by replace (v <? paid) with false by lia.
    + rewrite bool_decide_eq_false_2 by (by rewrite Hk).
      rewrite (parse_amount_run _ _ Hv), Hsc. cbn [mbind result_bind].
      rewrite (parse_amount_run _ _ Hv'), (parse_amount_run _ _ Hc), (parse_amount_run _ _ Hc').
      cbn [mbind result_bind]. rewrite Hk, bool_decide_eq_true_2 by done.
      by replace ((v <=? v') || (c' <=? c) || negb (v - v' =? c' - c)) with false by lia.
    + rewrite !bool_decide_eq_false_2 by done.
      rewrite (parse_amount_run _ _ Hv), Hsc. cbn [mbind result_bind].
      rewrite (parse_amount_run _ _ Hv'), (parse_amount_run _ _ Hc), (parse_amount_run _ _ Hc').
      cbn [mbind result_bind]. by replace ((v' <=? v) || negb (c =? c)) with false by lia.
Qed.

Lemma advance_all_ok ts o seen s :
  fold_result advance_head ts (o, seen) = Ok s <->
  lineage o ts s.1 /\ NoDup (map lower_id ts) /\ Forall (fun t => lower_id t ∉ seen) ts /\
  s.2 = rev (map lower_id ts) ++ seen.
Proof.
  revert o seen. induction ts as [|t ts IH]; intros o seen; cbn [fold_result].
  - split; [intros [= <-]; cbn; repeat constructor|]. intros (Hl & _ & _ & Hs). inversion Hl; subst.
    destruct s; cbn in *; by subst.
  - rewrite bind_ok. setoid_rewrite advance_head_ok. split.
    + intros (s' & (h & o' & -> & Hn & Hs & ->) & H). apply IH in H as (Hl & Hnd & Hf & Hr).
      cbn [map rev]. rewrite NoDup_cons, Forall_cons, Hr, <- app_assoc. split_and!; try done.
      * by econstructor.
      * intros (t' & Ht & Hin%list_elem_of_In)%list_elem_of_In%in_map_iff. rewrite Forall_forall in Hf.
        apply (Hf t' Hin). rewrite Ht. by left.
      * eapply Forall_impl; [exact Hf|]. cbn. intros t' Ht' Hin. apply Ht'. by right.
    + cbn [map rev]. rewrite NoDup_cons, Forall_cons. intros (Hl & [Hn1 Hnd] & [Hn Hf] & Hr). inversion Hl; subst.
      eexists. split; [eauto 10|]. apply IH. split; [done|]. split; [done|]. split; [|by rewrite Hr, <- app_assoc].
      apply Forall_forall. intros t' Ht' [Heq|Hin]%elem_of_cons.
      * apply Hn1. rewrite <- Heq. apply list_elem_of_In, in_map, list_elem_of_In, Ht'.
      * rewrite Forall_forall in Hf. by apply (Hf t').
Qed.

(** C1.  The derived head is exactly the outcome of running the journal's canonical
    transitions, each consuming the previous head: a claim moves value into the claimed total,
    a top-up adds value, a refund ends the lineage; anything else (a fork, a gap, a repeated
    transaction, inconsistent amounts) is rejected, and nothing but the head is changed. *)
Theorem derive_refines_lineage state state' :
  deriveCanonicalLineage state = Ok state' <->
  exists events head,
    canonicalAcceptedEvents (journal state) = Ok events /\ NoDup (map lower_id events) /\
    lineage (starting_head state) events head /\ state' = state <| currentHead := head |>.
Proof.
  unfold deriveCanonicalLineage. rewrite bind_ok. setoid_rewrite bind_ok. setoid_rewrite advance_all_ok. split.
  - intros (events & He & s & (Hl & Hn & _ & _) & [= <-]). eauto 10.
  - intros (events & head & He & Hn & Hl & ->). exists events. split; [done|].
    exists (head, rev (map lower_id events) ++ []). split; [|done]. split_and!; try done.
    apply Forall_true. intros t. apply not_elem_of_nil.
Qed.

(** ** Conservation of value *)

(** Value added by top-ups along a run that starts with value [v]. *)
Fixpoint deposits (v : Z) (ts : list CovenantLineageTransition) : Z :=
  match ts with
  | [] => 0
  | t :: ts =>
      match successor t with
      | Some s =>
          let v' := dec_value (value (successor_head s)) in
          (if kind t === "claim" then 0 else v' - v) + deposits v' ts
      | None => 0
      end
  end.

Lemma amount_dec s n : amount s n -> dec_value s = n.
Proof. intros [-> H]. exact (proj2 (toString_spec n (proj1 H))). Qed.

Lemma lineage_conserves_heads h ts h' :
  lineage (Some h) ts (Some h') -> ts <> [] ->
  exists v c v' c', amount (value h) v /\ amount (claimedCumulativeAmount h) c /\
    amount (value h') v' /\ amount (claimedCumulativeAmount h') c' /\
    v' + c' = v + c + deposits v ts /\ 0 <= deposits v ts /\ c <= c'.
Proof.
  remember (Some h) as o eqn:Ho. remember (Some h') as o' eqn:Ho'. intros Hl. revert h h' Ho Ho'.
  induction Hl as [|h0 t o ts o' Hs Hl IH]; intros h h' Ho Ho' Hne; [done|]. injection Ho as ->. subst o'.
  assert (exists s v c v' c', successor t = Some s /\ o = Some (normalized_head s) /\
    amount (value h) v /\ amount (claimedCumulativeAmount h) c /\
    amount (value (normalized_head s)) v' /\ amount (claimedCumulativeAmount (normalized_head s)) c' /\ c <= c' /\
    v' + c' = v + c + (if kind t === "claim" then 0 else v' - v) /\ (kind t <> "claim" -> v < v'))
    as (s & v & c & v' & c' & Hsc & -> & Hv & Hc & Hv' & Hc' & Hcc & Heq & Htop).
  { destruct Hs as [out v paid Hk|s v c v' c' Hk|s v c v' Hk1 Hk2].
    - inversion Hl.
    - exists s, v, c, v', c'. rewrite Hk. rewrite bool_decide_eq_true_2 by done. split_and!; try done; lia.
    - exists s, v, c, v', c. rewrite bool_decide_eq_false_2 by done. split_and!; try done; lia. }
  exists v, c. cbn [deposits]. rewrite Hsc. change (value (normalized_head s)) with (value (successor_head s)) in Hv'.
  rewrite (amount_dec _ _ Hv').
  assert (0 <= (if kind t === "claim" then 0 else v' - v)).
  { destruct (kind t === "claim") eqn:E; inv_bool; [lia|]. specialize (Htop E). lia. }
  destruct ts as [|t' ts].
  - inversion Hl; subst. exists v', c'. cbn [deposits]. split_and!; try done; lia.
  - destruct (IH _ _ eq_refl eq_refl ltac:(done)) as (v1 & c1 & v2 & c2 & Hv1 & Hc1 & Hv2 & Hc2 & E & Hd & Hle).
    pose proof (amount_fun _ _ _ Hv1 Hv') as ->. pose proof (amount_fun _ _ _ Hc1 Hc') as ->.
    exists v2, c2. split_and!; try done; lia.
Qed.

(** C2.  Along every derived lineage value plus claimed total grows exactly by the
    top-ups: no sequence of claims, top-ups, reorganizations and re-acceptances that the
    derivation accepts creates or loses value, and the claimed total never decreases. *)
Theorem derived_value_conserved state state' events h h' :
  deriveCanonicalLineage state = Ok state' -> canonicalAcceptedEvents (journal state) = Ok events ->
  events <> [] -> starting_head state = Some h -> currentHead state' = Some h' ->
  exists v c v' c', amount (value h) v /\ amount (claimedCumulativeAmount h) c /\
    amount (value h') v' /\ amount (claimedCumulativeAmount h') c' /\
    v' + c' = v + c + deposits v events /\ 0 <= deposits v events /\ c <= c'.
Proof.
  intros (s & Hs & H)%bind_ok He Hne Hh Hh'. rewrite He in Hs. injection Hs as <-.
  apply bind_ok in H as (s & Hs & [= <-]). rewrite Hh in Hs. apply advance_all_ok in Hs as (Hl & _).
  cbn in Hh'. rewrite Hh' in Hl. by apply lineage_conserves_heads.
Qed.

(** ** Canonical events *)

Notation active_map := (list (string * CovenantLineageTransition)).

(** Every entry is stored under its own id, and no id occurs twice. *)
Definition active_ok (active : active_map) : Prop :=
  map fst active = map lower_id (map snd active) /\ NoDup (map fst active).

Lemma map_delete_keys (k : string) (m : active_map) :
  active_ok m -> active_ok (map_delete k m).
Proof.
  unfold active_ok. intros [He Hn]. induction m as [|[k' t] m IH]; cbn [map_delete map fst snd] in *; [done|].
  injection He as H1 H2. apply NoDup_cons in Hn as [Hn1 Hn2]. destruct (decide _); [done|]. cbn [map fst snd].
  destruct (IH H2 Hn2) as [H3 H4]. split; [congruence|]. apply NoDup_cons. split; [|done].
  intros (x & Hx & Hin%list_elem_of_In)%list_elem_of_In%in_map_iff. apply Hn1. rewrite <- Hx.
  apply list_elem_of_In, in_map, list_elem_of_In. by apply map_delete_sub in Hin.
Qed.

Lemma remove_active_cases hash active id :
  remove_active hash active id = active \/ remove_active hash active id = map_delete (toLowerCase id) active.
Proof. unfold remove_active. destruct (map_get _ _) as [t|]; [|auto]. destruct (is_removed_from hash t); auto. Qed.

Lemma remove_all_ok hash active ids : active_ok active -> active_ok (foldl (remove_active hash) active ids).
Proof.
  revert active. induction ids as [|id ids IH]; intros active Ha; cbn [foldl]; [done|]. apply IH.
  destruct (remove_active_cases hash active id) as [->| ->]; [done|]. by apply map_delete_keys.
Qed.

Lemma apply_event_ok active e active' :
  active_ok active -> apply_event active e = Ok active' -> active_ok active'.
Proof.
  intros Ha. destruct e as [n t|n a|n hash ids]; cbn [apply_event].
  - intros (u & H%throw_if_ok & [= <-])%bind_ok. apply map_has_false in H. fold (lower_id t) in *.
    rewrite map_set_fresh by done. destruct Ha as [He Hn]. split.
    + rewrite !map_app, He. done.
    + rewrite map_app. apply NoDup_app. split; [done|]. split; [|by apply NoDup_singleton].
      intros x Hx Hin. cbn in Hin. apply list_elem_of_singleton in Hin as ->. done.
  - by intros [= <-].
  - intros [= <-]. by apply remove_all_ok.
Qed.

Lemma journal_active_ok events active active' :
  active_ok active -> fold_result apply_event events active = Ok active' -> active_ok active'.
Proof. intros Ha. apply (fold_result_inv active_ok); [|done]. intros a e a' _. apply apply_event_ok. Qed.

Lemma active_ok_nil : active_ok [].
Proof. split; [done|constructor]. Qed.

(** Entries whose ids an event does not remove are a frame for it. *)
Lemma remove_active_frame hash (frame active : active_map) id :
  toLowerCase id ∉ map fst frame ->
  remove_active hash (frame ++ active) id = frame ++ remove_active hash active id.
Proof.
  intros Hid. unfold remove_active. rewrite map_get_app by done.
  destruct (map_get _ active) as [t|]; [|done]. destruct (is_removed_from hash t); [|done].
  by rewrite map_delete_app.
Qed.

Definition spares (keys : list string) (e : CovenantLineageEvent) : Prop :=
  Forall (fun id => id ∉ keys) (removed_ids e).
#[global] Instance spares_dec keys e : Decision (spares keys e).
Proof. unfold spares. apply _. Defined.

Lemma apply_event_frame frame active e active' :
  spares (map fst frame) e -> apply_event (frame ++ active) e = Ok active' ->
  exists rest, apply_event active e = Ok rest /\ active' = frame ++ rest.
Proof.
  intros Hs. destruct e as [n t|n a|n hash ids]; cbn [apply_event].
  - intros (u & H%throw_if_ok & [= <-])%bind_ok. apply map_has_false in H. rewrite map_app, elem_of_app in H.
    rewrite !map_set_fresh by (rewrite ?map_app, ?elem_of_app; tauto).
    assert (lower_id t ∉ map fst active) as Hn by tauto. exists (active ++ [(lower_id t, t)]).
    fold (lower_id t). rewrite (proj2 (map_has_false _ _) Hn). cbn. by rewrite <- app_assoc.
  - intros [= <-]. eauto.
  - intros [= <-]. eexists. split; [reflexivity|]. unfold spares in Hs. cbn [removed_ids] in Hs. revert active.
    induction ids as [|id ids IH]; intros active; cbn [foldl]; [done|]. cbn [map] in Hs.
    apply Forall_cons in Hs as [Hid Hs]. by rewrite remove_active_frame, IH.
Qed.

Lemma journal_frame events frame active active' :
  Forall (spares (map fst frame)) events -> fold_result apply_event events (frame ++ active) = Ok active' ->
  exists rest, fold_result apply_event events active = Ok rest /\ active' = frame ++ rest.
Proof.
  intros Hs. revert active. induction Hs as [|e events He Hs IH]; intros active; cbn [fold_result].
  - intros [= <-]. eauto.
  - intros (a & Ha & H)%bind_ok. apply apply_event_frame in Ha as (rest & -> & ->); [|done]. cbn. by apply IH.
Qed.

(** ** Reorganizations *)

Definition accept_block (ts : list (Z * CovenantLineageTransition)) : list CovenantLineageEvent :=
  map (fun nt => EventAccepted nt.1 nt.2) ts.

Lemma accept_block_active ts (active : active_map) :
  NoDup (map lower_id (map snd ts)) -> (forall t, t ∈ map snd ts -> lower_id t ∉ map fst active) ->
  fold_result apply_event (accept_block ts) active = Ok (active ++ map (fun nt => (lower_id nt.2, nt.2)) ts).
Proof.
  revert active. induction ts as [|[n t] ts IH]; intros active Hn Hf; cbn [accept_block map fold_result fst snd] in *.
  { by rewrite app_nil_r. }
  apply NoDup_cons in Hn as [Hn1 Hn2]. cbn [apply_event]. fold (lower_id t).
  assert (lower_id t ∉ map fst active) as Hfresh by (apply Hf; by left).
  rewrite (proj2 (map_has_false _ _) Hfresh), map_set_fresh by done. cbn [throw_if mbind result_bind].
  fold (accept_block ts). rewrite IH; [by rewrite <- app_assoc|done|].
  intros t' Ht'. rewrite map_app, not_elem_of_app. split; [apply Hf; by right|]. cbn.
  intros Heq%list_elem_of_singleton. apply Hn1. rewrite <- Heq.
  apply list_elem_of_In, in_map, list_elem_of_In, Ht'.
Qed.

Lemma remove_block_active hash (ts : list (Z * CovenantLineageTransition)) (active : active_map) :
  (forall t, t ∈ map snd ts -> lower_id t ∉ map fst active /\ is_removed_from hash t = true) ->
  foldl (remove_active hash) (active ++ map (fun nt => (lower_id nt.2, nt.2)) ts)
    (map (fun nt => transactionId nt.2) ts) = active.
Proof.
  revert active. induction ts as [|[n t] ts IH]; intros active Hf; cbn [map foldl fst snd] in *; [by rewrite app_nil_r|].
  destruct (Hf t ltac:(by left)) as [Hn Hr]. rewrite remove_active_frame by done.
  assert (forall m, remove_active hash ((lower_id t, t) :: m) (transactionId t) = m) as ->.
  { intros m. unfold remove_active. cbn [map_get map_delete]. by rewrite decide_True, Hr, decide_True. }
  apply IH. intros t' Ht'. apply Hf. by right.
Qed.

Lemma genesis_after_reorg state (ts : list (Z * CovenantLineageTransition)) n hash :
  (forall t, t ∈ map snd ts -> lower_id t <> toLowerCase (genesis_transactionId (genesis (manifest state)))) ->
  canonicalGenesisAcceptance (state <| journal := journal state ++ accept_block ts ++
    [EventRemoved n hash (map (fun nt => transactionId nt.2) ts)] |>) = canonicalGenesisAcceptance state.
Proof.
  intros Hf. unfold canonicalGenesisAcceptance. cbn [journal set_field manifest anchor].
  rewrite !foldl_app. generalize (foldl (genesis_event
    (toLowerCase (genesis_transactionId (genesis (manifest state))))) (genesisAcceptance (anchor state)) (journal state)).
  intros a. assert (foldl (genesis_event (toLowerCase (genesis_transactionId (genesis (manifest state))))) a (accept_block ts) = a) as ->.
  { clear Hf. revert a. induction ts as [|nt ts IH]; intros a; cbn; [done|]. by rewrite IH. }
  cbn [foldl genesis_event]. destruct a as [a|]; [|done].
  assert (existsb (fun id => toLowerCase id === toLowerCase (genesis_transactionId (genesis (manifest state))))
            (map (fun nt => transactionId nt.2) ts) = false) as ->; [|by rewrite andb_false_r].
  apply not_true_iff_false. rewrite existsb_exists. intros (id & (nt & <- & Hin)%in_map_iff & E). inv_bool.
  apply (Hf nt.2); [|done]. by apply list_elem_of_In, in_map.
Qed.

(** C5.  Accepting the transitions of a block and removing that block again leaves the
    canonical events, and hence the derived head, exactly as they were, whatever the case of
    the hex in the removal: a reorganization restores the previous head. *)
Theorem reorg_restores_head state events (ts : list (Z * CovenantLineageTransition)) hash n state' :
  canonicalAcceptedEvents (journal state) = Ok events ->
  NoDup (map lower_id (map snd ts)) ->
  (forall t, t ∈ map snd ts -> lower_id t ∉ map lower_id events /\
     same_hex (acceptingBlockHash (transition_acceptance t)) hash /\
     lower_id t <> toLowerCase (genesis_transactionId (genesis (manifest state)))) ->
  state' = state <| journal := journal state ++ accept_block ts ++
                                 [EventRemoved n hash (map (fun nt => transactionId nt.2) ts)] |> ->
  canonicalAcceptedEvents (journal state') = Ok events /\
  currentHead <$> deriveCanonicalLineage state' = currentHead <$> deriveCanonicalLineage state.
Proof.
  intros He Hn Hf ->.
  assert (canonicalAcceptedEvents (journal state ++ accept_block ts ++
            [EventRemoved n hash (map (fun nt => transactionId nt.2) ts)]) = Ok events) as He'.
  { unfold canonicalAcceptedEvents in *. apply bind_ok in He as (active & Ha & [= <-]).
    pose proof (journal_active_ok _ _ _ active_ok_nil Ha) as [Hk _].
    rewrite fold_result_app, Ha. cbn [mbind result_bind]. rewrite fold_result_app.
    rewrite accept_block_active by (try done; intros t Ht; rewrite Hk; apply Hf, Ht). cbn [mbind result_bind fold_result apply_event].
    rewrite remove_block_active; [done|]. intros t Ht. rewrite Hk. destruct (Hf t Ht) as (? & E & _). split; [done|].
    unfold is_removed_from. by apply bool_decide_eq_true_2. }
  split; [exact He'|]. unfold deriveCanonicalLineage. cbn [journal set_field].
  rewrite He, He'. cbn [mbind result_bind].
  assert (starting_head (state <| journal := journal state ++ accept_block ts ++
            [EventRemoved n hash (map (fun nt => transactionId nt.2) ts)] |>) = starting_head state) as ->.
  { unfold starting_head. by rewrite genesis_after_reorg by (intros t Ht; apply Hf, Ht). }
  destruct (fold_result _ _ _) as [s|]; done.
Qed.
