(* ===== verification/Bloom.v ===== *)
(** * The Bloom filter of compacted lineages

    The 2048-bit filter of [chain-truth.ts] keeps the accepting blocks of compacted events.
    The theorems show that it stays well formed and has no false negatives: a block once
    added is always reported, so the removal of a compacted block is always noticed. *)

From S2P Require Import Prelude Amount Json Binary ResourceBudget ChainTruth.

(** ** Bytes of the filter text *)

Definition bloom_bytes (bloom : string) : list Z := map (fun i => bloom_byte bloom (Z.of_nat i)) (seq 0 256).
Definition encode_bytes (l : list Z) : string := String.concat "" (map hex_byte_text l).
Definition byte_range (b : Z) : Prop := 0 <= b < 256.

Lemma concat_cons x l : String.concat "" (x :: l) = x +:+ String.concat "" l.
Proof. destruct l as [|y l]; cbn [String.concat]; [by rewrite append_nil_r|done]. Qed.

Lemma hex_digit_value d : 0 <= d < 16 -> is_lower_hex (hex_digit d) = true /\ hex_value (hex_digit d) = d.
Proof.
  intros H. assert (forallb (fun d => is_lower_hex (hex_digit d) && (hex_value (hex_digit d) =? d))
    (map Z.of_nat (seq 0 16)) = true) as Hall by reflexivity.
  rewrite forallb_forall in Hall. specialize (Hall d). rewrite in_map_iff in Hall.
  specialize (Hall ltac:(exists (Z.to_nat d); rewrite in_seq; lia)). by inv_bool.
Qed.

Lemma parse_hex_byte b : byte_range b -> parse_hex (hex_byte_text b) = b.
Proof.
  unfold byte_range. intros H. pose proof (Z.mod_pos_bound b 16). pose proof (Z.div_mod b 16).
  assert (0 <= b / 16 < 16) by (split; [apply Z.div_pos; lia|apply Z.div_lt_upper_bound; lia]).
  unfold parse_hex, hex_byte_text. cbn [list_ascii_of_string foldl].
  rewrite (proj2 (hex_digit_value _ ltac:(done))), (proj2 (hex_digit_value (b mod 16) ltac:(lia))). lia.
Qed.

Lemma encode_bytes_lower l : Forall byte_range l -> string_forall is_lower_hex (encode_bytes l) = true.
Proof.
  unfold encode_bytes. induction 1 as [|b l Hb Hl IH]; [done|]. cbn [map]. rewrite concat_cons, string_forall_app, IH.
  unfold byte_range in Hb. pose proof (Z.mod_pos_bound b 16).
  assert (0 <= b / 16 < 16) by (split; [apply Z.div_pos; lia|apply Z.div_lt_upper_bound; lia]).
  unfold hex_byte_text. cbn [string_forall].
  by rewrite (proj1 (hex_digit_value _ ltac:(done))), (proj1 (hex_digit_value (b mod 16) ltac:(lia))).
Qed.

Lemma encode_bytes_length l : byte_length (encode_bytes l) = 2 * Z.of_nat (length l).
Proof.
  unfold encode_bytes. induction l as [|b l IH]; [done|]. cbn [map length]. rewrite concat_cons, byte_length_append, IH.
  unfold hex_byte_text. rewrite !byte_length_cons. change (byte_length "") with 0. lia.
Qed.

Lemma slice_encode l i b :
  l !! i = Some b -> slice (Z.of_nat i * 2) 2 (encode_bytes l) = hex_byte_text b.
Proof.
  unfold encode_bytes, slice. replace (Z.to_nat (Z.of_nat i * 2)) with (i * 2)%nat by lia. change (Z.to_nat 2) with 2%nat.
  revert l. induction i as [|i IH]; intros [|x l]; cbn [lookup list_lookup map Nat.mul Nat.add]; try done; intros E;
    rewrite concat_cons; unfold hex_byte_text at 1; rewrite !append_cons, append_nil; cbn [String.substring].
  - injection E as ->. f_equal. f_equal. by destruct (String.concat "" (map hex_byte_text l)).
  - by apply IH.
Qed.

Lemma bloom_byte_encode l i b : Forall byte_range l -> l !! i = Some b -> bloom_byte (encode_bytes l) (Z.of_nat i) = b.
Proof.
  intros Hl Hi. unfold bloom_byte. rewrite (slice_encode _ _ _ Hi). apply parse_hex_byte.
  rewrite Forall_lookup in Hl. eauto.
Qed.

Lemma bloom_bytes_lookup bloom i :
  bloom_bytes bloom !! i = (fun i => bloom_byte bloom (Z.of_nat i)) <$> seq 0 256 !! i.
Proof. apply list_lookup_fmap. Qed.

Lemma bloom_bytes_encode l : Forall byte_range l -> length l = 256%nat -> bloom_bytes (encode_bytes l) = l.
Proof.
  intros Hl Hn. apply list_eq. intros i. rewrite bloom_bytes_lookup.
  destruct (decide (i < 256)%nat) as [Hi|Hi].
  - rewrite lookup_seq_lt by done. cbn. destruct (lookup_lt_is_Some_2 l i) as [b Hb]; [lia|].
    rewrite Hb. f_equal. by apply bloom_byte_encode.
  - rewrite lookup_seq_ge by lia. cbn. symmetry. apply lookup_ge_None. lia.
Qed.

(** A lower-case 512-digit text holds 256 bytes. *)
Lemma hex_value_range c : is_lower_hex c = true -> 0 <= hex_value c < 16.
Proof. destruct c as [[] [] [] [] [] [] [] []]; vm_compute; try done; repeat split; congruence. Qed.

Lemma parse_hex_slice_range s n :
  string_forall is_lower_hex s = true -> byte_range (parse_hex (String.substring n 2 s)).
Proof.
  revert n. induction s as [|c s IH]; intros n; cbn [string_forall].
  - intros _. destruct n; vm_compute; split; congruence.
  - intros [Hc Hs]%andb_true_iff. destruct n as [|n]; [|by apply IH].
    cbn [String.substring]. destruct s as [|d s]; unfold parse_hex, byte_range; cbn [list_ascii_of_string foldl String.substring].
    + pose proof (hex_value_range _ Hc). lia.
    + cbn [string_forall] in Hs. apply andb_true_iff in Hs as [Hd _].
      assert (String.substring 0 0 s = "") as -> by (by destruct s). cbn [list_ascii_of_string foldl].
      pose proof (hex_value_range _ Hc). pose proof (hex_value_range _ Hd). lia.
Qed.

Lemma bloom_bytes_ok bloom : is_bloom bloom = true -> Forall byte_range (bloom_bytes bloom) /\ length (bloom_bytes bloom) = 256%nat.
Proof.
  unfold is_bloom, bloom_bytes. intros [Hl _]%andb_true_iff. split; [|by rewrite length_map].
  apply Forall_forall. intros b (i & <- & _)%list_elem_of_In%in_map_iff. unfold bloom_byte, slice. by apply parse_hex_slice_range.
Qed.

(** ** Bits *)

Definition bit_of (index : Z) : Z := Z.land index 7.
Definition has_bit (l : list Z) (index : Z) : bool :=
  Z.testbit (default 0 (l !! Z.to_nat (Z.shiftr index 3))) (bit_of index).

Lemma bit_of_range index : 0 <= bit_of index < 8.
Proof. unfold bit_of. change 7 with (Z.ones 3). rewrite Z.land_ones by lia. apply Z.mod_pos_bound. lia. Qed.

Lemma land_bit x k : 0 <= k -> (Z.land x (Z.shiftl 1 k) =? 0) = negb (Z.testbit x k).
Proof.
  intros Hk. assert (Z.land x (Z.shiftl 1 k) = if Z.testbit x k then 2 ^ k else 0) as ->.
  { apply Z.bits_inj'. intros n Hn. rewrite Z.land_spec, Z.shiftl_1_l, Z.pow2_bits_eqb by done.
    destruct (Z.eqb_spec k n) as [->|Hne].
    - rewrite andb_true_r. destruct (Z.testbit x n); [by rewrite Z.pow2_bits_true|by rewrite Z.bits_0].
    - rewrite andb_false_r. destruct (Z.testbit x k); [by rewrite Z.pow2_bits_false|by rewrite Z.bits_0]. }
  destruct (Z.testbit x k); cbn; [|done]. pose proof (Z.pow_pos_nonneg 2 k). lia.
Qed.

Lemma lor_byte b k : byte_range b -> 0 <= k < 8 -> byte_range (Z.lor b (Z.shiftl 1 k)).
Proof.
  unfold byte_range. intros Hb Hk. rewrite Z.shiftl_1_l. pose proof (Z.pow_pos_nonneg 2 k ltac:(lia) ltac:(lia)).
  assert (0 <= Z.lor b (2 ^ k)) by (apply Z.lor_nonneg; lia). split; [done|].
  destruct (decide (Z.lor b (2 ^ k) = 0)); [lia|]. change 256 with (2 ^ 8). apply Z.log2_lt_pow2; [lia|].
  rewrite Z.log2_lor, Z.log2_pow2 by lia. destruct (decide (b = 0)) as [->|]; [cbn; lia|].
  assert (Z.log2 b < 8) by (apply Z.log2_lt_pow2; cbn; lia). lia.
Qed.

Lemma set_bit_ok l index : Forall byte_range l -> Forall byte_range (set_bit l index) /\ length (set_bit l index) = length l.
Proof.
  intros Hl. unfold set_bit. split; [|apply length_alter].
  apply Forall_alter; [done|]. intros b _ Hb. apply lor_byte; [done|]. apply (bit_of_range index).
Qed.

Lemma set_bit_has l index j :
  (Z.to_nat (Z.shiftr index 3) < length l)%nat ->
  has_bit (set_bit l index) j = has_bit l j || (Z.to_nat (Z.shiftr index 3) =? Z.to_nat (Z.shiftr j 3))%nat && (bit_of index =? bit_of j).
Proof.
  intros Hi. unfold has_bit, set_bit. fold (bit_of index). pose proof (bit_of_range index). pose proof (bit_of_range j).
  destruct (Nat.eqb_spec (Z.to_nat (Z.shiftr index 3)) (Z.to_nat (Z.shiftr j 3))) as [E|E].
  - rewrite E in *. rewrite list_lookup_alter_eq. destruct (lookup_lt_is_Some_2 _ _ Hi) as [b ->]. cbn.
    rewrite Z.lor_spec, Z.shiftl_1_l, Z.pow2_bits_eqb by lia. done.
  - rewrite list_lookup_alter_ne by done. by rewrite orb_false_r.
Qed.

Lemma set_bits l indexes :
  Forall byte_range l -> length l = 256%nat -> Forall (fun i => 0 <= i < 2048) indexes ->
  let l' := foldl set_bit l indexes in
  Forall byte_range l' /\ length l' = 256%nat /\
  (forall j, has_bit l j = true -> has_bit l' j = true) /\ (forall j, j ∈ indexes -> has_bit l' j = true).
Proof.
  intros Hl Hn Hi. revert l Hl Hn. induction Hi as [|i indexes Hi His IH]; intros l Hl Hn; cbn [foldl].
  { split_and!; try done. intros j Hj. by apply not_elem_of_nil in Hj. }
  destruct (set_bit_ok l i Hl) as [Hl' Hn']. rewrite Hn in Hn'.
  assert (Z.to_nat (Z.shiftr i 3) < length l)%nat as Hlt.
  { rewrite Z.shiftr_div_pow2, Hn by lia. change (2 ^ 3) with 8.
    assert (i / 8 < 256) by (apply Z.div_lt_upper_bound; lia). pose proof (Z.div_pos i 8). lia. }
  destruct (IH _ Hl' Hn') as (H1 & H2 & H3 & H4). split_and!; try done.
  - intros j Hj. apply H3. rewrite set_bit_has by done. by rewrite Hj.
  - intros j [->|Hj]%elem_of_cons; [|by apply H4]. apply H3. rewrite set_bit_has, Nat.eqb_refl, Z.eqb_refl by done.
    apply orb_true_r.
Qed.

Section Sha.
Context (sha256 : bytes -> bytes).

Lemma bloomIndexes_range h : Forall (fun i => 0 <= i < 2048) (bloomIndexes sha256 h).
Proof. unfold bloomIndexes. cbn [map]. repeat constructor; by apply Z.mod_pos_bound. Qed.

Lemma bloomContains_bits bloom h :
  bloomContains sha256 bloom h = forallb (has_bit (bloom_bytes bloom)) (bloomIndexes sha256 h).
Proof.
  unfold bloomContains. pose proof (bloomIndexes_range h) as Hr. induction Hr as [|i l Hi Hl IH]; [done|].
  cbn [forallb]. rewrite IH. f_equal. rewrite land_bit, negb_involutive by (apply (bit_of_range i)).
  unfold has_bit. fold (bit_of i). f_equal.
  assert (0 <= Z.shiftr i 3 < 256) as Hs.
  { rewrite Z.shiftr_div_pow2 by lia. change (2 ^ 3) with 8.
    split; [apply Z.div_pos; lia|apply Z.div_lt_upper_bound; lia]. }
  rewrite bloom_bytes_lookup, lookup_seq_lt by lia. cbn.
  by rewrite Z2Nat.id by lia.
Qed.

Lemma bloomAdd_spec bloom h :
  is_bloom bloom = true ->
  is_bloom (bloomAdd sha256 bloom h) = true /\
  bloomContains sha256 (bloomAdd sha256 bloom h) h = true /\
  (forall g, bloomContains sha256 bloom g = true -> bloomContains sha256 (bloomAdd sha256 bloom h) g = true).
Proof.
  intros Hb. destruct (bloom_bytes_ok _ Hb) as [Hr Hl].
  destruct (set_bits _ _ Hr Hl (bloomIndexes_range h)) as (H1 & H2 & H3 & H4).
  assert (bloomAdd sha256 bloom h = encode_bytes (foldl set_bit (bloom_bytes bloom) (bloomIndexes sha256 h))) as -> by done.
  split; [|split].
  - unfold is_bloom. by rewrite encode_bytes_lower, encode_bytes_length, H2.
  - rewrite bloomContains_bits, bloom_bytes_encode, forallb_elem by done. exact H4.
  - intros g. rewrite !bloomContains_bits, bloom_bytes_encode, !forallb_elem by done. intros Hg j Hj. auto.
Qed.

(** The filter after compacting events. *)
Definition add_events (bloom : string) (events : list CovenantLineageEvent) : string :=
  foldl (fun bloom event => match event with
    | EventAccepted _ t => bloomAdd sha256 bloom (acceptingBlockHash (transition_acceptance t))
    | _ => bloom
    end) bloom events.

Lemma add_events_spec bloom events :
  is_bloom bloom = true ->
  is_bloom (add_events bloom events) = true /\
  (forall g, bloomContains sha256 bloom g = true -> bloomContains sha256 (add_events bloom events) g = true) /\
  (forall n t, EventAccepted n t ∈ events ->
     bloomContains sha256 (add_events bloom events) (acceptingBlockHash (transition_acceptance t)) = true).
Proof.
  unfold add_events. revert bloom. induction events as [|e events IH]; intros bloom Hb; cbn [foldl].
  { split_and!; try done. intros n t H. by apply not_elem_of_nil in H. }
  destruct e as [n t|n a|n hash ids].
  - destruct (bloomAdd_spec bloom (acceptingBlockHash (transition_acceptance t)) Hb) as (H1 & H2 & H3).
    destruct (IH _ H1) as (H4 & H5 & H6). split_and!; auto.
    intros n' t' [[= -> ->]|Hin]%elem_of_cons; eauto.
  - destruct (IH _ Hb) as (H4 & H5 & H6). split_and!; auto. intros n' t' [?|Hin]%elem_of_cons; [done|eauto].
  - destruct (IH _ Hb) as (H4 & H5 & H6). split_and!; auto. intros n' t' [?|Hin]%elem_of_cons; [done|eauto].
Qed.

Lemma bloom_case bloom h g : toLowerCase h = toLowerCase g -> bloomContains sha256 bloom h = bloomContains sha256 bloom g.
Proof. unfold bloomContains, bloomIndexes. by intros ->. Qed.

End Sha.
