(* ===== verification/LineageUpdate.v ===== *)
(** * Selected-chain updates: theorems

    A selected-chain update extends the journal of a valid state and compaction replaces a
    prefix by its anchor.  The result is an append-only successor in the sense of the durable
    store's extension check, and again a valid state, its byte size included, while checkpoint
    hashes are in lower case and the block of the genesis stays selected. *)

From S2P Require Import Prelude Amount Json Binary ResourceBudget ChainTruth Lineage Bloom.

Section Sha.
Context (sha256 : bytes -> bytes).
#[local] Abbreviation applyUpdate := (applyCovenantSelectedChainUpdate sha256).
#[local] Abbreviation assertState := (assertLineageState sha256).

(** ** Valid journals *)

Definition position_ok (m : CovenantLaunchManifest) (position : nat) (e : CovenantLineageEvent) : Prop :=
  assertJournalEvent m (position, e) = Ok tt.
Definition journal_ok (m : CovenantLaunchManifest) (journal : list CovenantLineageEvent) : Prop :=
  forall i e, journal !! i = Some e -> position_ok m i e.

Lemma journal_checks m l k :
  for_each (assertJournalEvent m) (imap (fun i e => ((k + i)%nat, e)) l) = Ok tt <->
  forall i e, l !! i = Some e -> position_ok m (k + i) e.
Proof.
  unfold position_ok. revert k. induction l as [|e l IH]; intros k; [split; [done|reflexivity]|].
  cbn [imap for_each]. rewrite Nat.add_0_r, bind_ok.
  rewrite (imap_ext _ (fun i e => ((S k + i)%nat, e))) by (intros; cbn; f_equal; lia). setoid_rewrite IH. split.
  - intros ([] & He & Hl) [|i] e' E; cbn in E; [injection E as <-; by rewrite Nat.add_0_r|].
    replace (k + S i)%nat with (S k + i)%nat by lia. auto.
  - intros H. exists (). split; [rewrite <- (Nat.add_0_r k); by apply H|]. intros i e' E.
    replace (S k + i)%nat with (k + S i)%nat by lia. by apply H.
Qed.

Lemma journal_checked m l : for_each (assertJournalEvent m) (imap (fun i e => (i, e)) l) = Ok tt <-> journal_ok m l.
Proof. exact (journal_checks m l 0). Qed.

Definition valid_transition (m : CovenantLaunchManifest) (t : CovenantLineageTransition) : Prop :=
  assertLineageTransition m t = Ok tt.

Definition event_ok (m : CovenantLaunchManifest) (e : CovenantLineageEvent) : Prop :=
  match e with
  | EventAccepted _ t => valid_transition m t
  | EventGenesisAccepted _ a =>
      valid_evidence a /\ same_hex (ae_transactionId a) (genesis_transactionId (genesis m))
  | EventRemoved _ hash ids => is_hash32 hash = true /\ Forall (fun id => is_hash32 id = true) ids
  end.
Definition sequence_of (e : CovenantLineageEvent) : Z :=
  match e with EventAccepted n _ | EventGenesisAccepted n _ | EventRemoved n _ _ => n end.

Lemma position_ok_iff m i e : position_ok m i e <-> sequence_of e = Z.of_nat i /\ event_ok m e.
Proof.
  unfold position_ok, assertJournalEvent. rewrite bind_ok. setoid_rewrite throw_if_ok.
  rewrite <- (Z.eqb_eq (sequence_of e)), <- negb_false_iff. fold (sequence_of e).
  destruct e as [n t|n a|n hash ids]; cbn [event_ok sequence_of].
  - naive_solver.
  - setoid_rewrite bind_ok. setoid_rewrite assertAcceptedEvidence_ok. setoid_rewrite throw_if_ok.
    setoid_rewrite negb_false_iff. setoid_rewrite bool_decide_eq_true. unfold same_hex. naive_solver.
  - setoid_rewrite bind_ok. setoid_rewrite assertHash32_ok. setoid_rewrite for_each_ok.
    setoid_rewrite Forall_forall. setoid_rewrite assertHash32_ok. naive_solver.
Qed.

Lemma journal_ok_app m l l' :
  journal_ok m (l ++ l') <-> journal_ok m l /\ forall i e, l' !! i = Some e -> position_ok m (length l + i) e.
Proof.
  unfold journal_ok. setoid_rewrite lookup_app_Some. split.
  - intros H. split; [auto|]. intros i e E. apply H. right. split; [lia|].
    by replace (length l + i - length l)%nat with i by lia.
  - intros [H1 H2] i e [E|[Hle E]]; [auto|]. specialize (H2 _ _ E).
    by replace (length l + (i - length l))%nat with i in H2 by lia.
Qed.

Lemma journal_ok_elem m l e : journal_ok m l -> e ∈ l -> event_ok m e.
Proof. intros H (i & E)%list_elem_of_lookup. by apply H, position_ok_iff in E as [_ ?]. Qed.

Lemma with_sequence_ok m i e : event_ok m e -> position_ok m i (with_sequence (Z.of_nat i) e).
Proof. intros H. apply position_ok_iff. by destruct e. Qed.

Lemma with_sequence_id m i e : position_ok m i e -> with_sequence (Z.of_nat i) e = e.
Proof. intros [H _]%position_ok_iff. destruct e; cbn in *; by subst. Qed.

Lemma renumber_ok m l : (forall e, e ∈ l -> event_ok m e) -> journal_ok m (renumber l).
Proof.
  intros H i e E. unfold renumber in E. rewrite list_lookup_imap in E.
  destruct (l !! i) as [e'|] eqn:E'; [|done]. injection E as <-.
  apply with_sequence_ok, H, list_elem_of_lookup. eauto.
Qed.

(** Canonical transitions come from the journal. *)
Lemma active_from_journal l active active' :
  fold_result apply_event l active = Ok active' ->
  forall x, x ∈ active' -> x ∈ active \/ exists n, EventAccepted n x.2 ∈ l.
Proof.
  revert active. induction l as [|e l IH]; intros active; cbn [fold_result]; [intros [= <-]; auto|].
  intros (a & Ha & H)%bind_ok x Hx. destruct (IH _ H x Hx) as [Hin|(n & Hin)]; [|right; exists n; by right].
  destruct e as [n t|n acc|n hash ids]; cbn [apply_event] in Ha.
  - apply bind_ok in Ha as (u & Hf%throw_if_ok & [= <-]). apply map_has_false in Hf.
    rewrite map_set_fresh in Hin by done. apply elem_of_app in Hin as [Hin|Hin]; [auto|].
    apply list_elem_of_singleton in Hin as ->. right. exists n. by left.
  - injection Ha as <-. auto.
  - injection Ha as <-. left. clear -Hin. revert active Hin. induction ids as [|id ids IH]; intros active Hin; cbn [foldl] in *; [done|].
    apply IH in Hin. destruct (remove_active_cases hash active id) as [E|E]; rewrite E in Hin; [done|].
    by apply map_delete_sub in Hin.
Qed.

Lemma canonical_from_journal l events t :
  canonicalAcceptedEvents l = Ok events -> t ∈ events -> exists n, EventAccepted n t ∈ l.
Proof.
  unfold canonicalAcceptedEvents. intros (active & Ha & [= <-])%bind_ok Ht.
  apply list_elem_of_In, in_map_iff in Ht as (x & <- & Hx%list_elem_of_In).
  destruct (active_from_journal _ _ _ Ha x Hx) as [H|H]; [by apply not_elem_of_nil in H|done].
Qed.

Lemma canonical_valid m l events t :
  journal_ok m l -> canonicalAcceptedEvents l = Ok events -> t ∈ events -> valid_transition m t.
Proof. intros Hl He Ht. destruct (canonical_from_journal _ _ _ He Ht) as [n Hin]. exact (journal_ok_elem _ _ _ Hl Hin). Qed.

Lemma valid_transition_ids m t :
  valid_transition m t ->
  is_hash32 (transactionId t) = true /\ is_hash32 (acceptingBlockHash (transition_acceptance t)) = true.
Proof.
  unfold valid_transition, assertLineageTransition.
  intros (? & _ & (? & H1 & (? & _ & (? & H2 & _)%bind_ok)%bind_ok)%bind_ok)%bind_ok.
  apply assertHash32_ok in H1 as [? _]. apply assertAcceptedEvidence_ok in H2 as (_ & ? & _). done.
Qed.

(** A refund has no successor. *)
Lemma valid_transition_refund m t : valid_transition m t -> kind t = "refund" -> successor t = None.
Proof.
  unfold valid_transition, assertLineageTransition. intros H Hk. inv_check. rewrite Hk in H.
  rewrite bool_decide_eq_true_2 in H by done.
  destruct (authorizedSuccessorCount t =? 0), (successor t), (terminalOutput t); done.
Qed.

(** ** The loops of an update *)

Lemma is_hash32_lower s : is_hash32 s = true -> is_hash32 (toLowerCase s) = true.
Proof.
  unfold is_hash32. intros [H Hl]%andb_true_iff. apply andb_true_iff. split.
  - clear Hl. induction s as [|c s IH]; [done|]. cbn [string_forall toLowerCase] in *.
    apply andb_true_iff in H as [Hc H]. rewrite IH, andb_true_r by done.
    clear -Hc. destruct c as [[] [] [] [] [] [] [] []]; vm_compute in *; congruence.
  - rewrite <- Hl. f_equal. clear. induction s as [|c s IH]; [done|]. cbn [toLowerCase]. by rewrite !byte_length_cons, IH.
Qed.

Definition ids_ok (ids : list string) : Prop := Forall (fun id => is_hash32 id = true) ids.

Lemma collect_accepted_ok m events :
  (forall t, t ∈ events -> valid_transition m t) ->
  forall hash ids, map_get hash (collect_accepted events) = Some ids -> ids_ok ids.
Proof.
  intros Hv. unfold collect_accepted.
  assert (forall acc, (forall hash ids, map_get hash acc = Some ids -> ids_ok ids) ->
    forall hash ids, map_get hash (foldl (fun acceptedByBlock transition =>
      let hash := toLowerCase (acceptingBlockHash (transition_acceptance transition)) in
      let ids := default [] (map_get hash acceptedByBlock) in
      map_set hash (ids ++ [toLowerCase (transactionId transition)]) acceptedByBlock) acc events) = Some ids -> ids_ok ids)
    as H; [|by apply H].
  induction events as [|t events IH]; intros acc Hacc; cbn [foldl]; [done|].
  apply IH; [intros t' Ht'; apply Hv; by right|]. intros hash ids. cbn zeta. rewrite map_set_get.
  destruct (decide _) as [->|]; [|apply Hacc]. intros [= <-]. apply Forall_app. split.
  - destruct (map_get _ acc) as [ids'|] eqn:E; [by eapply Hacc|constructor].
  - constructor; [|constructor]. apply is_hash32_lower. apply (valid_transition_ids m t), Hv. by left.
Qed.

(** The events pushed so far are valid and the counter is the journal's length. *)
Definition pushed (m : CovenantLaunchManifest) (s : list CovenantLineageEvent * Z) : Prop :=
  journal_ok m s.1 /\ s.2 = Z.of_nat (length s.1).

Lemma push_ok m e s :
  pushed m s -> (forall n, event_ok m (e n) /\ sequence_of (e n) = n) ->
  pushed m (push_event e s) /\ (push_event e s).1 = s.1 ++ [e s.2].
Proof.
  destruct s as [journal n]. intros [Hj Hn] He. cbn in *. split; [|done]. split; cbn.
  - apply journal_ok_app. split; [done|]. intros i e' E. apply list_lookup_singleton_Some in E as [-> <-].
    rewrite Nat.add_0_r. apply position_ok_iff. rewrite Hn. split; apply He.
  - rewrite length_app. cbn. lia.
Qed.

(** ** Byte budget *)

(** The members of an object's text. *)
Definition members (l : list (string * json)) : list string :=
  map (fun kv => quote kv.1 +:+ ":" +:+ render kv.2)
    (List.concat (map (fun kv => if is_undefined kv.2 then [] else [(kv.1, serializable kv.2)]) l)).

Lemma members_app a b : members (a ++ b) = members a ++ members b.
Proof. unfold members. by rewrite map_app, concat_app, map_app. Qed.

Lemma join_app_length a b : a <> [] -> b <> [] ->
  byte_length (join "," (a ++ b)) = byte_length (join "," a) + 1 + byte_length (join "," b).
Proof.
  intros Ha Hb. induction a as [|x [|y a] IH]; [done| |].
  - destruct b as [|z b]; [done|]. cbn [app join]. rewrite !byte_length_append. change (byte_length ",") with 1. lia.
  - cbn [app join] in *. rewrite !byte_length_append, IH by done. lia.
Qed.

Lemma quoted_bytes s : byte_length s + 2 <= byte_length (quote s).
Proof.
  unfold quote. rewrite !byte_length_append. change (byte_length dquote) with 1.
  enough (byte_length s <= byte_length (escape s)) by lia.
  induction s as [|c s IH]; [done|]. cbn [escape]. rewrite byte_length_append.
  replace (byte_length (String c s)) with (1 + byte_length s) by (unfold byte_length; cbn [String.length]; lia).
  enough (1 <= byte_length (escape_char c)) by lia.
  unfold escape_char. repeat destruct (_ =? _); [done..|]. destruct (_ <? _); [|done].
  rewrite byte_length_append. done.
Qed.

(** The bytes of the fields that say whether a lineage is available. *)
Definition availability_bytes (a : string) (r : option string) : Z :=
  byte_length (join "," (members ([("availability", JString a)] ++ joption "unavailableReason" JString r))).
Definition core_bytes (s : CovenantLineageState) : Z :=
  byte_length (join "," (members [("manifest", manifest_json (manifest s)); ("anchor", anchor_json (anchor s));
    ("journal", JArray (map event_json (journal s))); ("currentHead", jopt head_json (currentHead s));
    ("checkpoint", checkpoint_json (checkpoint s))])).

Lemma state_bytes s :
  serializedBytes (state_json s) = core_bytes s + 3 + availability_bytes (availability s) (unavailableReason s).
Proof.
  unfold serializedBytes, JSON_stringify, state_json.
  match goal with |- byte_length (render (serializable (JObject ?l))) = _ =>
    transitivity (byte_length ("{" +:+ join "," (members l) +:+ "}")); [done|] end.
  rewrite !byte_length_append.
  change (_ :: _ :: _ :: _ :: _ :: [("availability", JString (availability s))]) with
    ([("manifest", manifest_json (manifest s)); ("anchor", anchor_json (anchor s));
    ("journal", JArray (map event_json (journal s))); ("currentHead", jopt head_json (currentHead s));
    ("checkpoint", checkpoint_json (checkpoint s))] ++ [("availability", JString (availability s))]).
  rewrite <- app_assoc, members_app, join_app_length by done.
  unfold core_bytes, availability_bytes. change (byte_length "{") with 1. change (byte_length "}") with 1. lia.
Qed.

Lemma available_bytes : availability_bytes "available" None = 26.
Proof. vm_compute. reflexivity. Qed.

Lemma unknown_bytes r : availability_bytes "unknown" (Some r) = 45 + byte_length (quote r).
Proof.
  unfold availability_bytes. cbn -[quote byte_length]. rewrite !byte_length_append.
  change (byte_length (quote "availability")) with 14. change (byte_length (quote "unknown")) with 9.
  change (byte_length (quote "unavailableReason")) with 19. change (byte_length ":") with 1. change (byte_length ",") with 1. lia.
Qed.

(** An update is at least as long as its own property names. *)
Lemma update_bytes u : 130 <= serializedBytes (update_json u).
Proof.
  unfold serializedBytes, JSON_stringify, update_json, checkpoint_json.
  cbn -[quote byte_length join]. cbn [join]. rewrite !byte_length_append.
  repeat match goal with |- context [byte_length (quote ?s)] =>
    pose proof (quoted_bytes s); generalize dependent (byte_length (quote s)); intros end.
  unfold byte_length in *. cbn [String.length] in *. lia.
Qed.

(** The reasons an update gives for an unavailable lineage are shorter than any update. *)
Definition short_reason (reason : string) : Prop := 45 + byte_length (quote reason) <= 130.

(** ** Removed and added blocks *)

Definition removal_of (hashes : list string) (e : CovenantLineageEvent) : Prop :=
  exists n h ids, e = EventRemoved n (toLowerCase h) ids /\ h ∈ hashes.

Lemma remove_blocks_spec cur m acc gen removed hashes s r :
  m = manifest cur -> (forall hash ids, map_get hash acc = Some ids -> ids_ok ids) ->
  is_hash32 (genesis_transactionId (genesis m)) = true -> pushed m s ->
  remove_blocks sha256 cur acc gen removed hashes s = Ok r ->
  (exists reason, r = inl (unavailable cur reason) /\ short_reason reason) \/
  exists s' new, r = inr s' /\ s'.1 = s.1 ++ new /\ pushed m s' /\
    (length new <= length hashes)%nat /\ Forall (removal_of hashes) new.
Proof.
  intros -> Hacc Hgen. revert removed s. induction hashes as [|hash hashes IH]; intros removed s Hs H; cbn [remove_blocks] in H.
  { injection H as <-. right. exists s, []. rewrite app_nil_r. split_and!; try done. }
  inv_check. apply assertHash32_ok in H0 as [Hh _]. apply is_hash32_lower in Hh.
  assert (forall removed s', (exists new, s'.1 = s.1 ++ new /\ (length new <= 1)%nat /\ Forall (removal_of (hash :: hashes)) new) ->
    pushed (manifest cur) s' -> remove_blocks sha256 cur acc gen removed hashes s' = Ok r ->
    (exists reason, r = inl (unavailable cur reason) /\ short_reason reason) \/
    exists s' new, r = inr s' /\ s'.1 = s.1 ++ new /\ pushed (manifest cur) s' /\
      (length new <= S (length hashes))%nat /\ Forall (removal_of (hash :: hashes)) new) as Hrest.
  { intros removed' s' (new & Hnew & Hlen & Hrem) Hs' Hr. apply IH in Hr as [?|(s2 & new2 & -> & E & Hp & Hl & Hf)]; [by left| |done].
    right. exists s2, (new ++ new2). split_and!; try done.
    - by rewrite E, Hnew, app_assoc.
    - rewrite length_app. lia.
    - apply Forall_app. split; [done|]. eapply Forall_impl; [exact Hf|].
      intros e (n & h & ids & -> & Hin). exists n, h, ids. split; [done|by right]. }
  match type of H with context [match ?l with [] => _ | _ => _ end] => remember l as transactionIds eqn:Eids end.
  destruct transactionIds as [|id ids].
  - destruct (bloomContains _ _ _); [injection H as <-; left; eexists; split; [reflexivity|vm_compute; discriminate]|].
    eapply Hrest; [|exact Hs|exact H]. exists []. rewrite app_nil_r. split_and!; try done. cbn; lia.
  - destruct (_ && _); [injection H as <-; left; eexists; split; [reflexivity|vm_compute; discriminate]|].
    assert (ids_ok (id :: ids)) as Hids.
    { rewrite Eids. apply Forall_app. split.
      - destruct (map_get _ acc) as [ids'|] eqn:E; [by eapply Hacc|constructor].
      - destruct gen as [g|]; [|constructor]. destruct (_ === _); [|constructor].
        constructor; [by apply is_hash32_lower|constructor]. }
    destruct (push_ok (manifest cur) (fun n => EventRemoved n (toLowerCase hash) (id :: ids)) s Hs) as [Hs' E].
    { intros n. by split. }
    eapply Hrest; [|exact Hs'|exact H]. eexists. split; [exact E|]. split; [cbn; lia|].
    constructor; [|constructor]. do 3 eexists. split; [done|by left].
Qed.

Definition added (e : CovenantLineageEvent) : Prop := match e with EventRemoved _ _ _ => False | _ => True end.
Definition not_genesis (e : CovenantLineageEvent) : Prop := match e with EventGenesisAccepted _ _ => False | _ => True end.

Lemma add_transition_spec cur upd hash spends s t r :
  pushed (manifest cur) s -> add_transition cur upd hash (spends, s) t = Ok r ->
  pushed (manifest cur) r.2 /\ exists n, r.2.1 = s.1 ++ [EventAccepted n t].
Proof.
  intros Hs H. unfold add_transition in H. inv_check. subst r. cbn [snd].
  destruct (push_ok (manifest cur) (fun n => EventAccepted n t) s Hs) as [Hp E]; [by intros n; split|].
  split; [exact Hp|]. eauto.
Qed.

Lemma add_transitions_spec cur upd hash ts spends s r :
  pushed (manifest cur) s -> fold_result (add_transition cur upd hash) ts (spends, s) = Ok r ->
  pushed (manifest cur) r.2 /\ exists new, r.2.1 = s.1 ++ new /\ length new = length ts /\
    Forall added new /\ Forall not_genesis new.
Proof.
  revert spends s. induction ts as [|t ts IH]; intros spends s Hs; cbn [fold_result].
  - intros [= <-]. split; [done|]. exists []. rewrite app_nil_r. split_and!; done || constructor.
  - intros ([spends' s'] & Ht & H)%bind_ok. apply add_transition_spec in Ht as [Hs' (n & E)]; [|done]. cbn [snd] in *.
    apply IH in H as [Hr (new & E' & Hl & Ha & Hg)]; [|done]. split; [done|]. exists (EventAccepted n t :: new).
    rewrite E', E, <- app_assoc. split_and!; try done; [cbn; lia|by constructor|by constructor].
Qed.

Lemma add_genesis_spec cur upd hash gen s r :
  pushed (manifest cur) s -> add_genesis cur upd hash gen s = Ok r ->
  pushed (manifest cur) r /\ exists new, r.1 = s.1 ++ new /\ length new = (if isSome gen then 1 else 0)%nat /\
    Forall added new /\ (isSome (canonicalGenesisAcceptance (cur <| journal := s.1 |>)) = true -> new = []).
Proof.
  intros Hs. unfold add_genesis. destruct gen as [a|].
  - intros H. inv_check. apply assertAcceptedEvidence_ok in H0. subst r.
    destruct (push_ok (manifest cur) (fun n => EventGenesisAccepted n a) s Hs) as [Hp E]; [by intros n; split|].
    split; [done|]. eexists. split; [exact E|]. split; [done|]. split; [by repeat constructor|]. congruence.
  - intros [= <-]. split; [done|]. exists []. rewrite app_nil_r. split_and!; done || constructor.
Qed.

(** ** Genesis *)

(** No event of the journal undoes or repeats the genesis acceptance. *)
Definition keeps_genesis (g : AcceptedTransactionEvidence) (e : CovenantLineageEvent) : Prop :=
  match e with
  | EventAccepted _ _ => True
  | EventGenesisAccepted _ _ => False
  | EventRemoved _ hash _ => ~ same_hex (acceptingBlockHash g) hash
  end.
Definition genesis_kept (state : CovenantLineageState) : Prop :=
  exists g, genesisAcceptance (anchor state) = Some g /\ Forall (keeps_genesis g) (journal state).

Lemma fold_genesis_kept id g l : Forall (keeps_genesis g) l -> foldl (genesis_event id) (Some g) l = Some g.
Proof.
  induction 1 as [|e l He Hl IH]; [done|]. cbn [foldl]. destruct e as [n t|n a|n hash ids]; cbn [genesis_event]; [done|done|].
  cbn in He. by rewrite bool_decide_eq_false_2.
Qed.

Lemma canonical_genesis_kept state g l :
  genesisAcceptance (anchor state) = Some g -> Forall (keeps_genesis g) l ->
  canonicalGenesisAcceptance (state <| journal := l |>) = Some g.
Proof. intros Hg Hl. unfold canonicalGenesisAcceptance. cbn [journal set_field anchor manifest]. rewrite Hg. by apply fold_genesis_kept. Qed.

Lemma not_genesis_keeps g e : added e -> not_genesis e -> keeps_genesis g e.
Proof. by destruct e. Qed.

Lemma add_block_spec cur upd addedBlocks spends s b r :
  pushed (manifest cur) s -> add_block cur upd (addedBlocks, (spends, s)) b = Ok r ->
  pushed (manifest cur) r.2.2 /\ exists new, r.2.2.1 = s.1 ++ new /\
    Z.of_nat (length new) = Z.of_nat (length (transitions b)) + (if isSome (block_genesisAcceptance b) then 1 else 0) /\
    Forall added new /\
    (isSome (canonicalGenesisAcceptance (cur <| journal := s.1 |>)) = true -> Forall not_genesis new).
Proof.
  intros Hs H. unfold add_block in H. inv_check. subst r. cbn [snd].
  match goal with H : add_genesis _ _ _ _ _ = Ok ?s1 |- _ => apply add_genesis_spec in H as [Hp1 (new1 & E1 & L1 & A1 & G1)]; [|done] end.
  match goal with H : fold_result _ _ _ = Ok _ |- _ => apply add_transitions_spec in H as [Hp2 (new2 & E2 & L2 & A2 & G2)]; [|done] end.
  split; [done|]. exists (new1 ++ new2). rewrite E2, E1, <- app_assoc. split; [done|].
  split; [rewrite length_app; destruct (isSome _); lia|]. split; [by apply Forall_app|].
  intros Hg. rewrite (G1 Hg). by apply G2.
Qed.

Lemma add_blocks_spec cur upd blocks addedBlocks spends s r :
  pushed (manifest cur) s -> fold_result (add_block cur upd) blocks (addedBlocks, (spends, s)) = Ok r ->
  pushed (manifest cur) r.2.2 /\ exists new, r.2.2.1 = s.1 ++ new /\
    (forall k, Z.of_nat (length new) + k = foldl (fun count block => count + Z.of_nat (length (transitions block)) +
       (if isSome (block_genesisAcceptance block) then 1 else 0)) k blocks) /\
    Forall added new /\
    (forall g, genesisAcceptance (anchor cur) = Some g -> Forall (keeps_genesis g) s.1 -> Forall (keeps_genesis g) new).
Proof.
  revert addedBlocks spends s. induction blocks as [|b blocks IH]; intros addedBlocks spends s Hs; cbn [fold_result].
  - intros [= <-]. split; [done|]. exists []. rewrite app_nil_r. split_and!; try (done || constructor). 
  - intros ([a [sp s']] & Hb & H)%bind_ok. apply add_block_spec in Hb as [Hs' (new & E & L & A & G)]; [|done]. cbn [snd] in *.
    apply IH in H as [Hr (new' & E' & L' & A' & G')]; [|done]. split; [done|]. exists (new ++ new').
    rewrite E', E, <- app_assoc. split; [done|]. split; [|split].
    + intros k. cbn [foldl]. rewrite <- L', length_app. lia.
    + by apply Forall_app.
    + intros g Hg Hk. assert (Forall (keeps_genesis g) new) as Hnew.
      { assert (Forall not_genesis new) as Hng by (apply G; by rewrite (canonical_genesis_kept _ g)).
        rewrite Forall_forall in *. intros e He. apply not_genesis_keeps; auto. }
      apply Forall_app. split; [done|]. apply G'; [done|]. rewrite E. by apply Forall_app.
Qed.

(** ** Derivation and compaction *)

Definition derived_head (state : CovenantLineageState) : result (option CovenantLineageHead) :=
  events ← canonicalAcceptedEvents (journal state);
  s ← fold_result advance_head events (starting_head state, []); Ok s.1.

Lemma derive_eq state : deriveCanonicalLineage state = (h ← derived_head state; Ok (state <| currentHead := h |>)).
Proof.
  unfold deriveCanonicalLineage, derived_head. destruct (canonicalAcceptedEvents _); cbn; [|done].
  by destruct (fold_result _ _ _).
Qed.

(** The derived head depends on the manifest, the anchor and the journal only. *)
Lemma genesis_ext a b :
  manifest a = manifest b -> anchor a = anchor b -> journal a = journal b ->
  canonicalGenesisAcceptance a = canonicalGenesisAcceptance b.
Proof. unfold canonicalGenesisAcceptance. by intros -> -> ->. Qed.
Lemma derived_head_ext a b :
  manifest a = manifest b -> anchor a = anchor b -> journal a = journal b -> derived_head a = derived_head b.
Proof.
  intros Hm Ha Hj. unfold derived_head, starting_head. by rewrite (genesis_ext a b), Hm, Ha, Hj.
Qed.

Lemma make_anchor_ok input a :
  makeLineageAnchor sha256 input = Ok a ->
  anchor_fields a = anchor_fields input /\ makeLineageAnchor sha256 a = Ok a /\
  compactedEvents a = compactedEvents input /\ anchor_head a = anchor_head input /\
  genesisAcceptance a = genesisAcceptance input /\ tipTransition a = tipTransition input /\
  manifestIdentitySha256 a = manifestIdentitySha256 input /\
  checkpointBlockHash a = checkpointBlockHash input /\ relevantBlocksBloom a = relevantBlocksBloom input.
Proof.
  unfold makeLineageAnchor. intros (data & Hd & [= <-])%bind_ok. split; [done|]. split; [|done].
  change (anchor_fields (Anchor _ _ _ _ _ _ _ _ _)) with (anchor_fields input). by rewrite Hd.
Qed.

Lemma compacted_anchor_ok state prefix h a :
  compactedLineageAnchor sha256 state prefix h = Ok a ->
  exists events, canonicalAcceptedEvents prefix = Ok events /\
    derived_head (state <| journal := prefix |>) = Ok (anchor_head a) /\
    tipTransition a = match last events with Some t => Some t | None => tipTransition (anchor state) end /\
    compactedEvents a = compactedEvents (anchor state) + Z.of_nat (length prefix) /\
    genesisAcceptance a = canonicalGenesisAcceptance (state <| journal := prefix |>) /\
    manifestIdentitySha256 a = identitySha256 (manifest state) /\ checkpointBlockHash a = h /\
    relevantBlocksBloom a = add_events sha256 (relevantBlocksBloom (anchor state)) prefix /\
    makeLineageAnchor sha256 a = Ok a.
Proof.
  unfold compactedLineageAnchor. rewrite derive_eq. intros H.
  apply bind_ok in H as (ps & Hps & H). apply bind_ok in Hps as (head & Hh & [= <-]).
  apply bind_ok in H as (events & He & H). apply bind_ok in H as (hist & _ & H).
  apply make_anchor_ok in H as (_ & Hidem & Hc & Hhd & Hg & Ht & Hm & Hcb & Hb). exists events.
  rewrite (derived_head_ext _ (state <| journal := prefix |>)) in Hh by done.
  rewrite (genesis_ext _ (state <| journal := prefix |>)) in Hg by done. cbn in *.
  split_and!; try done. by rewrite Hh, Hhd.
Qed.

Lemma compacted_anchor_ext a b prefix h :
  manifest a = manifest b -> anchor a = anchor b ->
  compactedLineageAnchor sha256 a prefix h = compactedLineageAnchor sha256 b prefix h.
Proof.
  intros Hm Ha. unfold compactedLineageAnchor. rewrite !derive_eq.
  rewrite (derived_head_ext _ (b <| journal := prefix |> <| currentHead := anchor_head (anchor b) |>)) by done.
  destruct (derived_head _) as [head|]; [|done]. cbn [mbind result_bind].
  rewrite (genesis_ext (_ <| currentHead := head |>)
    (b <| journal := prefix |> <| currentHead := anchor_head (anchor b) |> <| currentHead := head |>)) by done.
  by rewrite Hm, Ha.
Qed.

Lemma find_index_le {A} (p : A -> bool) l i : find_index p l = Some i -> (i < length l)%nat.
Proof.
  revert i. induction l as [|x l IH]; intros i; cbn; [done|]. destruct (p x); [intros [= <-]; lia|].
  destruct (find_index p l) as [j|]; cbn; [|done]. intros [= <-]. specialize (IH j eq_refl). lia.
Qed.

Lemma cutoff_le l : (compaction_cutoff l <= length l - 64)%nat.
Proof.
  unfold compaction_cutoff. destruct (find_index _ _) as [i|] eqn:E; cbn; [|lia].
  apply find_index_le in E. rewrite length_take in E. lia.
Qed.

(** Compaction is the identity or replaces a prefix by its anchor. *)
Lemma compact_cases state state' :
  compactLineage sha256 state = Ok state' ->
  state' = state \/
  exists cutoff a, (0 < cutoff <= length (journal state) - 64)%nat /\
    compactedLineageAnchor sha256 state (take cutoff (journal state)) (blockHash (checkpoint state)) = Ok a /\
    state' = state <| anchor := a |> <| journal := renumber (drop cutoff (journal state)) |>.
Proof.
  unfold compactLineage. destruct (_ <=? _)%nat; [intros [= <-]; by left|].
  destruct (Nat.eqb_spec (compaction_cutoff (journal state)) 0); [intros [= <-]; by left|].
  intros (a & Ha & [= <-])%bind_ok. right. eexists _, a. split; [|done].
  pose proof (cutoff_le (journal state)). lia.
Qed.

(** ** Inversion of an update *)

Lemma assertState_manifest cur : assertState cur = Ok tt -> assertLaunchManifest sha256 (manifest cur) = Ok tt.
Proof. unfold assertLineageState. intros (? & _ & ([] & H & _)%bind_ok)%bind_ok. done. Qed.

Lemma manifest_genesis m : assertLaunchManifest sha256 m = Ok tt -> is_hash32 (genesis_transactionId (genesis m)) = true.
Proof.
  unfold assertLaunchManifest. intros H. repeat (apply bind_ok in H as (? & Hx & H);
    first [apply assertHash32_ok in Hx as [? _]|clear Hx]). done.
Qed.

Lemma assertState_journal cur : assertState cur = Ok tt -> journal_ok (manifest cur) (journal cur).
Proof.
  unfold assertLineageState. intros H.
  do 8 (apply bind_ok in H as (? & _ & H)). apply bind_ok in H as ([] & H & _). by apply journal_checked.
Qed.

(** What an accepted update did: nothing but availability, or an extension of the journal. *)
Lemma update_cases cur upd next :
  applyUpdate cur upd = Ok next ->
  assertState cur = Ok tt /\
  ((exists reason, next = unavailable cur reason /\ short_reason reason) \/
   exists new,
     journal_ok (manifest cur) (journal cur ++ new) /\
     (length (journal cur) + length new <= 128)%nat /\ (length new <= 64)%nat /\
     valid_checkpoint (update_checkpoint upd) /\
     Forall (fun e => added e \/ removal_of (removedChainBlockHashes upd) e) new /\
     (forall g, genesisAcceptance (anchor cur) = Some g -> Forall (keeps_genesis g) (journal cur) ->
        (forall h, h ∈ removedChainBlockHashes upd -> ~ same_hex (acceptingBlockHash g) h) ->
        Forall (keeps_genesis g) new) /\
     finish_update sha256 (cur <| journal := journal cur ++ new |> <| checkpoint := update_checkpoint upd |>) = Ok next).
Proof.
  unfold applyCovenantSelectedChainUpdate. intros H.
  apply bind_ok in H as ([] & _ & H). apply bind_ok in H as ([] & Hadd & H). apply bind_ok in H as ([] & _ & H).
  apply bind_ok in H as ([] & Hlen & H). apply bind_ok in H as ([] & Hcur & H). split; [done|].
  apply bind_ok in H as ([] & _ & H). apply bind_ok in H as ([] & Hcp%assertCheckpoint_ok & H).
  apply bind_ok in H as ([] & _ & H).
  destruct (continuity upd === "pruned"); [injection H as <-; left; eexists; split; [reflexivity|vm_compute; discriminate]|].
  apply bind_ok in H as ([] & _ & H). apply bind_ok in H as (events & He & H). apply bind_ok in H as (r & Hr & H).
  pose proof (assertState_journal _ Hcur) as Hj.
  eapply remove_blocks_spec in Hr as [(reason & -> & Hshort)|(s' & new1 & -> & E1 & Hp1 & L1 & F1)];
    [..|done|eapply collect_accepted_ok; intros t; exact (canonical_valid _ _ _ t Hj He)|
     by apply manifest_genesis, assertState_manifest|split; [done|done]].
  { injection H as <-. left. by exists reason. }
  apply bind_ok in H as (s & Hs & H). apply add_blocks_spec in Hs as [Hp2 (new2 & E2 & L2 & A2 & G2)]; [|done].
  right. exists (new1 ++ new2). cbn [fst] in E1. rewrite E2, E1 in *. rewrite <- app_assoc in *.
  apply throw_if_ok in Hadd, Hlen. inv_bool.
  assert (Z.of_nat (length new2) = additions upd) as L2'.
  { rewrite <- (Z.add_0_r (Z.of_nat _)). apply L2. }
  unfold MAX_LINEAGE_UPDATE_EVENTS, MAX_LINEAGE_JOURNAL_EVENTS in *.
  split_and!; try done.
  - destruct Hp2 as [Hp2 _]. by rewrite E2 in Hp2.
  - rewrite length_app. lia.
  - rewrite length_app. lia.
  - apply Forall_app. split; (eapply Forall_impl; [eassumption|]); auto.
  - intros g Hg Hk Hrem. assert (Forall (keeps_genesis g) new1) as Hk1.
    { eapply Forall_impl; [exact F1|]. intros e (n & h & ids & -> & Hh). cbn. unfold same_hex.
      intros E. apply (Hrem h Hh). by rewrite toLowerCase_idem in E. }
    apply Forall_app. split; [done|]. apply (G2 g Hg). by apply Forall_app.
Qed.

(** The current state leaves room for the update's bytes. *)
Lemma update_room cur upd next : applyUpdate cur upd = Ok next ->
  assertLineageBudget cur = Ok tt /\
  serializedBytes (state_json cur) + serializedBytes (update_json upd) <= MAX_LINEAGE_STATE_BYTES.
Proof.
  unfold applyCovenantSelectedChainUpdate. intros H.
  do 2 (apply bind_ok in H as (? & _ & H)). apply bind_ok in H as ([] & Hb & H). split; [done|].
  apply bind_ok in H as ([] & Hroom%throw_if_ok & _). inv_bool. lia.
Qed.

Lemma finish_cases next next' :
  finish_update sha256 next = Ok next' ->
  exists c h, compactLineage sha256 next = Ok c /\ derived_head c = Ok h /\
    assertLineageBudget (c <| currentHead := h |>) = Ok tt /\ next' = match canonicalGenesisAcceptance c with
            | Some _ => c <| currentHead := h |> <| availability := "available" |> <| unavailableReason := None |>
            | None => c <| currentHead := h |> <| availability := "unknown" |> <| unavailableReason := Some no_genesis_reason |>
            end.
Proof.
  unfold finish_update. intros (c & Hc & H)%bind_ok. rewrite derive_eq in H.
  apply bind_ok in H as (d & Hd & H). apply bind_ok in Hd as (h & Hh & [= <-]).
  apply bind_ok in H as ([] & Hb & [= <-]). exists c, h. split; [done|]. split; [done|]. split; [done|].
  by rewrite (genesis_ext (c <| currentHead := h |>) c).
Qed.

(** ** Extension *)

(** The canonical texts the extension check writes: of the first [kept] events of the new
    journal, and of its anchor.  A text can exceed the canonical JSON budget. *)
Definition writes_texts (kept : nat) (next : CovenantLineageState) : result () :=
  _ ← for_each (fun e => _ ← stableStringify (event_json e); Ok tt) (take kept (journal next));
  _ ← stableStringify (anchor_json (anchor next)); Ok tt.

Lemma same_retained_eq i e l : l !! i = Some (with_sequence (Z.of_nat i) e) ->
  same_retained i e l = (_ ← stableStringify (event_json (with_sequence (Z.of_nat i) e)); Ok tt).
Proof.
  unfold same_retained. intros ->. destruct (stableStringify _); [|done]. cbn. by rewrite bool_decide_eq_true_2.
Qed.

Lemma for_each_ext {A} (f g : A -> result ()) l : (forall x, x ∈ l -> f x = g x) -> for_each f l = for_each g l.
Proof.
  induction l as [|x l IH]; intros H; [done|]. cbn [for_each]. rewrite (H x) by left.
  destruct (g x); [|done]. cbn. apply IH. intros y Hy. apply H. by right.
Qed.

Lemma map_lookup {A B} (f : A -> B) l i : map f l !! i = f <$> l !! i.
Proof. exact (list_lookup_fmap f l i). Qed.

Lemma for_each_map {A B} (f : B -> result ()) (g : A -> B) l : for_each f (map g l) = for_each (fun x => f (g x)) l.
Proof. induction l as [|x l IH]; [done|]. cbn. by destruct (f (g x)). Qed.

(** A renumbered prefix passes the comparison of retained events up to writing its texts. *)
Lemma retained_same retained l : take (length retained) l = renumber retained ->
  for_each (fun '(position, event) => same_retained position event l) (imap (fun i e => (i, e)) retained) =
  for_each (fun e => _ ← stableStringify (event_json e); Ok tt) (take (length retained) l).
Proof.
  intros Hl. rewrite (for_each_ext _ (fun p : nat * CovenantLineageEvent =>
    _ ← stableStringify (event_json (with_sequence (Z.of_nat p.1) p.2)); Ok tt)).
  - rewrite Hl. unfold renumber.
    rewrite <- (for_each_map (fun e => _ ← stableStringify (event_json e); Ok tt)
      (fun p : nat * CovenantLineageEvent => with_sequence (Z.of_nat p.1) p.2)).
    f_equal. apply list_eq. intros i. rewrite list_lookup_imap, map_lookup, list_lookup_imap.
    by destruct (retained !! i).
  - intros [i e] (j & E)%list_elem_of_lookup. rewrite list_lookup_imap in E.
    destruct (retained !! j) as [e'|] eqn:E'; [|done]. injection E as <- <-. cbn [fst snd].
    apply same_retained_eq. rewrite <- (lookup_take_lt l (length retained)) by (by eapply lookup_lt_Some).
    rewrite Hl. unfold renumber. by rewrite list_lookup_imap, E'.
Qed.

Lemma renumber_length l : length (renumber l) = length l.
Proof. apply length_imap. Qed.

Lemma renumber_id m l : journal_ok m l -> renumber l = l.
Proof.
  intros H. unfold renumber. apply list_eq. intros i. rewrite list_lookup_imap.
  destruct (l !! i) as [e|] eqn:E; [|done]. cbn. f_equal. by apply (with_sequence_id m i), H.
Qed.

Lemma renumber_app l l' : take (length l) (renumber (l ++ l')) = renumber l.
Proof. unfold renumber. rewrite imap_app. rewrite <- (length_imap (fun i e => with_sequence (Z.of_nat i) e) l). apply take_app_length. Qed.

(** [next] extends [cur] after compacting the first [compacted] events of its journal. *)
Record extends (cur next : CovenantLineageState) (compacted : nat) : Prop := {
  ex_bound : (compacted <= length (journal cur) <= 128)%nat;
  ex_count : compactedEvents (anchor next) = compactedEvents (anchor cur) + Z.of_nat compacted;
  ex_retained : take (length (journal cur) - compacted) (journal next) = renumber (drop compacted (journal cur));
  ex_anchor : if decide (compacted = 0%nat) then anchor next = anchor cur
              else compactedLineageAnchor sha256 cur (take compacted (journal cur)) (blockHash (checkpoint next)) =
                   Ok (anchor next)
}.

Lemma extension_compacted cur next compacted : extends cur next compacted ->
  assertCovenantLineageExtension sha256 cur next = writes_texts (length (journal cur) - compacted) next.
Proof.
  intros [Hb Hce Hret Ha]. unfold assertCovenantLineageExtension, writes_texts. rewrite Hce.
  replace (compactedEvents (anchor cur) + Z.of_nat compacted - compactedEvents (anchor cur)) with (Z.of_nat compacted) by lia.
  unfold isSafeInteger. replace (negb _ || _ || _) with false by (unfold MAX_SAFE_INTEGER; lia).
  rewrite Nat2Z.id, <- (length_drop _ compacted) in *.
  rewrite (proj2 (Nat.ltb_ge _ _)) by (rewrite <- (renumber_length (drop _ _)), <- Hret, length_take; lia).
  rewrite (retained_same _ _ Hret). destruct (for_each _ _) as [[]|err]; [cbn [mbind result_bind]|done].
  destruct (decide (compacted = 0%nat)) as [->|Hpos].
  - rewrite Ha. cbn [Z.of_nat Z.eqb]. destruct (stableStringify _); [|done]. cbn. by rewrite bool_decide_eq_true_2.
  - replace (Z.of_nat compacted =? 0) with false by lia. rewrite Ha. destruct (stableStringify _); [|done].
    cbn. by rewrite bool_decide_eq_true_2.
Qed.

Lemma unavailable_extends cur reason : assertState cur = Ok tt -> extends cur (unavailable cur reason) 0.
Proof.
  intros H. pose proof (assertState_journal _ H) as Hj. assert (length (journal cur) <= 128)%nat as Hl.
  { unfold assertLineageState, assertLineageBudget in H. apply bind_ok in H as ([] & Hb%throw_if_ok & _). inv_bool.
    unfold MAX_LINEAGE_JOURNAL_EVENTS in *. lia. }
  split; cbn [journal anchor unavailable set_field]; [lia|lia| |done].
  rewrite Nat.sub_0_r, drop_0, take_ge by lia. by rewrite (renumber_id _ _ Hj).
Qed.

Lemma finish_extends cur new cp next :
  journal_ok (manifest cur) (journal cur ++ new) ->
  (length (journal cur) + length new <= 128)%nat -> (length new <= 64)%nat ->
  finish_update sha256 (cur <| journal := journal cur ++ new |> <| checkpoint := cp |>) = Ok next ->
  exists compacted, (compacted <= 64)%nat /\ extends cur next compacted.
Proof.
  intros Hj Hl Hn (c & h & Hc & _ & _ & Hnext)%finish_cases.
  assert (journal next = journal c /\ anchor next = anchor c /\ checkpoint next = checkpoint c)
    as (Ej & Ea & Ec) by (subst next; by destruct (canonicalGenesisAcceptance c)).
  clear Hnext. apply compact_cases in Hc as [->|(cutoff & a & Hcut & Hanchor & ->)];
    cbn [journal set_field anchor checkpoint] in *.
  - exists 0%nat. split; [lia|]. split; rewrite ?Ej, ?Ea; [lia|lia| |done].
    rewrite Nat.sub_0_r, drop_0, take_app_length. symmetry. apply (renumber_id (manifest cur)).
    by apply journal_ok_app in Hj as [Hj _].
  - rewrite length_app in Hcut. exists cutoff. split; [lia|].
    pose proof (compacted_anchor_ok _ _ _ _ Hanchor) as (_ & _ & _ & _ & Hce & _).
    rewrite length_take_le in Hce by (rewrite length_app; lia). cbn [anchor set_field] in Hce.
    rewrite take_app_le in Hanchor by lia. split; rewrite ?Ej, ?Ea; [lia|done| |].
    + rewrite drop_app_le by lia. rewrite <- length_drop. apply renumber_app.
    + destruct (decide _); [lia|]. rewrite Ec. rewrite <- Hanchor. by apply compacted_anchor_ext.
Qed.

Lemma update_extends cur upd next : applyUpdate cur upd = Ok next ->
  exists compacted, (compacted <= 64)%nat /\ extends cur next compacted.
Proof.
  intros (Hcur & [(reason & -> & _)|(new & Hj & Hl & Hn & _ & _ & _ & Hf)])%update_cases.
  - exists 0%nat. split; [lia|]. by apply unavailable_extends.
  - by apply (finish_extends cur new (update_checkpoint upd)).
Qed.

(** C4.  Every state a selected-chain update returns is an append-only successor of
    the state it came from: some prefix of at most 64 events is compacted into an anchor that
    recomputing it from the old state gives, the rest of the old journal is kept in order at
    the front of the new one, renumbered from zero, and without compaction the anchor is
    unchanged.  On such a pair the durable store's extension check never refuses the journal:
    it writes the canonical texts of the kept events and of the anchor, and throws only what
    the canonical encoder throws for one of them (a string over its limit, for example). *)
Theorem update_is_extension cur upd next :
  applyUpdate cur upd = Ok next ->
  exists compacted : nat,
    (compacted <= 64)%nat /\ (compacted <= length (journal cur))%nat /\
    compactedEvents (anchor next) = compactedEvents (anchor cur) + Z.of_nat compacted /\
    take (length (journal cur) - compacted) (journal next) = renumber (drop compacted (journal cur)) /\
    (if decide (compacted = 0%nat) then anchor next = anchor cur
     else compactedLineageAnchor sha256 cur (take compacted (journal cur)) (blockHash (checkpoint next)) =
          Ok (anchor next)) /\
    assertCovenantLineageExtension sha256 cur next = writes_texts (length (journal cur) - compacted) next.
Proof.
  intros (compacted & Hc & He)%update_extends. exists compacted. rewrite <- (extension_compacted _ _ _ He).
  destruct He. split_and!; try done; lia.
Qed.

(** ** Validity is preserved *)

Definition anchor_ok (m : CovenantLaunchManifest) (a : LineageAnchor) : Prop :=
  0 <= compactedEvents a <= MAX_SAFE_INTEGER /\ is_bloom (relevantBlocksBloom a) = true /\
  (exists made, makeLineageAnchor sha256 a = Ok made /\ snapshotHash a = snapshotHash made) /\
  manifestIdentitySha256 a = identitySha256 m /\ is_lower_hash32 (checkpointBlockHash a) = true /\
  match tipTransition a with
  | Some t => valid_transition m t /\ sameLineageHead (successor_head <$> successor t) (anchor_head a) = true
  | None => sameLineageHead (match genesisAcceptance a with Some _ => Some (genesis_head m) | None => None end)
              (anchor_head a) = true
  end.

Definition rest_ok (state : CovenantLineageState) : Prop :=
  valid_checkpoint (checkpoint state) /\
  (availability state = "available" \/ availability state = "unknown") /\
  journal_ok (manifest state) (journal state) /\
  (exists h, derived_head state = Ok h /\ sameLineageHead h (currentHead state) = true) /\
  (availability state = "available" -> canonicalGenesisAcceptance state <> None).

Lemma assertState_ok state :
  assertState state = Ok tt <->
  assertLineageBudget state = Ok tt /\ assertLaunchManifest sha256 (manifest state) = Ok tt /\
  anchor_ok (manifest state) (anchor state) /\ rest_ok state.
Proof.
  unfold assertLineageState, anchor_ok, rest_ok, isSafeInteger. split.
  - intros H. apply bind_ok in H as ([] & Hb & H). apply bind_ok in H as ([] & Hm & H).
    apply bind_ok in H as (det & Hdet & H). apply bind_ok in H as ([] & Hd%throw_if_ok & H). subst det.
    apply or_else_false in Hdet as [H1 H2]. injection H1 as H1. inv_bool.
    apply bind_ok in H2 as (made & Hmade & [= H2]). inv_bool.
    apply bind_ok in H as ([] & Hi%throw_if_ok & H). inv_bool.
    apply bind_ok in H as ([] & Htip & H). apply bind_ok in H as ([] & Hcp%assertCheckpoint_ok & H).
    apply bind_ok in H as ([] & Hav%throw_if_ok & H). apply bind_ok in H as ([] & Hj%journal_checked & H).
    rewrite derive_eq in H. apply bind_ok in H as (d & Hder & H). apply bind_ok in Hder as (h & Hh & [= <-]).
    apply bind_ok in H as ([] & Hs%throw_if_ok & H%throw_if_ok). inv_bool.
    split; [done|]. split; [done|]. split.
    + split; [lia|]. split; [done|]. split; [by eexists|]. split; [done|]. split; [done|].
      destruct (tipTransition (anchor state)); inv_check; done.
    + split; [done|]. split; [apply andb_false_iff in Hav as [Hav|Hav]; inv_bool; auto|]. split; [done|].
      split; [by eexists|]. intros Ha Hg. rewrite Ha, Hg in H. by rewrite bool_decide_eq_true_2 in H.
  - intros (Hb & Hm & (Hc & Hbl & (made & Hmade & Hsn) & Hid & Hcb & Htip) & Hcp & Hav & Hj & (h & Hh & Hs) & Hg).
    rewrite Hb, Hm. cbn [mbind result_bind]. rewrite Hmade, Hbl, Hsn, Hid, Hcb.
    replace (negb _ || _ || _) with false by (unfold MAX_SAFE_INTEGER in *; lia).
    cbn [or_else mbind result_bind].
    rewrite (bool_decide_eq_true_2 (snapshotHash made = snapshotHash made)),
      (bool_decide_eq_true_2 (identitySha256 (manifest state) = identitySha256 (manifest state))) by done.
    cbn [or_else mbind result_bind negb orb throw_if].
    apply bind_ok. exists (). split.
    { destruct (tipTransition (anchor state)) as [t|].
      - destruct Htip as [Ht Htip]. unfold valid_transition in Ht. rewrite Ht. cbn [mbind result_bind]. by rewrite Htip.
      - by rewrite Htip. }
    rewrite (proj2 (assertCheckpoint_ok _ ()) Hcp), (proj2 (journal_checked _ _) Hj), derive_eq, Hh.
    cbn [mbind result_bind currentHead set_field]. rewrite Hs. cbn [negb throw_if mbind result_bind].
    apply bind_ok. exists (). rewrite !throw_if_ok. split.
    + destruct Hav as [-> | ->]; done.
    + destruct (canonicalGenesisAcceptance state); [apply andb_false_r|]. rewrite bool_decide_eq_false_2; [done|].
      intros Ha. by apply (Hg Ha).
Qed.

Lemma same_head_refl h : sameLineageHead h h = true.
Proof. destruct h; cbn; [|done]. unfold sameOutpoint. by rewrite !bool_decide_eq_true_2, Z.eqb_refl. Qed.

Lemma same_head_normalized s : sameLineageHead (Some (successor_head s)) (Some (normalized_head s)) = true.
Proof.
  unfold sameLineageHead, normalized_head, sameOutpoint. cbn [outpoint scriptPublicKey value claimedCumulativeAmount].
  by rewrite toLowerCase_idem, !bool_decide_eq_true_2, Z.eqb_refl.
Qed.

(** The last canonical transition witnesses the derived head. *)
Lemma tip_witness m o ts h t :
  lineage o ts h -> last ts = Some t -> valid_transition m t ->
  sameLineageHead (successor_head <$> successor t) h = true.
Proof.
  intros Hl Hlast Hv. induction Hl as [o|h0 t0 o ts o' Hs Hl IH]; [done|]. destruct ts as [|t1 ts].
  - injection Hlast as ->. inversion Hl; subst.
    destruct Hs as [out v paid Hk|s v c v' c' _ _ Hsc|s v c v' _ _ _ Hsc].
    + by rewrite (valid_transition_refund _ _ Hv Hk).
    + rewrite Hsc. apply same_head_normalized.
    + rewrite Hsc. apply same_head_normalized.
  - apply IH. by rewrite <- Hlast.
Qed.

Lemma compacted_anchor_valid state k g h a :
  anchor_ok (manifest state) (anchor state) -> journal_ok (manifest state) (journal state) ->
  genesisAcceptance (anchor state) = Some g -> Forall (keeps_genesis g) (journal state) ->
  compactedLineageAnchor sha256 state (take k (journal state)) h = Ok a ->
  is_lower_hash32 h = true -> compactedEvents a <= MAX_SAFE_INTEGER ->
  anchor_ok (manifest state) a /\ genesisAcceptance a = Some g.
Proof.
  intros (Hc & Hbl & _ & _ & _ & Htip) Hj Hg Hk Ha Hh Hce.
  apply compacted_anchor_ok in Ha as (events & He & Hd & Ht & Hce' & Hga & Hm & Hcb & Hbloom & Hidem).
  assert (Forall (keeps_genesis g) (take k (journal state))) as Hk' by (by apply Forall_take).
  assert (canonicalGenesisAcceptance (state <| journal := take k (journal state) |>) = Some g) as Hgen
    by (by apply canonical_genesis_kept).
  rewrite Hgen in Hga. split; [|done]. unfold anchor_ok.
  split; [lia|]. split; [rewrite Hbloom; by apply add_events_spec|]. split; [by eexists|].
  split; [done|]. split; [by rewrite Hcb|].
  unfold derived_head in Hd. apply bind_ok in Hd as (events' & He' & Hd).
  cbn [journal set_field] in He'. rewrite He in He'. injection He' as <-.
  apply bind_ok in Hd as (s & Hs & [= Hhd]). apply advance_all_ok in Hs as (Hl & _). rewrite Hhd in Hl.
  unfold starting_head in Hl. rewrite Hgen in Hl. cbn [anchor set_field] in Hl. rewrite Hg in Hl, Htip. rewrite Ht.
  destruct (last events) as [t|] eqn:Elast.
  - assert (valid_transition (manifest state) t) as Hv.
    { destruct (canonical_from_journal _ _ _ He (last_Some_elem_of _ _ Elast)) as [n Hin].
      apply (journal_ok_elem _ _ _ Hj (subseteq_take k _ _ Hin)). }
    split; [done|]. by apply (tip_witness _ _ _ _ _ Hl Elast Hv).
  - apply last_None in Elast as ->. assert (anchor_head (anchor state) = anchor_head a) as E by (by inversion Hl).
    rewrite Hga, <- E. by destruct (tipTransition (anchor state)).
Qed.

Lemma budget_ok s : assertLineageBudget s = Ok tt <->
  (length (journal s) <= 128)%nat /\ serializedBytes (state_json s) <= MAX_LINEAGE_STATE_BYTES.
Proof.
  unfold assertLineageBudget. rewrite throw_if_ok, orb_false_iff, !Z.ltb_ge. unfold MAX_LINEAGE_JOURNAL_EVENTS. lia.
Qed.

(** A lineage is available, or unknown for a stated reason. *)
Definition availability_ok (s : CovenantLineageState) : Prop :=
  availability s = "available" /\ unavailableReason s = None \/
  availability s = "unknown" /\ exists reason, unavailableReason s = Some reason.

(** Saying that a lineage is available takes no more bytes than any other availability. *)
Lemma available_budget s : availability_ok s -> assertLineageBudget s = Ok tt ->
  assertLineageBudget (s <| availability := "available" |> <| unavailableReason := None |>) = Ok tt.
Proof.
  rewrite !budget_ok, !state_bytes. intros Ha [Hl Hb]. split; [done|].
  change (core_bytes (_ <| unavailableReason := None |>)) with (core_bytes s).
  cbn [availability unavailableReason set_field]. rewrite available_bytes.
  destruct Ha as [[E1 E2]|[E1 [r E2]]]; rewrite E1, E2 in Hb.
  - by rewrite available_bytes in Hb.
  - rewrite unknown_bytes in Hb. pose proof (byte_length_nonneg (quote r)). lia.
Qed.

(** The room an accepted update needs is enough for the reason of an unavailable lineage. *)
Lemma unavailable_budget cur upd next reason : applyUpdate cur upd = Ok next -> short_reason reason ->
  assertLineageBudget (unavailable cur reason) = Ok tt.
Proof.
  intros [[Hl _]%budget_ok Hroom]%update_room Hs. apply budget_ok. split; [done|].
  rewrite state_bytes in *. change (core_bytes (unavailable cur reason)) with (core_bytes cur).
  cbn [unavailable availability unavailableReason set_field]. rewrite unknown_bytes.
  unfold short_reason in Hs. pose proof (update_bytes upd).
  assert (0 <= availability_bytes (availability cur) (unavailableReason cur)) by apply byte_length_nonneg. lia.
Qed.

Lemma unavailable_valid cur reason : assertState cur = Ok tt ->
  assertLineageBudget (unavailable cur reason) = Ok tt -> assertState (unavailable cur reason) = Ok tt.
Proof.
  intros (_ & Hm & Ha & Hcp & _ & Hj & Hd & _)%assertState_ok Hb. apply assertState_ok.
  split; [done|]. split; [done|]. split; [done|]. unfold rest_ok. cbn [checkpoint availability manifest journal unavailable set_field currentHead].
  split; [done|]. split; [by right|]. split; [done|]. split; [|done].
  by rewrite (derived_head_ext (unavailable cur reason) cur).
Qed.

(** A valid state after [n] updates whose genesis acceptance is the manifest's. *)
Definition launched_with (g : AcceptedTransactionEvidence) (state : CovenantLineageState) : Prop :=
  genesisAcceptance (anchor state) = Some g /\ Forall (keeps_genesis g) (journal state).
Record kept_state (n : nat) (state : CovenantLineageState) : Prop := {
  ks_genesis : launched_with (acceptance (genesis (manifest state))) state;
  ks_available : availability_ok state;
  ks_count : compactedEvents (anchor state) <= 64 * Z.of_nat n;
  ks_valid : assertState state = Ok tt
}.

Lemma renumber_keeps g l : Forall (keeps_genesis g) l -> Forall (keeps_genesis g) (renumber l).
Proof.
  intros H. unfold renumber. rewrite Forall_lookup. intros i e E. rewrite list_lookup_imap in E.
  destruct (l !! i) as [e'|] eqn:E'; [|done]. injection E as <-. rewrite Forall_lookup in H.
  specialize (H _ _ E'). by destruct e'.
Qed.

(** Compaction keeps the genesis acceptance, a valid journal and a valid anchor. *)
Lemma compact_keeps state c g :
  anchor_ok (manifest state) (anchor state) -> journal_ok (manifest state) (journal state) ->
  launched_with g state -> is_lower_hash32 (blockHash (checkpoint state)) = true ->
  compactLineage sha256 state = Ok c ->
  manifest c = manifest state /\ checkpoint c = checkpoint state /\ availability c = availability state /\
  unavailableReason c = unavailableReason state /\ launched_with g c /\ journal_ok (manifest state) (journal c) /\
  (compactedEvents (anchor c) <= MAX_SAFE_INTEGER -> anchor_ok (manifest state) (anchor c)).
Proof.
  intros Ha Hj [Hg Hk] Hlow [->|(cutoff & a & Hcut & Hanchor & ->)]%compact_cases; [done|].
  cbn [manifest checkpoint anchor journal availability unavailableReason set_field]. split_and!; try done.
  - split; cbn [anchor journal set_field].
    + apply compacted_anchor_ok in Hanchor as (_ & _ & _ & _ & _ & -> & _).
      apply (canonical_genesis_kept state); [done|]. by apply Forall_take.
    + by apply renumber_keeps, Forall_drop.
  - apply renumber_ok. intros e He. apply (journal_ok_elem _ _ _ Hj). by apply (subseteq_drop cutoff).
  - intros Hle. by apply (compacted_anchor_valid state cutoff g (blockHash (checkpoint state)) a).
Qed.

Lemma launched_canonical g state : launched_with g state -> canonicalGenesisAcceptance state = Some g.
Proof.
  intros [Hg Hk]. rewrite (genesis_ext state (state <| journal := journal state |>)) by done.
  by apply canonical_genesis_kept.
Qed.

(** The end of an update on a state that keeps its genesis. *)
Lemma finish_valid state next g :
  assertLaunchManifest sha256 (manifest state) = Ok tt -> valid_checkpoint (checkpoint state) ->
  anchor_ok (manifest state) (anchor state) -> journal_ok (manifest state) (journal state) ->
  launched_with g state -> availability_ok state -> is_lower_hash32 (blockHash (checkpoint state)) = true ->
  finish_update sha256 state = Ok next -> compactedEvents (anchor next) <= MAX_SAFE_INTEGER ->
  assertState next = Ok tt /\ launched_with g next /\ availability_ok next /\ manifest next = manifest state.
Proof.
  intros Hm Hcp Ha Hj Hl Hav Hlow (c & h & Hc & Hh & Hb & Hnext)%finish_cases Hce.
  apply (compact_keeps _ _ g) in Hc as (Em & Ec & Eav & Er & Hlc & Hjc & Hac); [|done..].
  rewrite (launched_canonical _ _ Hlc) in Hnext. subst next. cbn [anchor set_field] in Hce.
  split; [|split; [done|split; [by left|done]]].
  apply assertState_ok. split.
  { apply (available_budget (c <| currentHead := h |>)); [|done].
    unfold availability_ok in *. cbn [availability unavailableReason set_field]. by rewrite Eav, Er. }
  cbn [manifest anchor set_field]. rewrite Em. split; [done|]. split; [by apply Hac|].
  unfold rest_ok. cbn [checkpoint availability journal manifest currentHead set_field]. rewrite Em, Ec.
  split; [done|]. split; [by left|]. split; [done|]. split.
  - exists h. split; [|apply same_head_refl]. rewrite <- Hh. by apply derived_head_ext.
  - intros _. by rewrite (genesis_ext _ c), (launched_canonical _ _ Hlc).
Qed.

Lemma update_preserves_kept n cur upd next :
  kept_state n cur -> applyUpdate cur upd = Ok next ->
  is_lower_hash32 (blockHash (update_checkpoint upd)) = true ->
  (forall h, h ∈ removedChainBlockHashes upd -> ~ same_hex (acceptingBlockHash (acceptance (genesis (manifest cur)))) h) ->
  64 * Z.of_nat (S n) <= MAX_SAFE_INTEGER -> kept_state (S n) next.
Proof.
  intros [[Hg Hk] Hav Hce Hcur] Hu Hlow Hrem Hn.
  assert (compactedEvents (anchor next) <= 64 * Z.of_nat (S n)) as Hce'.
  { destruct (update_extends _ _ _ Hu) as (k & Hk64 & [_ E _ _]). lia. }
  pose proof Hcur as (_ & Hm & Ha & _)%assertState_ok.
  destruct (update_cases _ _ _ Hu) as [_ [(reason & -> & Hs)|(new & Hj & _ & _ & Hcp & _ & Hkeep & Hf)]].
  { split; [done|right; split; [done|by eexists]|done|].
    apply unavailable_valid; [done|]. by apply (unavailable_budget _ _ _ _ Hu). }
  apply (finish_valid _ _ (acceptance (genesis (manifest cur)))) in Hf as (Hv & Hl & Hav' & Em); try done; [|split|lia].
  - cbn [manifest set_field] in Em. split; [by rewrite Em|done..].
  - done.
  - apply Forall_app. split; [done|]. by apply Hkeep.
Qed.

Lemma create_parts m state :
  createCovenantLineageState sha256 m = Ok state ->
  manifest state = m /\ journal state = [] /\ availability state = "available" /\ unavailableReason state = None /\
  currentHead state = Some (manifest_head m) /\ checkpoint state = ae_checkpoint (acceptance (genesis m)) /\
  assertLaunchManifest sha256 m = Ok tt /\ assertLineageBudget state = Ok tt /\
  genesisAcceptance (anchor state) = Some (acceptance (genesis m)) /\ tipTransition (anchor state) = None /\
  anchor_head (anchor state) = Some (manifest_head m) /\ compactedEvents (anchor state) = 0 /\
  manifestIdentitySha256 (anchor state) = identitySha256 m /\
  checkpointBlockHash (anchor state) = blockHash (ae_checkpoint (acceptance (genesis m))) /\
  relevantBlocksBloom (anchor state) = String.concat "" (repeat "00" 256) /\
  makeLineageAnchor sha256 (anchor state) = Ok (anchor state).
Proof.
  unfold createCovenantLineageState. intros H. apply bind_ok in H as ([] & _ & H). apply bind_ok in H as ([] & Hm & H).
  apply bind_ok in H as (origin & _ & H). apply bind_ok in H as (a & Ha & H). apply bind_ok in H as ([] & Hb & [= <-]).
  apply make_anchor_ok in Ha as (_ & Hi & Hc & Hh & Hg & Ht & Hid & Hcb & Hbl). cbn in *. split_and!; done.
Qed.

Lemma manifest_acceptance m : assertLaunchManifest sha256 m = Ok tt -> valid_evidence (acceptance (genesis m)).
Proof.
  unfold assertLaunchManifest. intros H.
  do 20 (apply bind_ok in H as (? & Hx & H); clear Hx). by apply assertAcceptedEvidence_ok in H.
Qed.

Lemma created_valid_lower m state :
  createCovenantLineageState sha256 m = Ok state ->
  assertState state = Ok tt <-> is_lower_hash32 (blockHash (ae_checkpoint (acceptance (genesis m)))) = true.
Proof.
  intros (Em & Ej & Eav & _ & Eh & Ecp & Hm & Hb & Hg & Ht & Hah & Hc & Hid & Hcb & Hbl & Hidem)%create_parts.
  rewrite assertState_ok. unfold anchor_ok, rest_ok. rewrite Em, Ej, Eav, Eh, Ecp, Ht, Hah, Hc, Hid, Hcb, Hbl, Hg.
  split; [naive_solver|]. intros Hlow. split; [done|]. split; [done|]. split.
  - split; [unfold MAX_SAFE_INTEGER; lia|]. split; [by vm_compute|]. split; [by eexists|]. split; [done|]. split; [done|].
    unfold sameLineageHead, genesis_head, manifest_head, sameOutpoint. cbn [outpoint scriptPublicKey value claimedCumulativeAmount].
    by rewrite toLowerCase_idem, !bool_decide_eq_true_2, Z.eqb_refl.
  - split; [apply (manifest_acceptance _ Hm)|]. split; [by left|]. split; [by intros i e|].
    assert (canonicalGenesisAcceptance state = Some (acceptance (genesis m))) as Hgen.
    { unfold canonicalGenesisAcceptance. by rewrite Ej, Hg. }
    split; [|by rewrite Hgen]. exists (Some (manifest_head m)). split; [|apply same_head_refl].
    unfold derived_head, starting_head. by rewrite Ej, Hgen, Hg, Hah.
Qed.

(** A freshly created lineage state is accepted by the state validation, and hence can
    ever be updated, exactly when the genesis checkpoint's block hash is lower-case hex:
    creation accepts hashes of either case, validation of the anchor does not. *)
Theorem created_state_valid_iff_lowercase m state :
  createCovenantLineageState sha256 m = Ok state ->
  (assertState state = Ok tt <-> is_lower_hash32 (blockHash (ae_checkpoint (acceptance (genesis m)))) = true) /\
  (is_lower_hash32 (blockHash (ae_checkpoint (acceptance (genesis m)))) = false ->
   forall upd next, applyUpdate state upd <> Ok next).
Proof.
  intros Hc. pose proof (created_valid_lower _ _ Hc) as Hiff. split; [exact Hiff|].
  intros Hlow upd next H. apply update_cases in H as [H _]. apply Hiff in H. congruence.
Qed.

(** The states a lineage goes through, by the number of updates: every update records a
    lower-case checkpoint hash and removes no block that accepted the genesis. *)
Inductive reachable : nat -> CovenantLineageState -> Prop :=
  | reachable_created m state :
      createCovenantLineageState sha256 m = Ok state ->
      is_lower_hash32 (blockHash (ae_checkpoint (acceptance (genesis m)))) = true -> reachable 0 state
  | reachable_updated n cur upd next :
      reachable n cur -> applyUpdate cur upd = Ok next ->
      is_lower_hash32 (blockHash (update_checkpoint upd)) = true ->
      (forall h, h ∈ removedChainBlockHashes upd ->
         ~ same_hex (acceptingBlockHash (acceptance (genesis (manifest cur)))) h) ->
      reachable (S n) next.

Lemma created_kept m state :
  createCovenantLineageState sha256 m = Ok state ->
  is_lower_hash32 (blockHash (ae_checkpoint (acceptance (genesis m)))) = true -> kept_state 0 state.
Proof.
  intros Hc Hlow. pose proof Hc as (Em & Ej & Ea & Er & _ & _ & _ & _ & Hg & _ & _ & E & _)%create_parts.
  split; [|by left|by rewrite E|by apply (proj2 (created_valid_lower _ _ Hc))].
  split; [by rewrite Em|by rewrite Ej].
Qed.

(** C3.  Launch a lineage from a manifest and apply any selected-chain updates that
    succeed, fewer than 2^53 / 64 of them, where every checkpoint hash is written in lower case
    and no update removes the block that accepted the genesis.  Then the state passes the full
    validation with nothing assumed of it: its bytes and event count are within the limits, the
    manifest is valid, the anchor has its tip witness, filter and hash, the journal is valid,
    the current head is the derived one, and the canonical genesis acceptance is still the
    manifest's. *)
Theorem reachable_states_valid n state :
  reachable n state -> 64 * Z.of_nat n <= MAX_SAFE_INTEGER ->
  assertState state = Ok tt /\ canonicalGenesisAcceptance state = Some (acceptance (genesis (manifest state))).
Proof.
  intros H Hn. enough (kept_state n state) as [Hl _ _ Hv] by (split; [done|by apply launched_canonical]).
  induction H as [m state Hc Hlow|n cur upd next Hr IH Hu Hlow Hrem]; [by eapply created_kept|].
  apply (update_preserves_kept _ cur upd); auto with lia.
Qed.

End Sha.
