(* ===== verification/Compaction.v ===== *)
(** * Compaction, confirmation and concrete lineages

    Compaction keeps the derived head when nothing retained removes a compacted transaction,
    and its filter reports every compacted block; confirmation reaches every canonical event.
    The last part runs concrete lineages, among them a sequence of updates after which the
    compaction of a valid journal makes the next update fail. *)

From S2P Require Import Prelude Amount Json Binary ResourceBudget ChainTruth Lineage Bloom LineageUpdate.

Section Sha.
Context (sha256 : bytes -> bytes).

Lemma apply_event_sequence active e n : apply_event active (with_sequence n e) = apply_event active e.
Proof. by destruct e. Qed.

Lemma sequence_active (f : nat -> Z) l active :
  fold_result apply_event (imap (fun index event => with_sequence (f index) event) l) active =
  fold_result apply_event l active.
Proof.
  revert active f. induction l as [|e l IH]; intros active f; cbn [imap fold_result]; [done|].
  rewrite apply_event_sequence. destruct (apply_event active e) as [a|]; [|done]. exact (IH a (f ∘ S)).
Qed.

Lemma renumber_active l active : fold_result apply_event (renumber l) active = fold_result apply_event l active.
Proof. apply sequence_active. Qed.

Lemma renumber_canonical l : canonicalAcceptedEvents (renumber l) = canonicalAcceptedEvents l.
Proof. unfold canonicalAcceptedEvents. by rewrite renumber_active. Qed.

Lemma lineage_app o ts ts' o' :
  lineage o (ts ++ ts') o' <-> exists m, lineage o ts m /\ lineage m ts' o'.
Proof.
  split.
  - revert o. induction ts as [|t ts IH]; intros o Hl; cbn [app] in Hl; [exists o; by split; [constructor|]|].
    inversion Hl as [|h t' o1 ts1 o2 Hs Hrest]; subst. destruct (IH _ Hrest) as (m & Hm & Hm').
    exists m. split; [by econstructor|done].
  - intros (m & Hl & Hl'). induction Hl; [done|]. cbn. econstructor; eauto.
Qed.

Lemma derived_head_iff state h :
  derived_head state = Ok h <->
  exists events, canonicalAcceptedEvents (journal state) = Ok events /\ NoDup (map lower_id events) /\
    lineage (starting_head state) events h.
Proof.
  unfold derived_head. rewrite bind_ok. setoid_rewrite bind_ok. setoid_rewrite advance_all_ok. split.
  - intros (events & He & s & (Hl & Hn & _) & [= <-]). eauto.
  - intros (events & He & Hn & Hl). exists events. split; [done|]. exists (h, rev (map lower_id events) ++ []).
    split; [|done]. split_and!; try done. apply Forall_true. intros t. apply not_elem_of_nil.
Qed.

(** Nothing after the first [k] events removes a transaction canonical in them. *)
Definition closed_at (k : nat) (journal : list CovenantLineageEvent) : Prop :=
  forall events, canonicalAcceptedEvents (take k journal) = Ok events ->
    Forall (spares (map lower_id events)) (drop k journal).

(** C6.  Compacting a journal keeps the derived head, provided no retained event
    removes a transaction of the compacted prefix and the genesis stays accepted. *)
Theorem compaction_preserves_head state state' h :
  compactLineage sha256 state = Ok state' -> genesis_kept state -> derived_head state = Ok h ->
  closed_at (compaction_cutoff (journal state)) (journal state) ->
  derived_head state' = Ok h /\ manifest state' = manifest state /\ checkpoint state' = checkpoint state.
Proof.
  unfold compactLineage. intros Hc (g & Hg & Hk) Hd Hclosed. destruct (_ <=? _)%nat; [by injection Hc as <-|].
  set (k := compaction_cutoff (journal state)) in *. destruct (Nat.eqb_spec k 0) as [|Hk0]; [by injection Hc as <-|].
  apply bind_ok in Hc as (a & Ha & [= <-]). split; [|done].
  apply compacted_anchor_ok in Ha as (prefix & Hp & Hph & _ & _ & Hga & _).
  assert (canonicalGenesisAcceptance (state <| journal := take k (journal state) |>) = Some g) as Hg1
    by (apply canonical_genesis_kept; [done|by apply Forall_take]).
  assert (canonicalGenesisAcceptance state = Some g) as Hg2.
  { rewrite (genesis_ext state (state <| journal := journal state |>)) by done. by apply canonical_genesis_kept. }
  rewrite Hg1 in Hga. apply derived_head_iff in Hd as (events & He & Hn & Hl).
  specialize (Hclosed prefix Hp).
  pose proof Hp as Hp'. unfold canonicalAcceptedEvents in Hp'. apply bind_ok in Hp' as (active & Hact & [= <-]).
  pose proof (journal_active_ok _ _ _ active_ok_nil Hact) as [Hkeys _].
  pose proof He as He'. unfold canonicalAcceptedEvents in He'. apply bind_ok in He' as (total & Htot & [= <-]).
  rewrite <- (take_drop k (journal state)), fold_result_app, Hact in Htot. cbn [mbind result_bind] in Htot.
  rewrite <- (app_nil_r active) in Htot. apply journal_frame in Htot as (rest & Hrest & ->); [|by rewrite Hkeys].
  rewrite !map_app in *. apply NoDup_app in Hn as (_ & _ & Hn). apply lineage_app in Hl as (m & Hl1 & Hl2).
  apply derived_head_iff in Hph as (prefix & Hp2 & _ & Hl3). cbn [journal set_field] in Hp2. rewrite Hp in Hp2.
  injection Hp2 as <-.
  assert (starting_head (state <| journal := take k (journal state) |>) = starting_head state) as Hstart.
  { unfold starting_head. by rewrite Hg1, Hg2. }
  rewrite Hstart in Hl3. assert (m = anchor_head a) as -> by (by eapply lineage_functional).
  apply derived_head_iff. exists (map snd rest). cbn [journal set_field]. split.
  { rewrite renumber_canonical. unfold canonicalAcceptedEvents. by rewrite Hrest. }
  split; [done|]. unfold starting_head.
  rewrite (canonical_genesis_kept _ g) by (try done; apply renumber_keeps, Forall_drop, Hk).
  cbn [anchor set_field]. by rewrite Hga.
Qed.

(** When the last 64 events remove none of the compacted transactions the cutoff is not
    moved back, and the condition above holds. *)
Lemma unmoved_closed l : compaction_cutoff l = (length l - 64)%nat ->
  find_index (accepts_one_of (List.concat (map removed_ids (drop (length l - 64) l)))) (take (length l - 64) l) = None ->
  closed_at (compaction_cutoff l) l.
Proof.
  intros -> Hnone events He. set (k := (length l - 64)%nat) in *. apply Forall_forall. intros e Hin.
  unfold spares. apply Forall_forall. intros id Hid Hmem. apply list_elem_of_In, in_map_iff in Hmem as (t & <- & Ht%list_elem_of_In).
  destruct (canonical_from_journal _ _ _ He Ht) as [n Hn].
  assert (forall (p : CovenantLineageEvent -> bool) m, find_index p m = None -> forall x, x ∈ m -> p x = false) as Hfi.
  { intros p m. induction m as [|x m IH]; intros H y Hy; [by apply not_elem_of_nil in Hy|]. cbn in H.
    destruct (p x) eqn:Ep; [done|]. apply elem_of_cons in Hy as [->|Hy]; [done|].
    apply IH; [by destruct (find_index p m)|done]. }
  specialize (Hfi _ _ Hnone _ Hn). cbn [accepts_one_of] in Hfi. fold (lower_id t) in Hfi. apply not_seen in Hfi.
  apply Hfi. apply list_elem_of_In, in_concat. exists (removed_ids e).
  split; [apply in_map; by apply list_elem_of_In|by apply list_elem_of_In].
Qed.

(** Every accepted transaction that compaction drops from the journal leaves its
    accepting block in the anchor's filter, which also keeps all earlier blocks and stays a
    well-formed 256-byte filter: a later removal of such a block cannot pass unnoticed. *)
Theorem compaction_remembers_blocks state state' :
  compactLineage sha256 state = Ok state' -> is_bloom (relevantBlocksBloom (anchor state)) = true ->
  is_bloom (relevantBlocksBloom (anchor state')) = true /\
  (forall hash, bloomContains sha256 (relevantBlocksBloom (anchor state)) hash = true ->
     bloomContains sha256 (relevantBlocksBloom (anchor state')) hash = true) /\
  (forall n t, EventAccepted n t ∈ journal state ->
     (exists n', EventAccepted n' t ∈ journal state') \/
     bloomContains sha256 (relevantBlocksBloom (anchor state'))
       (toLowerCase (acceptingBlockHash (transition_acceptance t))) = true).
Proof.
  intros [->|(k & a & _ & Ha & ->)]%compact_cases Hb; [by split_and!; eauto|].
  apply compacted_anchor_ok in Ha as (_ & _ & _ & _ & _ & _ & _ & _ & Hbl & _).
  cbn [anchor journal set_field]. rewrite Hbl. destruct (add_events_spec sha256 _ (take k (journal state)) Hb) as (H1 & H2 & H3).
  split; [done|]. split; [done|]. intros n t Hin. rewrite <- (take_drop k (journal state)) in Hin.
  apply elem_of_app in Hin as [Hin|Hin].
  - right. rewrite (bloom_case _ _ _ (acceptingBlockHash (transition_acceptance t))) by apply toLowerCase_idem. eauto.
  - left. apply list_elem_of_lookup in Hin as (i & E). eexists. apply list_elem_of_lookup. exists i.
    unfold renumber. rewrite list_lookup_imap, E. reflexivity.
Qed.

(** A lineage counts as confirmed exactly when it is valid and available and the
    genesis acceptance and the acceptance of every canonical transition have at least the
    required confirmation count. *)
Theorem lineage_confirmed_exact state n :
  assertCovenantLineageConfirmed sha256 state n = Ok tt <->
  assertLineageState sha256 state = Ok tt /\ availability state = "available" /\
  exists g events, canonicalGenesisAcceptance state = Some g /\ canonicalAcceptedEvents (journal state) = Ok events /\
    threshold n /\
    Forall (fun e => valid_evidence e /\ n <= confirmationCount e) (g :: map transition_acceptance events).
Proof.
  unfold assertCovenantLineageConfirmed.
  assert (forall l, for_each (fun item => decision ← decideAccepted item n;
      throw_if (match decision with DecidedConfirmed _ => false | _ => true end)
        "covenant lineage has not reached the configured confirmation threshold") l = Ok tt <->
    Forall (fun e => threshold n /\ valid_evidence e /\ n <= confirmationCount e) l) as Hl.
  { intros l. rewrite for_each_ok. apply Forall_iff. intros e. rewrite bind_ok. setoid_rewrite decideAccepted_ok.
    setoid_rewrite throw_if_ok. split.
    - intros (d & (Ht & He & ->) & H). destruct (n <=? confirmationCount e) eqn:E; [|done]. split_and!; try done. lia.
    - intros (Ht & He & Hle). eexists. split; [done|]. by replace (n <=? confirmationCount e) with true by lia. }
  split.
  - intros H. apply bind_ok in H as ([] & Hs & H). apply bind_ok in H as ([] & Ha%throw_if_ok & H). inv_bool.
    split; [done|]. split; [done|]. destruct (canonicalGenesisAcceptance state) as [g|]; [|done].
    apply bind_ok in H as (events & He & H). apply Hl in H. exists g, events. split; [done|]. split; [done|]. split.
    + apply Forall_cons in H as [[? _] _]. done.
    + eapply Forall_impl; [exact H|]. naive_solver.
  - intros (Hs & Ha & g & events & Hg & He & Ht & Hf). rewrite Hs. cbn [mbind result_bind].
    rewrite Ha, bool_decide_eq_true_2 by done. cbn [negb throw_if mbind result_bind]. rewrite Hg, He. cbn [mbind result_bind].
    apply Hl. eapply Forall_impl; [exact Hf|]. naive_solver.
Qed.

End Sha.

(** ** A concrete covenant *)

Module Sample.

(** 32-byte hex text holding a small number. *)
Definition hash (n : Z) : string := bytesToHex (rev (little_endian 32 n)).

Definition cp (n : Z) : ChainCheckpoint := Checkpoint (hash n) (toString n) (toString n).
(** Acceptance by block [n], which is also the checkpoint. *)
Definition evidence (tx n : Z) : AcceptedTransactionEvidence :=
  AcceptedEvidence (hash tx) (hash n) (toString n) 1 (cp n).

Definition covenant : string := hash 77.
Definition script : string := "51aC".

Definition base_manifest (checkpointHash identity : string) : CovenantLaunchManifest := {|
  format := "kaspa-x402-covenant-launch-v1"; network := "kaspa:testnet-10";
  compiler := {| compiler_name := "silverscript"; checkedCommit := "0123456789abcdef0123456789abcdef01234567";
                 command := "compile escrow" |};
  source := {| path := "contracts/escrow.sil"; source_sha256 := hash 5 |};
  bytecode := {| templateId := "kaspa-x402-escrow-v5"; compiledBaseSha256 := hash 6 |};
  constructorSlots := JObject [("client", JNumber 1)]; abi := JObject [("claim", JArray [JNumber 0])];
  selectors := JObject [("claim", JString "00")]; identitySha256 := identity;
  genesis := {|
    derivation := "kip20-covenant-id-v1"; genesis_covenantId := covenant;
    authorizingInputOutpoint := Outpoint (hash 1) 0; genesis_transactionId := hash 100;
    genesis_outpoint := Outpoint (hash 100) 0; genesis_scriptPublicKey := script;
    genesis_value := "1000"; genesis_claimedCumulativeAmount := "0";
    acceptance := AcceptedEvidence (hash 100) checkpointHash "10" 1 (Checkpoint checkpointHash "10" "10") |} |}.

Definition manifest_at (checkpointHash : string) : CovenantLaunchManifest :=
  base_manifest checkpointHash
    (match stableStringify (JObject (identity_fields (base_manifest checkpointHash ""))) with
     | Ok identity => sha256Hex toy_sha256 identity
     | Throw _ => ""
     end).

Definition claim (tx from n : Z) (left_value claimed : string) : CovenantLineageTransition := {|
  kind := "claim"; covenantId := covenant; transition_templateId := "kaspa-x402-escrow-v5";
  consumedOutpoint := Outpoint (hash from) 0; transactionId := hash tx; authorizedSuccessorCount := 1;
  successor := Some (Successor (Head (Outpoint (hash tx) 0) script left_value claimed) covenant 0);
  terminalOutput := None; transition_acceptance := evidence tx n |}.

(** Transaction 101 claims 100 from the genesis output, transaction 102 claims 100 more. *)
Definition X (n : Z) : CovenantLineageTransition := claim 101 100 n "900" "100".
Definition Y (n : Z) : CovenantLineageTransition := claim 102 101 n "800" "200".

(** The update to block [n], removing blocks and accepting transitions in [n]. *)
Definition update (n : Z) (removed : list Z) (ts : list CovenantLineageTransition) : CovenantSelectedChainUpdate := {|
  fromCheckpoint := cp (n - 1); update_checkpoint := cp n; continuity := "complete";
  removedChainBlockHashes := map hash removed;
  addedChainBlocks := [{| block_blockHash := hash n; block_genesisAcceptance := None; transitions := ts |}] |}.

Definition launch : result CovenantLineageState := createCovenantLineageState toy_sha256 (manifest_at (hash 10)).

Definition run (updates : list CovenantSelectedChainUpdate) : result CovenantLineageState :=
  state ← launch; fold_result (applyCovenantSelectedChainUpdate toy_sha256) updates state.

(** Both transactions are accepted, reorganized away and accepted again; then the block of the
    second is replaced again and again. *)
Definition reorganizations (count : nat) : list CovenantSelectedChainUpdate :=
  [update 11 [] [X 11]; update 12 [] [Y 12]; update 13 [12; 11] [X 13]; update 14 [] [Y 14]] ++
  map (fun i => let n := 15 + Z.of_nat i in update n [n - 1] [Y n]) (seq 0 count).

(** The journal those updates leave behind: [2 * count + 6] events. *)
Definition reorganized_journal (count : nat) : list CovenantLineageEvent :=
  renumber ([EventAccepted 0 (X 11); EventAccepted 0 (Y 12); EventRemoved 0 (hash 12) [hash 102];
             EventRemoved 0 (hash 11) [hash 101]; EventAccepted 0 (X 13); EventAccepted 0 (Y 14)] ++
    List.concat (map (fun i => let n := 15 + Z.of_nat i in
      [EventRemoved 0 (hash (n - 1)) [hash 102]; EventAccepted 0 (Y n)]) (seq 0 count))).

Definition launched : CovenantLineageState :=
  match launch with
  | Ok state => state
  | Throw _ => LineageState (manifest_at (hash 10)) (Anchor 0 None None None "" "" "" "" "") [] None (cp 10) "unknown" None
  end.

Definition reorganized (count : nat) : CovenantLineageState :=
  launched <| journal := reorganized_journal count |>
    <| currentHead := Some (Head (Outpoint (hash 102) 0) "51ac" "800" "200") |>
    <| checkpoint := cp (14 + Z.of_nat count) |>.

(** One claim, then a second claim whose block is replaced [count] times. *)
Definition flipped_journal (count : nat) : list CovenantLineageEvent :=
  renumber ([EventAccepted 0 (X 11); EventAccepted 0 (Y 12)] ++
    List.concat (map (fun i => let n := 13 + Z.of_nat i in
      [EventRemoved 0 (hash (n - 1)) [hash 102]; EventAccepted 0 (Y n)]) (seq 0 count))).
Definition head_Y : CovenantLineageHead := Head (Outpoint (hash 102) 0) "51ac" "800" "200".
Definition flipped (count : nat) : CovenantLineageState :=
  launched <| journal := flipped_journal count |> <| currentHead := Some head_Y |>
    <| checkpoint := cp (12 + Z.of_nat count) |>.

End Sample.

Import Sample.

(** C29.  Compaction moves its cutoff back only for removals among the last 64 events, not
    for removals that the moved cutoff newly retains.  In this valid state a legitimate update
    (one removed block, its transaction accepted again) therefore compacts the first acceptance
    of a transaction that a retained event removes, and fails: without compaction the same
    journal derives a head. *)
Theorem compaction_strands_valid_lineage :
  let state := reorganized 30 in
  let journal' := journal state ++ [EventRemoved 66 (hash 44) [hash 102]; EventAccepted 67 (Y 45)] in
  assertLineageState toy_sha256 state = Ok tt /\
  derived_head (state <| journal := journal' |>) = Ok (Some head_Y) /\
  applyCovenantSelectedChainUpdate toy_sha256 state (update 45 [44] [Y 45]) =
    Throw (Error "covenant lineage is missing a unique predecessor") /\
  ~ closed_at (compaction_cutoff journal') journal'.
Proof.
  cbv zeta. split; [vm_compute; reflexivity|]. split; [vm_compute; reflexivity|]. split; [vm_compute; reflexivity|].
  intros H. set (l := journal _ ++ _) in H.
  destruct (is_ok_value (canonicalAcceptedEvents (take (compaction_cutoff l) l))) as [events He]; [vm_compute; reflexivity|].
  assert (match canonicalAcceptedEvents (take (compaction_cutoff l) l) with
          | Ok events => bool_decide (Forall (spares (map lower_id events)) (drop (compaction_cutoff l) l))
          | Throw _ => true
          end = false) as Hf by (vm_compute; reflexivity).
  rewrite He in Hf. exact (bool_decide_eq_false_1 _ Hf (H events He)).
Qed.

(** ** Instances of the theorems *)

Lemma derived_value_conserved_witness :
  exists v c v' c', amount "1000" v /\ amount "0" c /\ amount "800" v' /\ amount "200" c' /\ v' + c' = v + c + 0.
Proof.
  assert (canonicalAcceptedEvents (journal (reorganized 1)) = Ok [X 13; Y 15]) as He by (vm_compute; reflexivity).
  assert (deriveCanonicalLineage (reorganized 1) = Ok (reorganized 1)) as Hd by (vm_compute; reflexivity).
  destruct (derived_value_conserved _ _ _ (manifest_head (manifest (reorganized 1))) head_Y Hd He
    ltac:(discriminate) ltac:(vm_compute; reflexivity) ltac:(reflexivity))
    as (v & c & v' & c' & Hv & Hc & Hv' & Hc' & E & _).
  exists v, c, v', c'. split_and!; [exact Hv|exact Hc|exact Hv'|exact Hc'|].
  replace (deposits v [X 13; Y 15]) with 0 in E; [exact E|]. cbn. reflexivity.
Defined.

Lemma reorg_restores_head_witness :
  let state := launched <| journal := [EventAccepted 0 (X 11)] |> in
  currentHead <$> deriveCanonicalLineage
    (state <| journal := journal state ++ accept_block [(1, Y 12)] ++ [EventRemoved 2 (hash 12) [hash 102]] |>) =
  currentHead <$> deriveCanonicalLineage state.
Proof.
  cbv zeta. refine (proj2 (reorg_restores_head _ [X 11] [(1, Y 12)] (hash 12) 2 _ _ _ _ eq_refl)).
  - vm_compute. reflexivity.
  - apply NoDup_singleton.
  - intros t ->%list_elem_of_singleton. split; [|split]; [|reflexivity|vm_compute; discriminate].
    intros E%list_elem_of_singleton. vm_compute in E. discriminate E.
Defined.

(** A claim of a transaction that no earlier block undoes, on a journal of eight events: none is
    compacted, all eight are kept, and their texts fit the canonical encoder. *)
Lemma update_is_extension_witness :
  exists next, applyCovenantSelectedChainUpdate toy_sha256 (reorganized 1) (update 16 [15] [Y 16]) = Ok next /\
    take 8 (journal next) = journal (reorganized 1) /\
    assertCovenantLineageExtension toy_sha256 (reorganized 1) next = Ok tt.
Proof.
  destruct (is_ok_value (applyCovenantSelectedChainUpdate toy_sha256 (reorganized 1) (update 16 [15] [Y 16])))
    as [next Hn]; [vm_compute; reflexivity|]. exists next. split; [exact Hn|].
  assert (match applyCovenantSelectedChainUpdate toy_sha256 (reorganized 1) (update 16 [15] [Y 16]) with
          | Ok next => (compactedEvents (anchor next) =? 0) && is_ok (writes_texts 8 next)
          | Throw _ => false
          end = true) as H by (vm_compute; reflexivity).
  rewrite Hn in H. apply andb_true_iff in H as [H1%Z.eqb_eq [[] H2]%is_ok_value].
  destruct (update_is_extension toy_sha256 _ _ _ Hn) as (k & _ & _ & Hk & Hret & _ & ->).
  assert (compactedEvents (anchor (reorganized 1)) = 0) as H0 by (vm_compute; reflexivity).
  assert (k = 0%nat) as -> by lia. split; [|exact H2].
  replace 8%nat with (length (journal (reorganized 1)) - 0)%nat by reflexivity. rewrite Hret. vm_compute. reflexivity.
Defined.

Lemma created_state_valid_iff_lowercase_witness :
  exists state, createCovenantLineageState toy_sha256 (manifest_at (hash 171)) = Ok state /\
  exists upper, createCovenantLineageState toy_sha256 (manifest_at (String.concat "" (repeat "AB" 32))) = Ok upper /\
    assertLineageState toy_sha256 state = Ok tt /\ assertLineageState toy_sha256 upper <> Ok tt.
Proof.
  destruct (is_ok_value (createCovenantLineageState toy_sha256 (manifest_at (hash 171)))) as [state Hs]; [vm_compute; reflexivity|].
  destruct (is_ok_value (createCovenantLineageState toy_sha256 (manifest_at (String.concat "" (repeat "AB" 32))))) as [upper Hu];
    [vm_compute; reflexivity|].
  exists state. split; [exact Hs|]. exists upper. split; [exact Hu|]. split.
  - apply (proj1 (created_state_valid_iff_lowercase toy_sha256 _ _ Hs)). vm_compute. reflexivity.
  - intros H. apply (proj1 (created_state_valid_iff_lowercase toy_sha256 _ _ Hu)) in H. vm_compute in H. discriminate H.
Defined.

(** Three updates, the last of which replaces a block. *)
Definition after (updates : nat) : CovenantLineageState :=
  match run (take updates [update 11 [] [X 11]; update 12 [] [Y 12]; update 13 [12] [Y 13]]) with
  | Ok state => state
  | Throw _ => launched
  end.

Lemma genesis_blocks_kept cur upd :
  forallb (fun h => negb (toLowerCase (acceptingBlockHash (acceptance (genesis (manifest cur)))) === toLowerCase h))
    (removedChainBlockHashes upd) = true ->
  forall h, h ∈ removedChainBlockHashes upd ->
    ~ same_hex (acceptingBlockHash (acceptance (genesis (manifest cur)))) h.
Proof. rewrite forallb_elem. intros H h Hh. specialize (H h Hh). by apply negb_true_iff, bool_decide_eq_false in H. Qed.

Lemma reachable_states_valid_witness :
  currentHead (after 3) = Some head_Y /\ length (journal (after 3)) = 4%nat /\
  assertLineageState toy_sha256 (after 3) = Ok tt /\
  canonicalGenesisAcceptance (after 3) = Some (acceptance (genesis (manifest (after 3)))).
Proof.
  split; [vm_compute; reflexivity|]. split; [vm_compute; reflexivity|].
  apply (reachable_states_valid toy_sha256 3); [|unfold MAX_SAFE_INTEGER; lia].
  apply (reachable_updated _ 2 (after 2) (update 13 [12] [Y 13]));
    [|vm_compute; reflexivity|vm_compute; reflexivity|apply genesis_blocks_kept; vm_compute; reflexivity].
  apply (reachable_updated _ 1 (after 1) (update 12 [] [Y 12]));
    [|vm_compute; reflexivity|vm_compute; reflexivity|apply genesis_blocks_kept; vm_compute; reflexivity].
  apply (reachable_updated _ 0 (after 0) (update 11 [] [X 11]));
    [|vm_compute; reflexivity|vm_compute; reflexivity|apply genesis_blocks_kept; vm_compute; reflexivity].
  apply (reachable_created _ (manifest_at (hash 10))); vm_compute; reflexivity.
Defined.

(** An accepted update can leave an event that the extension check cannot write: the update
    of a claim whose successor has a script of 20,480 characters passes every check of the
    update, which bounds its bytes only, but the canonical encoder of the extension check
    refuses strings of more than 16,384 characters.  The first update is still an extension,
    since the event is new; every later one keeps the event and is refused. *)
Definition long_script : string := String.concat "" (repeat "51" 10240).
Definition long_claim : CovenantLineageTransition :=
  let t := X 11 in
  {| kind := kind t; covenantId := covenant; transition_templateId := transition_templateId t;
     consumedOutpoint := consumedOutpoint t; transactionId := transactionId t; authorizedSuccessorCount := 1;
     successor := Some (Successor (Head (Outpoint (hash 101) 0) long_script "900" "100") covenant 0);
     terminalOutput := None; transition_acceptance := transition_acceptance t |}.
Definition update_of (state : result CovenantLineageState) (upd : CovenantSelectedChainUpdate) : result CovenantLineageState :=
  state ← state; applyCovenantSelectedChainUpdate toy_sha256 state upd.
Definition extension_of (previous next : result CovenantLineageState) : result () :=
  previous ← previous; next ← next; assertCovenantLineageExtension toy_sha256 previous next.

Example long_script_strands_lineage :
  let first := update_of launch (update 11 [] [long_claim]) in
  let second := update_of first (update 12 [] []) in
  (state ← second; assertLineageState toy_sha256 state) = Ok tt /\ extension_of launch first = Ok tt /\
  match extension_of first second with Throw _ => True | Ok _ => False end.
Proof. cbv zeta. split; [vm_compute; reflexivity|]. split; [vm_compute; reflexivity|]. vm_compute. exact I. Qed.

Lemma flipped_kept : genesis_kept (flipped 32).
Proof.
  exists (evidence 100 10). split; [vm_compute; reflexivity|].
  assert (forallb (fun e => match e with
    | EventAccepted _ _ => true | EventGenesisAccepted _ _ => false
    | EventRemoved _ h _ => negb (bool_decide (toLowerCase (acceptingBlockHash (evidence 100 10)) = toLowerCase h)) end)
    (journal (flipped 32)) = true) as H by (vm_compute; reflexivity).
  apply Forall_forall. intros e He. rewrite forallb_elem in H. specialize (H e He).
  destruct e; cbn in *; [done..|]. by apply negb_true_iff, bool_decide_eq_false in H.
Qed.

Lemma compaction_preserves_head_witness :
  exists state', compactLineage toy_sha256 (flipped 32) = Ok state' /\ derived_head state' = Ok (Some head_Y).
Proof.
  destruct (is_ok_value (compactLineage toy_sha256 (flipped 32))) as [state' Hc]; [vm_compute; reflexivity|].
  exists state'. split; [exact Hc|].
  refine (proj1 (compaction_preserves_head toy_sha256 _ _ _ Hc flipped_kept _ _)).
  - vm_compute. reflexivity.
  - intros events He.
    assert (match canonicalAcceptedEvents (take (compaction_cutoff (journal (flipped 32))) (journal (flipped 32))) with
            | Ok events => bool_decide (Forall (spares (map lower_id events))
                (drop (compaction_cutoff (journal (flipped 32))) (journal (flipped 32)))) | Throw _ => false end = true)
      as H by (vm_compute; reflexivity).
    rewrite He in H. exact (bool_decide_eq_true_1 _ H).
Defined.

Lemma compaction_remembers_blocks_witness :
  exists state', compactLineage toy_sha256 (flipped 32) = Ok state' /\
    ((exists n, EventAccepted n (X 11) ∈ journal state') \/
     bloomContains toy_sha256 (relevantBlocksBloom (anchor state')) (hash 11) = true).
Proof.
  destruct (is_ok_value (compactLineage toy_sha256 (flipped 32))) as [state' Hc]; [vm_compute; reflexivity|].
  exists state'. split; [exact Hc|].
  refine (proj2 (proj2 (compaction_remembers_blocks toy_sha256 _ _ Hc _)) 0 (X 11) _).
  - vm_compute. reflexivity.
  - apply list_elem_of_lookup. exists 0%nat. vm_compute. reflexivity.
Defined.
