(* ===== verification/Template.v ===== *)
(** * Covenant and KIP-10 script templates

    Models [protocol/packages/covenant/src/template.ts] with its generated constants
    ([generated/escrow-v5-template.ts]): the escrow redeem script patched from the compiled
    base, the additive KIP-10 head script and its parser, script public keys, the arguments of
    the covenant entry points, the voucher preimage and the compute budget.  [node:crypto]'s
    SHA-256 and blakejs's BLAKE2b are parameters. *)

From S2P Require Import Prelude Amount Json Binary.

(** ** Bytes and integers *)

Definition SCRIPT_INT64_MAX : Z := 9223372036854775807.
Definition KASPA_LOCK_TIME_THRESHOLD : Z := 500000000000.
Definition SCRIPT_UNITS_PER_COMPUTE_BUDGET : Z := 10000.
Definition FREE_SCRIPT_UNITS_PER_INPUT : Z := 9999.
Definition KIP10_ADDITIVE_TEMPLATE_ID : string := "kaspa-x402-kip10-additive-v1".
Definition KIP10_EXACT_TRANSACTION_ENCODING : string := "kaspa-sdk-safe-json-v2.0.0".
Definition ESCROW_VOUCHER_DOMAIN_TAG : string :=
  "cb645ce99ebb74afb1f1e3a73e0462249ee42cd9edfcd55723e7291af0292570".

(** [Uint8Array.of] *)
Definition bytes_of (l : list Z) : bytes := map byte_of l.

Definition hexToBytes (hex : string) (expectedLength : option Z) (label : string) : result bytes :=
  _ ← throw_if (negb (HEX_BYTE_PATTERN hex)) (label +:+ " must be an even-length hex byte string");
  _ ← throw_if (match expectedLength with Some n => js_length hex !== n * 2 | None => false end)
        (label +:+ " must be " +:+ toString (default 0 expectedLength) +:+ " bytes");
  Ok (hex_decode hex).

(** [string | Uint8Array] *)
Inductive hex_or_bytes :=
  | Hex (s : string)
  | Raw (b : bytes).
Definition bytesFromHexOrBytes (value : hex_or_bytes) (expectedLength : Z) (label : string) : result bytes :=
  b ← match value with Hex s => hexToBytes s (Some expectedLength) label | Raw b => Ok b end;
  _ ← throw_if (Z.of_nat (length b) !== expectedLength)
        (label +:+ " must be " +:+ toString expectedLength +:+ " bytes");
  Ok b.

Definition numberToUint64 (value : Z) (label : string) : result Z :=
  _ ← throw_if (negb (isSafeInteger value) || (value <? 0))
        (label +:+ " must be a non-negative safe integer");
  Ok value.
Definition stringToUint64 (value : string) (label : string) : result Z :=
  _ ← throw_if (negb (match_pattern U64_DECIMAL_PATTERN value))
        (label +:+ " must be a canonical uint64 decimal string");
  Ok (dec_value value).
Definition normalizeUint64 (value : numeric) (label : string) : result Z :=
  normalized ← match value with
               | BigInt n => Ok n
               | Number n => numberToUint64 n label
               | Text s => stringToUint64 s label
               end;
  _ ← throw_if ((normalized <? 0) || (U64_MAX <? normalized)) (label +:+ " must fit in uint64");
  Ok normalized.
Definition normalizeScriptInt64 (value : numeric) (label : string) : result Z :=
  normalized ← normalizeUint64 value label;
  _ ← throw_if (SCRIPT_INT64_MAX <? normalized) (label +:+ " must fit in signed 64-bit script number");
  Ok normalized.

(** [Buffer.writeBigInt64LE] of a non-negative value *)
Definition int64Le (value : Z) : bytes := little_endian 8 value.

(** ** Script pushes *)

Definition pushData (data : bytes) : result bytes :=
  let n := Z.of_nat (length data) in
  if n <=? 75 then Ok (concatBytes [bytes_of [n]; data])
  else if n <=? 255 then Ok (concatBytes [bytes_of [76; n]; data])
  else if n <=? 65535 then
    Ok (concatBytes [bytes_of [77; Z.land n 255; Z.shiftr n 8]; data])
  else Throw (Error "pushdata payload is too large").

(** [while (cursor > 0n) { bytes.push(Number(cursor & 0xffn)); cursor >>= 8n; }]; a positive
    value below [2 ^ fuel] is exhausted within [fuel] rounds. *)
Fixpoint number_bytes (fuel : nat) (cursor : Z) : list Z :=
  match fuel with
  | O => []
  | S fuel =>
      if 0 <? cursor then Z.land cursor 255 :: number_bytes fuel (Z.shiftr cursor 8) else []
  end.
Definition pushScriptNumber (value : Z) : result bytes :=
  if value =? 0 then Ok (bytes_of [0])
  else if value <=? 16 then Ok (bytes_of [80 + value])
  else
    let ns := number_bytes (S (Z.to_nat (Z.log2 value))) value in
    let ns := if Z.testbit (List.last ns 0) 7 then ns ++ [0] else ns in
    pushData (bytes_of ns).

Definition readNonNegativeScriptNumber (b : list ascii) (offset : nat) : result (Z * nat) :=
  match b !! offset with
  | None => Throw (Error "redeemScript is missing the additive threshold")
  | Some c =>
      let opcode := code c in
      if opcode =? 0 then Ok (0, S offset)
      else if (81 <=? opcode) && (opcode <=? 96) then Ok (opcode - 80, S offset)
      else
        _ ← throw_if ((opcode <? 1) || (8 <? opcode) || (Z.of_nat (length b) <? Z.of_nat offset + 1 + opcode))
              "redeemScript has an invalid KIP-10 additive threshold";
        let width := Z.to_nat opcode in
        let numberBytes := take width (drop (S offset) b) in
        _ ← throw_if (Z.testbit (default 0 (code <$> last numberBytes)) 7)
              "redeemScript KIP-10 additive threshold must be non-negative";
        let value := foldr (fun c value => Z.lor (Z.shiftl value 8) (code c)) 0 numberBytes in
        _ ← throw_if (SCRIPT_INT64_MAX <? value)
              "redeemScript KIP-10 additive threshold must fit in signed 64-bit script number";
        Ok (value, (S offset + width)%nat)
  end.

(** ** The additive KIP-10 template *)

Record Kip10AdditiveTemplateParams := {
  k_ownerPublicKey : string;
  k_amount : numeric
}.
Record ParsedKip10AdditiveRedeemScript := {
  ownerPublicKey : string;
  p_amount : string
}.

Definition buildKip10AdditiveRedeemScript (params : Kip10AdditiveTemplateParams) : result string :=
  owner ← hexToBytes (k_ownerPublicKey params) (Some 32) "ownerPublicKey";
  amount ← normalizeScriptInt64 (k_amount params) "amount";
  pushedOwner ← pushData owner;
  pushedAmount ← pushScriptNumber amount;
  Ok (bytesToHex (concatBytes
    [bytes_of [99]; pushedOwner; bytes_of [172; 103; 185; 191; 185; 195; 136; 185; 194];
     pushedAmount; bytes_of [148; 185; 190; 162; 104]])).

Definition parseKip10AdditiveRedeemScript (redeemScript : string) : result ParsedKip10AdditiveRedeemScript :=
  bytes ← hexToBytes redeemScript None "redeemScript";
  let fixedPrefix := bytes_of [99; 32] in
  let opcodes := bytes_of [172; 103; 185; 191; 185; 195; 136; 185; 194] in
  let suffix := bytes_of [148; 185; 190; 162; 104] in
  let minimumLength := (length fixedPrefix + 32 + length opcodes + 1 + length suffix)%nat in
  _ ← throw_if ((Z.of_nat (length bytes) <? Z.of_nat minimumLength)
                || (bytes !! 0%nat !== fixedPrefix !! 0%nat) || (bytes !! 1%nat !== fixedPrefix !! 1%nat))
        "redeemScript is not the canonical KIP-10 additive template";
  let owner := take 32 (drop 2 bytes) in
  _ ← throw_if (negb (take 9 (drop 34 bytes) === opcodes))
        "redeemScript is not the canonical KIP-10 additive template";
  '(amount, nextOffset) ← readNonNegativeScriptNumber bytes 43;
  _ ← throw_if (negb (drop nextOffset bytes === suffix))
        "redeemScript is not the canonical KIP-10 additive template";
  let parsed := {| ownerPublicKey := bytesToHex owner; p_amount := toString amount |} in
  rebuilt ← buildKip10AdditiveRedeemScript
              {| k_ownerPublicKey := ownerPublicKey parsed; k_amount := Text (p_amount parsed) |};
  _ ← throw_if (rebuilt !== bytesToHex bytes)
        "redeemScript must use canonical KIP-10 script-number encoding";
  Ok parsed.

Definition buildKip10AdditiveBorrowArgs : string := "00".
Definition buildKip10AdditiveBorrowSignatureScript (redeemScript : string) : result string :=
  canonical ← parseKip10AdditiveRedeemScript redeemScript;
  rebuilt ← buildKip10AdditiveRedeemScript
              {| k_ownerPublicKey := ownerPublicKey canonical; k_amount := Text (p_amount canonical) |};
  script ← hexToBytes rebuilt None "redeemScript";
  pushed ← pushData script;
  Ok (bytesToHex (concatBytes [bytes_of [0]; pushed])).

(** ** The escrow template *)

Definition ESCROW_V5_COMPILED_BASE : string :=
  "6b0800000000000000006c760423959b4287637554798201419d7553798201409d75527982589d757882589d75b9cbb9cf76d27653799c695379765979597959795979b2519c69b5009c69b3519c69b4529c69b9009c69b9bd080000000000000000876953792022222222222222222222222222222222222222222222222222222222222222bbac69b9cf76d0519c6976d2519c69b9cb519c69b900cc519c6900d5200000000000000000000000000000000000000000000000000000000000000000876951d578876920cb645ce99ebb74afb1f1e3a73e0462249ee42cd9edfcd55723e7291af0292570203b06c42cd879a4951fe465f255164917ac183fabd3facb8dc33705b7bbd649367e787e53797e547978a82011111111111111111111111111111111111111111111111111111111111111aad76953795379587900a269785979a0697600a069785979947878a169b9be5279789f6900c200a06900c25379a16900c3a820b99ac42fd048ced7f710abe60dfcf6c7dfcd0772cfba99716574c9d47bf6962f876951c2785479949c695a795379935f79519c69b900cc0108527958cd7eb976c902180494765193bc7c7eb976c976020e84937cbc7eaa02000001aa7e01207e7c7e01877e78c3887575757575757575757575757575757575757575757551677604ae09679c87637552798201419d75788201419d75b9cbb9cf76d27653799c6953797657795779b2519c69b5009c69b351a069b400a069b452a169b9009c69b9bd0800000000000000008769782011111111111111111111111111111111111111111111111111111111111111aaac69762022222222222222222222222222222222222222222222222222222222222222bbac69b9cf76d0519c6976d2519c69b9cb519c69b900cc009c6900d5788769537900a26900c2b9bea069b4529c6351d5200000000000000000000000000000000000000000000000000000000000000000876951c200a06951c3a8208a77bf0e98c7ed79147a8f0302b0da331b6d3db5a6543e97da53ad6e6cc5f6c287696853795879519c69b900cc0108527958cd7eb976c902180494765193bc7c7eb976c976020e84937cbc7eaa02000001aa7e01207e7c7e01877e78c388757575757575757575757575755167760417a2027b876375788201419d75b2519c69b3519c69b4519c69b9009c69b9bd08000000000000000087690840e20100000000007600050088526a74a569b0782011111111111111111111111111111111111111111111111111111111111111aaac69b9cf76d0519c6976d2009c69b9cb009c6900d5200000000000000000000000000000000000000000000000000000000000000000876900c200a06900c2b9bea16900c3a8208a77bf0e98c7ed79147a8f0302b0da331b6d3db5a6543e97da53ad6e6cc5f6c2876975757551676a686868".

Record ConstructorSlot := {
  offsets : list nat;
  slot_bytes : nat
}.
Record ConstructorSlots := {
  s_claimedCumulativeAmount : ConstructorSlot;
  s_serverPublicKey : ConstructorSlot;
  s_networkHash : ConstructorSlot;
  s_clientPublicKey : ConstructorSlot;
  s_payoutScriptPublicKeyHash : ConstructorSlot;
  s_refundScriptPublicKeyHash : ConstructorSlot;
  s_timeoutDaa : ConstructorSlot
}.
Definition ESCROW_V5_CONSTRUCTOR_SLOTS : ConstructorSlots := {|
  s_claimedCumulativeAmount := {| offsets := [2]%nat; slot_bytes := 8 |};
  s_serverPublicKey := {| offsets := [103; 604]%nat; slot_bytes := 32 |};
  s_networkHash := {| offsets := [236]%nat; slot_bytes := 32 |};
  s_clientPublicKey := {| offsets := [279; 568; 902]%nat; slot_bytes := 32 |};
  s_payoutScriptPublicKeyHash := {| offsets := [361]%nat; slot_bytes := 32 |};
  s_refundScriptPublicKeyHash := {| offsets := [727; 1005]%nat; slot_bytes := 32 |};
  s_timeoutDaa := {| offsets := [881]%nat; slot_bytes := 8 |}
|}.
Record Selectors := { sel_claim : string; sel_topUp : string; sel_refund : string }.
Definition ESCROW_V5_SELECTORS : Selectors :=
  {| sel_claim := "23959b42"; sel_topUp := "ae09679c"; sel_refund := "17a2027b" |}.

(** [script.set(value, offset)], in bounds *)
Definition set_bytes (offset : nat) (value script : bytes) : bytes :=
  take offset script ++ value ++ drop (offset + length value) script.
Definition patchConstructorSlot (slot : ConstructorSlot) (value script : bytes) : result bytes :=
  _ ← throw_if (negb (length value =? slot_bytes slot)%nat) "constructor slot value has the wrong width";
  fold_result (fun script offset =>
    _ ← throw_if (negb (offset + slot_bytes slot <=? length script)%nat)
          "constructor slot is outside the compiled template";
    Ok (set_bytes offset value script)) (offsets slot) script.

Record ScriptPublicKey := { spk_version : Z; spk_script : string }.

Definition serializedScriptPublicKey (scriptPublicKey : ScriptPublicKey) : result string :=
  let version := spk_version scriptPublicKey in
  _ ← throw_if ((version <? 0) || (65535 <? version)) "script public key version must fit in uint16";
  script ← hexToBytes (spk_script scriptPublicKey) None "script";
  Ok (bytesToHex (concatBytes [bytes_of [Z.land (Z.shiftr version 8) 255; Z.land version 255]; script])).

Record EscrowTemplateParams := {
  et_clientPublicKey : string;
  et_serverPublicKey : string;
  et_network : string;
  payoutScriptPublicKeyHash : string;
  refundScriptPublicKeyHash : string;
  timeoutDaa : numeric;
  et_claimedCumulativeAmount : numeric
}.

Record ClaimArgsInput := {
  serverSignature : hex_or_bytes;
  voucherSignature : hex_or_bytes;
  ca_authorizedCumulativeAmount : numeric;
  ca_claimAmount : numeric
}.
Definition buildClaimArgs (input : ClaimArgsInput) : result string :=
  server ← bytesFromHexOrBytes (serverSignature input) 65 "serverSignature";
  voucher ← bytesFromHexOrBytes (voucherSignature input) 64 "voucherSignature";
  authorized ← normalizeScriptInt64 (ca_authorizedCumulativeAmount input) "authorizedCumulativeAmount";
  claim ← normalizeScriptInt64 (ca_claimAmount input) "claimAmount";
  _ ← throw_if (authorized =? 0) "authorizedCumulativeAmount must be positive";
  _ ← throw_if (claim =? 0) "claimAmount must be positive";
  p1 ← pushData server;
  p2 ← pushData voucher;
  p3 ← pushData (int64Le authorized);
  p4 ← pushData (int64Le claim);
  selector ← hexToBytes (sel_claim ESCROW_V5_SELECTORS) (Some 4) "claim selector";
  p5 ← pushData selector;
  Ok (bytesToHex (concatBytes [p1; p2; p3; p4; p5])).

Record TopUpArgsInput := {
  tu_clientSignature : hex_or_bytes;
  providerSignature : hex_or_bytes
}.
Definition buildTopUpArgs (input : TopUpArgsInput) : result string :=
  client ← bytesFromHexOrBytes (tu_clientSignature input) 65 "clientSignature";
  provider ← bytesFromHexOrBytes (providerSignature input) 65 "providerSignature";
  p1 ← pushData client;
  p2 ← pushData provider;
  selector ← hexToBytes (sel_topUp ESCROW_V5_SELECTORS) (Some 4) "top-up selector";
  p3 ← pushData selector;
  Ok (bytesToHex (concatBytes [p1; p2; p3])).

Definition buildRefundArgs (clientSignature : hex_or_bytes) : result string :=
  client ← bytesFromHexOrBytes clientSignature 65 "clientSignature";
  p1 ← pushData client;
  selector ← hexToBytes (sel_refund ESCROW_V5_SELECTORS) (Some 4) "refund selector";
  p2 ← pushData selector;
  Ok (bytesToHex (concatBytes [p1; p2])).

(** ** Compute budget *)

(** [Math.ceil] of the quotient; quotients of at most 65536, the only ones that matter, are
    far inside the exact range of a double. *)
Definition computeBudgetForScriptUnits (scriptUnits : Z) : result Z :=
  _ ← throw_if (negb (isSafeInteger scriptUnits) || (scriptUnits <? 0))
        "script units must be a non-negative safe integer";
  if scriptUnits <=? FREE_SCRIPT_UNITS_PER_INPUT then Ok 0
  else
    let budget := - ((- (scriptUnits - FREE_SCRIPT_UNITS_PER_INPUT)) / SCRIPT_UNITS_PER_COMPUTE_BUDGET) in
    _ ← throw_if (65535 <? budget) "script units exceed the transaction-v1 compute budget range";
    Ok budget.
Definition scriptUnitAllowance (computeBudget : Z) : result Z :=
  _ ← throw_if ((computeBudget <? 0) || (65535 <? computeBudget)) "compute budget must fit in uint16";
  Ok (computeBudget * SCRIPT_UNITS_PER_COMPUTE_BUDGET + FREE_SCRIPT_UNITS_PER_INPUT).

Section Hashes.
Context (sha256 blake2b : bytes -> bytes).

Definition networkHash (network : string) : result bytes :=
  _ ← throw_if ((network !== "kaspa:mainnet") && (network !== "kaspa:testnet-10"))
        "network must be kaspa:mainnet or kaspa:testnet-10";
  Ok (sha256 (utf8Bytes network)).

Definition buildEscrowRedeemScript (params : EscrowTemplateParams) : result string :=
  client ← hexToBytes (et_clientPublicKey params) (Some 32) "clientPublicKey";
  server ← hexToBytes (et_serverPublicKey params) (Some 32) "serverPublicKey";
  payout ← hexToBytes (payoutScriptPublicKeyHash params) (Some 32) "payoutScriptPublicKeyHash";
  refund ← hexToBytes (refundScriptPublicKeyHash params) (Some 32) "refundScriptPublicKeyHash";
  timeout ← normalizeScriptInt64 (timeoutDaa params) "timeoutDaa";
  claimed ← normalizeScriptInt64 (et_claimedCumulativeAmount params) "claimedCumulativeAmount";
  _ ← throw_if (KASPA_LOCK_TIME_THRESHOLD <=? timeout)
        "timeoutDaa must remain below the consensus timestamp boundary";
  network ← networkHash (et_network params);
  script ← hexToBytes ESCROW_V5_COMPILED_BASE None "ESCROW_V5_COMPILED_BASE";
  let slots := ESCROW_V5_CONSTRUCTOR_SLOTS in
  script ← patchConstructorSlot (s_claimedCumulativeAmount slots) (int64Le claimed) script;
  script ← patchConstructorSlot (s_serverPublicKey slots) server script;
  script ← patchConstructorSlot (s_networkHash slots) network script;
  script ← patchConstructorSlot (s_clientPublicKey slots) client script;
  script ← patchConstructorSlot (s_payoutScriptPublicKeyHash slots) payout script;
  script ← patchConstructorSlot (s_refundScriptPublicKeyHash slots) refund script;
  script ← patchConstructorSlot (s_timeoutDaa slots) (int64Le timeout) script;
  Ok (bytesToHex script).

(** [payToScriptHashScript] of hexadecimal text *)
Definition payToScriptHashScript (redeemScript : string) : result ScriptPublicKey :=
  redeem ← hexToBytes redeemScript None "redeemScript";
  let scriptHash := blake2b redeem in
  Ok {| spk_version := 0;
        spk_script := bytesToHex (concatBytes [bytes_of [170; 32]; scriptHash; bytes_of [135]]) |}.

Definition kip10AdditiveScriptPublicKey (params : Kip10AdditiveTemplateParams) : result ScriptPublicKey :=
  script ← buildKip10AdditiveRedeemScript params; payToScriptHashScript script.
Definition escrowScriptPublicKey (params : EscrowTemplateParams) : result ScriptPublicKey :=
  script ← buildEscrowRedeemScript params; payToScriptHashScript script.

Definition escrowScriptPubKeyHash (spk : EscrowTemplateParams + ScriptPublicKey) : result string :=
  spk ← match spk with inl params => escrowScriptPublicKey params | inr spk => Ok spk end;
  serialized ← serializedScriptPublicKey spk;
  b ← hexToBytes serialized None "serializedScriptPublicKey";
  Ok (bytesToHex (sha256 b)).

(** [encodeAddress] is the caller's address encoder. *)
Definition deriveEscrowAddress (encodeAddress : string -> ScriptPublicKey -> string -> result string)
    (params : EscrowTemplateParams) : result string :=
  scriptPublicKey ← escrowScriptPublicKey params;
  serialized ← serializedScriptPublicKey scriptPublicKey;
  address ← encodeAddress (et_network params) scriptPublicKey serialized;
  _ ← throw_if (address === "") "address encoder must return a non-empty address string";
  Ok address.

Record VoucherPreimageInput := {
  vp_network : string;
  vp_covenantId : string;
  vp_authorizedCumulativeAmount : numeric
}.
Definition voucherPreimage (input : VoucherPreimageInput) : result string :=
  authorized ← normalizeScriptInt64 (vp_authorizedCumulativeAmount input) "authorizedCumulativeAmount";
  _ ← throw_if (authorized =? 0) "authorizedCumulativeAmount must be positive";
  covenantId ← hexToBytes (vp_covenantId input) (Some 32) "covenantId";
  _ ← throw_if (forallb (fun byte => code byte =? 0) covenantId)
        "covenantId must identify a bound KIP-20 lineage";
  tag ← hexToBytes ESCROW_VOUCHER_DOMAIN_TAG (Some 32) "domainTag";
  network ← networkHash (vp_network input);
  Ok (bytesToHex (concatBytes [tag; network; covenantId; int64Le authorized])).
Definition voucherDigest (input : VoucherPreimageInput) : result string :=
  preimage ← voucherPreimage input;
  b ← hexToBytes preimage None "voucherPreimage";
  Ok (bytesToHex (sha256 b)).
End Hashes.

(** * Lemmas *)

(** ** Script numbers *)

Definition script_number (l : list Z) : Z := foldr (fun c value => Z.lor (Z.shiftl value 8) c) 0 l.

Lemma lor_shift v c : 0 <= c < 256 -> Z.lor (Z.shiftl v 8) c = v * 256 + c.
Proof.
  intros Hc. rewrite Z.shiftl_mul_pow2 by lia.
  assert (Z.land (v * 2 ^ 8) c = 0) as E.
  { apply Z.bits_inj'; intros n Hn. rewrite Z.land_spec, Z.bits_0.
    destruct (Z.ltb_spec n 8); [by rewrite Z.mul_pow2_bits_low|].
    rewrite <- (Z.mod_small c (2 ^ 8)), Z.mod_pow2_bits_high, andb_false_r; [done|lia|done]. }
  by rewrite <- Z.lxor_lor, <- Z.add_nocarry_lxor.
Qed.

Lemma script_number_app l x :
  Forall (fun c => 0 <= c < 256) (l ++ [x]) ->
  script_number (l ++ [x]) = script_number l + x * 256 ^ Z.of_nat (length l).
Proof.
  unfold script_number. induction l as [|c l IH]; cbn [app foldr length].
  - intros Hx. apply Forall_inv in Hx. cbn beta in *. rewrite lor_shift by lia. cbn [Z.of_nat]. rewrite Z.pow_0_r. lia.
  - intros [? ?]%Forall_cons. cbn beta in *. rewrite IH by done. rewrite Nat2Z.inj_succ, Z.pow_succ_r by lia.
    rewrite !lor_shift by lia. lia.
Qed.

Lemma script_number_nonneg l : Forall (fun c => 0 <= c < 256) l -> 0 <= script_number l.
Proof.
  unfold script_number. induction 1 as [|c l Hc _ IH]; cbn [foldr]; [lia|]. rewrite lor_shift by lia. lia.
Qed.

Lemma number_bytes_spec fuel v :
  0 <= v < 2 ^ Z.of_nat fuel ->
  Forall (fun c => 0 <= c < 256) (number_bytes fuel v) /\ script_number (number_bytes fuel v) = v /\
  forall n : nat, v < 256 ^ Z.of_nat n -> (length (number_bytes fuel v) <= n)%nat.
Proof.
  revert v. induction fuel as [|fuel IH]; intros v Hv; cbn [number_bytes].
  { cbn in Hv. repeat split; [done|unfold script_number; cbn; lia|cbn; lia]. }
  destruct (Z.ltb_spec 0 v); [|unfold script_number; cbn; repeat split; [constructor|lia|intros; lia]].
  rewrite Nat2Z.inj_succ, Z.pow_succ_r in Hv by lia.
  assert (Z.shiftr v 8 = v / 256) as Hs by (by rewrite Z.shiftr_div_pow2).
  assert (Z.land v 255 = v mod 256) as Hl by (change 255 with (Z.ones 8); by rewrite Z.land_ones).
  pose proof (Z.mod_pos_bound v 256). pose proof (Z.div_mod v 256). rewrite Hs, Hl.
  destruct (IH (v / 256)) as (Hb & Hd & Hn); [lia|]. repeat split.
  - constructor; [lia|done].
  - unfold script_number in *. cbn [foldr]. rewrite Hd, lor_shift; lia.
  - intros [|n] Hlt; cbn [length]; [cbn in Hlt; lia|]. rewrite Nat2Z.inj_succ, Z.pow_succ_r in Hlt by lia.
    enough (length (number_bytes fuel (v / 256)) <= n)%nat by lia. apply Hn. apply Z.div_lt_upper_bound; lia.
Qed.

(** The payload of a pushed script number: at most eight bytes, sign bit clear. *)
Lemma script_payload v :
  16 < v <= SCRIPT_INT64_MAX ->
  exists ns, pushScriptNumber v = Ok (bytes_of (Z.of_nat (length ns) :: ns)) /\
    (1 <= length ns <= 8)%nat /\ Forall (fun c => 0 <= c < 256) ns /\ script_number ns = v /\
    Z.testbit (List.last ns 0) 7 = false.
Proof.
  intros Hv. unfold pushScriptNumber, SCRIPT_INT64_MAX in *. decide_guards.
  set (fuel := S (Z.to_nat (Z.log2 v))).
  assert (0 <= v < 2 ^ Z.of_nat fuel) as Hf.
  { pose proof (Z.log2_spec v). pose proof (Z.log2_nonneg v). unfold fuel. rewrite Nat2Z.inj_succ, Z2Nat.id; lia. }
  destruct (number_bytes_spec fuel v Hf) as (Hb & Hd & Hn). specialize (Hn 8%nat ltac:(cbn; lia)).
  destruct (exists_last (l := number_bytes fuel v)) as (l & x & E).
  { intros E. rewrite E in Hd. unfold script_number in Hd. cbn in Hd. lia. }
  rewrite E in *. rewrite last_last. pose proof (script_number_app l x Hb) as Ha.
  apply Forall_app in Hb as Hb'. destruct Hb' as [Hl ?%Forall_inv]. cbn beta in *.
  pose proof (script_number_nonneg l Hl). rewrite length_app in Hn. cbn [length] in Hn.
  assert (Z.testbit x 7 = (128 <=? x)) as Hx.
  { rewrite Z.testbit_eqb by lia. change (2 ^ 7) with 128.
    destruct (Z.leb_spec 128 x); [rewrite <- (Z.div_unique x 128 1 (x - 128)) by lia|rewrite Z.div_small by lia]; done. }
  assert (forall ns, (length ns <= 8)%nat ->
    pushData (bytes_of ns) = Ok (bytes_of (Z.of_nat (length ns) :: ns))) as Hp.
  { intros ns Hlen. unfold pushData, bytes_of. rewrite length_map. decide_guards.
    unfold concatBytes. cbn [List.concat map]. by rewrite app_nil_r. }
  rewrite Hx. destruct (Z.leb_spec 128 x) as [Hbig|Hsmall].
  - assert (length l <= 6)%nat.
    { destruct (decide (length l = 7)%nat) as [E7|]; [|lia]. rewrite E7 in Ha. change (256 ^ Z.of_nat 7) with 72057594037927936 in Ha. nia. }
    exists ((l ++ [x]) ++ [0]). rewrite Hp by (rewrite !length_app; cbn; lia). rewrite last_last.
    assert (Forall (fun c => 0 <= c < 256) ((l ++ [x]) ++ [0])) by (apply Forall_app; split; [done|repeat constructor; lia]).
    repeat split; [rewrite !length_app; cbn; lia|rewrite !length_app; cbn; lia|done|].
    rewrite script_number_app by done. lia.
  - exists (l ++ [x]). rewrite Hp by (rewrite !length_app; cbn; lia). rewrite last_last, Hx.
    repeat split; try (rewrite !length_app; cbn; lia); try done.
Qed.

(** Reading back a pushed number, wherever it stands. *)
Lemma script_number_read v before after b :
  0 <= v <= SCRIPT_INT64_MAX -> pushScriptNumber v = Ok b ->
  readNonNegativeScriptNumber (before ++ b ++ after) (length before) = Ok (v, (length before + length b)%nat).
Proof.
  intros Hv Hb. assert (forall c : ascii, b = [c] ->
    (if code c =? 0 then 0 else code c - 80) = v -> (code c = 0 \/ 81 <= code c <= 96) ->
    readNonNegativeScriptNumber (before ++ b ++ after) (length before) = Ok (v, (length before + length b)%nat)) as Hone.
  { intros c -> Hc Hr. unfold readNonNegativeScriptNumber. cbn [app]. rewrite list_lookup_middle by done.
    replace (length before + length [c])%nat with (S (length before)) by (cbn; lia).
    destruct Hr as [Hr|Hr]; destruct (Z.eqb_spec (code c) 0); try lia; [by rewrite <- Hc|].
    decide_guards. cbn [andb]. by rewrite <- Hc. }
  destruct (Z.le_gt_cases v 16).
  - unfold pushScriptNumber in Hb. destruct (Z.eqb_spec v 0) as [->|].
    + injection Hb as <-. by apply (Hone (byte_of 0)); [| |left].
    + rewrite (proj2 (Z.leb_le v 16)) in Hb by done. injection Hb as <-.
      apply (Hone (byte_of (80 + v))); rewrite ?code_byte_of by lia; [done| |lia]. decide_guards. lia.
  - destruct (script_payload v) as (ns & E & Hlen & Hr & Hd & Hs); [lia|].
    rewrite E in Hb. injection Hb as <-. unfold readNonNegativeScriptNumber.
    cbn [bytes_of map app]. rewrite list_lookup_middle by done. rewrite code_byte_of by lia. decide_guards.
    rewrite !length_app. cbn [length andb orb app]. rewrite length_app. unfold bytes_of. rewrite length_map.
    match goal with |- context [?p <? ?q] => destruct (Z.ltb_spec p q); [lia|] end. cbn [throw_if mbind result_bind].
    rewrite Nat2Z.id, !drop_middle.
    rewrite take_app_length' by (by rewrite length_map).
    destruct (exists_last (l := ns)) as (l & x & ->); [intros ->; cbn in Hlen; lia|].
    rewrite map_app. cbn [map]. rewrite last_snoc. cbn [fmap option_fmap option_map default].
    rewrite last_last in Hs. apply Forall_app in Hr as Hr'. destruct Hr' as [_ ?%Forall_inv]. cbn beta in *.
    rewrite code_byte_of by lia. unfold id. rewrite Hs.
    assert (foldr (fun c value => Z.lor (Z.shiftl value 8) (code c)) 0 (map byte_of l ++ [byte_of x]) = v) as ->.
    { rewrite <- Hd. change [byte_of x] with (map byte_of [x]). rewrite <- map_app. clear - Hr.
      unfold script_number. induction Hr as [|c l' Hc _ IH]; cbn [map foldr]; [done|]. by rewrite IH, code_byte_of. }
    cbn [throw_if mbind result_bind]. replace (SCRIPT_INT64_MAX <? v) with false by lia.
    cbn [throw_if mbind result_bind]. do 2 f_equal. lia.
Qed.

Lemma script_number_range b o v o' :
  readNonNegativeScriptNumber b o = Ok (v, o') -> 0 <= v <= SCRIPT_INT64_MAX.
Proof.
  unfold readNonNegativeScriptNumber. destruct (b !! o) as [c|]; [|done].
  pose proof (code_range c). destruct (Z.eqb_spec (code c) 0); [intros [= <- <-]; done|].
  destruct ((81 <=? code c) && (code c <=? 96)) eqn:E.
  - intros [= <- <-]. inv_bool. unfold SCRIPT_INT64_MAX. lia.
  - intros. inv_ok. simplify_eq. split; [|done].
    generalize (take (Z.to_nat (code c)) (drop (S o) b)). clear.
    intros l. induction l as [|d l IH]; cbn [foldr]; [done|]. pose proof (code_range d). rewrite lor_shift; lia.
Qed.

Lemma template_hex_ok hex n lbl b :
  hexToBytes hex n lbl = Ok b <->
  b = hex_decode hex /\ HEX_BYTE_PATTERN hex = true /\
  match n with Some n => byte_length hex = n * 2 | None => True end.
Proof.
  rewrite <- (hexToBytes_ok n "" lbl). unfold hexToBytes, Binary.hexToBytes.
  destruct (HEX_BYTE_PATTERN hex); cbn [negb throw_if throw_code_if mbind result_bind]; [|done].
  by destruct (match n with Some n => _ | None => false end).
Qed.

Lemma script_int64_text n lbl r :
  0 <= n -> normalizeScriptInt64 (Text (toString n)) lbl = Ok r <-> r = n /\ n <= SCRIPT_INT64_MAX.
Proof.
  intros Hn. destruct (toString_spec n Hn) as [Hc Hv].
  unfold normalizeScriptInt64, normalizeUint64, stringToUint64.
  change (match_pattern U64_DECIMAL_PATTERN (toString n)) with (isDecimalSompi (toString n)).
  rewrite isDecimalSompi_iff, Hc, Hv. cbn [andb]. unfold SCRIPT_INT64_MAX, U64_MAX.
  destruct (Z.leb_spec n 18446744073709551615); cbn [throw_if negb mbind result_bind]; [|split; [done|lia]].
  decide_guards. cbn [orb throw_if mbind result_bind].
  destruct (Z.ltb_spec 9223372036854775807 n); cbn [throw_if mbind result_bind]; [split; [done|lia]|].
  split; [by intros [= <-]|by intros [-> _]].
Qed.

Lemma script_int64_bigint n lbl : 0 <= n <= SCRIPT_INT64_MAX -> normalizeScriptInt64 (BigInt n) lbl = Ok n.
Proof.
  intros Hn. unfold normalizeScriptInt64, normalizeUint64, SCRIPT_INT64_MAX, U64_MAX in *. cbn [mbind result_bind].
  decide_guards. cbn [orb throw_if mbind result_bind]. by decide_guards.
Qed.

Lemma script_int64_ok v lbl n : normalizeScriptInt64 v lbl = Ok n -> 0 <= n <= SCRIPT_INT64_MAX.
Proof. unfold normalizeScriptInt64, normalizeUint64. intros. inv_ok. lia. Qed.

(** The script for an owner and a threshold, as bytes. *)
Definition kip10_bytes (owner pushedAmount : bytes) : bytes :=
  bytes_of [99; 32] ++ owner ++ bytes_of [172; 103; 185; 191; 185; 195; 136; 185; 194] ++
  pushedAmount ++ bytes_of [148; 185; 190; 162; 104].

Lemma kip10_build_ok owner v n s :
  is_hash32 owner = true -> 0 <= n <= SCRIPT_INT64_MAX ->
  normalizeScriptInt64 v "amount" = Ok n ->
  buildKip10AdditiveRedeemScript {| k_ownerPublicKey := owner; k_amount := v |} = Ok s <->
  exists b, pushScriptNumber n = Ok b /\ s = bytesToHex (kip10_bytes (hex_decode owner) b).
Proof.
  intros Ho Hn Hv. unfold is_hash32 in Ho. apply andb_true_iff in Ho as [Hhex Hlen]. apply Z.eqb_eq in Hlen.
  unfold buildKip10AdditiveRedeemScript. cbn [k_ownerPublicKey k_amount].
  assert (HEX_BYTE_PATTERN owner = true) as Hp by (unfold HEX_BYTE_PATTERN; by rewrite Hhex, Hlen).
  rewrite (proj2 (template_hex_ok owner (Some 32) "ownerPublicKey" _)) by (split; [reflexivity|auto]).
  cbn [mbind result_bind]. rewrite Hv. cbn [mbind result_bind].
  pose proof (hex_decode_length owner Hp) as Hl. unfold pushData at 1.
  replace (Z.of_nat (length (hex_decode owner))) with 32 by lia. change (32 <=? 75) with true. cbn [mbind result_bind].
  destruct (pushScriptNumber n) as [b|e]; cbn [mbind result_bind]; [|naive_solver].
  assert (concatBytes [bytes_of [99]; concatBytes [bytes_of [32]; hex_decode owner];
    bytes_of [172; 103; 185; 191; 185; 195; 136; 185; 194]; b; bytes_of [148; 185; 190; 162; 104]]
    = kip10_bytes (hex_decode owner) b) as ->.
  { unfold concatBytes, kip10_bytes, bytes_of. cbn [List.concat map app]. by rewrite !app_nil_r. }
  split; [intros [= <-]; eauto|]. by intros (b' & [= <-] & ->).
Qed.

Lemma pushScriptNumber_total n : 0 <= n <= SCRIPT_INT64_MAX -> exists b, pushScriptNumber n = Ok b /\ (1 <= length b)%nat.
Proof.
  intros. destruct (Z.le_gt_cases n 16).
  - unfold pushScriptNumber. destruct (n =? 0); [|rewrite (proj2 (Z.leb_le n 16)) by done]; eexists; split; try done; cbn; lia.
  - destruct (script_payload n) as (ns & -> & _); [lia|]. eexists. split; [done|]. cbn. lia.
Qed.

Lemma kip10_layout (owner b : list ascii) :
  length owner = 32%nat ->
  let s := kip10_bytes owner b in
  let head := bytes_of [99; 32] ++ owner ++ bytes_of [172; 103; 185; 191; 185; 195; 136; 185; 194] in
  length s = (48 + length b)%nat /\
  s !! 0%nat = bytes_of [99; 32] !! 0%nat /\ s !! 1%nat = bytes_of [99; 32] !! 1%nat /\
  take 32 (drop 2 s) = owner /\
  take 9 (drop 34 s) = bytes_of [172; 103; 185; 191; 185; 195; 136; 185; 194] /\
  s = head ++ b ++ bytes_of [148; 185; 190; 162; 104] /\ length head = 43%nat /\
  drop (43 + length b) s = bytes_of [148; 185; 190; 162; 104].
Proof.
  intros Ho. cbv zeta. unfold kip10_bytes.
  set (pre := bytes_of [99; 32]). set (ops := bytes_of [172; 103; 185; 191; 185; 195; 136; 185; 194]).
  set (suf := bytes_of [148; 185; 190; 162; 104]).
  assert (length pre = 2%nat) as Hp by done. assert (length ops = 9%nat) as Hop by done.
  assert (length suf = 5%nat) as Hs by done.
  split; [rewrite !length_app; lia|]. split; [done|]. split; [done|].
  split; [by apply slice_app|].
  split; [rewrite (app_assoc pre); apply slice_app; rewrite ?length_app; lia|].
  split; [by rewrite <- !app_assoc|]. split; [rewrite !length_app; lia|].
  rewrite (app_assoc ops), (app_assoc owner), (app_assoc pre). apply drop_app_length'.
  rewrite !length_app. lia.
Qed.

(** Text that the builder gives for an owner and a threshold, up to hex case. *)
Definition kip10_text (s : string) (p : ParsedKip10AdditiveRedeemScript) : Prop :=
  HEX_BYTE_PATTERN s = true /\ is_lower_hash32 (ownerPublicKey p) = true /\
  exists n, p_amount p = toString n /\ 0 <= n <= SCRIPT_INT64_MAX /\
    buildKip10AdditiveRedeemScript {| k_ownerPublicKey := ownerPublicKey p; k_amount := BigInt n |}
      = Ok (toLowerCase s).

Lemma kip10_parse_iff s p : parseKip10AdditiveRedeemScript s = Ok p <-> kip10_text s p.
Proof.
  unfold kip10_text.
  split.
  - unfold parseKip10AdditiveRedeemScript. intros H. inv_result. cbv zeta in H. inv_result.
    apply template_hex_ok in H0 as (-> & Hhex & _). destruct x2 as [n o]. inv_result. inv_bool.
    split; [done|]. cbn [ownerPublicKey p_amount].
    apply script_number_range in H3 as Hr.
    assert (is_lower_hash32 (bytesToHex (take 32 (drop 2 (hex_decode s)))) = true) as Hk.
    { unfold is_lower_hash32. rewrite bytesToHex_lower, bytesToHex_length, length_take, length_drop.
      match goal with H : Z.of_nat _ <= Z.of_nat _ |- _ => cbn [length bytes_of map Nat.add] in H end.
      cbn [andb]. apply Z.eqb_eq. lia. }
    split; [done|]. exists n. split; [done|]. split; [done|].
    assert (is_hash32 (bytesToHex (take 32 (drop 2 (hex_decode s)))) = true) as Hk'.
    { unfold is_hash32, is_lower_hash32 in *. apply andb_true_iff in Hk as [? ->]. by rewrite lower_hex_hex. }
    eapply kip10_build_ok; [done|done|by apply script_int64_bigint|].
    cbn [ownerPublicKey p_amount] in *.
    match goal with Hb : buildKip10AdditiveRedeemScript _ = Ok _ |- _ =>
      eapply kip10_build_ok in Hb as (b & Hb & ->); [|done|done|apply script_int64_text; lia] end.
    exists b. split; [done|]. rewrite <- bytesToHex_hex_decode by done. congruence.
  - intros (Hhex & Hk & n & Hp & Hn & Hb).
    assert (is_hash32 (ownerPublicKey p) = true) as Hk'.
    { unfold is_hash32, is_lower_hash32 in *. apply andb_true_iff in Hk as [? ->]. by rewrite lower_hex_hex. }
    pose proof Hb as Hb0.
    apply kip10_build_ok with (n := n) in Hb as (b & Eb & Es); [|done|done|by apply script_int64_bigint].
    rewrite <- bytesToHex_hex_decode in Es by done. apply bytesToHex_inj in Es.
    destruct (pushScriptNumber_total n Hn) as (b' & Eb' & Hlen).
    assert (b' = b) as -> by congruence.
    unfold is_hash32 in Hk'. apply andb_true_iff in Hk' as [Hox Hol]. apply Z.eqb_eq in Hol.
    assert (HEX_BYTE_PATTERN (ownerPublicKey p) = true) as Hop by (unfold HEX_BYTE_PATTERN; by rewrite Hox, Hol).
    pose proof (hex_decode_length _ Hop) as Hl.
    assert (length (hex_decode (ownerPublicKey p)) = 32%nat) as Hl32 by lia.
    destruct (kip10_layout _ b Hl32) as (Hlength & H0 & H1 & Hown & Hops & Hsplit & Hhead & Hsuf).
    unfold parseKip10AdditiveRedeemScript.
    rewrite (proj2 (template_hex_ok s None "redeemScript" _)) by (split; [reflexivity|auto]).
    cbn [mbind result_bind]. cbv zeta. rewrite Es. set (k := kip10_bytes _ b) in *.
    rewrite H0, H1, Hown, Hops, !bool_decide_eq_true_2, Hlength by done.
    rewrite (proj2 (Z.ltb_ge _ _)) by (cbn [length bytes_of map Nat.add]; lia).
    cbn [negb orb throw_if mbind result_bind].
    assert (readNonNegativeScriptNumber k 43 = Ok (n, (43 + length b)%nat)) as ->.
    { rewrite Hsplit, <- Hhead. by apply script_number_read. }
    cbn [mbind result_bind]. rewrite Hsuf, !bool_decide_eq_true_2 by done.
    cbn [negb orb throw_if mbind result_bind ownerPublicKey p_amount].
    rewrite bytesToHex_hex_decode by done.
    unfold is_lower_hash32 in Hk. apply andb_true_iff in Hk as [Hlow _]. rewrite toLowerCase_lower by done.
    assert (buildKip10AdditiveRedeemScript {| k_ownerPublicKey := ownerPublicKey p; k_amount := Text (toString n) |}
      = Ok (bytesToHex k)) as ->.
    { apply kip10_build_ok with (n := n); [unfold is_hash32; by rewrite Hox, Hol|done|apply script_int64_text; lia|].
      exists b. split; [done|]. unfold k. done. }
    cbn [mbind result_bind]. rewrite bool_decide_eq_true_2 by done. cbn [negb throw_if mbind result_bind].
    rewrite <- Hp. by destruct p.
Qed.

(** The parser of additive head scripts is the exact inverse of
    the builder: text parses to an owner and a threshold if and only if it is hexadecimal,
    the owner is 32 bytes of lower-case hex, the threshold a canonical decimal in the signed
    64-bit range, and building the script from them gives the text back up to hex case. *)
Theorem kip10_parse_exact s p :
  parseKip10AdditiveRedeemScript s = Ok p <->
  HEX_BYTE_PATTERN s = true /\ is_lower_hash32 (ownerPublicKey p) = true /\
  exists n, p_amount p = toString n /\ 0 <= n <= SCRIPT_INT64_MAX /\
    buildKip10AdditiveRedeemScript {| k_ownerPublicKey := ownerPublicKey p; k_amount := BigInt n |}
      = Ok (toLowerCase s).
Proof. apply kip10_parse_iff. Qed.

(** ** Patched constructor slots *)

Definition apply_writes (writes : list (nat * bytes)) (script : bytes) : bytes :=
  foldl (fun script w => set_bytes w.1 w.2 script) script writes.
Definition in_bounds (n : nat) (w : nat * bytes) : Prop := (w.1 + length w.2 <= n)%nat.
Definition touches (i : nat) (w : nat * bytes) : Prop := (w.1 <= i < w.1 + length w.2)%nat.
Definition slot_writes (f : ConstructorSlot * bytes) : list (nat * bytes) :=
  map (fun offset => (offset, f.2)) (offsets f.1).

Lemma set_bytes_lookup w script i :
  in_bounds (length script) w ->
  set_bytes w.1 w.2 script !! i = (if decide (touches i w) then w.2 !! (i - w.1)%nat else script !! i) /\
  length (set_bytes w.1 w.2 script) = length script.
Proof.
  unfold in_bounds, touches, set_bytes. intros Hb. split.
  - destruct (decide _).
    + rewrite lookup_app_r, length_take by (rewrite length_take; lia).
      rewrite lookup_app_l; rewrite Nat.min_l by lia; [done|lia].
    + destruct (decide (i < w.1)%nat).
      * rewrite lookup_app_l by (rewrite length_take; lia). by apply lookup_take_lt.
      * rewrite !lookup_app_r; rewrite ?length_take; [|lia..].
        rewrite lookup_drop. f_equal. lia.
  - rewrite !length_app, length_take, length_drop. lia.
Qed.

Lemma apply_writes_frame writes script i :
  Forall (in_bounds (length script)) writes ->
  length (apply_writes writes script) = length script /\
  (Forall (fun w => ~ touches i w) writes -> apply_writes writes script !! i = script !! i).
Proof.
  unfold apply_writes. revert script. induction writes as [|w writes IH]; intros script; cbn [foldl]; [done|].
  intros [Hw Hws]%Forall_cons. destruct (set_bytes_lookup w script i Hw) as [Hi Hl].
  destruct (IH (set_bytes w.1 w.2 script)) as [IHl IHi]; [by rewrite Hl|]. split; [congruence|].
  intros [? ?]%Forall_cons. rewrite IHi, Hi by done. by rewrite decide_False.
Qed.

(** No write overlaps a later one. *)
Fixpoint disjoint_writes (l : list (nat * nat)) : bool :=
  match l with
  | [] => true
  | (o, n) :: l => forallb (fun w => (o + n <=? w.1)%nat || (w.1 + w.2 <=? o)%nat) l && disjoint_writes l
  end.

Lemma apply_writes_read writes script o v k :
  Forall (in_bounds (length script)) writes ->
  disjoint_writes (map (fun w => (w.1, length w.2)) writes) = true ->
  (o, v) ∈ writes -> (k < length v)%nat -> apply_writes writes script !! (o + k)%nat = v !! k.
Proof.
  revert script. induction writes as [|w writes IH]; intros script; [intros _ _ Hin; by apply elem_of_nil in Hin|].
  intros [Hw Hws]%Forall_cons Hd Hin Hk. cbn [map disjoint_writes] in Hd. apply andb_true_iff in Hd as [Hd Hds].
  destruct (set_bytes_lookup w script (o + k) Hw) as [Hi Hl].
  change (apply_writes (w :: writes) script) with (apply_writes writes (set_bytes w.1 w.2 script)).
  apply elem_of_cons in Hin as [<-|Hin]; [|apply IH; [by rewrite Hl|done..]].
  rewrite (proj2 (apply_writes_frame writes _ _ ltac:(by rewrite Hl))).
  - rewrite Hi, decide_True by (unfold touches; cbn; lia). cbn [fst snd]. f_equal. lia.
  - apply Forall_forall. intros w Hin. rewrite forallb_elem in Hd.
    specialize (Hd (w.1, length w.2)). cbn [fst snd] in Hd. unfold touches.
    apply orb_true_iff in Hd; [|by apply list_elem_of_In, (in_map (fun w => (w.1, length w.2))), list_elem_of_In].
    rewrite !Nat.leb_le in Hd. lia.
Qed.

Lemma patch_ok slot v script s :
  patchConstructorSlot slot v script = Ok s ->
  length v = slot_bytes slot /\ s = apply_writes (slot_writes (slot, v)) script /\
  length s = length script /\ Forall (in_bounds (length script)) (slot_writes (slot, v)).
Proof.
  unfold patchConstructorSlot, slot_writes, apply_writes. cbn [fst snd]. intros H. inv_result.
  apply negb_false_iff, Nat.eqb_eq in H0. split; [done|]. revert script s H.
  induction (offsets slot) as [|o l IH]; intros script s H; cbn [map foldl fold_result] in *; [by inv_result|].
  inv_result. apply negb_false_iff, Nat.leb_le in H2. apply IH in H as (-> & Hl & Hb).
  assert (in_bounds (length script) (o, v)) as Ho by (unfold in_bounds; cbn; lia).
  destruct (set_bytes_lookup (o, v) script 0 Ho) as [_ Hlen]. cbn [fst snd] in *. rewrite Hlen in *.
  auto.
Qed.

Lemma apply_writes_slice writes script o v :
  Forall (in_bounds (length script)) writes ->
  disjoint_writes (map (fun w => (w.1, length w.2)) writes) = true ->
  (o, v) ∈ writes -> take (length v) (drop o (apply_writes writes script)) = v.
Proof.
  intros Hb Hd Hin. apply list_eq. intros k. destruct (decide (k < length v)%nat).
  - rewrite lookup_take_lt, lookup_drop by done. by apply apply_writes_read.
  - rewrite lookup_take_ge, lookup_ge_None_2 by lia. done.
Qed.

Section Escrow.
Context (sha256 : bytes -> bytes).

(** What each constructor slot of the script for these parameters holds. *)
Definition escrow_fields (params : EscrowTemplateParams) (timeout claimed : Z) : list (ConstructorSlot * bytes) :=
  let slots := ESCROW_V5_CONSTRUCTOR_SLOTS in
  [(s_claimedCumulativeAmount slots, int64Le claimed);
   (s_serverPublicKey slots, hex_decode (et_serverPublicKey params));
   (s_networkHash slots, sha256 (utf8Bytes (et_network params)));
   (s_clientPublicKey slots, hex_decode (et_clientPublicKey params));
   (s_payoutScriptPublicKeyHash slots, hex_decode (payoutScriptPublicKeyHash params));
   (s_refundScriptPublicKeyHash slots, hex_decode (refundScriptPublicKeyHash params));
   (s_timeoutDaa slots, int64Le timeout)].

Lemma apply_writes_app a b script : apply_writes (a ++ b) script = apply_writes b (apply_writes a script).
Proof. apply foldl_app. Qed.

Lemma escrow_writes params s :
  buildEscrowRedeemScript sha256 params = Ok s ->
  exists timeout claimed,
    normalizeScriptInt64 (timeoutDaa params) "timeoutDaa" = Ok timeout /\ timeout < KASPA_LOCK_TIME_THRESHOLD /\
    normalizeScriptInt64 (et_claimedCumulativeAmount params) "claimedCumulativeAmount" = Ok claimed /\
    let base := hex_decode ESCROW_V5_COMPILED_BASE in
    let fields := escrow_fields params timeout claimed in
    let writes := List.concat (map slot_writes fields) in
    s = bytesToHex (apply_writes writes base) /\
    Forall (fun f => length f.2 = slot_bytes f.1) fields /\
    Forall (in_bounds (length base)) writes.
Proof.
  unfold buildEscrowRedeemScript. generalize ESCROW_V5_COMPILED_BASE. intros base H.
  unfold networkHash in H. inv_result.
  repeat match goal with Hh : hexToBytes _ _ _ = Ok _ |- _ => apply template_hex_ok in Hh as (-> & _) end.
  repeat match goal with Hp : patchConstructorSlot _ _ _ = Ok _ |- _ =>
    apply patch_ok in Hp as (? & -> & ? & ?) end.
  do 2 eexists. split; [eassumption|]. split; [inv_bool; lia|]. split; [eassumption|]. cbv zeta.
  cbn [escrow_fields map]. unfold concatBytes. cbn [List.concat]. rewrite !apply_writes_app, app_nil_r.
  split; [reflexivity|]. split; [by repeat constructor|].
  repeat match goal with H1 : length (apply_writes _ _) = _, H2 : Forall (in_bounds (length (apply_writes _ _))) _ |- _ =>
    rewrite H1 in H2 end.
  repeat (apply Forall_app; split); auto.
Qed.

Lemma disjoint_slots params timeout claimed :
  disjoint_writes (List.concat (map (fun f => map (fun o => (o, slot_bytes f.1)) (offsets f.1))
    (escrow_fields params timeout claimed))) = true.
Proof. vm_compute. reflexivity. Qed.

Lemma slot_write_in slot v o (fields : list (ConstructorSlot * bytes)) :
  (slot, v) ∈ fields -> o ∈ offsets slot -> (o, v) ∈ List.concat (map slot_writes fields).
Proof.
  intros Hf Ho. apply list_elem_of_In, in_concat. exists (slot_writes (slot, v)).
  split; [by apply in_map, list_elem_of_In|]. unfold slot_writes. cbn [fst snd].
  by apply (in_map (fun o => (o, v))), list_elem_of_In.
Qed.

Lemma slot_write_inv v o (fields : list (ConstructorSlot * bytes)) :
  (o, v) ∈ List.concat (map slot_writes fields) -> exists slot, (slot, v) ∈ fields /\ o ∈ offsets slot.
Proof.
  intros (ws & ([slot v'] & <- & Hf)%in_map_iff & Hw)%list_elem_of_In%in_concat.
  apply in_map_iff in Hw as (o' & [= <- <-] & Ho). exists slot. by rewrite !list_elem_of_In.
Qed.

(** The escrow script is the compiled template with exactly its
    constructor slots filled in: every copy of a slot holds the bytes of its parameter (the
    two keys, the two script hashes, the network digest, and the timeout and the claimed
    amount as little-endian 64-bit integers), and every byte outside the slots is the
    template's; the timeout stays below the consensus timestamp boundary. *)
Theorem escrow_script_slots params s :
  buildEscrowRedeemScript sha256 params = Ok s ->
  exists timeout claimed script,
    normalizeScriptInt64 (timeoutDaa params) "timeoutDaa" = Ok timeout /\ timeout < KASPA_LOCK_TIME_THRESHOLD /\
    normalizeScriptInt64 (et_claimedCumulativeAmount params) "claimedCumulativeAmount" = Ok claimed /\
    s = bytesToHex script /\ length script = length (hex_decode ESCROW_V5_COMPILED_BASE) /\
    (forall slot value offset, (slot, value) ∈ escrow_fields params timeout claimed -> offset ∈ offsets slot ->
       length value = slot_bytes slot /\ take (slot_bytes slot) (drop offset script) = value) /\
    (forall i, (forall slot value offset, (slot, value) ∈ escrow_fields params timeout claimed ->
                  offset ∈ offsets slot -> ~ (offset <= i < offset + slot_bytes slot)%nat) ->
       script !! i = hex_decode ESCROW_V5_COMPILED_BASE !! i).
Proof.
  intros (timeout & claimed & Ht & Hlt & Hc & Hs & Hlen & Hb)%escrow_writes.
  set (writes := List.concat (map slot_writes (escrow_fields params timeout claimed))) in *.
  set (base := hex_decode ESCROW_V5_COMPILED_BASE) in *. rewrite Forall_forall in Hlen.
  exists timeout, claimed, (apply_writes writes base). do 4 (split; [done|]).
  destruct (apply_writes_frame writes base 0 Hb) as [Hl _]. split; [done|]. split.
  - intros slot value offset Hf Ho. pose proof (Hlen _ Hf) as Hv. cbn [fst snd] in Hv. split; [done|].
    rewrite <- Hv. apply apply_writes_slice; [done| |].
    + rewrite <- (disjoint_slots params timeout claimed). f_equal. unfold writes.
      rewrite concat_map, map_map. f_equal. apply map_ext_in. intros f Hin%list_elem_of_In.
      unfold slot_writes. rewrite map_map. apply map_ext. intros o. cbn [fst snd]. f_equal. by apply Hlen.
    + by apply (slot_write_in slot).
  - intros i Hi. apply apply_writes_frame; [done|]. apply Forall_forall. intros [o v] Hin.
    apply slot_write_inv in Hin as (slot & Hf & Ho). unfold touches. cbn [fst snd].
    pose proof (Hlen _ Hf) as Hv. cbn [fst snd] in Hv. rewrite Hv. by apply (Hi slot v).
Qed.
End Escrow.

(** ** Compute budget *)

(** The compute budget is the least 16-bit one that pays: whenever
    a budget is returned its allowance covers the script units and every smaller budget's
    does not, and it is refused exactly when even the largest allowance falls short. *)
Theorem compute_budget_least units :
  0 <= units <= MAX_SAFE_INTEGER ->
  match computeBudgetForScriptUnits units with
  | Ok budget =>
      (exists allowance, scriptUnitAllowance budget = Ok allowance /\ units <= allowance) /\
      forall smaller allowance, smaller < budget -> scriptUnitAllowance smaller = Ok allowance -> allowance < units
  | Throw _ => forall budget allowance, scriptUnitAllowance budget = Ok allowance -> allowance < units
  end.
Proof.
  intros Hu. unfold computeBudgetForScriptUnits, isSafeInteger.
  rewrite (proj2 (Z.ltb_ge units 0)), (proj2 (Z.leb_le (- MAX_SAFE_INTEGER) units)),
    (proj2 (Z.leb_le units MAX_SAFE_INTEGER)) by (unfold MAX_SAFE_INTEGER in *; lia).
  cbn [andb negb orb throw_if mbind result_bind].
  assert (forall b a, scriptUnitAllowance b = Ok a <-> 0 <= b <= 65535 /\ a = b * 10000 + 9999) as Ha.
  { intros b a. unfold scriptUnitAllowance, SCRIPT_UNITS_PER_COMPUTE_BUDGET, FREE_SCRIPT_UNITS_PER_INPUT.
    rewrite bind_ok. setoid_rewrite throw_if_ok. split; [intros ([] & ? & [= <-]); inv_bool; lia|].
    intros [? ->]. exists (). split; [lia|done]. }
  unfold SCRIPT_UNITS_PER_COMPUTE_BUDGET, FREE_SCRIPT_UNITS_PER_INPUT.
  destruct (Z.leb_spec units 9999).
  - split; [exists 9999; rewrite Ha; lia|]. intros ? ? ? ?%Ha. lia.
  - pose proof (Z.div_mod (- (units - 9999)) 10000). pose proof (Z.mod_pos_bound (- (units - 9999)) 10000).
    set (q := - (units - 9999) / 10000) in *.
    destruct (Z.ltb_spec 65535 (- q)); cbn [throw_if mbind result_bind].
    + intros ? ? ?%Ha. nia.
    + split; [exists (- q * 10000 + 9999); rewrite Ha; lia|]. intros ? ? ? ?%Ha. nia.
Qed.

Lemma compute_budget_least_witness :
  computeBudgetForScriptUnits 20000 = Ok 2 /\ forall b a, b < 2 -> scriptUnitAllowance b = Ok a -> a < 20000.
Proof.
  pose proof (compute_budget_least 20000) as H. change (computeBudgetForScriptUnits 20000) with (Ok 2) in *.
  split; [reflexivity|]. destruct H as [_ H]; [unfold MAX_SAFE_INTEGER; lia|]. exact H.
Defined.

(** ** A concrete script *)

Definition hex_of_byte (pair : string) : string := String.concat "" (repeat pair 32).
Arguments hex_of_byte : simpl never.
Definition sample_escrow : EscrowTemplateParams := {|
  et_clientPublicKey := hex_of_byte "C1"; et_serverPublicKey := hex_of_byte "51"; et_network := "kaspa:testnet-10";
  payoutScriptPublicKeyHash := hex_of_byte "70"; refundScriptPublicKeyHash := hex_of_byte "7e";
  timeoutDaa := Text "499999999999"; et_claimedCumulativeAmount := Number 1000
|}.

Lemma escrow_script_slots_witness :
  exists script, buildEscrowRedeemScript toy_sha256 sample_escrow = Ok (bytesToHex script) /\
    take 8 (drop 881 script) = int64Le 499999999999.
Proof.
  destruct (is_ok_value (buildEscrowRedeemScript toy_sha256 sample_escrow)) as [s E]; [vm_compute; reflexivity|].
  destruct (escrow_script_slots toy_sha256 sample_escrow s E) as (timeout & claimed & script & Ht & _ & _ & -> & _ & Hf & _).
  exists script. split; [exact E|]. apply Ok_inj in Ht.
  destruct (Hf (s_timeoutDaa ESCROW_V5_CONSTRUCTOR_SLOTS) (int64Le timeout) 881%nat) as [_ Hv].
  - unfold escrow_fields. do 6 right. left.
  - left.
  - subst timeout. exact Hv.
Defined.
