(* ===== verification/Agreement.v ===== *)
(** * Agreement of the core and covenant packages

    The voucher bytes are built twice: by [core/src/voucher.ts], which clients and servers
    sign and check, and by [covenant/src/template.ts], which the covenant's authors use.
    This file proves that the two builders describe the same bytes. *)

From S2P Require Import Prelude Amount BatchLane Json Binary Commitment Template.

Section Agreement.
Context (sha256 : bytes -> bytes).
(** SHA-256 of the tag's text is the constant the covenant package pins. *)
Context (tag_digest : sha256Text sha256 VOUCHER_DOMAIN_TAG = hex_decode ESCROW_VOUCHER_DOMAIN_TAG).

Lemma networkHash_ok network h :
  networkHash sha256 network = Ok h <-> isKaspaX402Network network = true /\ h = sha256Text sha256 network.
Proof.
  unfold networkHash, isKaspaX402Network, SUPPORTED_NETWORKS. cbn [existsb].
  repeat case_bool_decide; cbn; naive_solver.
Qed.

Lemma script_int64_text_ok s lbl n :
  normalizeScriptInt64 (Text s) lbl = Ok n <-> s = toString n /\ 0 <= n <= SCRIPT_INT64_MAX.
Proof.
  split.
  - intros H. pose proof (script_int64_ok _ _ _ H). split; [|lia].
    unfold normalizeScriptInt64, normalizeUint64, stringToUint64 in H. inv_ok.
    match goal with H : match_pattern _ _ = true |- _ =>
      change (isDecimalSompi s = true) in H; rewrite isDecimalSompi_iff in H;
      apply andb_true_iff in H as [Hc _] end.
    by rewrite canonical_toString.
  - intros [-> [? ?]]. by apply script_int64_text.
Qed.

(** What both packages demand of a voucher, and the bytes it then has. *)
Definition voucher_bytes (network covenantId amount : string) (n : Z) (p : bytes) : Prop :=
  isKaspaX402Network network = true /\ HEX_BYTE_PATTERN covenantId = true /\ byte_length covenantId = 64 /\
  forallb (fun byte => code byte =? 0) (hex_decode covenantId) = false /\
  amount = toString n /\ 0 <= n <= BATCH_SCRIPT_INT_MAX /\
  p = concatBytes [sha256Text sha256 VOUCHER_DOMAIN_TAG; sha256Text sha256 network; hex_decode covenantId;
                   little_endian 8 n].

Lemma core_voucher_ok network covenantId amount p :
  Commitment.voucherPreimage sha256
    {| vd_network := network; vd_covenantId := covenantId; vd_authorizedCumulativeAmount := amount |} = Ok p <->
  exists n, voucher_bytes network covenantId amount n p.
Proof.
  unfold voucher_bytes. split.
  - intros (n & ? & ? & ? & [? ?] & ? & ->)%voucher_preimage_ok.
    cbn [vd_network vd_covenantId vd_authorizedCumulativeAmount] in *. eexists. repeat split; eauto; lia.
  - intros (n & Hnet & Hc & Hl & Hz & -> & Hn & ->). unfold Commitment.voucherPreimage.
    cbn [vd_network vd_covenantId vd_authorizedCumulativeAmount]. unfold parseKaspaNetwork. rewrite Hnet.
    cbn [negb throw_code_if mbind result_bind].
    rewrite (proj2 (hexToBytes_field 32 _ _ covenantId _)) by (split; [reflexivity|by split]).
    cbn [mbind result_bind]. rewrite Hz. cbn [throw_code_if mbind result_bind].
    rewrite parse_lane_toString by lia. cbn [mbind result_bind].
    rewrite (proj2 (le64_ok _ (little_endian 8 n))); [done|].
    exists n. unfold numeric_value, BATCH_SCRIPT_INT_MAX, U64_MAX in *. repeat split; lia || done.
Qed.

Lemma covenant_voucher_ok network covenantId amount h :
  Template.voucherPreimage sha256
    {| vp_network := network; vp_covenantId := covenantId; vp_authorizedCumulativeAmount := Text amount |} = Ok h <->
  exists n p, voucher_bytes network covenantId amount n p /\ h = bytesToHex p /\ n <> 0.
Proof.
  unfold voucher_bytes, Template.voucherPreimage.
  cbn [vp_network vp_covenantId vp_authorizedCumulativeAmount]. rewrite tag_digest. split.
  - intros H. inv_ok.
    repeat match goal with Hh : hexToBytes _ _ _ = Ok _ |- _ => apply template_hex_ok in Hh as (-> & ? & ?) end.
    match goal with Hh : normalizeScriptInt64 _ _ = Ok _ |- _ => apply script_int64_text_ok in Hh as [-> ?] end.
    match goal with Hh : networkHash _ _ = Ok _ |- _ => apply networkHash_ok in Hh as [? ->] end.
    unfold SCRIPT_INT64_MAX, BATCH_SCRIPT_INT_MAX in *. do 2 eexists. repeat split; eauto; try done; lia.
  - intros (n & p & (Hnet & Hc & Hl & Hz & -> & Hn & ->) & -> & Hn0).
    rewrite (proj2 (script_int64_text_ok _ _ n)) by done. cbn [mbind result_bind].
    rewrite (proj2 (Z.eqb_neq n 0)) by done. cbn [throw_if mbind result_bind].
    rewrite (proj2 (template_hex_ok covenantId (Some 32) _ _)) by (split; [reflexivity|by split]).
    cbn [mbind result_bind]. rewrite Hz. cbn [throw_if mbind result_bind].
    rewrite (proj2 (template_hex_ok ESCROW_VOUCHER_DOMAIN_TAG (Some 32) _ _)) by (split; [reflexivity|by split]).
    cbn [mbind result_bind]. by rewrite (proj2 (networkHash_ok network _)) by (by split).
Qed.

(** C28. Both packages sign the same bytes: for every network, covenant
    id and decimal amount, the covenant package produces a preimage exactly when core
    produces one for a positive amount, and then it is core's bytes in hexadecimal. *)
Theorem voucher_preimages_agree network covenantId amount h :
  Template.voucherPreimage sha256
    {| vp_network := network; vp_covenantId := covenantId; vp_authorizedCumulativeAmount := Text amount |} = Ok h <->
  exists p, Commitment.voucherPreimage sha256
      {| vd_network := network; vd_covenantId := covenantId; vd_authorizedCumulativeAmount := amount |} = Ok p /\
    h = bytesToHex p /\ amount <> "0".
Proof.
  rewrite covenant_voucher_ok. setoid_rewrite core_voucher_ok. split.
  - intros (n & p & Hp & -> & Hn). exists p. split; [eauto|]. split; [done|].
    destruct Hp as (_ & _ & _ & _ & -> & ? & _). intros E. apply Hn. apply toString_inj; [lia..|]. by rewrite E.
  - intros (p & (n & Hp) & -> & Hn). exists n, p. split; [done|]. split; [done|]. intros ->.
    by destruct Hp as (_ & _ & _ & _ & -> & _).
Qed.
End Agreement.

(** A digest function that knows the tag, and a voucher both packages accept. *)
Definition tag_sha256 (b : bytes) : bytes :=
  if bool_decide (b = utf8Bytes VOUCHER_DOMAIN_TAG) then hex_decode ESCROW_VOUCHER_DOMAIN_TAG else toy_sha256 b.

Lemma voucher_preimages_agree_witness :
  exists p, Template.voucherPreimage tag_sha256
      {| vp_network := "kaspa:mainnet"; vp_covenantId := hex64 "cD"; vp_authorizedCumulativeAmount := Text "77" |}
      = Ok (bytesToHex p) /\
    Commitment.voucherPreimage tag_sha256
      {| vd_network := "kaspa:mainnet"; vd_covenantId := hex64 "cD"; vd_authorizedCumulativeAmount := "77" |} = Ok p.
Proof.
  destruct (is_ok_value (Commitment.voucherPreimage tag_sha256
    {| vd_network := "kaspa:mainnet"; vd_covenantId := hex64 "cD"; vd_authorizedCumulativeAmount := "77" |})) as [p E];
    [vm_compute; reflexivity|].
  exists p. split; [|exact E].
  apply (voucher_preimages_agree tag_sha256); [vm_compute; reflexivity|].
  exists p. split; [exact E|]. split; [reflexivity|discriminate].
Defined.
