(* ===== verification/PaymentIdentifier.v ===== *)
(** * Payment identifiers: who owns an idempotency key

    Models [protocol/packages/server/src/payment-identifier-state.ts] with its record types
    (types.ts) and [durable-record-budget.ts].  Object properties that may be missing are
    [prop]s, because the code both reads them as [undefined] and serializes them. *)

From S2P Require Import Prelude Json ResourceBudget.

Inductive PaymentIdentifierReservationStatus :=
  | reserved
  | pending
  | recovery_required
  | completed
  | safely_released.

Record PaymentIdentifierReservationClaim := {
  id : string;
  fingerprint : string;
  paymentPayloadHash : string;
  paymentScopeId : string;
  paymentKind : string;
  ownerId : string;
  payerId : string;
  channelId : prop string;
  transactionId : prop string;
  paymentOutputIndex : prop Z
}.

Record PaymentIdentifierReservationRecord := {
  r_claim : PaymentIdentifierReservationClaim;
  status : PaymentIdentifierReservationStatus;
  createdAt : string;
  updatedAt : string;
  recoveryReason : prop string
}.

Record PaymentIdentifierRecord := {
  i_id : string;
  i_fingerprint : string;
  i_paymentPayloadHash : string;
  i_response : json;
  i_settlement : json;
  i_paymentScopeId : string;
  i_channelId : prop string;
  i_transactionId : prop string;
  i_paymentOutputIndex : prop Z
}.

#[export] Instance status_eq_dec : EqDecision PaymentIdentifierReservationStatus.
Proof. solve_decision. Defined.
#[export] Instance claim_eq_dec : EqDecision PaymentIdentifierReservationClaim.
Proof. solve_decision. Defined.
#[export] Instance reservation_eta : Settable PaymentIdentifierReservationRecord := fun r =>
  Build_PaymentIdentifierReservationRecord (r_claim r) (status r) (createdAt r) (updatedAt r) (recoveryReason r).

(** Numbers are integers here, so [Number.isInteger] holds of every present index. *)
Definition assertPaymentIdentifierReservationClaim (claim : PaymentIdentifierReservationClaim) : result () :=
  let hash := is_lower_hash32 in
  _ ← throw_if ((id claim === "") || (256 <? js_length (id claim)) || (payerId claim === "")
                || (256 <? js_length (payerId claim)) || negb (hash (fingerprint claim))
                || negb (hash (paymentPayloadHash claim)) || negb (hash (paymentScopeId claim))
                || negb (hash (ownerId claim))) "payment identifier reservation is invalid";
  if paymentKind claim === "batch-settlement" then
    throw_if (negb (truthy (channelId claim)) || truthy (transactionId claim)
              || isSome (get (paymentOutputIndex claim))) "batch payment identifier ownership is invalid"
  else if paymentKind claim === "exact" then
    throw_if (negb (truthy (transactionId claim)) || truthy (channelId claim)
              || match get (paymentOutputIndex claim) with None => true | Some i => i <? 0 end)
      "exact payment identifier ownership is invalid"
  else Throw (Error "payment identifier kind is invalid").

Definition paymentIdentifierReservationClaimsMatch (left right : PaymentIdentifierReservationClaim) : bool :=
  (id left === id right) && (fingerprint left === fingerprint right)
  && (paymentPayloadHash left === paymentPayloadHash right) && (paymentScopeId left === paymentScopeId right)
  && (paymentKind left === paymentKind right) && (ownerId left === ownerId right)
  && (payerId left === payerId right) && (get (channelId left) === get (channelId right))
  && (get (transactionId left) === get (transactionId right))
  && (get (paymentOutputIndex left) === get (paymentOutputIndex right)).

Definition assertPaymentIdentifierAvailable (claim : option PaymentIdentifierReservationClaim)
    (reservation : option PaymentIdentifierReservationRecord)
    (retained : option PaymentIdentifierRecord) : result () :=
  match claim with
  | None => Ok tt
  | Some claim =>
      _ ← assertPaymentIdentifierReservationClaim claim;
      _ ← throw_if (match retained with
                    | Some done => (i_fingerprint done !== fingerprint claim)
                                   || (i_paymentPayloadHash done !== paymentPayloadHash claim)
                                   || (i_paymentScopeId done !== paymentScopeId claim)
                    | None => false
                    end) "payment identifier is already owned by another payment";
      throw_if (match reservation with
                | Some r => (status r !== safely_released)
                            && negb (paymentIdentifierReservationClaimsMatch (r_claim r) claim)
                | None => false
                end) "payment identifier is already owned by another payment"
  end.

Definition assertPaymentIdentifierCompletion (claim : option PaymentIdentifierReservationClaim)
    (done : option PaymentIdentifierRecord) (reservation : option PaymentIdentifierReservationRecord)
    (retained : option PaymentIdentifierRecord) : result () :=
  match claim, done with
  | None, None => Ok tt
  | Some c, Some d =>
      _ ← throw_if ((id c !== i_id d) || (fingerprint c !== i_fingerprint d)
                    || (paymentPayloadHash c !== i_paymentPayloadHash d)
                    || (paymentScopeId c !== i_paymentScopeId d)
                    || (get (channelId c) !== get (i_channelId d))
                    || (get (transactionId c) !== get (i_transactionId d))
                    || (get (paymentOutputIndex c) !== get (i_paymentOutputIndex d)))
            "payment identifier completion does not match reservation";
      _ ← throw_if (match reservation with
                    | None => true
                    | Some r => negb (paymentIdentifierReservationClaimsMatch (r_claim r) c)
                                || (status r === safely_released)
                    end) "payment identifier completion lost its reservation";
      assertPaymentIdentifierAvailable claim reservation retained
  | _, _ => Throw (Error "payment identifier completion does not match reservation")
  end.

Inductive PaymentIdentifierReservationTransition :=
  | Reserve (observedAt : string)
  | Complete (observedAt : string)
  | Update (u_status : PaymentIdentifierReservationStatus) (u_updatedAt : string) (u_recoveryReason : prop string)
  | Release (reason observedAt : string) (allowPending : bool).

Definition transitionPaymentIdentifierReservation (claim : option PaymentIdentifierReservationClaim)
    (current : option PaymentIdentifierReservationRecord)
    (transition : PaymentIdentifierReservationTransition) : result (option PaymentIdentifierReservationRecord) :=
  match claim with
  | None => Ok None
  | Some claim =>
      match transition with
      | Reserve observedAt =>
          if match current with Some r => status r !== safely_released | None => false end then Ok None
          else Ok (Some {| r_claim := claim; status := reserved; createdAt := observedAt;
                           updatedAt := observedAt; recoveryReason := Absent |})
      | _ =>
          let lost := Error (match transition with
                             | Complete _ => "payment identifier completion lost its reservation"
                             | Release _ _ _ => "payment identifier release lost its reservation"
                             | _ => "payment identifier reservation ownership changed"
                             end) in
          match current with
          | None => Throw lost
          | Some current =>
              if negb (paymentIdentifierReservationClaimsMatch (r_claim current) claim) then Throw lost
              else match transition with
              | Complete observedAt =>
                  _ ← throw_if (status current === safely_released)
                        "released payment identifier cannot be completed";
                  Ok (Some (current <| status := completed |> <| recoveryReason := Undefined |>
                              <| updatedAt := observedAt |>))
              | Release reason observedAt allowPending =>
                  _ ← throw_if (((status current !== reserved) && negb (allowPending && (status current === pending)))
                                || isSome (get (recoveryReason current)))
                        "uncertain or completed payment identifier cannot be released";
                  Ok (Some (current <| status := safely_released |> <| recoveryReason := Present reason |>
                              <| updatedAt := observedAt |>))
              | Update s at_ reason =>
                  _ ← throw_if ((status current === completed) || (status current === safely_released))
                        "terminal payment identifier reservation cannot change";
                  Ok (Some (current <| status := s |> <| updatedAt := at_ |>
                              <| recoveryReason := match reason with Absent => recoveryReason current | r => r end |>))
              | Reserve _ => Ok None
              end
          end
      end
  end.

(** ** durable-record-budget.ts *)

Definition MAX_DURABLE_HANDLER_RESULT_BYTES : Z := 256 * 1024.
Definition MAX_DURABLE_RESPONSE_BYTES : Z :=
  MAX_DURABLE_HANDLER_RESULT_BYTES + maxEncodedHeaderBytes KASPA_X402_RESOURCE_BUDGET + 1024.
Definition durableByteLength (value : json) : Z := byte_length (JSON_stringify value).
Definition durableOpenRecordBytes (value : json) : Z :=
  durableByteLength value + 2 * MAX_DURABLE_RESPONSE_BYTES.

(** * Specification

    A reservation belongs to whoever made its claim; the state machine of its status. *)

(** What ownership compares: every field, missing and [undefined] alike. *)
Definition owner (c : PaymentIdentifierReservationClaim) :=
  (id c, fingerprint c, paymentPayloadHash c, paymentScopeId c, paymentKind c, ownerId c, payerId c,
   (get (channelId c), get (transactionId c), get (paymentOutputIndex c))).
Abbreviation owned_by c r := (owner (r_claim r) = owner c).

Definition free (current : option PaymentIdentifierReservationRecord) : Prop :=
  match current with Some r => status r = safely_released | None => True end.

Inductive reservation_step (c : PaymentIdentifierReservationClaim) :
    option PaymentIdentifierReservationRecord -> PaymentIdentifierReservationTransition ->
    PaymentIdentifierReservationRecord -> Prop :=
  | step_reserve current at_ :
      free current ->
      reservation_step c current (Reserve at_)
        {| r_claim := c; status := reserved; createdAt := at_; updatedAt := at_; recoveryReason := Absent |}
  | step_complete r at_ :
      owned_by c r -> status r <> safely_released ->
      reservation_step c (Some r) (Complete at_)
        {| r_claim := r_claim r; status := completed; createdAt := createdAt r; updatedAt := at_;
           recoveryReason := Undefined |}
  | step_update r s at_ reason :
      owned_by c r -> status r <> completed -> status r <> safely_released ->
      reservation_step c (Some r) (Update s at_ reason)
        {| r_claim := r_claim r; status := s; createdAt := createdAt r; updatedAt := at_;
           recoveryReason := match reason with Absent => recoveryReason r | _ => reason end |}
  | step_release r reason at_ allowPending :
      owned_by c r ->
      status r = reserved \/ allowPending = true /\ status r = pending ->
      get (recoveryReason r) = None ->
      reservation_step c (Some r) (Release reason at_ allowPending)
        {| r_claim := r_claim r; status := safely_released; createdAt := createdAt r; updatedAt := at_;
           recoveryReason := Present reason |}.

(** The stored reservation after a caller's transition: a refusal, or no successor, writes nothing. *)
Definition apply_transition (current : option PaymentIdentifierReservationRecord)
    (event : PaymentIdentifierReservationClaim * PaymentIdentifierReservationTransition) :=
  match transitionPaymentIdentifierReservation (Some event.1) current event.2 with
  | Ok (Some r) => Some r
  | _ => current
  end.

(** * Lemmas *)

Lemma claims_match a b : paymentIdentifierReservationClaimsMatch a b = true <-> owner a = owner b.
Proof.
  unfold paymentIdentifierReservationClaimsMatch, owner. rewrite !andb_true_iff, !bool_decide_eq_true.
  split; [intros H; decompose [and] H; congruence|intros [=]; repeat split; done].
Qed.

Lemma claims_mismatch a b : paymentIdentifierReservationClaimsMatch a b = false <-> owner a <> owner b.
Proof. rewrite <- claims_match. by destruct (paymentIdentifierReservationClaimsMatch a b). Qed.

Lemma isSome_false {A} (o : option A) : isSome o = false <-> o = None.
Proof. by destruct o. Qed.

Ltac step_inversion :=
  repeat match goal with
  | H : negb (paymentIdentifierReservationClaimsMatch _ _) = false |- _ =>
      apply negb_false_iff, claims_match in H
  | H : Ok _ = Ok _ |- _ => apply Ok_inj in H
  | H : Some _ = Some _ |- _ => injection H as H
  end.

Lemma step_iff c current t r :
  transitionPaymentIdentifierReservation (Some c) current t = Ok (Some r) <-> reservation_step c current t r.
Proof.
  split.
  - unfold transitionPaymentIdentifierReservation. destruct t.
    + destruct (match current with Some r => _ | None => _ end) eqn:E; [done|]. intros [= <-].
      constructor. destruct current; cbn in *; inv_bool; done.
    + destruct current as [cur|]; [|done]. destruct (negb _) eqn:E; [done|]. intros H. inv_result. inv_bool.
      apply claims_match in E. by constructor.
    + destruct current as [cur|]; [|done]. destruct (negb _) eqn:E; [done|]. intros H. inv_result. inv_bool.
      apply claims_match in E. by destruct u_recoveryReason; constructor.
    + destruct current as [cur|]; [|done]. destruct (negb _) eqn:E; [done|]. intros H. inv_result. inv_bool.
      apply claims_match in E.
      match goal with Hr : isSome _ = false, Hs : _ && _ = false |- _ =>
        apply isSome_false in Hr; apply andb_false_iff in Hs end.
      constructor; [done| |done]. destruct_or?; inv_bool; auto.
  - intros [cur at_ Hf|cur at_ Ho Hs|cur s at_ reason Ho Hs1 Hs2|cur reason at_ allow Ho Hs Hr]; cbn.
    + destruct cur; cbn in *; [|done]. by rewrite bool_decide_eq_true_2.
    + apply claims_match in Ho as ->. cbn. by rewrite bool_decide_eq_false_2.
    + apply claims_match in Ho as ->. cbn. rewrite !bool_decide_eq_false_2 by done. cbn. by destruct reason.
    + apply claims_match in Ho as ->. rewrite (proj2 (isSome_false (get (recoveryReason cur)))) by done.
      destruct Hs as [->|[-> ->]]; reflexivity.
Qed.

(** Refusals and empty answers, and only they, leave the store alone. *)
Lemma step_none c current t :
  transitionPaymentIdentifierReservation (Some c) current t = Ok None <->
  ~ free current /\ exists at_, t = Reserve at_.
Proof.
  unfold transitionPaymentIdentifierReservation. destruct t; cbn.
  - destruct current as [cur|]; cbn; [case_bool_decide; cbn; naive_solver|naive_solver].
  - destruct current as [cur|]; [|naive_solver]. repeat (destruct (negb _); cbn); repeat (case_bool_decide; cbn); naive_solver.
  - destruct current as [cur|]; [|naive_solver]. destruct (negb _); cbn; [naive_solver|].
    destruct (_ || _); cbn; naive_solver.
  - destruct current as [cur|]; [|naive_solver]. destruct (negb (paymentIdentifierReservationClaimsMatch _ _)); cbn; [naive_solver|].
    destruct (_ || _); cbn; naive_solver.
Qed.

Lemma apply_spec current e r :
  apply_transition current e = Some r -> reservation_step e.1 current e.2 r \/ current = Some r.
Proof.
  unfold apply_transition. destruct e as [c t]. cbn [fst snd].
  destruct (transitionPaymentIdentifierReservation (Some c) current t) as [[r'|]|] eqn:E; [|by right..].
  intros [= ->]. left. by apply step_iff.
Qed.

Lemma apply_some r e : exists r', apply_transition (Some r) e = Some r'.
Proof. unfold apply_transition. destruct (transitionPaymentIdentifierReservation _ _ _) as [[]|]; eauto. Qed.

(** The updates callers make: a payment under way, or one that needs recovery. *)
Definition caller_event (e : PaymentIdentifierReservationClaim * PaymentIdentifierReservationTransition) : Prop :=
  match e.2 with Update s _ _ => s = pending \/ s = recovery_required | _ => True end.

Lemma completed_stays r e r' :
  apply_transition (Some r) e = Some r' -> status r = completed ->
  status r' = completed /\ r_claim r' = r_claim r /\ createdAt r' = createdAt r.
Proof.
  intros [H|[= ->]]%apply_spec Hs; [|done].
  inversion H; subst; cbn in *; try congruence; [done|]. destruct_or?; destruct_and?; congruence.
Qed.

(** A live reservation keeps its claim, and only its owner's release ends it. *)
Lemma owner_stays r e r' :
  apply_transition (Some r) e = Some r' -> caller_event e -> status r <> safely_released ->
  r_claim r' = r_claim r /\
  (status r' = safely_released -> exists reason at_ allow, e.2 = Release reason at_ allow /\ owned_by e.1 r).
Proof.
  intros [H|[= ->]]%apply_spec He Hs; [|done]. destruct e as [c t]. unfold caller_event in He. cbn [fst snd] in *.
  inversion H; subst; cbn in *; (split; [done|]); try done; [intros ->; naive_solver|eauto 6].
Qed.

(** * Properties *)

(** A payment-identifier transition either follows the state
    machine exactly (reserve a free identifier, complete or update an owned live one, release
    an owned one that is still certain), or answers nothing when a live identifier is
    reserved again, or throws; it throws only when the state machine has no step. *)
Theorem reservation_step_exact c current t :
  transitionPaymentIdentifierReservation None current t = Ok None /\
  match transitionPaymentIdentifierReservation (Some c) current t with
  | Ok (Some r) => reservation_step c current t r
  | Ok None => (exists at_, t = Reserve at_) /\ exists r, current = Some r /\ status r <> safely_released
  | Throw _ => (forall at_, t <> Reserve at_) /\ forall r, ~ reservation_step c current t r
  end.
Proof.
  split; [done|]. destruct (transitionPaymentIdentifierReservation (Some c) current t) as [[r|]|e] eqn:E.
  - by apply step_iff.
  - apply step_none in E as [Hf ?]. split; [done|]. destruct current as [r|]; [|done]. by exists r.
  - split; [|intros r H; apply step_iff in H; congruence]. intros at_ ->. cbn in E.
    destruct (match current with Some r => _ | None => _ end); done.
Qed.

(** Whatever claims and transitions callers bring to one
    identifier, in any order, a reservation never disappears; a completed one stays completed
    for the same claim for ever; and a live one passes to another claim only after a release
    that its own owner asked for. *)
Theorem reservation_ownership r events :
  Forall caller_event events -> status r <> safely_released ->
  exists r', foldl apply_transition (Some r) events = Some r' /\
    (status r = completed -> status r' = completed /\ r_claim r' = r_claim r /\ createdAt r' = createdAt r) /\
    (r_claim r' <> r_claim r ->
       exists before c reason at_ allow after,
         events = before ++ (c, Release reason at_ allow) :: after /\ owned_by c r /\ status r <> completed).
Proof.
  revert r. induction events as [|e events IH]; intros r Hc Hs; [by exists r|].
  apply Forall_cons in Hc as [He Hc]. cbn [foldl]. destruct (apply_some r e) as [r1 E]. rewrite E.
  destruct (owner_stays _ _ _ E He Hs) as [Hk Hrel]. pose proof (completed_stays _ _ _ E) as Hcomp.
  destruct (decide (status r1 = safely_released)) as [Hr1|Hr1].
  - apply Hrel in Hr1 as Hr. destruct Hr as (reason & at_ & allow & Ht & Ho). destruct e as [c t]. cbn in Ht, Ho. subst t.
    assert (status r <> completed) as Hnc by (intros Hx; apply Hcomp in Hx as [? _]; congruence).
    assert (exists r', foldl apply_transition (Some r1) events = Some r') as [r' Er'].
    { clear. revert r1. induction events as [|e events IH]; intros r1; cbn [foldl]; [eauto|].
      destruct (apply_some r1 e) as [r2 ->]. auto. }
    exists r'. split; [done|]. split; [done|]. intros _. exists [], c, reason, at_, allow, events. done.
  - destruct (IH r1 Hc Hr1) as (r' & Er' & Hc' & Hk'). exists r'. split; [done|]. split.
    + intros Hx. destruct (Hcomp Hx) as (H1 & H2 & H3). destruct (Hc' H1) as (? & ? & ?). repeat split; congruence.
    + intros Hne. destruct Hk' as (before & c & reason & at_ & allow & after & -> & Ho & Hnc); [congruence|].
      exists (e :: before), c, reason, at_, allow, after. split; [done|]. split; [congruence|].
      intros Hx. by apply Hcomp in Hx as [? _].
Qed.

Definition well_formed_claim (c : PaymentIdentifierReservationClaim) : Prop :=
  assertPaymentIdentifierReservationClaim c = Ok tt.

(** The two guards are exactly what the transitions need:
    an identifier is available to a claim if and only if the claim is well formed, the
    retained replay record (if any) is of the same payment and the reservation (if any) is
    released or its own; then reserving is refused only when the claim already holds it.  A
    completion that passes its guard always succeeds, for the reservation's owner. *)
Theorem identifier_guards c reservation retained done at_ :
  (assertPaymentIdentifierAvailable (Some c) reservation retained = Ok tt <->
     well_formed_claim c /\
     (forall d, retained = Some d -> i_fingerprint d = fingerprint c /\
        i_paymentPayloadHash d = paymentPayloadHash c /\ i_paymentScopeId d = paymentScopeId c) /\
     (forall r, reservation = Some r -> status r = safely_released \/ owned_by c r)) /\
  (assertPaymentIdentifierAvailable (Some c) reservation retained = Ok tt ->
     (exists r, transitionPaymentIdentifierReservation (Some c) reservation (Reserve at_) = Ok (Some r) /\
        r_claim r = c /\ status r = reserved) \/
     exists r, reservation = Some r /\ owned_by c r /\ status r <> safely_released) /\
  (assertPaymentIdentifierCompletion (Some c) (Some done) reservation retained = Ok tt ->
     exists r r', reservation = Some r /\ owned_by c r /\ id c = i_id done /\ fingerprint c = i_fingerprint done /\
       transitionPaymentIdentifierReservation (Some c) reservation (Complete at_) = Ok (Some r') /\
       status r' = completed /\ r_claim r' = r_claim r).
Proof.
  assert (assertPaymentIdentifierAvailable (Some c) reservation retained = Ok tt <->
     well_formed_claim c /\
     (forall d, retained = Some d -> i_fingerprint d = fingerprint c /\
        i_paymentPayloadHash d = paymentPayloadHash c /\ i_paymentScopeId d = paymentScopeId c) /\
     (forall r, reservation = Some r -> status r = safely_released \/ owned_by c r)) as Ha.
  { unfold assertPaymentIdentifierAvailable, well_formed_claim. split.
    - intros H. inv_result. split; [done|]. split.
      + intros d ->. inv_bool. done.
      + intros r ->. apply andb_false_iff in H as [H|H]; inv_bool; [by left|]. right. by apply claims_match.
    - intros (-> & Hd & Hr). cbn [mbind result_bind]. destruct retained as [d|].
      2: destruct reservation as [r|]; [|done].
      1: destruct (Hd d eq_refl) as (-> & -> & ->); rewrite !bool_decide_eq_true_2 by done; cbn; destruct reservation as [r|]; [|done].
      all: cbn; destruct (Hr r eq_refl) as [->|Ho]; [done|]; apply claims_match in Ho as ->; by rewrite andb_false_r. }
  split; [done|]. split.
  - intros (_ & _ & Hr)%Ha. destruct reservation as [r|].
    + destruct (decide (status r = safely_released)) as [E|E].
      * left. cbn. rewrite bool_decide_eq_true_2 by done. eauto.
      * right. exists r. naive_solver.
    + left. cbn. eauto.
  - unfold assertPaymentIdentifierCompletion. intros H. inv_result. destruct reservation as [r|]; [|done]. inv_bool.
    exists r. match goal with Hm : paymentIdentifierReservationClaimsMatch _ _ = true |- _ => rename Hm into Hm0; apply claims_match in Hm0 end.
    eexists. split; [done|]. split; [done|]. split; [done|]. split; [done|].
    split; [by apply step_iff, step_complete|]. done.
Qed.

(** * Witness data *)

Definition sample_claim (o : string) : PaymentIdentifierReservationClaim := {|
  id := "order-1"; fingerprint := String.concat "" (repeat "1a" 32);
  paymentPayloadHash := String.concat "" (repeat "2b" 32); paymentScopeId := String.concat "" (repeat "3c" 32);
  paymentKind := "exact"; ownerId := String.concat "" (repeat o 32); payerId := "payer";
  channelId := Absent; transactionId := Present (String.concat "" (repeat o 32)); paymentOutputIndex := Present 0 |}.

Definition sample_reservation (s : PaymentIdentifierReservationStatus) : PaymentIdentifierReservationRecord := {|
  r_claim := sample_claim "4d"; status := s; createdAt := "t0"; updatedAt := "t0"; recoveryReason := Absent |}.

Lemma reservation_ownership_witness :
  exists r, foldl apply_transition (Some (sample_reservation pending))
    [(sample_claim "5e", Reserve "t1"); (sample_claim "4d", Release "rejected" "t2" true);
     (sample_claim "5e", Reserve "t3")] = Some r /\ r_claim r = sample_claim "5e".
Proof.
  destruct (reservation_ownership (sample_reservation pending)
    [(sample_claim "5e", Reserve "t1"); (sample_claim "4d", Release "rejected" "t2" true);
     (sample_claim "5e", Reserve "t3")]) as (r & E & _).
  - repeat constructor.
  - discriminate.
  - exists r. split; [exact E|]. vm_compute in E. injection E as <-. reflexivity.
Defined.

Lemma identifier_guards_witness :
  exists r, transitionPaymentIdentifierReservation (Some (sample_claim "5e")) (Some (sample_reservation safely_released))
    (Reserve "t1") = Ok (Some r) /\ r_claim r = sample_claim "5e".
Proof.
  destruct (identifier_guards (sample_claim "5e") (Some (sample_reservation safely_released)) None
    {| i_id := ""; i_fingerprint := ""; i_paymentPayloadHash := ""; i_response := JNull; i_settlement := JNull;
       i_paymentScopeId := ""; i_channelId := Absent; i_transactionId := Absent; i_paymentOutputIndex := Absent |} "t1")
    as (_ & H & _).
  destruct H as [(r & E & Hr & _)|(r & E & _ & Hs)].
  - vm_compute. reflexivity.
  - exists r. split; [exact E|exact Hr].
  - injection E as <-. contradiction Hs. reflexivity.
Defined.
