(* ===== verification/Dates.v ===== *)
(** * [Date.parse]

    The date-time form that [Date.prototype.toISOString] writes, [YYYY-MM-DDTHH:mm:ss.sssZ],
    is read and written as ECMA-262 defines it.  Every other text, which the standard leaves to the
    implementation and the local time zone, is read by a parameter; no theorem depends on it. *)

From S2P Require Import Prelude Amount.

(** ECMA-262: DayFromYear and the first day of each month. *)
Definition day_from_year (y : Z) : Z :=
  365 * (y - 1970) + (y - 1969) / 4 - (y - 1901) / 100 + (y - 1601) / 400.
Definition leap_year (y : Z) : bool :=
  (y mod 4 =? 0) && negb (y mod 100 =? 0) || (y mod 400 =? 0).
Definition month_lengths (y : Z) : list Z :=
  [31; if leap_year y then 29 else 28; 31; 30; 31; 30; 31; 31; 30; 31; 30; 31].

Definition two_digits (a b : ascii) : option Z :=
  if is_digit a && is_digit b then Some (10 * (code a - 48) + (code b - 48)) else None.
Definition is_char (n : Z) (c : ascii) : bool := code c =? n.

Definition iso_time (y mo d h mi s ms : Z) : option Z :=
  let days := month_lengths y in
  let month := Z.to_nat (mo - 1) in
  if (1 <=? mo) && (mo <=? 12) && (1 <=? d) && (d <=? default 0 (days !! month))
     && (h <=? 23) && (mi <=? 59) && (s <=? 59) then
    let day := day_from_year y + foldr Z.add 0 (take month days) + (d - 1) in
    Some ((((day * 24 + h) * 60 + mi) * 60 + s) * 1000 + ms)
  else None.

Definition iso_utc (text : string) : option Z :=
  match list_ascii_of_string text with
  | [y1; y2; y3; y4; dash1; m1; m2; dash2; d1; d2; tee; h1; h2; colon1; n1; n2; colon2; s1; s2; dot; f1; f2; f3; zed] =>
      if is_char 45 dash1 && is_char 45 dash2 && is_char 84 tee && is_char 58 colon1 && is_char 58 colon2
         && is_char 46 dot && is_char 90 zed && is_digit f3 then
        yh ← two_digits y1 y2; yl ← two_digits y3 y4; mo ← two_digits m1 m2; d ← two_digits d1 d2;
        h ← two_digits h1 h2; mi ← two_digits n1 n2; s ← two_digits s1 s2; f ← two_digits f1 f2;
        iso_time (100 * yh + yl) mo d h mi s (10 * f + (code f3 - 48))
      else None
  | _ => None
  end.

(** ECMA-262 [Date.prototype.toISOString]: year, month and day of a day number, counted from
    1 March of year 0 in 400-year eras. *)
Definition civil (days : Z) : Z * Z * Z :=
  let z := days + 719468 in
  let era := z / 146097 in
  let doe := z - era * 146097 in
  let yoe := (doe - doe / 1460 + doe / 36524 - doe / 146096) / 365 in
  let doy := doe - (365 * yoe + yoe / 4 - yoe / 100) in
  let mp := (5 * doy + 2) / 153 in
  let m := if mp <? 10 then mp + 3 else mp - 9 in
  (yoe + era * 400 + (if m <=? 2 then 1 else 0), m, doy - (153 * mp + 2) / 5 + 1).
Fixpoint padded (width : nat) (n : Z) : string :=
  match width with
  | O => ""
  | S w => padded w (n / 10) +:+ String (digit (n mod 10)) ""
  end.
Definition toISOString (t : Z) : result string :=
  _ ← throw_if (8640000000000000 <? Z.abs t) "Invalid time value";
  let '(y, m, d) := civil (t / 86400000) in
  let ms := t mod 86400000 in
  let year := if (0 <=? y) && (y <=? 9999) then padded 4 y
              else (if y <? 0 then "-" else "+") +:+ padded 6 (Z.abs y) in
  Ok (year +:+ "-" +:+ padded 2 m +:+ "-" +:+ padded 2 d +:+ "T" +:+ padded 2 (ms / 3600000) +:+ ":"
      +:+ padded 2 (ms / 60000 mod 60) +:+ ":" +:+ padded 2 (ms / 1000 mod 60) +:+ "." +:+ padded 3 (ms mod 1000) +:+ "Z").

Section Dates.
Context (other_dates : string -> option Z).
(** [None] is [NaN]. *)
Definition Date_parse (s : string) : option Z :=
  match iso_utc s with Some t => Some t | None => other_dates s end.
End Dates.

Example epoch : iso_utc "1970-01-01T00:00:00.000Z" = Some 0.
Proof. reflexivity. Qed.
Example leap_day : iso_utc "2024-02-29T23:59:59.999Z" = Some 1709251199999.
Proof. reflexivity. Qed.
Example not_a_day : iso_utc "2023-02-29T00:00:00.000Z" = None.
Proof. reflexivity. Qed.
Example leap_day_text : toISOString 1709251199999 = Ok "2024-02-29T23:59:59.999Z".
Proof. reflexivity. Qed.
Example before_epoch : toISOString (-1) = Ok "1969-12-31T23:59:59.999Z".
Proof. reflexivity. Qed.
