(* ===== verification/DateText.v ===== *)
(** * Dates as text and back

    [Date.prototype.toISOString] and [Date.parse] are inverse on the years 0 to 9999.  The
    calendar computation of Dates.v counts in years that begin on 1 March; the year is found
    by a monotone division, so the 400 years of an era are checked at their first and last
    days only. *)

From S2P Require Import Prelude Amount Dates.

(** ** Years that begin in March *)

(** The first day of a year within its era, in days since 1 March of year 0 *)
Definition march_start (y : Z) : Z := 365 * y + y / 4 - y / 100 + y / 400.
(** The division of [civil], before the division by 365 *)
Definition year_numerator (doe : Z) : Z := doe - doe / 1460 + doe / 36524 - doe / 146096.
Definition yoe_of (doe : Z) : Z := year_numerator doe / 365.

Lemma year_numerator_monotone a b : 0 <= a <= b -> b < 146097 -> year_numerator a <= year_numerator b.
Proof. unfold year_numerator. intros. Z.to_euclidean_division_equations. lia. Qed.

Lemma Forall_seq (p : nat -> bool) n : forallb p (seq 0 n) = true -> forall k, (k < n)%nat -> p k = true.
Proof. rewrite forallb_forall. intros H k Hk. apply H, in_seq. lia. Qed.

Definition year_checked (k : nat) : bool :=
  let y := Z.of_nat k in (yoe_of (march_start y) =? y) && (yoe_of (march_start (y + 1) - 1) =? y).
Lemma years_checked : forallb year_checked (seq 0 400) = true.
Proof. vm_compute. reflexivity. Qed.

Lemma march_start_step y : march_start y < march_start (y + 1).
Proof. unfold march_start. Z.to_euclidean_division_equations. lia. Qed.
Lemma march_start_le y y' : y <= y' -> march_start y <= march_start y'.
Proof.
  intros H. replace y' with (y + Z.of_nat (Z.to_nat (y' - y))) by lia. generalize (Z.to_nat (y' - y)). intros n.
  induction n as [|n IH]; [by rewrite Z.add_0_r|]. pose proof (march_start_step (y + Z.of_nat n)).
  replace (y + Z.of_nat (S n)) with (y + Z.of_nat n + 1) by lia. lia.
Qed.

(** Every day of an era is in the year that [civil] computes. *)
Lemma year_of_era doe :
  0 <= doe < 146097 -> 0 <= yoe_of doe < 400 /\ march_start (yoe_of doe) <= doe < march_start (yoe_of doe + 1).
Proof.
  intros Hd.
  assert (forall n : nat, (n <= 400)%nat -> doe < march_start (Z.of_nat n) ->
    exists k : nat, (k < n)%nat /\ march_start (Z.of_nat k) <= doe < march_start (Z.of_nat k + 1)) as Hfind.
  { induction n as [|n IH]; intros Hn Hlt; [change (march_start (Z.of_nat 0)) with 0 in Hlt; lia|].
    destruct (Z.lt_ge_cases doe (march_start (Z.of_nat n))) as [H|H].
    - destruct (IH ltac:(lia) H) as (k & Hk & Hb). exists k. split; [lia|done].
    - exists n. split; [lia|]. replace (Z.of_nat n + 1) with (Z.of_nat (S n)) by lia. done. }
  destruct (Hfind 400%nat ltac:(lia)) as (k & Hk & Hb); [change (march_start (Z.of_nat 400)) with 146097; lia|].
  pose proof (Forall_seq _ _ years_checked k Hk) as Hc. apply andb_true_iff in Hc as [H1 H2].
  apply Z.eqb_eq in H1, H2.
  assert (0 <= march_start (Z.of_nat k)) by (apply (march_start_le 0); lia).
  assert (march_start (Z.of_nat k + 1) - 1 < 146097).
  { pose proof (march_start_le (Z.of_nat k + 1) 400 ltac:(lia)) as H3. change (march_start 400) with 146097 in H3. lia. }
  assert (yoe_of doe = Z.of_nat k) as ->; [|lia].
  unfold yoe_of in *. apply Z.le_antisymm.
  - rewrite <- H2. apply Z.div_le_mono; [lia|]. apply year_numerator_monotone; lia.
  - rewrite <- H1. apply Z.div_le_mono; [lia|]. apply year_numerator_monotone; lia.
Qed.

(** ** Months *)

Definition months (leap : bool) : list Z := [31; if leap then 29 else 28; 31; 30; 31; 30; 31; 31; 30; 31; 30; 31].
(** Month and day of a day of a March year *)
Definition month_of (doy : Z) : Z := let mp := (5 * doy + 2) / 153 in if mp <? 10 then mp + 3 else mp - 9.
Definition day_of (doy : Z) : Z := doy - (153 * ((5 * doy + 2) / 153) + 2) / 5 + 1.
Definition first_of (leap : bool) (m : Z) : Z := foldr Z.add 0 (take (Z.to_nat (m - 1)) (months leap)).
(** The day of the civil year, given whether that year is a leap year *)
Definition month_checked (leap : bool) (k : nat) : bool :=
  let doy := Z.of_nat k in
  let m := month_of doy in
  let d := day_of doy in
  (1 <=? m) && (m <=? 12) && (1 <=? d) && (d <=? default 0 (months leap !! Z.to_nat (m - 1)))
  && (if m <=? 2 then (306 <=? doy) && (first_of leap m + (d - 1) =? doy - 306)
      else (doy <? 306) && (first_of leap m + (d - 1) =? doy + 59 + (if leap then 1 else 0))).
Lemma months_checked : forallb (month_checked true) (seq 0 366) && forallb (month_checked false) (seq 0 365) = true.
Proof. vm_compute. reflexivity. Qed.
Lemma month_exact (leap : bool) doy :
  0 <= doy < 365 + (if leap then 1 else 0) ->
  let m := month_of doy in
  let d := day_of doy in
  1 <= m <= 12 /\ 1 <= d <= default 0 (months leap !! Z.to_nat (m - 1)) /\
  (m <= 2 /\ 306 <= doy /\ first_of leap m + (d - 1) = doy - 306 \/
   2 < m /\ doy < 306 /\ first_of leap m + (d - 1) = doy + 59 + (if leap then 1 else 0)).
Proof.
  intros Hd m d. pose proof months_checked as H. apply andb_true_iff in H as [Ht Hf].
  assert (month_checked leap (Z.to_nat doy) = true) as H.
  { destruct leap; [eapply Forall_seq in Ht|eapply Forall_seq in Hf]; try eassumption; lia. }
  unfold month_checked in H. rewrite Z2Nat.id in H by lia. fold m d in H. destruct (m <=? 2) eqn:Em; inv_bool; lia.
Qed.
(** The last day of February is one of a leap year. *)
Lemma early_month doy : 0 <= doy < 365 -> (month_of doy <=? 2) = (306 <=? doy).
Proof.
  intros Hd. destruct (month_exact false doy ltac:(lia)) as (_ & _ & [(? & ? & _)|(? & ? & _)]);
    destruct (month_of doy <=? 2) eqn:E; destruct (306 <=? doy) eqn:E'; inv_bool; lia.
Qed.

(** ** Days *)

Lemma leap_exact y : leap_year y = true <-> (y mod 4 = 0 /\ y mod 100 <> 0 \/ y mod 400 = 0).
Proof.
  unfold leap_year. rewrite orb_true_iff, andb_true_iff, negb_true_iff, !Z.eqb_eq, Z.eqb_neq. done.
Qed.
Lemma day_from_year_march y : day_from_year (y + 1) = march_start y - 719162.
Proof. unfold day_from_year, march_start. Z.to_euclidean_division_equations. lia. Qed.
Lemma day_from_year_next y : day_from_year (y + 1) = day_from_year y + 365 + (if leap_year y then 1 else 0).
Proof.
  destruct (leap_year y) eqn:E; [apply leap_exact in E|apply not_true_iff_false in E; rewrite leap_exact in E];
    unfold day_from_year; Z.to_euclidean_division_equations; lia.
Qed.
Lemma march_length y : march_start (y + 1) = march_start y + 365 + (if leap_year (y + 1) then 1 else 0).
Proof.
  pose proof (day_from_year_march (y + 1)). pose proof (day_from_year_march y). pose proof (day_from_year_next (y + 1)). lia.
Qed.
Lemma march_era y era : march_start (y + era * 400) = march_start y + era * 146097.
Proof. unfold march_start. Z.to_euclidean_division_equations. lia. Qed.

Lemma civil_exact days y m d :
  civil days = (y, m, d) ->
  1 <= m <= 12 /\ 1 <= d <= default 0 (month_lengths y !! Z.to_nat (m - 1)) /\
  day_from_year y + foldr Z.add 0 (take (Z.to_nat (m - 1)) (month_lengths y)) + (d - 1) = days.
Proof.
  unfold civil. set (z := days + 719468). set (era := z / 146097). set (doe := z - era * 146097).
  change ((doe - doe / 1460 + doe / 36524 - doe / 146096) / 365) with (yoe_of doe). set (yoe := yoe_of doe).
  assert (0 <= doe < 146097) as Hdoe by (subst doe era; Z.to_euclidean_division_equations; lia).
  destruct (year_of_era doe Hdoe) as [Hy Hb]. fold yoe in Hy, Hb.
  set (doy := doe - (365 * yoe + yoe / 4 - yoe / 100)).
  change (if (5 * doy + 2) / 153 <? 10 then (5 * doy + 2) / 153 + 3 else (5 * doy + 2) / 153 - 9) with (month_of doy).
  change (doy - (153 * ((5 * doy + 2) / 153) + 2) / 5 + 1) with (day_of doy).
  assert (doy = doe - march_start yoe) as Hdoy by (subst doy; unfold march_start; Z.to_euclidean_division_equations; lia).
  clearbody doy. set (Y := yoe + era * 400).
  assert (days = march_start Y + doy - 719468) as Hdays by (subst Y; rewrite march_era; subst z; lia).
  rewrite march_length in Hb.
  replace (leap_year (yoe + 1)) with (leap_year (Y + 1)) in Hb.
  2: { apply eq_true_iff_eq. rewrite !leap_exact. subst Y. Z.to_euclidean_division_equations. lia. }
  clearbody Y. intros [= <- <- <-].
  pose proof (day_from_year_march Y). pose proof (day_from_year_next Y).
  destruct (Z.lt_ge_cases doy 306) as [Hlt|Hge].
  - destruct (month_exact (leap_year Y) doy) as (Hm & Hd & [(?&?&_)|(Hm2 & _ & He)]); [destruct (leap_year Y); lia|lia|].
    rewrite (proj2 (Z.leb_gt (month_of doy) 2)) by lia. rewrite Z.add_0_r.
    change (month_lengths Y) with (months (leap_year Y)). unfold first_of in He. split; [done|]. split; [done|]. lia.
  - destruct (month_exact (leap_year (Y + 1)) doy) as (Hm & Hd & [(Hm2 & _ & He)|(?&?&_)]); [destruct (leap_year (Y + 1)); lia| |lia].
    rewrite (proj2 (Z.leb_le (month_of doy) 2)) by lia.
    change (month_lengths (Y + 1)) with (months (leap_year (Y + 1))). unfold first_of in He. split; [done|]. split; [done|]. lia.
Qed.

(** ** Text *)

Lemma two_digits_digit a b : 0 <= a < 10 -> 0 <= b < 10 -> two_digits (digit a) (digit b) = Some (10 * a + b).
Proof. intros Ha Hb. unfold two_digits. rewrite !is_digit_digit, !code_digit by done. cbn [andb]. f_equal. lia. Qed.
Lemma padded_2 n s : padded 2 n +:+ s = String (digit (n / 10 mod 10)) (String (digit (n mod 10)) s).
Proof. reflexivity. Qed.
Lemma padded_3 n s : padded 3 n +:+ s = String (digit (n / 10 / 10 mod 10)) (String (digit (n / 10 mod 10)) (String (digit (n mod 10)) s)).
Proof. reflexivity. Qed.
Lemma padded_4 n s :
  padded 4 n +:+ s = String (digit (n / 10 / 10 / 10 mod 10)) (String (digit (n / 10 / 10 mod 10))
                       (String (digit (n / 10 mod 10)) (String (digit (n mod 10)) s))).
Proof. reflexivity. Qed.
Lemma pair_value n : 0 <= n < 100 -> two_digits (digit (n / 10 mod 10)) (digit (n mod 10)) = Some n.
Proof.
  intros Hn. rewrite two_digits_digit by (apply Z.mod_pos_bound; lia). f_equal. Z.to_euclidean_division_equations. lia.
Qed.

Definition iso_text (y m d h mi s ms : Z) : string :=
  padded 4 y +:+ "-" +:+ padded 2 m +:+ "-" +:+ padded 2 d +:+ "T" +:+ padded 2 h +:+ ":" +:+ padded 2 mi +:+ ":"
  +:+ padded 2 s +:+ "." +:+ padded 3 ms +:+ "Z".
Lemma iso_text_read y m d h mi s ms :
  0 <= y < 10000 -> 0 <= m < 100 -> 0 <= d < 100 -> 0 <= h < 100 -> 0 <= mi < 100 -> 0 <= s < 100 -> 0 <= ms < 1000 ->
  iso_utc (iso_text y m d h mi s ms) = iso_time y m d h mi s ms.
Proof.
  intros Hy Hm Hd Hh Hmi Hs Hms. unfold iso_text. rewrite padded_4, !padded_2, padded_3. rewrite !append_cons, !append_nil.
  unfold iso_utc. cbn [list_ascii_of_string]. 
  replace (y / 10 / 10 / 10 mod 10) with (y / 100 / 10 mod 10) by (Z.to_euclidean_division_equations; lia).
  replace (y / 10 / 10 mod 10) with (y / 100 mod 10) by (Z.to_euclidean_division_equations; lia).
  replace (y / 10 mod 10) with (y mod 100 / 10 mod 10) by (Z.to_euclidean_division_equations; lia).
  replace (y mod 10) with (y mod 100 mod 10) by (Z.to_euclidean_division_equations; lia).
  rewrite (pair_value (y / 100)), (pair_value (y mod 100)), !pair_value by (Z.to_euclidean_division_equations; lia).
  rewrite is_digit_digit, code_digit by (apply Z.mod_pos_bound; lia).
  change (is_char 45 "-") with true. change (is_char 84 "T") with true. change (is_char 58 ":") with true.
  change (is_char 46 ".") with true. change (is_char 90 "Z") with true. cbn [andb mbind option_bind].
  f_equal; Z.to_euclidean_division_equations; lia.
Qed.

Lemma within_year (leap : bool) m d :
  1 <= m <= 12 -> 1 <= d <= default 0 (months leap !! Z.to_nat (m - 1)) ->
  0 <= foldr Z.add 0 (take (Z.to_nat (m - 1)) (months leap)) + (d - 1) < 365 + (if leap then 1 else 0) /\ d <= 31.
Proof.
  intros Hm.
  assert (m = 1 \/ m = 2 \/ m = 3 \/ m = 4 \/ m = 5 \/ m = 6 \/ m = 7 \/ m = 8 \/ m = 9 \/ m = 10 \/ m = 11 \/ m = 12) as H by lia.
  destruct leap; repeat destruct H as [->|H]; subst;
    match goal with |- context [foldr ?f ?z ?l] => let v := eval vm_compute in (foldr f z l) in change (foldr f z l) with v end;
    match goal with |- context [default ?z ?o] => let v := eval vm_compute in (default z o) in change (default z o) with v end; lia.
Qed.
Lemma civil_year days y m d : civil days = (y, m, d) -> -719528 <= days <= 2932896 -> 0 <= y <= 9999.
Proof.
  intros H Hd. destruct (civil_exact days y m d H) as (Hm & Hday & He).
  destruct (within_year (leap_year y) m d Hm Hday) as [Hw _]. change (months (leap_year y)) with (month_lengths y) in Hw.
  pose proof (day_from_year_next y). pose proof (day_from_year_march y). pose proof (day_from_year_march (y - 1)) as Hp.
  replace (y - 1 + 1) with y in Hp by lia. split.
  - apply Z.nlt_ge. intros Hy. pose proof (march_start_le y (-1) ltac:(lia)) as Hl. change (march_start (-1)) with (-366) in Hl. lia.
  - apply Z.nlt_ge. intros Hy. pose proof (march_start_le 9999 (y - 1) ltac:(lia)) as Hl. change (march_start 9999) with 3652059 in Hl. lia.
Qed.

(** [Date.parse(new Date(t).toISOString())] is [t] again for every time of the years 0
    to 9999; the text is the one that [toISOString] writes without a sign. *)
Lemma date_roundtrip t :
  -62167219200000 <= t <= 253402300799999 ->
  exists text, toISOString t = Ok text /\ iso_utc text = Some t.
Proof.
  intros Ht. unfold toISOString. cbv zeta. unfold throw_if. rewrite (proj2 (Z.ltb_ge _ _)) by lia. cbn [mbind result_bind].
  destruct (civil (t / 86400000)) as [[y m] d] eqn:Hc.
  assert (-719528 <= t / 86400000 <= 2932896) as Hdays by (Z.to_euclidean_division_equations; lia).
  pose proof (civil_year _ _ _ _ Hc Hdays) as Hy. destruct (civil_exact _ _ _ _ Hc) as (Hm & Hd & He).
  destruct (within_year (leap_year y) m d Hm Hd) as [_ Hd31].
  assert (0 <= t mod 86400000 < 86400000) as Hms by (apply Z.mod_pos_bound; lia). set (ms := t mod 86400000) in *.
  rewrite (proj2 (Z.leb_le 0 y)), (proj2 (Z.leb_le y 9999)) by lia. cbn [andb].
  change (_ +:+ "-" +:+ _) with (iso_text y m d (ms / 3600000) (ms / 60000 mod 60) (ms / 1000 mod 60) (ms mod 1000)).
  eexists. split; [done|]. rewrite iso_text_read by (try apply Z.mod_pos_bound; Z.to_euclidean_division_equations; lia).

  unfold iso_time. cbv zeta. rewrite (proj2 (Z.leb_le 1 m)), (proj2 (Z.leb_le m 12)), (proj2 (Z.leb_le 1 d)),
    (proj2 (Z.leb_le d _)) by lia.
  assert (ms / 3600000 <= 23) by (Z.to_euclidean_division_equations; lia).
  pose proof (Z.mod_pos_bound (ms / 60000) 60 ltac:(lia)). pose proof (Z.mod_pos_bound (ms / 1000) 60 ltac:(lia)).
  rewrite !(proj2 (Z.leb_le _ _)) by lia. cbn [andb]. f_equal. rewrite He. subst ms. Z.to_euclidean_division_equations. lia.
Qed.
