(* ===== verification/Channels.v ===== *)
(** * Server channels

    Models [ServerChannelRecord] (types.ts), the escrow launch identity
    ([ESCROW_V5_LAUNCH_IDENTITY] of [protocol/packages/covenant/src/template.ts] with the
    generated declarations) and [protocol/packages/server/src/channel-lineage.ts]: when a
    channel agrees with its covenant lineage and when one channel record may follow another. *)

From S2P Require Import Prelude Amount Json Binary ResourceBudget Commitment ChainTruth Template.

(** ** Records *)

Inductive ChannelStatus := Active | Retired | Refunded | Suspicious.
#[export] Instance channel_status_eq_dec : EqDecision ChannelStatus.
Proof. solve_decision. Defined.

Record CovenantGenesisVerification := {
  gv_covenantId : string;
  gv_authorizingInput : FundingOutpoint;
  genesisOutpoint : FundingOutpoint;
  genesisScriptPublicKey : string;
  genesisAmount : string;
  totalOutputCount : Z;
  authorizedOutputCount : Z;
  gv_acceptance : AcceptedTransactionEvidence
}.

Record ServerChannelRecord := {
  sv_channelId : string;
  sv_covenantId : string;
  sv_version : string;
  genesisEvidence : CovenantGenesisVerification;
  channelConfig : ChannelConfig;
  escrowAddress : string;
  activeOutpoint : FundingOutpoint;
  activeScriptPublicKey : string;
  sv_fundingAmount : string;
  sv_chargedCumulativeAmount : string;
  sv_claimedCumulativeAmount : string;
  sv_signedMaxClaimable : string;
  voucherSignature : prop string;
  lastCommitmentId : prop string;
  lineage : CovenantLineageState;
  sv_status : ChannelStatus
}.
#[export] Instance channel_eta : Settable ServerChannelRecord := fun c =>
  Build_ServerChannelRecord (sv_channelId c) (sv_covenantId c) (sv_version c) (genesisEvidence c) (channelConfig c)
    (escrowAddress c) (activeOutpoint c) (activeScriptPublicKey c) (sv_fundingAmount c)
    (sv_chargedCumulativeAmount c) (sv_claimedCumulativeAmount c) (sv_signedMaxClaimable c) (voucherSignature c)
    (lastCommitmentId c) (lineage c) (sv_status c).

(** ** Their JSON *)

Definition channel_status_text (s : ChannelStatus) : string :=
  match s with Active => "active" | Retired => "retired" | Refunded => "refunded" | Suspicious => "suspicious" end.
Definition genesis_evidence_json (g : CovenantGenesisVerification) : json :=
  JObject [("covenantId", JString (gv_covenantId g)); ("authorizingInput", outpoint_json (gv_authorizingInput g));
           ("genesisOutpoint", outpoint_json (genesisOutpoint g));
           ("genesisScriptPublicKey", JString (genesisScriptPublicKey g));
           ("genesisAmount", JString (genesisAmount g)); ("totalOutputCount", JNumber (totalOutputCount g));
           ("authorizedOutputCount", JNumber (authorizedOutputCount g));
           ("acceptance", accepted_json (gv_acceptance g))].
Definition config_json (c : ChannelConfig) : json :=
  JObject [("network", JString (cc_network c)); ("asset", JString (cc_asset c));
           ("templateId", JString (cc_templateId c)); ("clientPublicKey", JString (cc_clientPublicKey c));
           ("serverPublicKey", JString (cc_serverPublicKey c)); ("payTo", JString (cc_payTo c));
           ("refundAddress", JString (cc_refundAddress c)); ("refundTimeoutDaa", JString (cc_refundTimeoutDaa c));
           ("salt", JString (cc_salt c))].
Definition channel_json (c : ServerChannelRecord) : json :=
  JObject ([("channelId", JString (sv_channelId c)); ("covenantId", JString (sv_covenantId c));
            ("version", JString (sv_version c)); ("genesisEvidence", genesis_evidence_json (genesisEvidence c));
            ("channelConfig", config_json (channelConfig c)); ("escrowAddress", JString (escrowAddress c));
            ("activeOutpoint", outpoint_json (activeOutpoint c));
            ("activeScriptPublicKey", JString (activeScriptPublicKey c));
            ("fundingAmount", JString (sv_fundingAmount c));
            ("chargedCumulativeAmount", JString (sv_chargedCumulativeAmount c));
            ("claimedCumulativeAmount", JString (sv_claimedCumulativeAmount c));
            ("signedMaxClaimable", JString (sv_signedMaxClaimable c))]
           ++ jprop "voucherSignature" JString (voucherSignature c)
           ++ jprop "lastCommitmentId" JString (lastCommitmentId c)
           ++ [("lineage", state_json (lineage c)); ("status", JString (channel_status_text (sv_status c)))]).

(** ** The launch identity *)

Definition ESCROW_V5_SOURCE_PATH : string := "contracts/kaspa-x402-escrow-v5.sil".
Definition ESCROW_V5_SOURCE_SHA256 : string :=
  "9f25f3f788ffb3da2afe1a27517a63c7377978c290b62b81890acc9e97df44c4".
Definition ESCROW_V5_COMPILED_BASE_SHA256 : string :=
  "2ee869bc844736a851a4ff938e1a3ce00ef39fd46cf4b23b38405511fc4557e1".
Definition ESCROW_TEMPLATE_ID : string := "kaspa-x402-escrow-v5".

(** The constructor slots as the manifest records them. *)
Definition INTERNAL_CONSTRUCTOR_SLOTS : json :=
  JObject [("claimedCumulativeAmount", JObject [("name", JString "claimedCumulativeAmount"); ("source",
    JString "sample.params.claimedCumulativeAmount"); ("encoding", JString "signed-int64-le"); ("offsets",
    JArray [JNumber 2]); ("bytes", JNumber 8)]); ("serverPublicKey", JObject [("name", JString
    "serverPublicKey"); ("source", JString "sample.params.serverPublicKey"); ("encoding", JString "hex");
    ("offsets", JArray [JNumber 103; JNumber 604]); ("bytes", JNumber 32)]); ("networkHash", JObject
    [("name", JString "networkHash"); ("source", JString "sha256(utf8(sample.params.network))");
    ("encoding", JString "hex"); ("offsets", JArray [JNumber 236]); ("bytes", JNumber 32)]);
    ("clientPublicKey", JObject [("name", JString "clientPublicKey"); ("source", JString
    "sample.params.clientPublicKey"); ("encoding", JString "hex"); ("offsets", JArray [JNumber 279; JNumber
    568; JNumber 902]); ("bytes", JNumber 32)]); ("payoutScriptPublicKeyHash", JObject [("name", JString
    "payoutScriptPublicKeyHash"); ("source", JString "sample.params.payoutScriptPublicKeyHash");
    ("encoding", JString "hex"); ("offsets", JArray [JNumber 361]); ("bytes", JNumber 32)]);
    ("refundScriptPublicKeyHash", JObject [("name", JString "refundScriptPublicKeyHash"); ("source", JString
    "sample.params.refundScriptPublicKeyHash"); ("encoding", JString "hex"); ("offsets", JArray [JNumber
    727; JNumber 1005]); ("bytes", JNumber 32)]); ("timeoutDaa", JObject [("name", JString "timeoutDaa");
    ("source", JString "sample.params.timeoutDaa"); ("encoding", JString "signed-int64-le"); ("offsets",
    JArray [JNumber 881]); ("bytes", JNumber 8)])].
Definition ESCROW_V5_GENERATED_DECLARATIONS : json :=
  JObject [("runtimeState", JObject [("source", JString "State"); ("fields", JArray [JObject [("name",
    JString "claimedCumulativeAmount"); ("type", JObject [("kind", JString "int")])]])]);
    ("covenantDeclarations", JObject [("claim", JString "__covenant_entrypoint_auth_claim"); ("topUp",
    JString "__covenant_entrypoint_auth_topUp")]); ("entries", JObject [("__covenant_entrypoint_auth_claim",
    JObject [("dispatch_tag", JString "23959b42"); ("params", JArray [JObject [("name", JString
    "serverSig"); ("type", JObject [("kind", JString "sig")])]; JObject [("name", JString "clientVoucher");
    ("type", JObject [("kind", JString "datasig")])]; JObject [("name", JString
    "authorizedCumulativeAmountLe"); ("type", JObject [("kind", JString "fixed_bytes"); ("len", JNumber
    8)])]; JObject [("name", JString "claimAmountLe"); ("type", JObject [("kind", JString "fixed_bytes");
    ("len", JNumber 8)])]])]); ("__covenant_entrypoint_auth_topUp", JObject [("dispatch_tag", JString
    "ae09679c"); ("params", JArray [JObject [("name", JString "clientSig"); ("type", JObject [("kind",
    JString "sig")])]; JObject [("name", JString "providerSig"); ("type", JObject [("kind", JString
    "sig")])]])]); ("refund", JObject [("dispatch_tag", JString "17a2027b"); ("params", JArray [JObject
    [("name", JString "clientSig"); ("type", JObject [("kind", JString "sig")])]])])]); ("templateHash",
    JString "47a1700e5d18ef5c3af781a28114042d2b37335e7a8c06f8ad9ded3533bb279e")].
Definition INTERNAL_SELECTORS : json :=
  JObject [("claim", JString (sel_claim ESCROW_V5_SELECTORS)); ("topUp", JString (sel_topUp ESCROW_V5_SELECTORS));
           ("refund", JString (sel_refund ESCROW_V5_SELECTORS))].

Record LaunchIdentity := {
  li_compiler : Compiler;
  li_source : SourceFile;
  li_bytecode : Bytecode;
  li_constructorSlots : json;
  li_abi : json;
  li_selectors : json;
  li_identitySha256 : string
}.
Definition escrow_compiler : Compiler := {|
  compiler_name := "silverc";
  checkedCommit := "3ed973335b59269293564805cc2c58a14595ec03";
  command := "cd <silverscript-checkout> && cargo run --quiet -p silverscript-lang --bin silverc -- <kaspa-x402-root>/contracts/kaspa-x402-escrow-v5.sil --constructor-args <args.json> -c > <out.json>"
|}.
Definition escrow_source : SourceFile := {| path := ESCROW_V5_SOURCE_PATH; source_sha256 := ESCROW_V5_SOURCE_SHA256 |}.
Definition escrow_bytecode : Bytecode :=
  {| templateId := ESCROW_TEMPLATE_ID; compiledBaseSha256 := ESCROW_V5_COMPILED_BASE_SHA256 |}.
Definition ESCROW_V5_IDENTITY_MATERIAL : json :=
  JObject [("compiler", compiler_json escrow_compiler); ("source", source_json escrow_source);
           ("bytecode", bytecode_json escrow_bytecode); ("constructorSlots", INTERNAL_CONSTRUCTOR_SLOTS);
           ("abi", ESCROW_V5_GENERATED_DECLARATIONS); ("selectors", INTERNAL_SELECTORS)].

Section Channels.
Context (sha256 : bytes -> bytes).

Definition ESCROW_V5_LAUNCH_IDENTITY : LaunchIdentity := {|
  li_compiler := escrow_compiler; li_source := escrow_source; li_bytecode := escrow_bytecode;
  li_constructorSlots := INTERNAL_CONSTRUCTOR_SLOTS; li_abi := ESCROW_V5_GENERATED_DECLARATIONS;
  li_selectors := INTERNAL_SELECTORS; li_identitySha256 := sha256Hex sha256 (stableJson ESCROW_V5_IDENTITY_MATERIAL) |}.

(** ** channel-lineage.ts *)

(** [stableStringify(a) !== stableStringify(b)] *)
Definition texts_differ (a b : json) : result bool :=
  left_text ← stableStringify a; right_text ← stableStringify b; Ok (left_text !== right_text).

(** The short-circuit chain of the launch manifest check. *)
Definition manifest_differs (channel : ServerChannelRecord) : result bool :=
  let manifest := manifest (lineage channel) in
  let identity := ESCROW_V5_LAUNCH_IDENTITY in
  let genesis := genesis manifest in
  let evidence := genesisEvidence channel in
  let lower_differs a b := toLowerCase a !== toLowerCase b in
  or_else (Ok (network manifest !== cc_network (channelConfig channel))) (
  or_else (texts_differ (compiler_json (compiler manifest)) (compiler_json (li_compiler identity))) (
  or_else (texts_differ (source_json (source manifest)) (source_json (li_source identity))) (
  or_else (texts_differ (bytecode_json (bytecode manifest)) (bytecode_json (li_bytecode identity))) (
  or_else (texts_differ (constructorSlots manifest) (li_constructorSlots identity)) (
  or_else (texts_differ (abi manifest) (li_abi identity)) (
  or_else (texts_differ (selectors manifest) (li_selectors identity)) (
  or_else (Ok (lower_differs (identitySha256 manifest) (li_identitySha256 identity)
               || lower_differs (genesis_covenantId genesis) (sv_covenantId channel)
               || lower_differs (genesis_transactionId genesis) (txid (genesisOutpoint evidence))
               || negb (sameOutpoint (authorizingInputOutpoint genesis) (gv_authorizingInput evidence))
               || negb (sameOutpoint (genesis_outpoint genesis) (genesisOutpoint evidence))
               || lower_differs (genesis_scriptPublicKey genesis) (genesisScriptPublicKey evidence)
               || (genesis_value genesis !== genesisAmount evidence)))
    (texts_differ (accepted_json (acceptance genesis)) (accepted_json (gv_acceptance evidence)))))))))).

Definition assertServerChannelLineageConsistency (channel : ServerChannelRecord) : result () :=
  _ ← canonicalCovenantTransitions sha256 (lineage channel);
  differs ← manifest_differs channel;
  _ ← throw_if differs "server channel does not match its immutable covenant launch manifest";
  match currentHead (lineage channel) with
  | None => throw_if (sv_status channel !== Refunded) "terminal covenant lineage requires a refunded channel"
  | Some head =>
      _ ← throw_if (sv_status channel === Refunded) "refunded server channel still has a derived covenant head";
      throw_if ((toLowerCase (txid (outpoint head)) !== toLowerCase (txid (activeOutpoint channel)))
                || (index (outpoint head) !== index (activeOutpoint channel))
                || (toLowerCase (scriptPublicKey head) !== toLowerCase (activeScriptPublicKey channel))
                || (value head !== sv_fundingAmount channel)
                || (claimedCumulativeAmount head !== sv_claimedCumulativeAmount channel))
        "server channel head does not match its derived covenant lineage"
  end.

Definition assertServerCovenantJournalExtension (previous next : ServerChannelRecord) : result () :=
  _ ← assertServerChannelLineageConsistency previous;
  _ ← assertServerChannelLineageConsistency next;
  differs ← texts_differ (manifest_json (manifest (lineage previous))) (manifest_json (manifest (lineage next)));
  _ ← throw_if differs "covenant launch manifest is immutable";
  assertCovenantLineageExtension sha256 (lineage previous) (lineage next).

Definition accepted_ids (events : list CovenantLineageEvent) : list string :=
  omap (fun event => match event with
    | EventAccepted _ t => Some (toLowerCase (transactionId t))
    | _ => None
    end) events.

Definition assertServerCovenantLineageExtension (previous next : ServerChannelRecord) : result () :=
  _ ← assertServerCovenantJournalExtension previous next;
  changed ← or_else (Ok ((sv_channelId next !== sv_channelId previous)
                         || (sv_covenantId next !== sv_covenantId previous))) (
            or_else (texts_differ (genesis_evidence_json (genesisEvidence next))
                       (genesis_evidence_json (genesisEvidence previous))) (
            or_else (texts_differ (config_json (channelConfig next)) (config_json (channelConfig previous)))
              (Ok ((sv_chargedCumulativeAmount next !== sv_chargedCumulativeAmount previous)
                   || (sv_signedMaxClaimable next !== sv_signedMaxClaimable previous)
                   || (get (voucherSignature next) !== get (voucherSignature previous))
                   || (get (lastCommitmentId next) !== get (lastCommitmentId previous))))));
  _ ← throw_if changed "covenant lineage reconciliation changed immutable or off-chain channel state";
  nextVersion ← parseSompiString (sv_version next);
  previousVersion ← parseSompiString (sv_version previous);
  _ ← throw_if (nextVersion !== previousVersion + 1) "covenant lineage reconciliation must increment channel version";
  nextTransitions ← canonicalCovenantTransitions sha256 (lineage next);
  let nextIds := map (fun t => toLowerCase (transactionId t)) nextTransitions in
  let compacted := compactedEvents (anchor (lineage next)) - compactedEvents (anchor (lineage previous)) in
  let newlyAnchoredIds := accepted_ids (take (Z.to_nat compacted) (journal (lineage previous))) in
  previousTransitions ← canonicalCovenantTransitions sha256 (lineage previous);
  let rolledBack := existsb (fun t =>
    negb (existsb (fun id => id === toLowerCase (transactionId t)) nextIds)
    && negb (existsb (fun id => id === toLowerCase (transactionId t)) newlyAnchoredIds)) previousTransitions in
  let expectedStatus :=
    if isNone (currentHead (lineage next)) then Refunded
    else if (sv_status previous === Refunded) || rolledBack then Suspicious
    else sv_status previous in
  throw_if (sv_status next !== expectedStatus)
    "covenant lineage reconciliation has an invalid channel status transition".

Definition sameCovenantLineage (left right : CovenantLineageState) : result bool :=
  left_text ← stableStringify (state_json left); right_text ← stableStringify (state_json right);
  Ok (left_text === right_text).
End Channels.
