(* ===== verification/ExactHeads.v ===== *)
(** * Additive exact heads and settlement attempts

    Models [protocol/packages/server/src/exact-heads.ts] with its record types (types.ts): the
    reusable KIP-10 head that additive payments claim and advance, the durable settlement
    attempt, their validation and normalization, and the reconciliation of a head with an
    external successor chain. *)

From S2P Require Import Prelude Amount Json Binary ChainTruth Template Dates PaymentIdentifier.

Definition MAX_EXTERNAL_LINEAGE_STEPS : Z := 64.

(** ** Records *)

Inductive ExactHeadStatus := available | claimed | unavailable | retired.
Inductive ExactSettlementAttemptStatus := Pending | Broadcast | Accepted | Applied.

#[export] Instance head_status_eq_dec : EqDecision ExactHeadStatus.
Proof. solve_decision. Defined.
#[export] Instance attempt_status_eq_dec : EqDecision ExactSettlementAttemptStatus.
Proof. solve_decision. Defined.

Record ExactHeadRecord := {
  headId : string;
  network : string;
  payTo : string;
  templateId : string;
  transactionEncoding : string;
  currentOutpoint : FundingOutpoint;
  currentAmount : string;
  scriptPublicKey : string;
  redeemScript : string;
  additiveThresholdSompi : string;
  version : string;
  h_status : ExactHeadStatus;
  h_createdAt : string;
  h_updatedAt : string;
  claimTransactionId : prop string;
  lastTransactionId : prop string;
  unavailableReason : prop string
}.
#[export] Instance head_eta : Settable ExactHeadRecord := fun r =>
  Build_ExactHeadRecord (headId r) (network r) (payTo r) (templateId r) (transactionEncoding r)
    (currentOutpoint r) (currentAmount r) (scriptPublicKey r) (redeemScript r) (additiveThresholdSompi r)
    (version r) (h_status r) (h_createdAt r) (h_updatedAt r) (claimTransactionId r) (lastTransactionId r)
    (unavailableReason r).

Record ExactHeadContinuation := {
  outpoint : FundingOutpoint;
  c_amount : string;
  c_scriptPublicKey : string
}.
Record ExactSettlementHeadClaim := {
  hc_headId : string;
  hc_expectedVersion : string;
  hc_expectedOutpoint : FundingOutpoint;
  hc_expectedAmount : string;
  hc_successor : ExactHeadContinuation
}.
Record ProtectedHandlerResult := {
  hr_status : prop Z;
  hr_headers : prop (list (string * json));
  hr_body : prop json;
  hr_chargedAmount : prop string
}.

Record ExactSettlementAttemptRecord := {
  a_network : prop string;
  a_transactionId : string;
  a_profile : string;
  a_amount : string;
  a_paymentOutputIndex : Z;
  a_requestFingerprint : string;
  a_paymentRequirementsHash : string;
  a_paymentPayloadHash : string;
  a_requestAuthorizationId : string;
  a_authorizationExpiresAt : string;
  a_challengeExpiresAt : prop string;
  a_grantExpiresAt : prop string;
  a_payToScriptPublicKey : string;
  a_transaction : string;
  a_requiredFinality : string;
  a_status : ExactSettlementAttemptStatus;
  a_createdAt : string;
  a_updatedAt : string;
  a_finality : prop string;
  a_handlerStartedAt : prop string;
  a_handlerResult : prop ProtectedHandlerResult;
  a_handlerCompletedAt : prop string;
  a_head : prop ExactSettlementHeadClaim;
  a_recoveryReason : prop string;
  a_paymentIdentifier : prop PaymentIdentifierReservationClaim;
  a_payerId : string
}.
#[export] Instance attempt_eta : Settable ExactSettlementAttemptRecord := fun r =>
  Build_ExactSettlementAttemptRecord (a_network r) (a_transactionId r) (a_profile r) (a_amount r)
    (a_paymentOutputIndex r) (a_requestFingerprint r) (a_paymentRequirementsHash r) (a_paymentPayloadHash r)
    (a_requestAuthorizationId r) (a_authorizationExpiresAt r) (a_challengeExpiresAt r) (a_grantExpiresAt r)
    (a_payToScriptPublicKey r) (a_transaction r) (a_requiredFinality r) (a_status r) (a_createdAt r)
    (a_updatedAt r) (a_finality r) (a_handlerStartedAt r) (a_handlerResult r) (a_handlerCompletedAt r)
    (a_head r) (a_recoveryReason r) (a_paymentIdentifier r) (a_payerId r).

Record ExactHeadSelectionRequest := {
  q_network : string;
  q_amount : string;
  q_payTo : string;
  q_payToScriptPublicKey : string;
  q_minimumAdditiveThresholdSompi : string;
  q_selectionKey : string
}.
Record ExactHeadLineageStep := {
  st_transactionId : string;
  st_spentOutpoint : FundingOutpoint;
  st_successor : ExactHeadContinuation;
  st_finality : string
}.
Record ExactHeadLineageApply := {
  la_headId : string;
  la_expectedVersion : string;
  la_expectedOutpoint : FundingOutpoint;
  la_expectedAmount : string;
  la_steps : list ExactHeadLineageStep;
  la_observedAt : string
}.
Record ExactHeadManifest := {
  m_format : string;
  m_headId : string;
  m_network : string;
  m_payTo : string;
  m_ownerPublicKey : string;
  m_additiveThresholdSompi : string;
  m_redeemScript : string;
  m_scriptPublicKey : string;
  m_currentOutpoint : FundingOutpoint;
  m_currentAmount : string;
  m_version : string;
  m_status : ExactHeadStatus;
  m_createdAt : string;
  m_updatedAt : string;
  m_lastTransactionId : prop string;
  m_unavailableReason : prop string
}.

(** ** Their JSON *)

Definition head_status_text (s : ExactHeadStatus) : string :=
  match s with available => "available" | claimed => "claimed" | unavailable => "unavailable" | retired => "retired" end.
Definition attempt_status_text (s : ExactSettlementAttemptStatus) : string :=
  match s with Pending => "pending" | Broadcast => "broadcast" | Accepted => "accepted" | Applied => "applied" end.
Definition outpoint_json (o : FundingOutpoint) : json :=
  JObject [("txid", JString (txid o)); ("index", JNumber (index o))].
Definition head_json (h : ExactHeadRecord) : json :=
  JObject (
    [("headId", JString (headId h)); ("network", JString (network h)); ("payTo", JString (payTo h));
     ("templateId", JString (templateId h)); ("transactionEncoding", JString (transactionEncoding h));
     ("currentOutpoint", outpoint_json (currentOutpoint h)); ("currentAmount", JString (currentAmount h));
     ("scriptPublicKey", JString (scriptPublicKey h)); ("redeemScript", JString (redeemScript h));
     ("additiveThresholdSompi", JString (additiveThresholdSompi h)); ("version", JString (version h));
     ("status", JString (head_status_text (h_status h))); ("createdAt", JString (h_createdAt h));
     ("updatedAt", JString (h_updatedAt h))]
    ++ jprop "claimTransactionId" JString (claimTransactionId h)
    ++ jprop "lastTransactionId" JString (lastTransactionId h)
    ++ jprop "unavailableReason" JString (unavailableReason h)).
Definition continuation_json (c : ExactHeadContinuation) : json :=
  JObject [("outpoint", outpoint_json (outpoint c)); ("amount", JString (c_amount c));
           ("scriptPublicKey", JString (c_scriptPublicKey c))].
Definition head_claim_json (c : ExactSettlementHeadClaim) : json :=
  JObject [("headId", JString (hc_headId c)); ("expectedVersion", JString (hc_expectedVersion c));
           ("expectedOutpoint", outpoint_json (hc_expectedOutpoint c));
           ("expectedAmount", JString (hc_expectedAmount c)); ("successor", continuation_json (hc_successor c))].
Definition claim_fields (c : PaymentIdentifierReservationClaim) : list (string * json) :=
  [("id", JString (id c)); ("fingerprint", JString (fingerprint c));
   ("paymentPayloadHash", JString (paymentPayloadHash c)); ("paymentScopeId", JString (paymentScopeId c));
   ("paymentKind", JString (paymentKind c)); ("ownerId", JString (ownerId c)); ("payerId", JString (payerId c))]
  ++ jprop "channelId" JString (channelId c) ++ jprop "transactionId" JString (transactionId c)
  ++ jprop "paymentOutputIndex" JNumber (paymentOutputIndex c).
Definition result_json (r : ProtectedHandlerResult) : json :=
  JObject (jprop "status" JNumber (hr_status r) ++ jprop "headers" JObject (hr_headers r)
           ++ jprop "body" (fun j => j) (hr_body r) ++ jprop "chargedAmount" JString (hr_chargedAmount r)).

(** The own properties that [exactAttemptTerms] keeps, with the given network. *)
Definition attempt_terms (network : prop string) (a : ExactSettlementAttemptRecord) : list (string * json) :=
  jprop "network" JString network ++
  [("transactionId", JString (a_transactionId a)); ("profile", JString (a_profile a));
   ("amount", JString (a_amount a)); ("paymentOutputIndex", JNumber (a_paymentOutputIndex a));
   ("requestFingerprint", JString (a_requestFingerprint a));
   ("paymentRequirementsHash", JString (a_paymentRequirementsHash a));
   ("paymentPayloadHash", JString (a_paymentPayloadHash a));
   ("requestAuthorizationId", JString (a_requestAuthorizationId a));
   ("authorizationExpiresAt", JString (a_authorizationExpiresAt a))]
  ++ jprop "challengeExpiresAt" JString (a_challengeExpiresAt a)
  ++ jprop "grantExpiresAt" JString (a_grantExpiresAt a)
  ++ [("payToScriptPublicKey", JString (a_payToScriptPublicKey a)); ("transaction", JString (a_transaction a));
      ("requiredFinality", JString (a_requiredFinality a))]
  ++ jprop "head" head_claim_json (a_head a)
  ++ jprop "paymentIdentifier" (fun c => JObject (claim_fields c)) (a_paymentIdentifier a)
  ++ [("payerId", JString (a_payerId a))].
Definition attempt_json (a : ExactSettlementAttemptRecord) : json :=
  JObject (
    attempt_terms (a_network a) a
    ++ [("status", JString (attempt_status_text (a_status a))); ("createdAt", JString (a_createdAt a));
        ("updatedAt", JString (a_updatedAt a))]
    ++ jprop "finality" JString (a_finality a)
    ++ jprop "handlerStartedAt" JString (a_handlerStartedAt a)
    ++ jprop "handlerResult" result_json (a_handlerResult a)
    ++ jprop "handlerCompletedAt" JString (a_handlerCompletedAt a)
    ++ jprop "recoveryReason" JString (a_recoveryReason a)).

(** ** Comparison helpers *)

Definition sameOutpoint (left right : FundingOutpoint) : bool :=
  (toLowerCase (txid left) === toLowerCase (txid right)) && (index left === index right).
(** [p?.toLowerCase()] *)
Definition lower_prop (p : prop string) : option string := toLowerCase <$> get p.

(** [record.network ?? "kaspa:testnet-10"] *)
Definition attempt_network (a : ExactSettlementAttemptRecord) : string :=
  default "kaspa:testnet-10" (get (a_network a)).

Definition exactAttemptTerms (record : ExactSettlementAttemptRecord) : json :=
  JObject (attempt_terms (Present (attempt_network record)) record).

Definition exactSettlementAttemptsMatch (current expected : ExactSettlementAttemptRecord) : bool :=
  stableJson (exactAttemptTerms current) === stableJson (exactAttemptTerms expected).

(** ** A head claimed, advanced or released by a settlement *)

Definition exactHeadMatchesSelection (head : ExactHeadRecord) (request : ExactHeadSelectionRequest) : result bool :=
  and_also (Ok ((h_status head === available) && (network head === q_network request)
                && (payTo head === q_payTo request)
                && (toLowerCase (scriptPublicKey head) === toLowerCase (q_payToScriptPublicKey request))))
    (and_also
       (threshold ← parseSompiString (additiveThresholdSompi head);
        minimum ← parseSompiString (q_minimumAdditiveThresholdSompi request);
        Ok (minimum <=? threshold))
       (amount ← parseSompiString (q_amount request);
        threshold ← parseSompiString (additiveThresholdSompi head);
        Ok (threshold <=? amount))).

Definition claimExactHead (head : ExactHeadRecord) (attempt : ExactSettlementAttemptRecord) : result ExactHeadRecord :=
  _ ← throw_if (network head !== attempt_network attempt)
        "exact head and settlement attempt network mismatch";
  _ ← throw_if (match get (a_head attempt) with
                | None => true
                | Some claim =>
                    (h_status head !== available) || (headId head !== hc_headId claim)
                    || (version head !== hc_expectedVersion claim)
                    || negb (sameOutpoint (currentOutpoint head) (hc_expectedOutpoint claim))
                    || (currentAmount head !== hc_expectedAmount claim)
                    || (toLowerCase (scriptPublicKey head) !== toLowerCase (c_scriptPublicKey (hc_successor claim)))
                end) "exact head changed before settlement claim";
  Ok (head <| h_status := claimed |> <| claimTransactionId := Present (a_transactionId attempt) |>
           <| h_updatedAt := a_updatedAt attempt |>).

Definition acceptExactHead (head : ExactHeadRecord) (attempt : ExactSettlementAttemptRecord) (observedAt : string) :
    result ExactHeadRecord :=
  match get (a_head attempt) with
  | None => Throw (Error "additive exact settlement is missing its head claim")
  | Some claim =>
      let alreadyAdvanced :=
        (lower_prop (lastTransactionId head) === Some (a_transactionId attempt))
        && sameOutpoint (currentOutpoint head) (outpoint (hc_successor claim))
        && (currentAmount head === c_amount (hc_successor claim)) in
      if alreadyAdvanced then Ok head
      else
        _ ← throw_if ((h_status head !== claimed)
                      || (lower_prop (claimTransactionId head) !== Some (a_transactionId attempt))
                      || (version head !== hc_expectedVersion claim)
                      || negb (sameOutpoint (currentOutpoint head) (hc_expectedOutpoint claim))
                      || (currentAmount head !== hc_expectedAmount claim)
                      || (toLowerCase (scriptPublicKey head) !== toLowerCase (c_scriptPublicKey (hc_successor claim))))
              "exact head changed before settlement acceptance";
        v ← parseSompiString (version head);
        Ok (head <| currentOutpoint := outpoint (hc_successor claim) |>
                 <| currentAmount := c_amount (hc_successor claim) |>
                 <| version := toString (v + 1) |> <| h_status := available |>
                 <| h_updatedAt := observedAt |> <| lastTransactionId := Present (a_transactionId attempt) |>
                 <| claimTransactionId := Undefined |> <| unavailableReason := Undefined |>)
  end.

Definition releaseExactHeadClaim (head : ExactHeadRecord) (attempt : ExactSettlementAttemptRecord)
    (observedAt : string) : ExactHeadRecord :=
  if lower_prop (claimTransactionId head) !== Some (a_transactionId attempt) then head
  else head <| h_status := available |> <| claimTransactionId := Undefined |>
            <| h_updatedAt := observedAt |> <| unavailableReason := Undefined |>.

(** ** Validation and normalization *)

Section Heads.
Context (blake2b : bytes -> bytes) (other_dates : string -> option Z).
#[local] Abbreviation is_date s := (isSome (Date_parse other_dates s)).

(** [...(p ? { key: p.toLowerCase() } : {})] *)
Definition lower_if_present (p : prop string) : prop string :=
  if truthy p then match p with Present s => Present (toLowerCase s) | q => q end else p.

Definition lower_outpoint (o : FundingOutpoint) : FundingOutpoint :=
  {| txid := toLowerCase (txid o); index := index o |}.

(** The returned copy: identifiers and scripts in lower case. *)
Definition lower_head (scriptPublicKey' : string) (input : ExactHeadRecord) : ExactHeadRecord :=
  input <| headId := toLowerCase (headId input) |>
        <| currentOutpoint := lower_outpoint (currentOutpoint input) |>
        <| scriptPublicKey := scriptPublicKey' |>
        <| redeemScript := toLowerCase (redeemScript input) |>
        <| claimTransactionId := lower_if_present (claimTransactionId input) |>
        <| lastTransactionId := lower_if_present (lastTransactionId input) |>.

Definition normalizeExactHeadRecord (input : ExactHeadRecord) : result ExactHeadRecord :=
  _ ← throw_if (negb (is_hash32 (headId input))) "exact head id must be 32-byte hex";
  _ ← throw_if (negb (is_hash32 (txid (currentOutpoint input)))) "exact head outpoint txid must be 32-byte hex";
  _ ← throw_if ((index (currentOutpoint input) <? 0) || (U32_MAX <? index (currentOutpoint input)))
        "exact head outpoint index is invalid";
  _ ← throw_if ((templateId input !== "kaspa-x402-kip10-additive-v1")
                || (transactionEncoding input !== "kaspa-sdk-safe-json-v2.0.0"))
        "exact head template or transaction encoding is unsupported";
  amount ← parseSompiString (currentAmount input);
  _ ← throw_if (amount <=? 0) "exact head amount must be positive";
  v ← parseSompiString (version input);
  _ ← throw_if (v <? 0) "exact head version cannot be negative";
  threshold ← parseSompiString (additiveThresholdSompi input);
  _ ← throw_if (threshold <=? 0) "exact head additive threshold must be positive";
  template ← parseKip10AdditiveRedeemScript (redeemScript input);
  _ ← throw_if (p_amount template !== additiveThresholdSompi input)
        "exact head threshold does not match its KIP-10 script";
  spk ← payToScriptHashScript blake2b (redeemScript input);
  serialized ← serializedScriptPublicKey spk;
  let scriptPublicKey' := toLowerCase serialized in
  _ ← throw_if (scriptPublicKey' !== toLowerCase (scriptPublicKey input))
        "exact head redeem script does not match its script public key";
  _ ← throw_if (negb (is_date (h_createdAt input)) || negb (is_date (h_updatedAt input)))
        "exact head timestamps must be ISO date strings";
  _ ← throw_if ((h_status input === claimed) && negb (truthy (claimTransactionId input)))
        "claimed exact head requires a transaction id";
  _ ← throw_if (truthy (claimTransactionId input) && negb (is_hash32 (default "" (get (claimTransactionId input)))))
        "exact head claim transaction id must be 32-byte hex";
  Ok (lower_head scriptPublicKey' input).

Definition exactHeadManifest (input : ExactHeadRecord) : result ExactHeadManifest :=
  head ← normalizeExactHeadRecord input;
  template ← parseKip10AdditiveRedeemScript (redeemScript head);
  Ok {| m_format := "kaspa-x402-exact-head-manifest-v1"; m_headId := headId head; m_network := network head;
        m_payTo := payTo head; m_ownerPublicKey := ownerPublicKey template;
        m_additiveThresholdSompi := additiveThresholdSompi head; m_redeemScript := redeemScript head;
        m_scriptPublicKey := scriptPublicKey head; m_currentOutpoint := currentOutpoint head;
        m_currentAmount := currentAmount head; m_version := version head; m_status := h_status head;
        m_createdAt := h_createdAt head; m_updatedAt := h_updatedAt head;
        m_lastTransactionId := if truthy (lastTransactionId head) then lastTransactionId head else Absent;
        m_unavailableReason := if truthy (unavailableReason head) then unavailableReason head else Absent |}.

(** The checks on an attempt's head claim, and the claim in lower case. *)
Definition normalize_head_claim (attempt : ExactSettlementAttemptRecord) (claim : ExactSettlementHeadClaim) :
    result ExactSettlementHeadClaim :=
  let successor := hc_successor claim in
  _ ← throw_if (a_profile attempt !== "additive") "only additive exact may claim a head";
  _ ← throw_if ((index (hc_expectedOutpoint claim) !== 0) || (index (outpoint successor) !== 0))
        "additive exact head and successor must remain at index 0";
  _ ← throw_if (toLowerCase (txid (outpoint successor)) !== a_transactionId attempt)
        "additive exact successor must belong to the claimed transaction";
  successorAmount ← parseSompiString (c_amount successor);
  expectedAmount ← parseSompiString (hc_expectedAmount claim);
  amount ← parseSompiString (a_amount attempt);
  _ ← throw_if (negb (successorAmount =? expectedAmount + amount))
        "additive exact successor delta must equal the settlement amount";
  Ok {| hc_headId := toLowerCase (hc_headId claim); hc_expectedVersion := hc_expectedVersion claim;
        hc_expectedOutpoint := lower_outpoint (hc_expectedOutpoint claim);
        hc_expectedAmount := hc_expectedAmount claim;
        hc_successor := {| outpoint := lower_outpoint (outpoint successor); c_amount := c_amount successor;
                           c_scriptPublicKey := toLowerCase (c_scriptPublicKey successor) |} |}.

(** The hashes and the script of an attempt in lower case. *)
Definition lower_attempt (input : ExactSettlementAttemptRecord) : ExactSettlementAttemptRecord :=
  input <| a_transactionId := toLowerCase (a_transactionId input) |>
        <| a_requestFingerprint := toLowerCase (a_requestFingerprint input) |>
        <| a_paymentRequirementsHash := toLowerCase (a_paymentRequirementsHash input) |>
        <| a_paymentPayloadHash := toLowerCase (a_paymentPayloadHash input) |>
        <| a_requestAuthorizationId := toLowerCase (a_requestAuthorizationId input) |>
        <| a_payToScriptPublicKey := toLowerCase (a_payToScriptPublicKey input) |>.

Definition normalizeExactSettlementAttempt (input : ExactSettlementAttemptRecord) :
    result ExactSettlementAttemptRecord :=
  _ ← match get (a_network input) with None => Ok tt | Some n => parseKaspaNetwork n;; Ok tt end;
  _ ← throw_if (negb (is_hash32 (a_transactionId input))) "exact settlement transaction id must be 32-byte hex";
  _ ← throw_if (negb (is_hash32 (a_requestFingerprint input)))
        "exact settlement request fingerprint must be 32-byte hex";
  _ ← throw_if (negb (is_hash32 (a_paymentRequirementsHash input)) || negb (is_hash32 (a_paymentPayloadHash input))
                || negb (is_hash32 (a_requestAuthorizationId input)))
        "exact settlement hashes must be 32-byte hex";
  _ ← throw_if ((a_status input !== Pending) || truthy (a_finality input) || truthy (a_handlerStartedAt input)
                || isSome (get (a_handlerResult input)) || truthy (a_handlerCompletedAt input)
                || truthy (a_recoveryReason input))
        "new exact settlement attempt must begin pending without finality or handler state";
  amount ← parseSompiString (a_amount input);
  _ ← throw_if (amount <=? 0) "exact settlement amount must be positive";
  _ ← throw_if (a_transaction input === "") "exact settlement transaction is required";
  _ ← throw_if ((a_payerId input === "") || (256 <? js_length (a_payerId input)))
        "exact settlement payer identity is invalid";
  _ ← throw_if (match get (a_paymentIdentifier input) with
                | None => false
                | Some c => (toLowerCase (ownerId c) !== toLowerCase (a_transactionId input))
                            || (lower_prop (transactionId c) !== Some (toLowerCase (a_transactionId input)))
                end) "exact payment identifier owner does not match its attempt";
  _ ← throw_if ((a_requiredFinality input !== "accepted") && (a_requiredFinality input !== "confirmed"))
        "exact settlement required finality is invalid";
  _ ← throw_if (negb (is_byte_hex (a_payToScriptPublicKey input)))
        "exact settlement payTo script public key must be byte hex";
  _ ← throw_if (negb (is_date (a_createdAt input)) || negb (is_date (a_updatedAt input)))
        "exact settlement timestamps must be ISO date strings";
  _ ← throw_if (negb (is_date (a_authorizationExpiresAt input))
                || match get (a_challengeExpiresAt input) with Some d => negb (is_date d) | None => false end
                || match get (a_grantExpiresAt input) with Some d => negb (is_date d) | None => false end)
        "exact settlement admission deadlines are invalid";
  let attempt := lower_attempt input in
  match a_head attempt with
  | Present claim =>
      claim ← normalize_head_claim attempt claim;
      Ok (attempt <| a_head := Present claim |>)
  | _ => Ok attempt
  end.

(** One external successor: the loop body of [applyExactHeadLineage]. *)
Definition lineage_step (head : ExactHeadRecord) (threshold : Z) (state : FundingOutpoint * Z * option string)
    (step : ExactHeadLineageStep) : result (FundingOutpoint * Z * option string) :=
  let '(current, currentAmount, _) := state in
  let successor := st_successor step in
  _ ← throw_if ((st_finality step !== "accepted") && (st_finality step !== "confirmed"))
        "exact head lineage finality is invalid";
  _ ← throw_if (negb (is_hash32 (st_transactionId step)))
        "exact head lineage transaction id must be 32-byte hex";
  _ ← throw_if (negb (sameOutpoint (st_spentOutpoint step) current)
                || (toLowerCase (txid (outpoint successor)) !== toLowerCase (st_transactionId step))
                || (index (outpoint successor) !== index current)
                || (toLowerCase (c_scriptPublicKey successor) !== toLowerCase (scriptPublicKey head)))
        "exact head lineage does not prove the same-index successor";
  successorAmount ← parseSompiString (c_amount successor);
  _ ← throw_if (successorAmount <? currentAmount + threshold)
        "exact head lineage successor is below the KIP-10 threshold";
  Ok (lower_outpoint (outpoint successor), successorAmount, Some (toLowerCase (st_transactionId step))).

Definition applyExactHeadLineage (head : ExactHeadRecord) (input : ExactHeadLineageApply) : result ExactHeadRecord :=
  _ ← throw_if ((headId head !== toLowerCase (la_headId input)) || (version head !== la_expectedVersion input)
                || negb (sameOutpoint (currentOutpoint head) (la_expectedOutpoint input))
                || (currentAmount head !== la_expectedAmount input)
                || (h_status head === claimed) || (h_status head === retired))
        "exact head changed before lineage reconciliation";
  let count := Z.of_nat (length (la_steps input)) in
  _ ← throw_if ((count =? 0) || (MAX_EXTERNAL_LINEAGE_STEPS <? count))
        "exact head lineage must contain between 1 and 64 steps";
  _ ← throw_if (negb (is_date (la_observedAt input)))
        "exact head lineage observation time must be an ISO date string";
  threshold ← parseSompiString (additiveThresholdSompi head);
  start ← parseSompiString (currentAmount head);
  '(current, amount, lastId) ← fold_result (lineage_step head threshold) (la_steps input)
                                 (currentOutpoint head, start, None);
  v ← parseSompiString (version head);
  normalizeExactHeadRecord
    (head <| currentOutpoint := current |> <| currentAmount := toString amount |>
          <| version := toString (v + count) |> <| h_status := available |>
          <| h_updatedAt := la_observedAt input |>
          <| lastTransactionId := match lastId with Some i => Present i | None => Undefined end |>
          <| claimTransactionId := Undefined |> <| unavailableReason := Undefined |>).
End Heads.

(** * Lemmas *)

Lemma sameOutpoint_lower o o' : sameOutpoint o o' = true <-> lower_outpoint o = lower_outpoint o'.
Proof.
  unfold sameOutpoint, lower_outpoint. rewrite andb_true_iff, !bool_decide_eq_true.
  split; [intros [-> ->]; done|intros [=]; done].
Qed.

Lemma lower_outpoint_idem o : lower_outpoint (lower_outpoint o) = lower_outpoint o.
Proof. unfold lower_outpoint. cbn [txid index]. by rewrite toLowerCase_idem. Qed.

(** What normalization guarantees of an attempt that claims a head. *)
Record head_claim_ok (a : ExactSettlementAttemptRecord) (claim : ExactSettlementHeadClaim) (n m : Z) : Prop := {
  ok_amount : a_amount a = toString m;
  ok_positive : 0 < m;
  ok_expected : hc_expectedAmount claim = toString n;
  ok_nonnegative : 0 <= n;
  ok_successor : c_amount (hc_successor claim) = toString (n + m);
  ok_outpoint : outpoint (hc_successor claim) = {| txid := a_transactionId a; index := 0 |};
  ok_lower : toLowerCase (a_transactionId a) = a_transactionId a
}.

Lemma lower_attempt_fields i :
  a_head (lower_attempt i) = a_head i /\ a_amount (lower_attempt i) = a_amount i /\
  a_transactionId (lower_attempt i) = toLowerCase (a_transactionId i).
Proof. by destruct i. Qed.

Lemma set_head_fields a c :
  get (a_head (a <| a_head := Present c |>)) = Some c /\ a_amount (a <| a_head := Present c |>) = a_amount a /\
  a_transactionId (a <| a_head := Present c |>) = a_transactionId a.
Proof. by destruct a. Qed.

Lemma normalize_attempt_claim other_dates input a :
  normalizeExactSettlementAttempt other_dates input = Ok a ->
  a = lower_attempt input /\ get (a_head input) = None \/
  exists c c', a_head input = Present c /\ normalize_head_claim (lower_attempt input) c = Ok c' /\
    a = (lower_attempt input) <| a_head := Present c' |>.
Proof.
  unfold normalizeExactSettlementAttempt. intros H. inv_result. cbv zeta in H.
  rewrite (proj1 (lower_attempt_fields input)) in H.
  destruct (a_head input) as [| |c] eqn:Eh; [left; by apply Ok_inj in H|left; by apply Ok_inj in H|right].
  apply bind_ok in H as (c' & Hn & H). apply Ok_inj in H. by exists c, c'.
Qed.

Lemma normalize_attempt_amount other_dates input a :
  normalizeExactSettlementAttempt other_dates input = Ok a ->
  exists m, a_amount input = toString m /\ 0 < m <= U64_MAX.
Proof.
  unfold normalizeExactSettlementAttempt. intros H. inv_result. clear H. inv_bool.
  match goal with Hp : parseSompiString (a_amount input) = Ok ?m |- _ => apply parse_ok in Hp as [? ?]; exists m end.
  split; [done|lia].
Qed.

Lemma normalize_head_claim_ok a c c' :
  normalize_head_claim a c = Ok c' ->
  exists n m, a_amount a = toString m /\ 0 <= m /\ hc_expectedAmount c' = toString n /\ 0 <= n /\
    c_amount (hc_successor c') = toString (n + m) /\
    outpoint (hc_successor c') = {| txid := a_transactionId a; index := 0 |}.
Proof.
  unfold normalize_head_claim. intros H. inv_result. inv_bool.
  repeat match goal with Hp : parseSompiString _ = Ok _ |- _ => apply parse_ok in Hp as [? ?] end.
  do 2 eexists. cbn [hc_expectedAmount hc_successor c_amount outpoint].
  split; [eassumption|]. split; [lia|]. split; [eassumption|]. split; [lia|]. split; [congruence|].
  unfold lower_outpoint. congruence.
Qed.

Lemma normalize_head_claim_bound a c c' :
  normalize_head_claim a c = Ok c' -> exists k, c_amount (hc_successor c') = toString k /\ 0 <= k <= U64_MAX.
Proof.
  unfold normalize_head_claim. intros H. inv_result.
  repeat match goal with Hp : parseSompiString _ = Ok _ |- _ => apply parse_ok in Hp as [? ?] end.
  cbn [hc_successor c_amount]. eauto.
Qed.

Lemma normalize_attempt_head other_dates input a claim :
  normalizeExactSettlementAttempt other_dates input = Ok a -> get (a_head a) = Some claim ->
  exists n m, head_claim_ok a claim n m.
Proof.
  intros H Hc. destruct (normalize_attempt_amount _ _ _ H) as (m' & Hm' & Hpos).
  apply normalize_attempt_claim in H as [[-> Hn]|(c & c' & Hh & Hn & ->)].
  - rewrite (proj1 (lower_attempt_fields input)) in Hc. congruence.
  - destruct (set_head_fields (lower_attempt input) c') as (Hg & Ha & Ht). rewrite Hg in Hc. injection Hc as ->.
    destruct (lower_attempt_fields input) as (_ & Hla & Hlt).
    apply normalize_head_claim_ok in Hn as (n & m & Hm & Hm0 & Hn & Hnn & Hs & Ho).
    assert (m = m') as -> by (rewrite Hla, Hm' in Hm; by apply toString_inj_all).
    exists n, m'. constructor; [by rewrite Ha, Hla|lia|done|done|done|by rewrite Ho, Ht|].
    rewrite Ht, Hlt. apply toLowerCase_idem.
Qed.

(** ** Claiming, accepting and releasing *)

Lemma claim_head_ok head a h1 :
  claimExactHead head a = Ok h1 <->
  network head = attempt_network a /\
  (exists claim, get (a_head a) = Some claim /\ h_status head = available /\ headId head = hc_headId claim /\
     version head = hc_expectedVersion claim /\
     lower_outpoint (currentOutpoint head) = lower_outpoint (hc_expectedOutpoint claim) /\
     currentAmount head = hc_expectedAmount claim /\
     toLowerCase (scriptPublicKey head) = toLowerCase (c_scriptPublicKey (hc_successor claim))) /\
  h1 = head <| h_status := claimed |> <| claimTransactionId := Present (a_transactionId a) |>
            <| h_updatedAt := a_updatedAt a |>.
Proof.
  unfold claimExactHead. split.
  - intros H. inv_result. destruct (get (a_head a)) as [claim|]; [|done]. inv_bool.
    split; [done|]. split; [|done]. exists claim. by rewrite <- sameOutpoint_lower.
  - intros (-> & (claim & -> & -> & -> & -> & Ho & -> & ->) & ->). apply sameOutpoint_lower in Ho as ->.
    rewrite !bool_decide_eq_true_2 by done. done.
Qed.

Lemma same_outpoint_refl o : sameOutpoint o o = true.
Proof. by apply sameOutpoint_lower. Qed.
Lemma lower_prop_present s : lower_prop (Present s) = Some (toLowerCase s).
Proof. done. Qed.

(** An acceptance changes a head only if it was claimed under the attempt's transaction id;
    otherwise the attempt is the last one the head took and nothing changes. *)
Lemma accept_cases head b at_ h : acceptExactHead head b at_ = Ok h ->
  h = head /\ lower_prop (lastTransactionId head) = Some (a_transactionId b) \/
  h_status head = claimed /\ lower_prop (claimTransactionId head) = Some (a_transactionId b).
Proof.
  unfold acceptExactHead. destruct (get (a_head b)) as [claim|]; [|done].
  destruct (_ && _ && _) eqn:E; intros H; [left|right; inv_result; inv_bool; auto].
  inv_bool. by injection H as <-.
Qed.

(** C10. A claimed head pays out exactly once.  After a validated
      additive attempt claims a head, no attempt can claim it; no acceptance changes it except
    one under the same transaction id, and no release under another transaction id does;
    accepting the attempt moves the head to output 0 of the attempt's transaction, adds exactly
    the settled amount, advances the version by one and makes it available again with its
    script, threshold and identity unchanged; accepting again changes nothing; and releasing
    the claim instead gives back the head with its outpoint, amount and version.  (An attempt
    that is already the last one the head took is answered with the unchanged head.) *)
Theorem head_claim_lifecycle other_dates input a claim head h1 v at_ :
  normalizeExactSettlementAttempt other_dates input = Ok a -> get (a_head a) = Some claim ->
  version head = toString v -> 0 <= v <= U64_MAX -> claimExactHead head a = Ok h1 ->
  (forall b, is_ok (claimExactHead h1 b) = false) /\
  (exists n m h2, currentAmount head = toString n /\ a_amount a = toString m /\ 0 < m /\
     acceptExactHead h1 a at_ = Ok h2 /\
     currentAmount h2 = toString (n + m) /\ version h2 = toString (v + 1) /\
     currentOutpoint h2 = {| txid := a_transactionId a; index := 0 |} /\
     h_status h2 = available /\ get (lastTransactionId h2) = Some (a_transactionId a) /\
     (headId h2, scriptPublicKey h2, redeemScript h2, additiveThresholdSompi h2, network h2, payTo h2) =
       (headId head, scriptPublicKey head, redeemScript head, additiveThresholdSompi head, network head, payTo head) /\
     forall later, acceptExactHead h2 a later = Ok h2) /\
  releaseExactHeadClaim h1 a at_ =
    head <| h_status := available |> <| claimTransactionId := Undefined |>
         <| h_updatedAt := at_ |> <| unavailableReason := Undefined |> /\
  (forall b later h, acceptExactHead h1 b later = Ok h -> a_transactionId b <> a_transactionId a ->
     h = h1 /\ lower_prop (lastTransactionId head) = Some (a_transactionId b)) /\
  (forall b later, a_transactionId b <> a_transactionId a -> releaseExactHeadClaim h1 b later = h1).
Proof.
  intros Hnorm Hhead Hver Hv (Hnet & (c & Hc & Hs & Hid & Hve & Ho & Ha & Hspk) & ->)%claim_head_ok.
  rewrite Hhead in Hc. injection Hc as <-.
  destruct (normalize_attempt_head _ _ _ _ Hnorm Hhead) as (n & m & [Hamt Hpos Hexp Hnn Hsucc Hout Hlow]).
  set (h1 := head <| h_status := claimed |> <| claimTransactionId := Present (a_transactionId a) |>
            <| h_updatedAt := a_updatedAt a |>).
  assert (toString n <> toString (n + m)) as Hneq by (intros E; apply toString_inj in E; lia).
  split; [|split; [|split; [|split]]].
  - intros b. destruct (claimExactHead h1 b) as [h|] eqn:E; [|done].
    apply claim_head_ok in E as (_ & (? & _ & Hst & _) & _). by destruct head.
  - exists n, m, (h1 <| currentOutpoint := outpoint (hc_successor claim) |>
                 <| currentAmount := c_amount (hc_successor claim) |>
                 <| version := toString (v + 1) |> <| h_status := available |>
                 <| h_updatedAt := at_ |> <| lastTransactionId := Present (a_transactionId a) |>
                 <| claimTransactionId := Undefined |> <| unavailableReason := Undefined |>).
    split; [congruence|]. split; [done|]. split; [done|]. split.
    { unfold acceptExactHead. rewrite Hhead.
      change (currentAmount h1) with (currentAmount head). change (version h1) with (version head).
      change (currentOutpoint h1) with (currentOutpoint head). change (h_status h1) with claimed.
      change (scriptPublicKey h1) with (scriptPublicKey head).
      change (claimTransactionId h1) with (Present (a_transactionId a)).
      rewrite (bool_decide_eq_false_2 (currentAmount head = _)) by congruence. rewrite andb_false_r.
      rewrite lower_prop_present, Hlow. apply sameOutpoint_lower in Ho as ->.
      rewrite !bool_decide_eq_true_2 by congruence. cbn [negb orb throw_if mbind result_bind].
      rewrite Hver, parse_toString by done. done. }
    split; [done|]. split; [done|]. split; [done|]. split; [done|]. split; [done|]. split; [done|].
    intros later. unfold acceptExactHead. rewrite Hhead.
    match goal with |- context [lastTransactionId ?h] => set (h2 := h) end.
    change (lastTransactionId h2) with (Present (a_transactionId a)).
    change (currentOutpoint h2) with (outpoint (hc_successor claim)).
    change (currentAmount h2) with (c_amount (hc_successor claim)).
    rewrite lower_prop_present, Hlow, same_outpoint_refl.
    by rewrite (bool_decide_eq_true_2 (Some _ = Some _)), (bool_decide_eq_true_2 (c_amount _ = _)) by done.
  - unfold releaseExactHeadClaim. change (claimTransactionId h1) with (Present (a_transactionId a)).
    rewrite lower_prop_present, Hlow, bool_decide_eq_true_2 by done. cbn [negb]. unfold h1. clear. by destruct head.
  - intros b later h Hacc Hne. apply accept_cases in Hacc as [H|[_ E]]; [exact H|].
    change (claimTransactionId h1) with (Present (a_transactionId a)) in E. rewrite lower_prop_present, Hlow in E. congruence.
  - intros b later Hne. unfold releaseExactHeadClaim.
    change (claimTransactionId h1) with (Present (a_transactionId a)). rewrite lower_prop_present, Hlow.
    by rewrite bool_decide_eq_false_2 by congruence.
Qed.

(** ** Valid heads *)

Section ValidHeads.
Context (blake2b : bytes -> bytes) (other_dates : string -> option Z).
#[local] Abbreviation is_date s := (isSome (Date_parse other_dates s)).
#[local] Abbreviation normalize := (normalizeExactHeadRecord blake2b other_dates).

(** What normalization checks. *)
Record head_ok (h : ExactHeadRecord) : Prop := {
  hk_id : is_hash32 (headId h) = true;
  hk_txid : is_hash32 (txid (currentOutpoint h)) = true;
  hk_index : 0 <= index (currentOutpoint h) <= U32_MAX;
  hk_template : templateId h = KIP10_ADDITIVE_TEMPLATE_ID;
  hk_encoding : transactionEncoding h = KIP10_EXACT_TRANSACTION_ENCODING;
  hk_amount : exists n, currentAmount h = toString n /\ 0 < n <= U64_MAX;
  hk_version : exists v, version h = toString v /\ 0 <= v <= U64_MAX;
  hk_threshold : exists t, additiveThresholdSompi h = toString t /\ 0 < t <= U64_MAX;
  hk_script : exists p, parseKip10AdditiveRedeemScript (redeemScript h) = Ok p /\
    p_amount p = additiveThresholdSompi h;
  hk_spk : exists spk s, payToScriptHashScript blake2b (redeemScript h) = Ok spk /\
    serializedScriptPublicKey spk = Ok s /\ toLowerCase s = toLowerCase (scriptPublicKey h);
  hk_created : is_date (h_createdAt h) = true;
  hk_updated : is_date (h_updatedAt h) = true;
  hk_claimed : h_status h = claimed -> truthy (claimTransactionId h) = true;
  hk_claim_id : truthy (claimTransactionId h) = true -> is_hash32 (default "" (get (claimTransactionId h))) = true
}.

Lemma normalize_head_iff h n :
  normalize h = Ok n <-> head_ok h /\ n = lower_head (toLowerCase (scriptPublicKey h)) h.
Proof.
  split.
  - unfold normalizeExactHeadRecord. intros H. inv_result. inv_bool.
    repeat match goal with Hp : parseSompiString _ = Ok _ |- _ => apply parse_ok in Hp as [? ?] end.
    split; [|by f_equal].
    constructor; try done; eauto.
    all: try (match goal with |- exists n, _ = toString n /\ _ => eexists; split; [eassumption|lia] end).
    + intros Hs. match goal with Hc : (h_status h === claimed) && _ = false |- _ =>
        rewrite Hs, bool_decide_eq_true_2 in Hc by done; by apply negb_false_iff in Hc end.
    + intros Ht. match goal with Hc : truthy (claimTransactionId h) && _ = false |- _ =>
        rewrite Ht in Hc; by apply negb_false_iff in Hc end.
  - intros [[Hid Htx Hix Ht He (n0 & Hn & Hn') (v & Hv & Hv') (t & Hth & Hth') (p & Hp & Hpa) (spk & ser & Hspk & Hs & Hl) Hcr Hup Hcl Hci] ->].
    unfold normalizeExactHeadRecord.
    rewrite Hid, Htx, Ht, He, Hn, parse_toString, Hv, parse_toString, Hp by lia. cbn [mbind result_bind].
    rewrite Hpa, Hth, parse_toString, Hspk by lia. cbn [mbind result_bind]. rewrite Hs. cbn [mbind result_bind].
    rewrite Hl, Hcr, Hup, (bool_decide_eq_true_2 (KIP10_ADDITIVE_TEMPLATE_ID = _)),
      (bool_decide_eq_true_2 (KIP10_EXACT_TRANSACTION_ENCODING = _)), (bool_decide_eq_true_2 (toString t = _)),
      (bool_decide_eq_true_2 (toLowerCase _ = _)) by done.
    rewrite (proj2 (Z.ltb_ge (index _) 0)), (proj2 (Z.ltb_ge U32_MAX _)), (proj2 (Z.leb_gt n0 0)),
      (proj2 (Z.ltb_ge v 0)), (proj2 (Z.leb_gt t 0)) by lia.
    cbn [negb orb throw_if mbind result_bind].
    replace ((h_status h === claimed) && negb (truthy (claimTransactionId h))) with false.
    2:{ case_bool_decide; [|done]. by rewrite Hcl. }
    replace (truthy (claimTransactionId h) && _) with false; [done|].
    destruct (truthy (claimTransactionId h)); [|done]. by rewrite Hci.
Qed.

Lemma lower_if_present_idem p : lower_if_present (lower_if_present p) = lower_if_present p.
Proof.
  destruct p as [| |[|c s]]; try done.
  change (lower_if_present (Present (String c s))) with (Present (toLowerCase (String c s))).
  change (lower_if_present (Present (toLowerCase (String c s))))
    with (Present (toLowerCase (toLowerCase (String c s)))). by rewrite toLowerCase_idem.
Qed.

Lemma lower_if_present_hash p :
  truthy (lower_if_present p) = truthy p /\
  (truthy p = true -> get (lower_if_present p) = Some (toLowerCase (default "" (get p)))).
Proof. destruct p as [| |[|c s]]; done. Qed.

Lemma lower_hex_preserved s : string_forall is_hex s = true -> string_forall is_hex (toLowerCase s) = true.
Proof.
  induction s as [|c s IH]; cbn [string_forall toLowerCase]; [done|]. intros [Hc Hs]%andb_true_iff.
  rewrite IH, andb_true_r by done. revert Hc. by destruct c as [[] [] [] [] [] [] [] []].
Qed.
Lemma lower_byte_length s : byte_length (toLowerCase s) = byte_length s.
Proof. induction s as [|c s IH]; cbn [toLowerCase]; [done|]. by rewrite !byte_length_cons, IH. Qed.
Lemma is_hash32_lowered s : is_hash32 s = true -> is_hash32 (toLowerCase s) = true.
Proof.
  unfold is_hash32. rewrite !andb_true_iff, lower_byte_length. intros [? ?]. auto using lower_hex_preserved.
Qed.
Lemma HEX_lower s : HEX_BYTE_PATTERN s = true -> HEX_BYTE_PATTERN (toLowerCase s) = true.
Proof. unfold HEX_BYTE_PATTERN. rewrite !andb_true_iff, lower_byte_length. intros [? ?]. auto using lower_hex_preserved. Qed.
Lemma hex_decode_lower s : HEX_BYTE_PATTERN s = true -> hex_decode (toLowerCase s) = hex_decode s.
Proof. intros H. apply hex_decode_inj; [by apply HEX_lower|done|apply toLowerCase_idem]. Qed.

Lemma parse_kip10_lower s p :
  parseKip10AdditiveRedeemScript s = Ok p -> parseKip10AdditiveRedeemScript (toLowerCase s) = Ok p.
Proof. rewrite !kip10_parse_iff. unfold kip10_text. rewrite toLowerCase_idem. intros (H & ? & ?). split; [by apply HEX_lower|done]. Qed.

Lemma p2sh_lower s spk :
  payToScriptHashScript blake2b s = Ok spk -> payToScriptHashScript blake2b (toLowerCase s) = Ok spk.
Proof.
  unfold payToScriptHashScript. intros H. inv_result.
  match goal with Hh : hexToBytes _ _ _ = Ok _ |- _ => apply template_hex_ok in Hh as (-> & Hp & _) end.
  rewrite (proj2 (template_hex_ok (toLowerCase s) None _ (hex_decode s))); [done|].
  by rewrite hex_decode_lower by done; split; [|split; [apply HEX_lower|]].
Qed.

Definition valid_head (h : ExactHeadRecord) : Prop := normalize h = Ok h.

Lemma lower_head_fields k h :
  (headId (lower_head k h) = toLowerCase (headId h) /\
   currentOutpoint (lower_head k h) = lower_outpoint (currentOutpoint h) /\
   scriptPublicKey (lower_head k h) = k /\ redeemScript (lower_head k h) = toLowerCase (redeemScript h) /\
   claimTransactionId (lower_head k h) = lower_if_present (claimTransactionId h)) /\
  (templateId (lower_head k h) = templateId h /\ transactionEncoding (lower_head k h) = transactionEncoding h /\
   currentAmount (lower_head k h) = currentAmount h /\ version (lower_head k h) = version h /\
   additiveThresholdSompi (lower_head k h) = additiveThresholdSompi h /\ h_status (lower_head k h) = h_status h /\
   h_createdAt (lower_head k h) = h_createdAt h /\ h_updatedAt (lower_head k h) = h_updatedAt h).
Proof. by destruct h. Qed.

Lemma lower_head_last k h : lastTransactionId (lower_head k h) = lower_if_present (lastTransactionId h).
Proof. by destruct h. Qed.
Lemma lower_if_present_get s : get (lower_if_present (Present s)) = Some (toLowerCase s).
Proof. by destruct s. Qed.

Lemma normalize_idempotent h n : normalize h = Ok n -> valid_head n.
Proof.
  intros [[] ->]%normalize_head_iff. set (k := toLowerCase (scriptPublicKey h)).
  apply normalize_head_iff. destruct (lower_head_fields k h) as [(F1 & F2 & F3 & F4 & F5) (G1 & G2 & G3 & G4 & G5 & G6 & G7 & G8)]. split.
  - constructor; rewrite ?F1, ?F2, ?F3, ?F4, ?F5, ?G1, ?G2, ?G3, ?G4, ?G5, ?G6, ?G7, ?G8; auto.
    + by apply is_hash32_lowered.
    + by apply is_hash32_lowered.
    + destruct hk_script0 as (p & ? & ?). eauto using parse_kip10_lower.
    + destruct hk_spk0 as (spk & s & ? & ? & E). exists spk, s. rewrite E. unfold k.
      split; [by apply p2sh_lower|]. split; [done|]. by rewrite toLowerCase_idem.
    + by rewrite (proj1 (lower_if_present_hash _)).
    + destruct (lower_if_present_hash (claimTransactionId h)) as [-> Hg]. intros Ht. rewrite Hg by done.
      cbn [default]. by apply is_hash32_lowered, hk_claim_id0.
  - rewrite F3. unfold k. rewrite toLowerCase_idem. destruct h. unfold lower_head. cbn.
    by rewrite !lower_if_present_idem, lower_outpoint_idem, !toLowerCase_idem.
Qed.

Lemma valid_iff h :
  valid_head h <-> head_ok h /\
    (toLowerCase (headId h) = headId h /\ lower_outpoint (currentOutpoint h) = currentOutpoint h /\
     toLowerCase (scriptPublicKey h) = scriptPublicKey h /\ toLowerCase (redeemScript h) = redeemScript h /\
     lower_if_present (claimTransactionId h) = claimTransactionId h /\
     lower_if_present (lastTransactionId h) = lastTransactionId h).
Proof.
  unfold valid_head. rewrite normalize_head_iff. apply and_iff_compat_l. destruct h. unfold lower_head. cbn.
  split; [intros [=]; repeat split; congruence|intros (-> & -> & -> & -> & -> & ->); done].
Qed.

Lemma lower_if_present_lower s : toLowerCase s = s -> lower_if_present (Present s) = Present s.
Proof. destruct s as [|c s]; [done|]. intros E. change (Present (toLowerCase (String c s)) = Present (String c s)). by rewrite E. Qed.
Lemma hash32_truthy s : is_hash32 s = true -> truthy (Present s) = true.
Proof. by destruct s. Qed.

(** ** What a valid head is *)

Lemma lower_hash_iff s : is_hash32 s = true /\ toLowerCase s = s <-> is_lower_hash32 s = true.
Proof.
  unfold is_hash32, is_lower_hash32. rewrite !andb_true_iff. split.
  - intros [[Hs ->] E]. split; [|done]. clear -Hs E. induction s as [|c s IH]; [done|].
    cbn [string_forall toLowerCase] in *. apply andb_true_iff in Hs as [Hc Hs]. injection E as Ec Es.
    rewrite IH by done. rewrite andb_true_r. revert Hc Ec. by destruct c as [[] [] [] [] [] [] [] []].
  - intros [Hs ->]. split; [split; [by apply lower_hex_hex|done]|by apply toLowerCase_lower].
Qed.

(** The serialized script public key of a redeem script: version 0, then
    [OP_BLAKE2B <32 bytes> OP_EQUAL]. *)
Definition p2sh_text (redeem : string) : string :=
  bytesToHex (bytes_of [0; 0; 170; 32] ++ blake2b (hex_decode redeem) ++ bytes_of [135]).

Lemma p2sh_text_ok redeem : HEX_BYTE_PATTERN redeem = true ->
  exists spk, payToScriptHashScript blake2b redeem = Ok spk /\ serializedScriptPublicKey spk = Ok (p2sh_text redeem).
Proof.
  intros H. eexists. unfold payToScriptHashScript.
  rewrite (proj2 (template_hex_ok redeem None _ (hex_decode redeem))) by done. cbn [mbind result_bind].
  split; [reflexivity|]. unfold serializedScriptPublicKey, concatBytes. cbn [spk_version spk_script Z.ltb Z.compare orb throw_if mbind result_bind].
  match goal with |- context [hexToBytes (bytesToHex ?b) ?n ?l] => rewrite (proj2 (template_hex_ok (bytesToHex b) None l b))
    by (split; [by rewrite hex_decode_bytesToHex|split; [apply byte_hex_of|done]]) end.
  cbn [mbind result_bind]. unfold p2sh_text. repeat f_equal. cbn [List.concat]. by rewrite !app_nil_r.
Qed.

Lemma p2sh_text_lower redeem : toLowerCase (p2sh_text redeem) = p2sh_text redeem.
Proof. apply toLowerCase_lower, bytesToHex_lower. Qed.

(** A head in the form the server keeps: what its fields mean, independently of the code that
    normalizes them. *)
Record well_formed_head (h : ExactHeadRecord) : Prop := {
  wf_id : is_lower_hash32 (headId h) = true;
  wf_txid : is_lower_hash32 (txid (currentOutpoint h)) = true;
  wf_index : 0 <= index (currentOutpoint h) <= U32_MAX;
  wf_template : templateId h = KIP10_ADDITIVE_TEMPLATE_ID /\ transactionEncoding h = KIP10_EXACT_TRANSACTION_ENCODING;
  wf_amount : exists n, currentAmount h = toString n /\ 0 < n <= U64_MAX;
  wf_version : exists v, version h = toString v /\ 0 <= v <= U64_MAX;
  wf_script : exists owner t, 0 < t <= U64_MAX /\ additiveThresholdSompi h = toString t /\
    kip10_text (redeemScript h) {| ownerPublicKey := owner; p_amount := toString t |} /\
    toLowerCase (redeemScript h) = redeemScript h;
  wf_spk : scriptPublicKey h = p2sh_text (redeemScript h);
  wf_dates : is_date (h_createdAt h) = true /\ is_date (h_updatedAt h) = true;
  wf_claimed : h_status h = claimed -> exists id, claimTransactionId h = Present id /\ id <> "";
  wf_claim_id : forall id, claimTransactionId h = Present id -> id = "" \/ is_lower_hash32 id = true;
  wf_last : forall id, lastTransactionId h = Present id -> toLowerCase id = id
}.

Lemma lower_if_present_iff p :
  lower_if_present p = p <-> forall s, p = Present s -> toLowerCase s = s.
Proof.
  destruct p as [| |[|c s]]; try (by split).
  - split; [by intros _ s [= <-]|done].
  - change (lower_if_present (Present (String c s))) with (Present (toLowerCase (String c s))).
    split; [by intros [= E] s' [= <-]; cbn; f_equal|by intros ->].
Qed.

(** Normalization leaves exactly the well-formed heads unchanged. *)
Lemma valid_well_formed h : valid_head h <-> well_formed_head h.
Proof.
  rewrite valid_iff. split.
  - intros [[] (L1 & L2 & L3 & L4 & L5 & L6)]. rewrite lower_if_present_iff in L5, L6.
    destruct hk_script0 as (p & Hp & Hpa). destruct hk_threshold0 as (t & Ht & Htr).
    destruct hk_spk0 as (spk & ser & Hspk & Hser & Hl). apply kip10_parse_iff in Hp.
    destruct (p2sh_text_ok (redeemScript h)) as (spk' & Hspk' & Hser'); [apply Hp|].
    rewrite Hspk in Hspk'. injection Hspk' as <-. rewrite Hser in Hser'. injection Hser' as ->.
    constructor; try done.
    + by apply lower_hash_iff.
    + apply lower_hash_iff. split; [done|]. by rewrite <- L2 at 2.
    + exists (ownerPublicKey p), t. split; [done|]. split; [done|]. split; [|done].
      rewrite <- Ht, <- Hpa. by destruct p.
    + by rewrite <- L3, <- Hl, p2sh_text_lower.
    + intros Hs. specialize (hk_claimed0 Hs). destruct (claimTransactionId h) as [| |[|c i]]; try done. by eexists.
    + intros i Hi. destruct i as [|c i]; [by left|right]. apply lower_hash_iff. split; [|by apply L5].
      rewrite Hi in hk_claim_id0. by apply hk_claim_id0.
  - intros [Hid Htx Hix [Ht He] Ha Hv (owner & t & Htr & Hth & Hk & Hlr) Hspk [Hcr Hup] Hcl Hci Hl].
    apply lower_hash_iff in Hid as [Hid Hidl]. apply lower_hash_iff in Htx as [Htx Htxl].
    destruct (p2sh_text_ok (redeemScript h)) as (spk & Hspk' & Hser'); [apply Hk|].
    assert (forall i, claimTransactionId h = Present i -> toLowerCase i = i) as Hcll.
    { intros i Hi. destruct (Hci _ Hi) as [->|[_ E]%lower_hash_iff]; done. }
    split; [constructor; try done|split_and!; try done].
    + by exists t.
    + exists {| ownerPublicKey := owner; p_amount := toString t |}. by rewrite kip10_parse_iff.
    + exists spk, (p2sh_text (redeemScript h)). by rewrite Hspk.
    + intros Hs. destruct (Hcl Hs) as ([|c i] & -> & Hne); done.
    + intros Htr'. destruct (claimTransactionId h) as [| |i] eqn:Ei; try done.
      destruct (Hci i eq_refl) as [->|[E _]%lower_hash_iff]; done.
    + unfold lower_outpoint. rewrite Htxl. by destruct (currentOutpoint h).
    + by rewrite Hspk, p2sh_text_lower.
    + by apply lower_if_present_iff.
    + by apply lower_if_present_iff.
Qed.

(** The part of an attempt that head operations use. *)
Record attempt_ok (a : ExactSettlementAttemptRecord) : Prop := {
  ao_id : is_hash32 (a_transactionId a) = true;
  ao_lower : toLowerCase (a_transactionId a) = a_transactionId a;
  ao_updated : is_date (a_updatedAt a) = true;
  ao_head : forall claim, get (a_head a) = Some claim -> exists n m, head_claim_ok a claim n m /\ n + m <= U64_MAX
}.

Lemma normalize_attempt_ok input a :
  normalizeExactSettlementAttempt other_dates input = Ok a -> attempt_ok a.
Proof.
  intros H.
  assert (is_hash32 (a_transactionId input) = true /\ is_date (a_updatedAt input) = true) as [Hid Hup].
  { unfold normalizeExactSettlementAttempt in H. inv_result. clear H. inv_bool. done. }
  pose proof (normalize_attempt_head other_dates input a) as Hhead.
  apply normalize_attempt_claim in H as Hc.
  assert (a_transactionId a = toLowerCase (a_transactionId input) /\ a_updatedAt a = a_updatedAt input) as [Et Eu].
  { destruct Hc as [[-> _]|(c & c' & _ & _ & ->)]; by destruct input. }
  constructor.
  - rewrite Et. by apply is_hash32_lowered.
  - rewrite Et. apply toLowerCase_idem.
  - by rewrite Eu.
  - intros claim Hg. destruct (Hhead claim H Hg) as (n & m & Hok). exists n, m. split; [done|].
    destruct Hc as [[-> Hn]|(c & c' & _ & Hn & ->)].
    + rewrite (proj1 (lower_attempt_fields input)) in Hg. congruence.
    + rewrite (proj1 (set_head_fields (lower_attempt input) c')) in Hg. injection Hg as ->.
      apply normalize_head_claim_bound in Hn as (k & Hk & Hb). destruct Hok. rewrite ok_successor0 in Hk.
      apply toString_inj in Hk; lia.
Qed.

Lemma head_claim_valid h a h1 : valid_head h -> attempt_ok a -> claimExactHead h a = Ok h1 -> valid_head h1.
Proof.
  intros [[] (L1 & L2 & L3 & L4 & L5 & L6)]%valid_iff [Hid Hlow Hup _] (_ & _ & ->)%claim_head_ok.
  apply valid_iff. destruct h. cbn in *. split; [constructor; cbn; auto; intros _; by apply hash32_truthy|].
  split_and!; auto using lower_if_present_lower.
Qed.

Lemma release_valid h a at_ :
  valid_head h -> is_date at_ = true -> valid_head (releaseExactHeadClaim h a at_).
Proof.
  intros [[] (L1 & L2 & L3 & L4 & L5 & L6)]%valid_iff Hat. unfold releaseExactHeadClaim.
  destruct (negb _); [by apply valid_iff; split; [constructor|]|].
  apply valid_iff. destruct h. cbn in *. split; [constructor; cbn; auto; done|]. done.
Qed.

Lemma accept_valid h a at_ h' v :
  valid_head h -> attempt_ok a -> is_date at_ = true -> version h = toString v -> 0 <= v < U64_MAX ->
  acceptExactHead h a at_ = Ok h' -> valid_head h'.
Proof.
  intros Hv [Hid Hlow Hup Hh] Hat Hver Hvr. unfold acceptExactHead.
  destruct (get (a_head a)) as [claim|] eqn:Ec; [|done]. destruct (_ && _ && _); [by intros [= <-]|].
  intros H. inv_result. match goal with Hp : parseSompiString _ = Ok _ |- _ => rewrite Hver, parse_toString in Hp by lia; injection Hp as <- end.
  apply valid_iff in Hv as [[] (L1 & L2 & L3 & L4 & L5 & L6)]. apply valid_iff.
  destruct (Hh claim eq_refl) as (n & m & [] & Hmax). destruct h. cbn in *.
  rewrite ok_outpoint0, ok_successor0. split.
  - constructor; cbn; auto; try done.
    + exists (n + m). split; [done|lia].
    + exists (v + 1). split; [done|lia].
  - split_and!; auto using lower_if_present_lower. unfold lower_outpoint. cbn. by rewrite Hlow.
Qed.
End ValidHeads.

(** ** External successor chains *)

(** The steps spend the head's outpoint and then each other, keep its output index and
    script, and each adds at least the threshold. *)
Inductive head_chain (spk : string) (threshold : Z) :
    FundingOutpoint -> Z -> list ExactHeadLineageStep -> FundingOutpoint -> Z -> Prop :=
  | chain_end o n : head_chain spk threshold o n [] o n
  | chain_next o n step steps o' n' m :
      st_finality step = "accepted" \/ st_finality step = "confirmed" ->
      lower_outpoint (st_spentOutpoint step) = lower_outpoint o ->
      toLowerCase (txid (outpoint (st_successor step))) = toLowerCase (st_transactionId step) ->
      index (outpoint (st_successor step)) = index o ->
      toLowerCase (c_scriptPublicKey (st_successor step)) = toLowerCase spk ->
      c_amount (st_successor step) = toString m -> n + threshold <= m <= U64_MAX ->
      head_chain spk threshold (lower_outpoint (outpoint (st_successor step))) m steps o' n' ->
      head_chain spk threshold o n (step :: steps) o' n'.

Lemma lineage_step_ok head t o n l step r :
  lineage_step head t (o, n, l) step = Ok r ->
  exists m, r = (lower_outpoint (outpoint (st_successor step)), m, Some (toLowerCase (st_transactionId step))) /\
    (st_finality step = "accepted" \/ st_finality step = "confirmed") /\
    lower_outpoint (st_spentOutpoint step) = lower_outpoint o /\
    toLowerCase (txid (outpoint (st_successor step))) = toLowerCase (st_transactionId step) /\
    index (outpoint (st_successor step)) = index o /\
    toLowerCase (c_scriptPublicKey (st_successor step)) = toLowerCase (scriptPublicKey head) /\
    c_amount (st_successor step) = toString m /\ n + t <= m <= U64_MAX.
Proof.
  unfold lineage_step. intros H. inv_result. inv_bool.
  match goal with Hp : parseSompiString _ = Ok ?m |- _ => apply parse_ok in Hp as [? ?]; exists m end.
  match goal with Ho : sameOutpoint _ _ = true |- _ => apply sameOutpoint_lower in Ho end.
  split; [done|]. split.
  - match goal with Hf : _ && _ = false |- _ => apply andb_false_iff in Hf as [Hf|Hf] end; inv_bool; auto.
  - repeat split; try done; lia.
Qed.

Lemma lineage_fold_ok head t steps o n l o' n' l' :
  fold_result (lineage_step head t) steps (o, n, l) = Ok (o', n', l') ->
  head_chain (scriptPublicKey head) t o n steps o' n' /\
  l' = match last steps with Some step => Some (toLowerCase (st_transactionId step)) | None => l end.
Proof.
  revert o n l. induction steps as [|step steps IH]; intros o n l; cbn [fold_result].
  - intros [= <- <- <-]. split; [constructor|done].
  - intros (r & Hs & Hr)%bind_ok. apply lineage_step_ok in Hs as (m & -> & ? & ? & ? & ? & ? & ? & ?).
    apply IH in Hr as [Hc ->]. split; [by econstructor|]. rewrite last_cons. by destruct (last steps).
Qed.

(** A chain grows by the threshold with every step and ends at the last successor. *)
Lemma chain_growth spk t o n steps o' n' :
  head_chain spk t o n steps o' n' ->
  n + Z.of_nat (length steps) * t <= n' /\ index o' = index o /\
  (forall step, last steps = Some step ->
     o' = lower_outpoint (outpoint (st_successor step)) /\ c_amount (st_successor step) = toString n').
Proof.
  induction 1 as [|o n step steps o' n' m Hf Ho Ht Hi Hs Hm Hb Hc (Hg & Hx & Hl)]; [split; [cbn; lia|done]|].
  cbn [length]. split; [lia|]. split; [by rewrite Hx|].
  destruct steps as [|s steps]; [|exact Hl]. intros ? [= <-]. inversion Hc; subst. done.
Qed.

(** A head is only moved along a proven chain: when external
    successors are applied, each of the 1 to 64 steps spends the outpoint the previous one
    left, keeps the output index and the script and adds at least the head's threshold; the
    new head is the last successor, its amount has grown by at least that many thresholds,
    its version by exactly the number of steps, and it is an available, valid head.  Claimed
    and retired heads are never moved. *)
Theorem head_lineage_sound blake2b other_dates head input next :
  applyExactHeadLineage blake2b other_dates head input = Ok next ->
  exists t n n' v o step,
    additiveThresholdSompi head = toString t /\ currentAmount head = toString n /\ version head = toString v /\
    let k := Z.of_nat (length (la_steps input)) in
    1 <= k <= MAX_EXTERNAL_LINEAGE_STEPS /\ h_status head <> claimed /\ h_status head <> retired /\
    head_chain (scriptPublicKey head) t (currentOutpoint head) n (la_steps input) o n' /\
    0 < t /\ n + k * t <= n' /\ last (la_steps input) = Some step /\
    currentOutpoint next = lower_outpoint (outpoint (st_successor step)) /\
    index (currentOutpoint next) = index (currentOutpoint head) /\
    currentAmount next = toString n' /\ version next = toString (v + k) /\
    get (lastTransactionId next) = Some (toLowerCase (st_transactionId step)) /\
    h_status next = available /\ additiveThresholdSompi next = additiveThresholdSompi head /\
    valid_head blake2b other_dates next.
Proof.
  unfold applyExactHeadLineage. intros H. inv_result. cbv zeta in H. inv_result. inv_bool.
  match goal with Hf : fold_result _ _ _ = Ok ?x |- _ => destruct x as [[o n'] l]; apply lineage_fold_ok in Hf as [Hc ->] end.
  apply bind_ok in H as (v & Hv & H).
  repeat match goal with Hp : parseSompiString _ = Ok _ |- _ => apply parse_ok in Hp as [? ?] end.
  destruct (chain_growth _ _ _ _ _ _ _ Hc) as (Hg & Hx & Hlast).
  destruct (last (la_steps input)) as [step|] eqn:El.
  2:{ apply last_None in El. match goal with Hn : Z.of_nat _ <> 0 |- _ => by rewrite El in Hn end. }
  destruct (Hlast step eq_refl) as [Ho Ham].
  pose proof (normalize_idempotent _ _ _ _ H) as Hvalid. apply normalize_head_iff in H as [Hok ->].
  do 6 eexists. do 3 (split; [eassumption|]). cbv zeta. unfold MAX_EXTERNAL_LINEAGE_STEPS in *.
  split; [lia|]. do 2 (split; [done|]). split; [eassumption|].
  split.
  { destruct (hk_threshold _ _ _ Hok) as (t & Ht & Htr). change (additiveThresholdSompi head = toString t) in Ht.
    match goal with Hh : additiveThresholdSompi head = toString ?x |- 0 < ?x =>
      assert (x = t) as -> by (apply toString_inj_all; congruence) end. lia. }
  split; [done|]. split; [reflexivity|].
  match goal with |- context [lower_head ?k ?h] => destruct (lower_head_fields k h) as [(_ & -> & _) (_ & _ & -> & -> & -> & -> & _)] end.
  split; [subst o; apply lower_outpoint_idem|]. split; [done|]. split; [done|]. split; [done|].
  split; [|by split].
  rewrite lower_head_last. change (get (lower_if_present (Present (toLowerCase (st_transactionId step)))) = Some (toLowerCase (st_transactionId step))).
  by rewrite lower_if_present_get, toLowerCase_idem.
Qed.

(** C27. Every operation keeps heads well formed.  A well-formed head has lower-case
    32-byte ids and a 32-bit output index, a canonical positive amount, version and threshold,
    the canonical KIP-10 script of that threshold, the pay-to-script-hash of that very script,
    readable dates and a transaction id whenever it is claimed.  Normalization leaves a head
    unchanged exactly when it is well formed, and returns only such heads; from a well-formed
    head and a validated attempt, claiming, accepting, releasing and applying an external chain
    all give well-formed heads, with one exception that the statement names: accepting at
    version 2^64 - 1, the last one the version check accepts. *)
Theorem head_operations_keep_valid blake2b other_dates head input a at_ :
  well_formed_head blake2b other_dates head -> normalizeExactSettlementAttempt other_dates input = Ok a ->
  isSome (Date_parse other_dates at_) = true ->
  (forall h, normalizeExactHeadRecord blake2b other_dates h = Ok h <-> well_formed_head blake2b other_dates h) /\
  (forall raw n, normalizeExactHeadRecord blake2b other_dates raw = Ok n -> well_formed_head blake2b other_dates n) /\
  (forall h, claimExactHead head a = Ok h -> well_formed_head blake2b other_dates h) /\
  (forall h, version head <> toString U64_MAX -> acceptExactHead head a at_ = Ok h ->
     well_formed_head blake2b other_dates h) /\
  well_formed_head blake2b other_dates (releaseExactHeadClaim head a at_) /\
  (forall lineage h, applyExactHeadLineage blake2b other_dates head lineage = Ok h ->
     well_formed_head blake2b other_dates h).
Proof.
  intros Hv Ha Hat. apply normalize_attempt_ok in Ha as Hok. apply valid_well_formed in Hv.
  split; [intros h; exact (valid_well_formed blake2b other_dates h)|]. setoid_rewrite <- valid_well_formed.
  split; [apply normalize_idempotent|]. split; [intros h; by apply head_claim_valid|].
  split; [|split; [by apply release_valid|]].
  - intros h Hne Hacc. pose proof Hv as [Hh _]%valid_iff. destruct (hk_version _ _ _ Hh) as (v & Hver & Hr).
    apply (accept_valid _ _ head a at_ h v); try done.
    destruct (decide (v = U64_MAX)) as [->|]; [congruence|lia].
  - intros lineage h H. unfold applyExactHeadLineage in H. inv_result.
    match goal with x : _ * _ * _ |- _ => destruct x as [[? ?] ?] end. apply bind_ok in H as (? & _ & H).
    by apply normalize_idempotent in H.
Qed.

(** * Witness data *)

Definition hash_of (pair : string) : string := String.concat "" (repeat pair 32).
Arguments hash_of : simpl never.
Definition ok_or {A} (d : A) (m : result A) : A := match m with Ok a => a | Throw _ => d end.
Definition no_dates (s : string) : option Z := None.
Definition day (n : string) : string := "2026-01-" +:+ n +:+ "T00:00:00.000Z".

Definition sample_redeem : string :=
  ok_or "" (buildKip10AdditiveRedeemScript {| k_ownerPublicKey := hash_of "a1"; k_amount := Number 1000 |}).
Definition sample_spk : string :=
  ok_or "" (spk ← payToScriptHashScript toy_sha256 sample_redeem; serializedScriptPublicKey spk).

Definition sample_head : ExactHeadRecord := {|
  headId := hash_of "01"; network := "kaspa:testnet-10"; payTo := "kaspatest:payee";
  templateId := "kaspa-x402-kip10-additive-v1"; transactionEncoding := "kaspa-sdk-safe-json-v2.0.0";
  currentOutpoint := {| txid := hash_of "02"; index := 0 |}; currentAmount := "5000";
  scriptPublicKey := sample_spk; redeemScript := sample_redeem; additiveThresholdSompi := "1000"; version := "7";
  h_status := available; h_createdAt := day "01"; h_updatedAt := day "01"; claimTransactionId := Absent;
  lastTransactionId := Absent; unavailableReason := Absent |}.

Definition sample_continuation (tx amount : string) : ExactHeadContinuation := {|
  outpoint := {| txid := tx; index := 0 |}; c_amount := amount; c_scriptPublicKey := sample_spk |}.

Definition sample_attempt (tx : string) : ExactSettlementAttemptRecord := {|
  a_network := Absent; a_transactionId := tx; a_profile := "additive"; a_amount := "1500"; a_paymentOutputIndex := 0;
  a_requestFingerprint := hash_of "0a"; a_paymentRequirementsHash := hash_of "0b";
  a_paymentPayloadHash := hash_of "0c"; a_requestAuthorizationId := hash_of "0d";
  a_authorizationExpiresAt := day "09"; a_challengeExpiresAt := Present (day "08"); a_grantExpiresAt := Absent;
  a_payToScriptPublicKey := sample_spk; a_transaction := "{}"; a_requiredFinality := "accepted";
  a_status := Pending; a_createdAt := day "02"; a_updatedAt := day "02"; a_finality := Absent;
  a_handlerStartedAt := Absent; a_handlerResult := Absent; a_handlerCompletedAt := Absent;
  a_head := Present {| hc_headId := hash_of "01"; hc_expectedVersion := "7";
    hc_expectedOutpoint := {| txid := hash_of "02"; index := 0 |}; hc_expectedAmount := "5000";
    hc_successor := sample_continuation tx "6500" |};
  a_recoveryReason := Absent; a_paymentIdentifier := Absent; a_payerId := "payer" |}.

Definition sample_lineage : ExactHeadLineageApply := {|
  la_headId := hash_of "01"; la_expectedVersion := "7";
  la_expectedOutpoint := {| txid := hash_of "02"; index := 0 |}; la_expectedAmount := "5000";
  la_steps := [
    {| st_transactionId := hash_of "0E"; st_spentOutpoint := {| txid := hash_of "02"; index := 0 |};
       st_successor := sample_continuation (hash_of "0E") "6000"; st_finality := "accepted" |};
    {| st_transactionId := hash_of "0f"; st_spentOutpoint := {| txid := hash_of "0e"; index := 0 |};
       st_successor := sample_continuation (hash_of "0f") "9000"; st_finality := "confirmed" |}];
  la_observedAt := day "03" |}.

Lemma head_claim_lifecycle_witness :
  exists a h1 h2, normalizeExactSettlementAttempt no_dates (sample_attempt (hash_of "Ab")) = Ok a /\
    claimExactHead sample_head a = Ok h1 /\ acceptExactHead h1 a (day "04") = Ok h2 /\ version h2 = "8".
Proof.
  destruct (is_ok_value (normalizeExactSettlementAttempt no_dates (sample_attempt (hash_of "Ab")))) as [a E];
    [vm_compute; reflexivity|].
  assert (is_ok (a ← normalizeExactSettlementAttempt no_dates (sample_attempt (hash_of "Ab"));
                 claimExactHead sample_head a) = true) as E1 by (vm_compute; reflexivity).
  assert (is_ok (a ← normalizeExactSettlementAttempt no_dates (sample_attempt (hash_of "Ab"));
                 match get (a_head a) with Some _ => Ok tt | None => Throw (Error "") end) = true) as E2
    by (vm_compute; reflexivity).
  rewrite E in E1, E2. destruct (is_ok_value _ E1) as [h1 Eh].
  change (claimExactHead sample_head a = Ok h1) in Eh.
  change (is_ok (match get (a_head a) with Some _ => Ok tt | None => Throw (Error "") end) = true) in E2.
  destruct (get (a_head a)) as [claim|] eqn:Ec; [|discriminate E2].
  destruct (head_claim_lifecycle no_dates _ a claim sample_head h1 7 (day "04") E Ec) as (_ & H & _).
  - reflexivity.
  - unfold U64_MAX. lia.
  - exact Eh.
  - destruct H as (n & m & h2 & _ & _ & _ & Hacc & _ & Hv & _). exists a, h1, h2.
    split; [exact E|]. split; [exact Eh|]. split; [exact Hacc|]. exact Hv.
Defined.

Lemma head_lineage_sound_witness :
  exists next, applyExactHeadLineage toy_sha256 no_dates sample_head sample_lineage = Ok next /\
    exists v, version sample_head = toString v /\ version next = toString (v + 2).
Proof.
  destruct (is_ok_value (applyExactHeadLineage toy_sha256 no_dates sample_head sample_lineage)) as [next E];
    [vm_compute; reflexivity|].
  exists next. split; [exact E|].
  destruct (head_lineage_sound _ _ _ _ _ E) as (t & n & n' & v & o & step & _ & _ & Hv & H).
  exists v. split; [exact Hv|]. cbv zeta in H. decompose [and] H. assumption.
Defined.

Lemma head_operations_keep_valid_witness :
  well_formed_head toy_sha256 no_dates sample_head /\
  exists a h, normalizeExactSettlementAttempt no_dates (sample_attempt (hash_of "Ab")) = Ok a /\
    claimExactHead sample_head a = Ok h /\ well_formed_head toy_sha256 no_dates h.
Proof.
  assert (well_formed_head toy_sha256 no_dates sample_head) as Hv
    by (apply valid_well_formed; unfold valid_head; vm_compute; reflexivity).
  split; [exact Hv|].
  destruct (is_ok_value (normalizeExactSettlementAttempt no_dates (sample_attempt (hash_of "Ab")))) as [a E];
    [vm_compute; reflexivity|].
  assert (is_ok (a ← normalizeExactSettlementAttempt no_dates (sample_attempt (hash_of "Ab"));
                 claimExactHead sample_head a) = true) as E1 by (vm_compute; reflexivity).
  rewrite E in E1. destruct (is_ok_value _ E1) as [h Eh]. change (claimExactHead sample_head a = Ok h) in Eh.
  exists a, h. split; [exact E|]. split; [exact Eh|].
  refine (proj1 (proj2 (proj2 (head_operations_keep_valid toy_sha256 no_dates sample_head _ a (day "04") Hv E _))) h Eh).
  reflexivity.
Defined.
