(* ===== verification/ExactTransitions.v ===== *)
(** * Exact payment transitions

    Models [protocol/packages/server/src/exact-payment-transitions.ts]: the twelve commands on
    exact settlement attempts and heads, the records each one reads (the snapshot) and the
    changes each one makes.  The command is a pure decision; the store applies it (Store.v). *)

From S2P Require Import Prelude Amount Json Binary ChainTruth Template Dates PaymentIdentifier ExactHeads.

(** ** Records *)

Record ExactPaymentRecord := {
  p_profile : string;
  p_transactionId : string;
  p_paymentOutputIndex : Z;
  p_requestFingerprint : string;
  p_paymentRequirementsHash : string;
  p_paymentPayloadHash : string;
  p_requestAuthorizationId : string;
  p_amountSompi : string;
  p_payerAddress : prop string;
  p_finality : string;
  p_settlement : json;
  p_response : json
}.
#[export] Instance payment_eta : Settable ExactPaymentRecord := fun r =>
  Build_ExactPaymentRecord (p_profile r) (p_transactionId r) (p_paymentOutputIndex r) (p_requestFingerprint r)
    (p_paymentRequirementsHash r) (p_paymentPayloadHash r) (p_requestAuthorizationId r) (p_amountSompi r)
    (p_payerAddress r) (p_finality r) (p_settlement r) (p_response r).
#[export] Instance identifier_eta : Settable PaymentIdentifierRecord := fun r =>
  Build_PaymentIdentifierRecord (i_id r) (i_fingerprint r) (i_paymentPayloadHash r) (i_response r) (i_settlement r)
    (i_paymentScopeId r) (i_channelId r) (i_transactionId r) (i_paymentOutputIndex r).

Record ExactHeadUnavailableApply := {
  ua_headId : string;
  ua_expectedVersion : string;
  ua_expectedOutpoint : FundingOutpoint;
  ua_expectedAmount : string;
  ua_expectedStatus : ExactHeadStatus;
  ua_reason : string;
  ua_observedAt : string
}.

Inductive ExactTransitionCommand :=
  | ClaimCommand (attempt : ExactSettlementAttemptRecord)
  | BroadcastCommand (txId finality observedAt : string)
  | AcceptCommand (txId finality observedAt : string)
  | BeginHandlerCommand (txId startedAt : string)
  | ResetHandlerCommand (txId startedAt : string)
  | RecordResultCommand (txId : string) (handlerResult : ProtectedHandlerResult) (completedAt : string)
  | RecoveryCommand (txId reason observedAt : string)
  | AbandonCommand (txId reason observedAt : string)
  | CommitCommand (payment : ExactPaymentRecord) (identifier : option PaymentIdentifierRecord)
  | RegisterHeadCommand (head : ExactHeadRecord)
  | UnavailableHeadCommand (input : ExactHeadUnavailableApply)
  | LineageCommand (input : ExactHeadLineageApply).

Record ExactTransitionSnapshot := {
  now : string;
  s_attempt : option ExactSettlementAttemptRecord;
  s_head : option ExactHeadRecord;
  s_payment : option ExactPaymentRecord;
  s_identifier : option PaymentIdentifierRecord;
  s_reservation : option PaymentIdentifierReservationRecord;
  s_heads : option (list ExactHeadRecord);
  s_maxHeads : option Z
}.

Inductive ExactTransitionBudget :=
  | Admit (attempt : ExactSettlementAttemptRecord) (bytes : Z)
  | Terminal (txId : string) (bytes : Z) (identifierId : option string) (safelyReleased : bool)
  | DeleteBudget (txId : string).

Inductive ExactTransitionResult :=
  | Nothing
  | Flag (b : bool)
  | ClaimResult (attempt : ExactSettlementAttemptRecord) (created : bool)
  | HeadResult (head : ExactHeadRecord)
  | UnavailableResult (applied : bool) (head : ExactHeadRecord).

(** [undefined], [null] or a record. *)
Inductive attempt_change :=
  | KeepAttempt
  | DeleteAttempt
  | PutAttempt (a : ExactSettlementAttemptRecord).

Record ExactTransitionChanges := {
  ch_result : ExactTransitionResult;
  ch_transactionId : option string;
  ch_attempt : attempt_change;
  ch_head : option ExactHeadRecord;
  ch_payment : option ExactPaymentRecord;
  ch_identifier : option PaymentIdentifierRecord;
  ch_reservation : option PaymentIdentifierReservationRecord;
  ch_budget : option ExactTransitionBudget
}.
#[export] Instance changes_eta : Settable ExactTransitionChanges := fun c =>
  Build_ExactTransitionChanges (ch_result c) (ch_transactionId c) (ch_attempt c) (ch_head c) (ch_payment c)
    (ch_identifier c) (ch_reservation c) (ch_budget c).
(** [{ result }] *)
Definition just_result (r : ExactTransitionResult) : ExactTransitionChanges :=
  Build_ExactTransitionChanges r None KeepAttempt None None None None None.

(** ** Their JSON *)

Definition payment_json (p : ExactPaymentRecord) : json :=
  JObject ([("profile", JString (p_profile p)); ("transactionId", JString (p_transactionId p));
            ("paymentOutputIndex", JNumber (p_paymentOutputIndex p));
            ("requestFingerprint", JString (p_requestFingerprint p));
            ("paymentRequirementsHash", JString (p_paymentRequirementsHash p));
            ("paymentPayloadHash", JString (p_paymentPayloadHash p));
            ("requestAuthorizationId", JString (p_requestAuthorizationId p));
            ("amount", JString (p_amountSompi p))]
           ++ jprop "payerAddress" JString (p_payerAddress p)
           ++ [("finality", JString (p_finality p)); ("settlement", p_settlement p); ("response", p_response p)]).
Definition identifier_json (i : PaymentIdentifierRecord) : json :=
  JObject ([("id", JString (i_id i)); ("fingerprint", JString (i_fingerprint i));
            ("paymentPayloadHash", JString (i_paymentPayloadHash i)); ("response", i_response i);
            ("settlement", i_settlement i); ("paymentScopeId", JString (i_paymentScopeId i))]
           ++ jprop "channelId" JString (i_channelId i) ++ jprop "transactionId" JString (i_transactionId i)
           ++ jprop "paymentOutputIndex" JNumber (i_paymentOutputIndex i)).
Definition reservation_status_text (s : PaymentIdentifierReservationStatus) : string :=
  match s with
  | reserved => "reserved" | pending => "pending" | recovery_required => "recovery-required"
  | completed => "completed" | safely_released => "safely-released"
  end.
Definition reservation_json (r : PaymentIdentifierReservationRecord) : json :=
  JObject (claim_fields (r_claim r)
           ++ [("status", JString (reservation_status_text (status r))); ("createdAt", JString (createdAt r));
               ("updatedAt", JString (updatedAt r))]
           ++ jprop "recoveryReason" JString (recoveryReason r)).
(** A property whose value may be [undefined]. *)
Definition field {A} (f : A -> json) (o : option A) : json :=
  match o with Some a => f a | None => JUndefined end.

(** ** What a command reads *)

Section Transitions.
Context (blake2b : bytes -> bytes) (other_dates : string -> option Z).
#[local] Abbreviation is_date s := (isSome (Date_parse other_dates s)).

Definition command_txid (command : ExactTransitionCommand) : string :=
  match command with
  | ClaimCommand a => a_transactionId a
  | CommitCommand p _ => p_transactionId p
  | BroadcastCommand t _ _ | AcceptCommand t _ _ | BeginHandlerCommand t _ | ResetHandlerCommand t _
  | RecordResultCommand t _ _ | RecoveryCommand t _ _ | AbandonCommand t _ _ => t
  | _ => ""
  end.

Record ExactTransitionScope := {
  sc_transactionId : option string;
  sc_headId : option string;
  sc_identifierId : option string
}.

Definition exactTransitionScope (command : ExactTransitionCommand)
    (attempt : option ExactSettlementAttemptRecord) : result ExactTransitionScope :=
  match command with
  | RegisterHeadCommand h =>
      h ← normalizeExactHeadRecord blake2b other_dates h;
      Ok {| sc_transactionId := None; sc_headId := Some (headId h); sc_identifierId := None |}
  | UnavailableHeadCommand i =>
      Ok {| sc_transactionId := None; sc_headId := Some (toLowerCase (ua_headId i)); sc_identifierId := None |}
  | LineageCommand i =>
      Ok {| sc_transactionId := None; sc_headId := Some (toLowerCase (la_headId i)); sc_identifierId := None |}
  | _ =>
      current ← match command with
                | ClaimCommand a => Some <$> normalizeExactSettlementAttempt other_dates a
                | _ => Ok attempt
                end;
      Ok {| sc_transactionId := Some (toLowerCase (command_txid command));
            sc_headId := c ← current; hc_headId <$> get (a_head c);
            sc_identifierId :=
              match (c ← current; id <$> get (a_paymentIdentifier c)) with
              | Some i => Some i
              | None => match command with CommitCommand _ i => i_id <$> i | _ => None end
              end |}
  end.

(** ** What a command decides *)

Definition assertHandlerResult (attempt : ExactSettlementAttemptRecord) (handlerResult : ProtectedHandlerResult)
    (completedAt : string) : result () :=
  _ ← throw_if ((a_status attempt !== Accepted) || negb (truthy (a_handlerStartedAt attempt)))
        "exact handler has not started on an accepted settlement";
  _ ← throw_if (negb (is_date completedAt)) "exact handler completion time must be an ISO date string";
  _ ← throw_if (match get (hr_status handlerResult) with Some s => (s <? 100) || (599 <? s) | None => false end)
        "exact handler status is invalid";
  _ ← throw_if (match get (hr_headers handlerResult) with
                | Some hs => existsb (fun kv => match kv.2 with JString _ => false | _ => true end) hs
                | None => false
                end) "exact handler headers are invalid";
  _ ← throw_if (match get (hr_headers handlerResult) with Some hs => 64 <? Z.of_nat (length hs) | None => false end)
        "exact handler has too many response headers";
  let serialized := JSON_stringify (result_json handlerResult) in
  _ ← throw_if (MAX_DURABLE_HANDLER_RESULT_BYTES <? byte_length serialized)
        "exact handler result exceeds the durable size limit";
  throw_if (match get (hr_chargedAmount handlerResult) with Some c => c !== a_amount attempt | None => false end)
    "exact handler charge must equal the accepted amount".

Definition prepareRegisterHead (snapshot : ExactTransitionSnapshot) (input : ExactHeadRecord) :
    result ExactTransitionChanges :=
  head ← normalizeExactHeadRecord blake2b other_dates input;
  match s_head snapshot with
  | Some existing =>
      _ ← throw_if (stableJson (head_json existing) !== stableJson (head_json head))
            "exact head id is already registered for different state";
      Ok ((just_result (HeadResult existing)) <| ch_head := Some existing |>)
  | None =>
      _ ← throw_if (match s_heads snapshot with
                    | Some heads => existsb (fun i => sameOutpoint (currentOutpoint i) (currentOutpoint head)) heads
                    | None => false
                    end) "exact head outpoint is already registered";
      match s_heads snapshot, s_maxHeads snapshot with
      | Some heads, Some maxHeads =>
          _ ← throw_if (maxHeads <=? Z.of_nat (length heads)) "exact head admission limit exceeded";
          Ok ((just_result (HeadResult head)) <| ch_head := Some head |>)
      | _, _ => Throw (Error "exact head admission snapshot is missing")
      end
  end.

Definition prepareUnavailableHead (head : ExactHeadRecord) (input : ExactHeadUnavailableApply) :
    result ExactTransitionChanges :=
  _ ← throw_if (h_status head === retired) "retired exact head cannot be marked unavailable";
  if (version head !== ua_expectedVersion input)
     || negb (sameOutpoint (currentOutpoint head) (ua_expectedOutpoint input))
     || (currentAmount head !== ua_expectedAmount input) || (h_status head !== ua_expectedStatus input)
  then Ok (just_result (UnavailableResult false head))
  else
    let next := head <| h_status := unavailable |> <| unavailableReason := Present (ua_reason input) |>
                     <| h_updatedAt := ua_observedAt input |> in
    Ok ((just_result (UnavailableResult true next)) <| ch_head := Some next |>).

Definition prepareClaim (snapshot : ExactTransitionSnapshot) (input : ExactSettlementAttemptRecord) :
    result ExactTransitionChanges :=
  attempt ← normalizeExactSettlementAttempt other_dates input;
  match s_attempt snapshot with
  | Some existing =>
      _ ← throw_if (negb (exactSettlementAttemptsMatch existing attempt))
            "exact transaction is already claimed for a different request";
      Ok (just_result (ClaimResult existing false))
  | None =>
      let expired deadline :=
        match Date_parse other_dates (now snapshot), Date_parse other_dates deadline with
        | Some claimTime, Some d => d <=? claimTime
        | _, _ => false
        end in
      _ ← throw_if (negb (is_date (now snapshot)) || expired (a_authorizationExpiresAt attempt)
                    || match get (a_challengeExpiresAt attempt) with Some d => expired d | None => false end
                    || match get (a_grantExpiresAt attempt) with Some d => expired d | None => false end)
            "exact settlement claim expired before durable admission";
      let claim := get (a_paymentIdentifier attempt) in
      _ ← assertPaymentIdentifierAvailable claim (s_reservation snapshot) (s_identifier snapshot);
      head ← (if a_profile attempt === "additive" then
                _ ← throw_if (isNone (get (a_head attempt))) "additive exact settlement requires a head claim";
                match s_head snapshot with
                | None => Throw (Error "exact head changed before settlement claim")
                | Some h => Some <$> claimExactHead h attempt
                end
              else
                _ ← throw_if (isSome (get (a_head attempt)))
                      "standard-native exact settlement cannot claim a head";
                Ok None);
      reservation ← transitionPaymentIdentifierReservation claim (s_reservation snapshot)
                      (Reserve (a_createdAt attempt));
      Ok {| ch_result := ClaimResult attempt true; ch_transactionId := Some (a_transactionId attempt);
            ch_attempt := PutAttempt attempt; ch_head := head; ch_payment := None; ch_identifier := None;
            ch_reservation := reservation;
            ch_budget := Some (Admit attempt (durableOpenRecordBytes (attempt_json attempt))) |}
  end.

Definition prepareCommit (snapshot : ExactTransitionSnapshot) (payment : ExactPaymentRecord)
    (identifier : option PaymentIdentifierRecord) : result ExactTransitionChanges :=
  match s_payment snapshot with
  | Some done =>
      _ ← throw_if ((p_requestFingerprint done !== p_requestFingerprint payment)
                    || (p_paymentPayloadHash done !== p_paymentPayloadHash payment)
                    || (p_paymentOutputIndex done !== p_paymentOutputIndex payment))
            "exact payment transaction was already committed for a different request";
      Ok (just_result Nothing)
  | None =>
      reservation ← match identifier with
        | None => Ok None
        | Some i =>
            match s_attempt snapshot with
            | None => Throw (Error "payment identifier completion requires its reserved attempt")
            | Some attempt =>
                _ ← assertPaymentIdentifierCompletion (get (a_paymentIdentifier attempt)) (Some i)
                      (s_reservation snapshot) (s_identifier snapshot);
                transitionPaymentIdentifierReservation (get (a_paymentIdentifier attempt))
                  (s_reservation snapshot) (Complete (now snapshot))
            end
        end;
      applied ← match s_attempt snapshot with
        | None => Ok None
        | Some attempt =>
            _ ← throw_if ((a_status attempt !== Accepted) || negb (truthy (a_handlerStartedAt attempt))
                          || isNone (get (a_handlerResult attempt)))
                  "exact settlement attempt is not ready to apply";
            Ok (Some (attempt <| a_handlerResult := Absent |> <| a_handlerCompletedAt := Absent |>
                              <| a_status := Applied |> <| a_transaction := "" |>
                              <| a_recoveryReason := Undefined |> <| a_updatedAt := now snapshot |>))
        end;
      Ok {| ch_result := Nothing; ch_transactionId := Some (toLowerCase (p_transactionId payment));
            ch_attempt := match applied with Some a => PutAttempt a | None => KeepAttempt end;
            ch_head := None; ch_payment := Some payment; ch_identifier := identifier;
            ch_reservation := reservation;
            ch_budget := match s_attempt snapshot with
                         | None => None
                         | Some attempt =>
                             Some (Terminal (a_transactionId attempt)
                               (durableByteLength (JObject
                                  [("attempt", field attempt_json applied); ("payment", payment_json payment);
                                   ("paymentIdentifier", field identifier_json identifier)]))
                               (i_id <$> identifier) false)
                         end |}
  end.

(** The attempt put back with its reservation updated alongside. *)
Definition pending_changes (snapshot : ExactTransitionSnapshot) (attempt next : ExactSettlementAttemptRecord)
    (s : PaymentIdentifierReservationStatus) (reason : prop string) (res : ExactTransitionResult) :
    result ExactTransitionChanges :=
  reservation ← transitionPaymentIdentifierReservation (get (a_paymentIdentifier attempt))
                  (s_reservation snapshot) (Update s (a_updatedAt next) reason);
  Ok ((just_result res) <| ch_transactionId := Some (a_transactionId attempt) |>
        <| ch_attempt := PutAttempt next |> <| ch_reservation := reservation |>).

Definition prepareAttempt (command : ExactTransitionCommand) (snapshot : ExactTransitionSnapshot)
    (attempt : ExactSettlementAttemptRecord) : result ExactTransitionChanges :=
  match command with
  | BroadcastCommand _ finality observedAt =>
      if (a_status attempt === Accepted) || (a_status attempt === Applied) then Ok (just_result Nothing)
      else pending_changes snapshot attempt
             (attempt <| a_status := Broadcast |> <| a_finality := Present finality |>
                      <| a_updatedAt := observedAt |>) pending Absent Nothing
  | AcceptCommand _ finality observedAt =>
      if a_status attempt === Applied then Ok (just_result Nothing)
      else
        head ← match get (a_head attempt) with
               | None => Ok None
               | Some _ =>
                   match s_head snapshot with
                   | None => Throw (Error "exact head was not found during settlement acceptance")
                   | Some h => Some <$> acceptExactHead h attempt observedAt
                   end
               end;
        changes ← pending_changes snapshot attempt
                    (attempt <| a_status := Accepted |> <| a_finality := Present finality |>
                             <| a_updatedAt := observedAt |>) pending Absent Nothing;
        Ok (changes <| ch_head := head |>)
  | BeginHandlerCommand _ startedAt =>
      if (a_status attempt !== Accepted) || truthy (a_handlerStartedAt attempt) then Ok (just_result (Flag false))
      else if negb (is_date startedAt) then Ok (just_result (Flag false))
      else pending_changes snapshot attempt
             (attempt <| a_handlerStartedAt := Present startedAt |> <| a_updatedAt := startedAt |>)
             pending Absent (Flag true)
  | ResetHandlerCommand _ startedAt =>
      if (a_status attempt !== Accepted) || (get (a_handlerStartedAt attempt) !== Some startedAt)
         || isSome (get (a_handlerResult attempt)) || truthy (a_recoveryReason attempt)
      then Ok (just_result (Flag false))
      else pending_changes snapshot attempt
             (attempt <| a_handlerStartedAt := Undefined |> <| a_updatedAt := now snapshot |>)
             pending Absent (Flag true)
  | RecordResultCommand _ handlerResult completedAt =>
      _ ← assertHandlerResult attempt handlerResult completedAt;
      match get (a_handlerResult attempt) with
      | Some recorded =>
          _ ← throw_if (stableJson (result_json recorded) !== stableJson (result_json handlerResult))
                "exact handler result conflicts with durable state";
          Ok (just_result Nothing)
      | None =>
          pending_changes snapshot attempt
            (attempt <| a_handlerResult := Present handlerResult |>
                     <| a_handlerCompletedAt := Present completedAt |>
                     <| a_recoveryReason := Undefined |> <| a_updatedAt := completedAt |>)
            pending Undefined Nothing
      end
  | RecoveryCommand _ reason observedAt =>
      _ ← throw_if ((a_status attempt !== Accepted) || negb (truthy (a_handlerStartedAt attempt))
                    || isSome (get (a_handlerResult attempt))) "exact handler is not awaiting recovery";
      pending_changes snapshot attempt
        (attempt <| a_recoveryReason := Present reason |> <| a_updatedAt := observedAt |>)
        recovery_required (Present reason) Nothing
  | AbandonCommand _ reason observedAt =>
      _ ← throw_if ((a_status attempt === Accepted) || (a_status attempt === Applied))
            "accepted exact settlement cannot be abandoned";
      _ ← throw_if (truthy (a_handlerStartedAt attempt) || isSome (get (a_handlerResult attempt))
                    || truthy (a_recoveryReason attempt)) "uncertain exact settlement cannot be abandoned";
      let head := match get (a_head attempt), s_head snapshot with
                  | Some _, Some h => Some (releaseExactHeadClaim h attempt observedAt)
                  | _, _ => None
                  end in
      reservation ← transitionPaymentIdentifierReservation (get (a_paymentIdentifier attempt))
                      (s_reservation snapshot) (Release reason observedAt true);
      Ok {| ch_result := Nothing; ch_transactionId := Some (a_transactionId attempt);
            ch_attempt := DeleteAttempt; ch_head := head; ch_payment := None; ch_identifier := None;
            ch_reservation := reservation;
            ch_budget := Some match reservation with
                              | Some r => Terminal (a_transactionId attempt)
                                  (durableByteLength (JObject [("paymentIdentifierReservation", reservation_json r)]))
                                  (Some (id (r_claim r))) true
                              | None => DeleteBudget (a_transactionId attempt)
                              end |}
  | _ => Ok (just_result Nothing)
  end.

Definition prepareExactTransition (command : ExactTransitionCommand) (snapshot : ExactTransitionSnapshot) :
    result ExactTransitionChanges :=
  match command with
  | RegisterHeadCommand input => prepareRegisterHead snapshot input
  | UnavailableHeadCommand input =>
      match s_head snapshot with
      | None => Throw (Error "exact head was not found")
      | Some head => prepareUnavailableHead head input
      end
  | LineageCommand input =>
      match s_head snapshot with
      | None => Throw (Error "exact head was not found")
      | Some head =>
          next ← applyExactHeadLineage blake2b other_dates head input;
          Ok ((just_result (HeadResult next)) <| ch_head := Some next |>)
      end
  | ClaimCommand input => prepareClaim snapshot input
  | CommitCommand payment identifier => prepareCommit snapshot payment identifier
  | _ =>
      match s_attempt snapshot with
      | None => Throw (Error "exact settlement attempt was not found")
      | Some attempt => prepareAttempt command snapshot attempt
      end
  end.
End Transitions.
