(* ===== verification/ExactPhases.v ===== *)
(** * The phases of an exact settlement attempt

    The commands of ExactTransitions.v refine a state machine on the attempt record; over any
    sequence of commands its immutable terms never change, and the protected handler starts
    at most once for each accepted payment. *)

From S2P Require Import Prelude Amount Json Binary ChainTruth Dates PaymentIdentifier ExactHeads.
From S2P Require Import ExactTransitions.

(** * Specification *)

(** The outcome of a command for the attempt it is about. *)
Inductive phase_label :=
  | Idle
  | Broadcasts
  | Accepts
  | Begins (startedAt : string)
  | Resets (startedAt : string)
  | Records (r : ProtectedHandlerResult)
  | Uncertain (reason : string)
  | Commits
  | Abandons.

Definition started (a : ExactSettlementAttemptRecord) : bool := truthy (a_handlerStartedAt a).
Definition has_result (a : ExactSettlementAttemptRecord) : bool := isSome (get (a_handlerResult a)).

Inductive attempt_step (a : ExactSettlementAttemptRecord) : phase_label -> attempt_change -> Prop :=
  | step_idle : attempt_step a Idle KeepAttempt
  | step_broadcast finality at_ :
      a_status a = Pending \/ a_status a = Broadcast ->
      attempt_step a Broadcasts
        (PutAttempt (a <| a_status := Broadcast |> <| a_finality := Present finality |> <| a_updatedAt := at_ |>))
  | step_accept finality at_ :
      a_status a <> Applied ->
      attempt_step a Accepts
        (PutAttempt (a <| a_status := Accepted |> <| a_finality := Present finality |> <| a_updatedAt := at_ |>))
  | step_begin t :
      a_status a = Accepted -> started a = false -> t <> "" ->
      attempt_step a (Begins t)
        (PutAttempt (a <| a_handlerStartedAt := Present t |> <| a_updatedAt := t |>))
  | step_reset t at_ :
      a_status a = Accepted -> get (a_handlerStartedAt a) = Some t -> has_result a = false ->
      truthy (a_recoveryReason a) = false ->
      attempt_step a (Resets t) (PutAttempt (a <| a_handlerStartedAt := Undefined |> <| a_updatedAt := at_ |>))
  | step_result r at_ :
      a_status a = Accepted -> started a = true -> has_result a = false ->
      (forall c, get (hr_chargedAmount r) = Some c -> c = a_amount a) ->
      attempt_step a (Records r)
        (PutAttempt (a <| a_handlerResult := Present r |> <| a_handlerCompletedAt := Present at_ |>
                       <| a_recoveryReason := Undefined |> <| a_updatedAt := at_ |>))
  | step_uncertain reason at_ :
      a_status a = Accepted -> started a = true -> has_result a = false ->
      attempt_step a (Uncertain reason)
        (PutAttempt (a <| a_recoveryReason := Present reason |> <| a_updatedAt := at_ |>))
  | step_commit at_ :
      a_status a = Accepted -> started a = true -> has_result a = true ->
      attempt_step a Commits
        (PutAttempt (a <| a_handlerResult := Absent |> <| a_handlerCompletedAt := Absent |>
                       <| a_status := Applied |> <| a_transaction := "" |>
                       <| a_recoveryReason := Undefined |> <| a_updatedAt := at_ |>))
  | step_abandon :
      a_status a = Pending \/ a_status a = Broadcast -> started a = false -> has_result a = false ->
      truthy (a_recoveryReason a) = false ->
      attempt_step a Abandons DeleteAttempt.

(** What was signed and admitted. *)
Definition attempt_identity (a : ExactSettlementAttemptRecord) :=
  ((a_network a, a_transactionId a, a_profile a, a_amount a, a_paymentOutputIndex a, a_requestFingerprint a,
    a_paymentRequirementsHash a, a_paymentPayloadHash a, a_requestAuthorizationId a),
   (a_authorizationExpiresAt a, a_challengeExpiresAt a, a_grantExpiresAt a, a_payToScriptPublicKey a,
    a_requiredFinality a, a_createdAt a, a_head a, a_paymentIdentifier a, a_payerId a)).

Definition status_rank (s : ExactSettlementAttemptStatus) : Z :=
  match s with Pending => 0 | Broadcast => 1 | Accepted => 2 | Applied => 3 end.

(** The attempt kept for one transaction, and the outcomes of the commands sent to it. *)
Section Runs.
Context (blake2b : bytes -> bytes) (other_dates : string -> option Z).
Context (no_empty_date : other_dates "" = None).

#[local] Abbreviation prepare := (prepareExactTransition blake2b other_dates).

Definition with_attempt (s : ExactTransitionSnapshot) (a : option ExactSettlementAttemptRecord) :
    ExactTransitionSnapshot :=
  {| now := now s; s_attempt := a; s_head := s_head s; s_payment := s_payment s; s_identifier := s_identifier s;
     s_reservation := s_reservation s; s_heads := s_heads s; s_maxHeads := s_maxHeads s |}.

Abbreviation event := (ExactTransitionCommand * ExactTransitionSnapshot)%type.

Definition change_attempt (a : option ExactSettlementAttemptRecord) (c : attempt_change) :=
  match c with KeepAttempt => a | DeleteAttempt => None | PutAttempt a' => Some a' end.
(** A refused command changes nothing. *)
Definition apply_event (a : option ExactSettlementAttemptRecord) (e : event) : option ExactSettlementAttemptRecord :=
  match prepare e.1 (with_attempt e.2 a) with
  | Ok ch => change_attempt a (ch_attempt ch)
  | Throw _ => a
  end.
Definition flag (ch : ExactTransitionChanges) : bool := match ch_result ch with Flag b => b | _ => false end.
Definition begins (c : ExactTransitionCommand) : bool := match c with BeginHandlerCommand _ _ => true | _ => false end.
Definition resets (c : ExactTransitionCommand) : bool := match c with ResetHandlerCommand _ _ => true | _ => false end.
Definition is_Begins (l : phase_label) : bool := match l with Begins _ => true | _ => false end.
Definition is_Resets (l : phase_label) : bool := match l with Resets _ => true | _ => false end.
(** Was the command answered with [true]? *)
Definition granted (p : ExactTransitionCommand -> bool) (a : option ExactSettlementAttemptRecord) (e : event) : bool :=
  match prepare e.1 (with_attempt e.2 a) with
  | Ok ch => p e.1 && flag ch
  | Throw _ => false
  end.
(** How many commands of a kind were granted during a run. *)
Fixpoint grants (p : ExactTransitionCommand -> bool) (a : option ExactSettlementAttemptRecord) (events : list event) : Z :=
  match events with
  | [] => 0
  | e :: events => (if granted p a e then 1 else 0) + grants p (apply_event a e) events
  end.
Definition run (a : option ExactSettlementAttemptRecord) (events : list event) := foldl apply_event a events.

(** * Lemmas *)

Ltac inv_pending H :=
  unfold pending_changes in H; apply bind_ok in H as (? & ? & H); apply Ok_inj in H; subst.

Lemma is_date_nonempty t : isSome (Date_parse other_dates t) = true -> t <> "".
Proof. intros H ->. unfold Date_parse in H. cbn in H. by rewrite no_empty_date in H. Qed.

Lemma prepare_step command s a ch :
  prepare command (with_attempt s (Some a)) = Ok ch ->
  (exists l, attempt_step a l (ch_attempt ch) /\
     begins command && flag ch = is_Begins l /\ resets command && flag ch = is_Resets l).
Proof.
  destruct command; cbn [prepareExactTransition with_attempt s_attempt]; intros H.
  - (* claim *)
    unfold prepareClaim in H. apply bind_ok in H as (n & _ & H). cbn [with_attempt s_attempt] in H.
    apply bind_ok in H as (? & _ & H). apply Ok_inj in H. subst. exists Idle. split; [constructor|done].
  - cbn [prepareAttempt] in H. destruct (_ || _) eqn:E; [apply Ok_inj in H; subst; exists Idle; split; [constructor|done]|].
    inv_pending H. inv_bool. exists Broadcasts. split; [constructor; destruct (a_status a); auto; done|done].
  - cbn [prepareAttempt] in H. case_bool_decide; [apply Ok_inj in H; subst; exists Idle; split; [constructor|done]|].
    apply bind_ok in H as (h & _ & H). apply bind_ok in H as (c & Hc & H). inv_pending Hc. apply Ok_inj in H. subst.
    exists Accepts. split; [by constructor|done].
  - cbn [prepareAttempt] in H. destruct (_ || _) eqn:E; [apply Ok_inj in H; subst; exists Idle; split; [constructor|done]|].
    destruct (negb (isSome _)) eqn:Ed; [apply Ok_inj in H; subst; exists Idle; split; [constructor|done]|].
    inv_pending H. inv_bool. exists (Begins startedAt). split; [constructor; auto using is_date_nonempty|done].
  - cbn [prepareAttempt] in H. destruct (_ || _) eqn:E; [apply Ok_inj in H; subst; exists Idle; split; [constructor|done]|].
    inv_pending H. inv_bool. exists (Resets startedAt). split; [by constructor|done].
  - cbn [prepareAttempt] in H. apply bind_ok in H as ([] & Hr & H).
    destruct (get (a_handlerResult a)) as [r|] eqn:Er.
    + apply bind_ok in H as (? & _ & H). apply Ok_inj in H. subst. exists Idle. split; [constructor|done].
    + inv_pending H. unfold assertHandlerResult in Hr. inv_result. inv_bool. exists (Records handlerResult).
      split; [|done]. constructor; [done|done|unfold has_result; by rewrite Er|].
      intros c Hc. match goal with Hx : match get (hr_chargedAmount _) with _ => _ end = false |- _ => rewrite Hc in Hx end.
      inv_bool. done.
  - cbn [prepareAttempt] in H. apply bind_ok in H as ([] & Hg & H). inv_pending H.
    apply throw_if_ok in Hg. inv_bool. exists (Uncertain reason). split; [by constructor|done].
  - cbn [prepareAttempt] in H. apply bind_ok in H as ([] & Hg & H). apply bind_ok in H as ([] & Hg2 & H).
    apply bind_ok in H as (? & _ & H). apply Ok_inj in H. subst. apply throw_if_ok in Hg, Hg2. inv_bool.
    exists Abandons. split; [constructor; auto; destruct (a_status a); auto; done|done].
  - unfold prepareCommit in H. cbn [with_attempt s_attempt s_payment] in H. destruct (s_payment s).
    + apply bind_ok in H as (? & _ & H). apply Ok_inj in H. subst. exists Idle. split; [constructor|done].
    + apply bind_ok in H as (? & _ & H). apply bind_ok in H as (ap & Hap & H).
      apply bind_ok in Hap as ([] & Hg & Hap). apply Ok_inj in Hap, H. subst. apply throw_if_ok in Hg. inv_bool.
      exists Commits. split; [|done]. constructor; [done|done|].
      unfold has_result, isSome. match goal with Hx : isNone _ = false |- _ => by rewrite Hx end.
  - unfold prepareRegisterHead in H. apply bind_ok in H as (h & _ & H). exists Idle. cbn [with_attempt s_head s_heads s_maxHeads] in H.
    destruct (s_head s); [apply bind_ok in H as (? & _ & H); apply Ok_inj in H; subst; split; [constructor|done]|].
    apply bind_ok in H as (? & _ & H). destruct (s_heads s), (s_maxHeads s); try done.
    apply bind_ok in H as (? & _ & H); apply Ok_inj in H; subst; split; [constructor|done].
  - cbn [with_attempt s_head] in H. destruct (s_head s); [|done]. unfold prepareUnavailableHead in H. exists Idle.
    apply bind_ok in H as (? & _ & H). destruct (_ || _); apply Ok_inj in H; subst; (split; [constructor|done]).
  - cbn [with_attempt s_head] in H. destruct (s_head s); [|done]. apply bind_ok in H as (? & _ & H).
    exists Idle. apply Ok_inj in H; subst; split; [constructor|done].
Qed.

Lemma step_kept a l a' :
  attempt_step a l (PutAttempt a') ->
  attempt_identity a' = attempt_identity a /\ status_rank (a_status a) <= status_rank (a_status a') /\
  a_status a <> Applied.
Proof. intros H. inversion H; subst; destruct a; cbn in *; destruct_or?; subst; repeat split; try done; destruct_or?; subst; try done; cbn; lia || (destruct a_status; cbn; lia || done). Qed.

Lemma prepare_absent command s ch a :
  prepare command (with_attempt s None) = Ok ch -> ch_attempt ch = PutAttempt a ->
  exists input, command = ClaimCommand input /\ normalizeExactSettlementAttempt other_dates input = Ok a.
Proof.
  destruct command; cbn [prepareExactTransition with_attempt s_attempt]; try done; intros H Ha.
  - unfold prepareClaim in H. apply bind_ok in H as (n & Hn & H). cbn [with_attempt s_attempt] in H.
    repeat (apply bind_ok in H as (? & _ & H)). apply Ok_inj in H. subst. cbn in Ha. injection Ha as <-. eauto.
  - unfold prepareCommit in H. cbn [with_attempt s_attempt s_payment] in H.
    destruct (s_payment s); repeat (apply bind_ok in H as (? & ? & H)); apply Ok_inj in H; subst; [done|].
    cbn [ch_attempt] in Ha. destruct x0; [|done]. naive_solver.
  - unfold prepareRegisterHead in H. apply bind_ok in H as (h & _ & H). cbn [with_attempt s_head s_heads s_maxHeads] in H.
    destruct (s_head s); [apply bind_ok in H as (? & _ & H); by apply Ok_inj in H; subst|].
    apply bind_ok in H as (? & _ & H). destruct (s_heads s), (s_maxHeads s); try done.
    apply bind_ok in H as (? & _ & H); by apply Ok_inj in H; subst.
  - cbn [with_attempt s_head] in H. destruct (s_head s); [|done]. unfold prepareUnavailableHead in H.
    apply bind_ok in H as (? & _ & H). destruct (_ || _); by apply Ok_inj in H; subst.
  - cbn [with_attempt s_head] in H. destruct (s_head s); [|done]. apply bind_ok in H as (? & _ & H).
    by apply Ok_inj in H; subst.
Qed.

Lemma normalized_fresh input a :
  normalizeExactSettlementAttempt other_dates input = Ok a ->
  a_status a = Pending /\ started a = false /\ has_result a = false.
Proof.
  intros H. assert (a_status input = Pending /\ started input = false /\ has_result input = false) as (Hs & Ht & Hr).
  { unfold normalizeExactSettlementAttempt in H. inv_result. clear H. inv_bool. done. }
  apply normalize_attempt_claim in H as [[-> _]|(c & c' & _ & _ & ->)]; by destruct input.
Qed.

(** Does the attempt's handler count as started? *)
Definition running (a : option ExactSettlementAttemptRecord) : Z :=
  match a with Some a => if started a then 1 else 0 | None => 0 end.

Lemma started_set a v : started (a <| a_handlerStartedAt := v |>) = truthy v.
Proof. by destruct a. Qed.

Lemma step_running a l c :
  attempt_step a l c ->
  (if is_Begins l then 1 else 0) - (if is_Resets l then 1 else 0)
    <= running (change_attempt (Some a) c) - running (Some a) /\
  (running (change_attempt (Some a) c) <= running (Some a) + (if is_Begins l then 1 else 0)).
Proof.
  intros H. unfold running, started. inversion H; subst; destruct a; cbn -[truthy] in *;
    unfold started in *; cbn -[truthy] in *;
    try match goal with Ht : ?t <> "" |- _ => destruct t; [done|] end;
    repeat match goal with
    | Hf : truthy _ = _ |- _ => rewrite Hf
    | |- context [truthy (Present (String ?c ?t))] => change (truthy (Present (String c t))) with true; cbv iota
    | |- context [truthy Undefined] => change (truthy Undefined) with false; cbv iota
    | |- context [if ?b then _ else _] => destruct b
    end; lia.
Qed.
(** A change of one event is a step of the phase machine, or the claim of a fresh attempt. *)
Lemma event_step a e :
  apply_event a e = a \/
  (exists a0 l c, a = Some a0 /\ attempt_step a0 l c /\ apply_event a e = change_attempt a c) \/
  (a = None /\ exists input a', e.1 = ClaimCommand input /\ apply_event a e = Some a' /\
     normalizeExactSettlementAttempt other_dates input = Ok a').
Proof.
  unfold apply_event. destruct (prepare e.1 _) as [ch|] eqn:E; [|by left]. destruct a as [a|].
  - right. left. destruct (prepare_step _ _ _ _ E) as (l & H & _). eauto 6.
  - destruct (ch_attempt ch) as [| |a'] eqn:Ec; [by left..|]. right. right. split; [done|].
    destruct (prepare_absent _ _ _ _ E Ec) as (input & ? & ?). eauto.
Qed.

Lemma event_balance a e :
  let g p := if granted p a e then 1 else 0 in
  g begins - g resets <= running (apply_event a e) - running a /\ running (apply_event a e) <= running a + g begins.
Proof.
  unfold granted. destruct a as [a|].
  - unfold apply_event. destruct (prepare e.1 _) as [ch|] eqn:E; [|cbn; lia].
    destruct (prepare_step _ _ _ _ E) as (l & H & -> & ->). apply step_running in H. cbv zeta. lia.
  - cbv zeta. assert (forall p, (forall c, p c = true -> begins c = true \/ resets c = true) ->
        match prepare e.1 (with_attempt e.2 None) with Ok ch => p e.1 && flag ch | Throw _ => false end = false) as Hg.
    { intros p Hp. specialize (Hp e.1). destruct (p e.1); [|by case_match].
      destruct Hp as [Hb|Hb]; [done|..]; by destruct e.1. }
    rewrite !Hg by auto. destruct (event_step None e) as [->|[(? & ? & ? & ? & _)|(_ & input & a' & _ & -> & Hn)]]; [cbn; lia|by simplify_eq|].
    apply normalized_fresh in Hn as (_ & Hs & _). unfold running. rewrite Hs. cbn. lia.
Qed.

Lemma run_balance events a :
  grants begins a events - grants resets a events <= running (run a events) - running a /\
  running (run a events) <= running a + grants begins a events.
Proof.
  revert a. induction events as [|e events IH]; intros a; [cbn; lia|].
  pose proof (event_balance a e) as He. specialize (IH (apply_event a e)). cbn [grants]. cbv beta zeta in He.
  change (run a (e :: events)) with (run (apply_event a e) events). lia.
Qed.

(** A recorded result only exists on an accepted attempt whose handler started. *)
Definition result_ok (a : option ExactSettlementAttemptRecord) : Prop :=
  forall a0, a = Some a0 -> has_result a0 = true -> started a0 = true /\ a_status a0 = Accepted.
(** The handler is done: its result is recorded, or the payment is committed. *)
Definition finished (a : option ExactSettlementAttemptRecord) : Prop :=
  exists a0, a = Some a0 /\ (has_result a0 = true \/ a_status a0 = Applied).

Lemma result_ok_event a e : result_ok a -> result_ok (apply_event a e).
Proof.
  intros H. destruct (event_step a e) as [->|[(a0 & l & c & -> & Hs & ->)|(-> & input & a' & _ & -> & Hn)]]; [done|..].
  - specialize (H a0 eq_refl). intros a1 E Hr. inversion Hs; subst; cbn [change_attempt] in *; simplify_eq;
      try (by apply H); unfold has_result, started in *; destruct a0; cbn -[truthy] in *; try done;
      by destruct H; destruct_or?; try congruence.
  - intros a1 [= <-]. apply normalized_fresh in Hn as (_ & _ & ->). done.
Qed.

Lemma finished_event a e : result_ok a -> finished a -> finished (apply_event a e) /\ granted begins a e = false.
Proof.
  intros Hok (a0 & -> & Hf). specialize (Hok a0 eq_refl). unfold granted, apply_event.
  destruct (prepare e.1 _) as [ch|] eqn:E; [|by split; [exists a0|]].
  destruct (prepare_step _ _ _ _ E) as (l & Hs & -> & _). unfold finished.
  inversion Hs; subst; cbn [change_attempt is_Begins]; (split; [|try done]);
    try (eexists; split; [done|]); unfold has_result, started in *; destruct a0; cbn -[truthy] in *;
    destruct Hf as [Hf|Hf]; try destruct (Hok Hf); destruct_or?; try (left; congruence); try (right; congruence);
    try congruence.
Qed.
(** * Properties *)

(** C8. The twelve commands refine the phase machine.  A command
    that is not refused takes a step of [attempt_step], answers [true] to a begin or a reset
    exactly when the handler is begun or reset, never moves an attempt that is already
    applied, never changes what was signed and admitted and never lowers the status; and
    where there is no attempt only a claim creates one, the normalized, pending one with a
    handler that has not run. *)
Theorem exact_transition_refines command s a ch :
  prepare command (with_attempt s a) = Ok ch ->
  (forall a0, a = Some a0 ->
     (exists l, attempt_step a0 l (ch_attempt ch) /\
        begins command && flag ch = is_Begins l /\ resets command && flag ch = is_Resets l) /\
     (forall a1, ch_attempt ch = PutAttempt a1 ->
        a_status a0 <> Applied /\ attempt_identity a1 = attempt_identity a0 /\
        status_rank (a_status a0) <= status_rank (a_status a1))) /\
  (a = None -> forall a1, ch_attempt ch = PutAttempt a1 ->
     a_status a1 = Pending /\ started a1 = false /\ has_result a1 = false /\
     exists input, command = ClaimCommand input /\ normalizeExactSettlementAttempt other_dates input = Ok a1).
Proof.
  intros H. split.
  - intros a0 ->. destruct (prepare_step _ _ _ _ H) as (l & Hs & ? & ?). split; [by exists l|].
    intros a1 Hc. rewrite Hc in Hs. by apply step_kept in Hs as (? & ? & ?).
  - intros -> a1 Hc. destruct (prepare_absent _ _ _ _ H Hc) as (input & -> & Hn).
    apply normalized_fresh in Hn as Hf. destruct Hf as (? & ? & ?). eauto 6.
Qed.

(** C7. The paid-for handler runs at most once.  Whatever commands arrive for
    a transaction, in whatever order, retries and refused ones included, and whatever the
    other records of the store say: starting from nothing, the permissions to run the handler
    exceed the explicit resets by at most one, and a handler counts as started only if a
    permission was given; and once a result is recorded (or the payment committed) no
    permission is ever given again. *)
Theorem handler_at_most_once before after :
  grants begins None before <= grants resets None before + 1 /\
  (forall a, run None before = Some a -> started a = true -> 1 <= grants begins None before) /\
  (forall a, run None before = Some a -> has_result a = true \/ a_status a = Applied ->
     grants begins (Some a) after = 0 /\ finished (run (Some a) after)).
Proof.
  destruct (run_balance before None) as [Hb Hs].
  assert (running (run None before) <= 1) by (unfold running; repeat case_match; lia).
  change (running None) with 0 in *. split; [lia|]. split.
  - intros a Ha Hst. rewrite Ha in Hs. unfold running in Hs. rewrite Hst in Hs. lia.
  - intros a Ha Hf. assert (result_ok (Some a)) as Hok.
    { rewrite <- Ha. clear -no_empty_date. assert (result_ok None) as H0 by done. revert H0. generalize (@None ExactSettlementAttemptRecord).
      induction before as [|e before IH]; intros a Ha; [done|]. apply IH. by apply result_ok_event. }
    assert (finished (Some a)) as Hfin by (by exists a). clear -Hok Hfin no_empty_date.
    revert Hok Hfin. generalize (Some a). induction after as [|e after IH]; intros b Hok Hfin; [done|].
    destruct (finished_event _ e Hok Hfin) as [Hf' Hg]. cbn [grants]. rewrite Hg.
    destruct (IH _ (result_ok_event _ e Hok) Hf') as [-> ?]. done.
Qed.

(** A result the store can record for a payment of this amount. *)
Definition acceptable_result (amount : string) (r : ProtectedHandlerResult) : Prop :=
  (forall s, get (hr_status r) = Some s -> 100 <= s <= 599) /\
  (forall hs, get (hr_headers r) = Some hs ->
     Z.of_nat (length hs) <= 64 /\ Forall (fun kv => exists v, kv.2 = JString v) hs) /\
  (forall c, get (hr_chargedAmount r) = Some c -> c = amount) /\
  byte_length (JSON_stringify (result_json r)) <= MAX_DURABLE_HANDLER_RESULT_BYTES.

(** A deadline the claim meets. *)
Definition unexpired (t d : string) : Prop :=
  exists n m, Date_parse other_dates t = Some n /\ Date_parse other_dates d = Some m /\ n < m.

(** The commands of one settlement, all of them read at the same time with no other record. *)
Definition settlement_events (s : ExactTransitionSnapshot) (input : ExactSettlementAttemptRecord)
    (finality t : string) (r : ProtectedHandlerResult) (p : ExactPaymentRecord) : list event :=
  let tx := a_transactionId input in
  (fun c => (c, s)) <$> [ClaimCommand input; BroadcastCommand tx finality t; AcceptCommand tx finality t;
                         BeginHandlerCommand tx t; RecordResultCommand tx r t; CommitCommand p None].

Lemma acceptable_ok a r t :
  acceptable_result (a_amount a) r -> a_status a = Accepted -> started a = true ->
  isSome (Date_parse other_dates t) = true -> assertHandlerResult other_dates a r t = Ok tt.
Proof.
  intros (Hs & Hh & Hc & Hb) Ha Hst Ht. unfold assertHandlerResult. unfold started in Hst. rewrite Ha, Hst, Ht.
  repeat (apply throw_pass; [|cbv zeta]); [done|done|..].
  - destruct (get (hr_status r)) as [n|]; [|done]. specialize (Hs n eq_refl). lia.
  - destruct (get (hr_headers r)) as [hs|]; [|done]. destruct (Hh hs eq_refl) as [_ Hf]. clear -Hf.
    induction Hf as [|kv hs (v & E) Hf IH]; [done|]. cbn [existsb]. by rewrite E, IH.
  - destruct (get (hr_headers r)) as [hs|]; [|done]. destruct (Hh hs eq_refl). lia.
  - lia.
  - apply throw_if_ok. destruct (get (hr_chargedAmount r)) as [c|]; [|done]. rewrite (Hc c eq_refl).
    by rewrite bool_decide_eq_true_2.
Qed.
Lemma run_cons a e events : run a (e :: events) = run (apply_event a e) events.
Proof. done. Qed.
Lemma grants_cons p a e events :
  grants p a (e :: events) = (if granted p a e then 1 else 0) + grants p (apply_event a e) events.
Proof. done. Qed.

Lemma claim_event s input a :
  normalizeExactSettlementAttempt other_dates input = Ok a ->
  get (a_paymentIdentifier a) = None -> get (a_head a) = None -> a_profile a <> "additive" ->
  unexpired (now s) (a_authorizationExpiresAt a) ->
  (forall d, get (a_challengeExpiresAt a) = Some d \/ get (a_grantExpiresAt a) = Some d -> unexpired (now s) d) ->
  apply_event None (ClaimCommand input, s) = Some a.
Proof.
  intros Hn Hi Hh Hp (n & m & Ht & Hm & Hlt) Hd. unfold apply_event. cbn [fst snd prepareExactTransition].
  unfold prepareClaim. rewrite Hn. cbn [mbind result_bind with_attempt s_attempt now s_reservation s_identifier s_head].
  rewrite Ht, Hm, Hi, Hh. cbn [isSome isNone negb orb].
  rewrite (bool_decide_eq_false_2 _ Hp).
  assert (forall p, (forall d, get p = Some d -> unexpired (now s) d) ->
    match get p with
    | Some d => match Date_parse other_dates d with Some d => d <=? n | None => false end
    | None => false
    end = false) as Hx.
  { intros p Hp'. destruct (get p) as [d|]; [|done]. destruct (Hp' d eq_refl) as (n' & m' & Hn' & -> & ?).
    simplify_eq. lia. }
  rewrite !Hx by auto. rewrite (proj2 (Z.leb_gt m n)) by lia. done.
Qed.

Lemma advance command s a ch events :
  prepare command (with_attempt s a) = Ok ch ->
  run a ((command, s) :: events) = run (change_attempt a (ch_attempt ch)) events /\
  grants begins a ((command, s) :: events)
    = (if begins command && flag ch then 1 else 0) + grants begins (change_attempt a (ch_attempt ch)) events.
Proof. intros H. rewrite run_cons. cbn [grants]. unfold granted, apply_event. cbn [fst snd]. by rewrite H. Qed.

Lemma pending_none s a next st reason res :
  get (a_paymentIdentifier a) = None ->
  pending_changes s a next st reason res
    = Ok {| ch_result := res; ch_transactionId := Some (a_transactionId a); ch_attempt := PutAttempt next;
            ch_head := None; ch_payment := None; ch_identifier := None; ch_reservation := None; ch_budget := None |}.
Proof. unfold pending_changes. by intros ->. Qed.

(** Where an attempt without a payment identifier or head stands. *)
Definition at_phase (a : ExactSettlementAttemptRecord) status begun recorded : Prop :=
  a_status a = status /\ started a = begun /\ get (a_handlerResult a) = recorded /\
  get (a_paymentIdentifier a) = None /\ get (a_head a) = None.

(** A command that is answered and puts an attempt. *)
Definition moves command s a a1 (begun : bool) : Prop :=
  exists ch, prepare command (with_attempt s (Some a)) = Ok ch /\ ch_attempt ch = PutAttempt a1 /\
    begins command && flag ch = begun.

Lemma broadcast_moves s a tx f t :
  at_phase a Pending false None -> exists a1, moves (BroadcastCommand tx f t) s a a1 false /\ at_phase a1 Broadcast false None.
Proof.
  intros (Hs & Ht & Hr & Hp & Hh). eexists. split.
  - eexists. cbn [prepareExactTransition with_attempt s_attempt prepareAttempt]. rewrite Hs, pending_none by done.
    do 2 (split; [reflexivity|]). done.
  - unfold at_phase. destruct a. done.
Qed.

Lemma accept_moves s a tx f t :
  at_phase a Broadcast false None ->
  exists a1, moves (AcceptCommand tx f t) s a a1 false /\ at_phase a1 Accepted false None /\ get (a_finality a1) = Some f.
Proof.
  intros (Hs & Ht & Hr & Hp & Hh). eexists. split.
  - eexists. cbn [prepareExactTransition with_attempt s_attempt prepareAttempt]. rewrite Hs, Hh, pending_none by done.
    do 2 (split; [reflexivity|]). done.
  - unfold at_phase. destruct a. done.
Qed.

Lemma begin_moves s a tx t :
  at_phase a Accepted false None -> isSome (Date_parse other_dates t) = true ->
  exists a1, moves (BeginHandlerCommand tx t) s a a1 true /\ at_phase a1 Accepted true None /\
    a_finality a1 = a_finality a /\ get (a_handlerStartedAt a1) = Some t.
Proof.
  intros (Hs & Ht & Hr & Hp & Hh) Hd. eexists. split.
  - eexists. cbn [prepareExactTransition with_attempt s_attempt prepareAttempt]. unfold started in Ht.
    rewrite Hs, Ht, Hd, pending_none by done. do 2 (split; [reflexivity|]). done.
  - apply is_date_nonempty in Hd. unfold at_phase. destruct a, t; [done..|]. done.
Qed.

Lemma record_moves s a tx r t :
  at_phase a Accepted true None -> isSome (Date_parse other_dates t) = true -> acceptable_result (a_amount a) r ->
  exists a1, moves (RecordResultCommand tx r t) s a a1 false /\ at_phase a1 Accepted true (Some r) /\
    a_finality a1 = a_finality a /\ a_handlerStartedAt a1 = a_handlerStartedAt a.
Proof.
  intros (Hs & Ht & Hr & Hp & Hh) Hd Hok. eexists. split.
  - eexists. cbn [prepareExactTransition with_attempt s_attempt prepareAttempt].
    rewrite acceptable_ok by done. cbn [mbind result_bind]. rewrite Hr, pending_none by done.
    do 2 (split; [reflexivity|]). done.
  - unfold at_phase. destruct a. done.
Qed.

Lemma commit_moves s a p r :
  at_phase a Accepted true (Some r) -> s_payment s = None ->
  exists a1, moves (CommitCommand p None) s a a1 false /\ a_status a1 = Applied /\ a_transaction a1 = "" /\
    a_finality a1 = a_finality a /\ a_handlerStartedAt a1 = a_handlerStartedAt a.
Proof.
  intros (Hs & Ht & Hr & Hp & Hh) Hn. eexists. split.
  - eexists. cbn [prepareExactTransition]. unfold prepareCommit. cbn [with_attempt s_attempt s_payment].
    unfold started in Ht. rewrite Hn, Hs, Ht, Hr. cbn [isNone mbind result_bind].
    do 2 (split; [reflexivity|]). done.
  - destruct a. done.
Qed.

Lemma moves_advance command s a a1 begun events :
  moves command s a a1 begun ->
  run (Some a) ((command, s) :: events) = run (Some a1) events /\
  grants begins (Some a) ((command, s) :: events) = (if begun then 1 else 0) + grants begins (Some a1) events /\
  attempt_identity a1 = attempt_identity a.
Proof.
  intros (ch & Hp & Hc & <-). destruct (advance _ _ _ _ events Hp) as [-> ->]. rewrite Hc.
  do 2 (split; [done|]). apply prepare_step in Hp as (l & Hs & _). rewrite Hc in Hs. by apply step_kept in Hs as (? & _).
Qed.

(** C9. An exact payment that is paid for goes through.  A payment without a head
    or payment identifier, claimed before its deadlines and reported accepted, is claimed,
    broadcast, accepted, run (one permission), recorded with any acceptable result and
    committed: the run of the six commands ends with the payment applied, on exactly the
    signed terms, its finality kept and the signed transaction erased. *)
Theorem exact_settlement_completes s input a finality t r p :
  normalizeExactSettlementAttempt other_dates input = Ok a ->
  get (a_paymentIdentifier a) = None -> get (a_head a) = None -> a_profile a <> "additive" ->
  unexpired (now s) (a_authorizationExpiresAt a) ->
  (forall d, get (a_challengeExpiresAt a) = Some d \/ get (a_grantExpiresAt a) = Some d -> unexpired (now s) d) ->
  isSome (Date_parse other_dates t) = true -> acceptable_result (a_amount a) r -> s_payment s = None ->
  let events := settlement_events s input finality t r p in
  grants begins None events = 1 /\
  exists a', run None events = Some a' /\ a_status a' = Applied /\ attempt_identity a' = attempt_identity a /\
    get (a_finality a') = Some finality /\ a_transaction a' = "" /\ get (a_handlerStartedAt a') = Some t.
Proof.
  intros Hn Hi Hh Hp Hu Hd Ht Hr Hs. cbv zeta.
  apply normalized_fresh in Hn as Hf. destruct Hf as (Hst & Hstart & Hres).
  unfold settlement_events. cbn [fmap list_fmap]. set (tx := a_transactionId input).
  rewrite run_cons, grants_cons, (claim_event s input a) by done.
  replace (granted begins None (ClaimCommand input, s)) with false
    by (unfold granted; cbn [fst begins andb]; by destruct (prepare _ _)).
  assert (at_phase a Pending false None) as H0.
  { unfold has_result in Hres. repeat split; try done. by destruct (get (a_handlerResult a)). }
  destruct (broadcast_moves s a tx finality t H0) as (a1 & M1 & H1).
  destruct (accept_moves s a1 tx finality t H1) as (a2 & M2 & H2 & F2).
  destruct (begin_moves s a2 tx t H2 Ht) as (a3 & M3 & H3 & F3 & T3).
  destruct (moves_advance _ _ _ _ _ [(AcceptCommand tx finality t, s); (BeginHandlerCommand tx t, s);
    (RecordResultCommand tx r t, s); (CommitCommand p None, s)] M1) as (-> & -> & I1).
  destruct (moves_advance _ _ _ _ _ [(BeginHandlerCommand tx t, s);
    (RecordResultCommand tx r t, s); (CommitCommand p None, s)] M2) as (-> & -> & I2).
  destruct (moves_advance _ _ _ _ _ [(RecordResultCommand tx r t, s); (CommitCommand p None, s)] M3) as (-> & -> & I3).
  assert (a_amount a3 = a_amount a) as Ha by (unfold attempt_identity in *; congruence).
  destruct (record_moves s a3 tx r t H3 Ht) as (a4 & M4 & H4 & F4 & T4); [by rewrite Ha|].
  destruct (commit_moves s a4 p r H4 Hs) as (a5 & M5 & ? & ? & F5 & T5).
  destruct (moves_advance _ _ _ _ _ [(CommitCommand p None, s)] M4) as (-> & -> & I4).
  destruct (moves_advance _ _ _ _ _ [] M5) as (-> & -> & I5).
  split; [done|]. exists a5. repeat split; try done; congruence.
Qed.

(** A payment identifier can be left behind.  Committing an attempt
    that owns a reservation, but without the identifier's record, succeeds for every snapshot
    and completes nothing, although the completion guard (which the batch commit always asks)
    refuses exactly this. *)
Theorem commit_can_leave_reservation s a p c r :
  a_status a = Accepted -> started a = true -> has_result a = true -> s_payment s = None ->
  get (a_paymentIdentifier a) = Some c -> s_reservation s = Some r ->
  exists ch, prepare (CommitCommand p None) (with_attempt s (Some a)) = Ok ch /\
    ch_identifier ch = None /\ ch_reservation ch = None /\
    assertPaymentIdentifierCompletion (get (a_paymentIdentifier a)) None (s_reservation s) (s_identifier s)
      = Throw (Error "payment identifier completion does not match reservation").
Proof.
  intros Hs Ht Hr Hp Hc Hres. eexists. split; [|split; [|split]].
  - cbn [prepareExactTransition]. unfold prepareCommit. cbn [with_attempt s_attempt s_payment].
    unfold started in Ht. unfold has_result, isSome in Hr. rewrite Hp, Hs, Ht.
    rewrite (negb_true_iff _) in Hr. rewrite Hr. reflexivity.
  - done.
  - done.
  - by rewrite Hc.
Qed.
End Runs.

(** * Witnesses *)

Definition native_attempt : ExactSettlementAttemptRecord :=
  (sample_attempt (hash_of "ab")) <| a_profile := "standard-native" |> <| a_head := Absent |>.
Definition sample_result : ProtectedHandlerResult := {|
  hr_status := Present 200; hr_headers := Present [("content-type", JString "text/plain")];
  hr_body := Present (JString "paid"); hr_chargedAmount := Present "1500" |}.
Definition sample_payment : ExactPaymentRecord := {|
  p_profile := "standard-native"; p_transactionId := hash_of "ab"; p_paymentOutputIndex := 0;
  p_requestFingerprint := hash_of "0a"; p_paymentRequirementsHash := hash_of "0b";
  p_paymentPayloadHash := hash_of "0c"; p_requestAuthorizationId := hash_of "0d"; p_amountSompi := "1500";
  p_payerAddress := Absent; p_finality := "accepted"; p_settlement := JNull; p_response := JNull |}.
Definition empty_snapshot : ExactTransitionSnapshot := {|
  now := day "03"; s_attempt := None; s_head := None; s_payment := None; s_identifier := None;
  s_reservation := None; s_heads := None; s_maxHeads := None |}.
Definition sample_events := settlement_events empty_snapshot native_attempt "accepted" (day "04") sample_result sample_payment.

Definition accepted_attempt := native_attempt <| a_status := Accepted |>.
Definition sample_begin := prepareExactTransition toy_sha256 no_dates (BeginHandlerCommand (hash_of "ab") (day "04"))
  (with_attempt empty_snapshot (Some accepted_attempt)).

Lemma exact_transition_refines_witness :
  exists ch l, sample_begin = Ok ch /\ attempt_step accepted_attempt l (ch_attempt ch) /\ is_Begins l = true.
Proof.
  assert (match sample_begin with Ok ch => flag ch | _ => false end = true) as Hf by (vm_compute; reflexivity).
  destruct sample_begin as [ch|] eqn:E; [|discriminate Hf].
  destruct (exact_transition_refines toy_sha256 no_dates eq_refl _ _ _ _ E) as [H _].
  destruct (H _ eq_refl) as [(l & Hs & Hb & _) _]. exists ch, l. split; [reflexivity|]. split; [exact Hs|].
  rewrite <- Hb. exact Hf.
Defined.

Lemma handler_at_most_once_witness :
  exists a, run toy_sha256 no_dates None sample_events = Some a /\ a_status a = Applied /\
    grants toy_sha256 no_dates begins (Some a) sample_events = 0.
Proof.
  assert (option_map (fun a => a_status a === Applied) (run toy_sha256 no_dates None sample_events) = Some true) as Ho
    by (vm_compute; reflexivity).
  destruct (run toy_sha256 no_dates None sample_events) as [a|] eqn:E; [|discriminate Ho].
  assert (a_status a = Applied) as Ha by (injection Ho as Ho; by apply bool_decide_eq_true in Ho).
  exists a. split; [reflexivity|]. split; [exact Ha|].
  destruct (handler_at_most_once toy_sha256 no_dates eq_refl sample_events sample_events) as (_ & _ & H).
  apply (H a E). right. exact Ha.
Defined.

Lemma exact_settlement_completes_witness :
  exists a, normalizeExactSettlementAttempt no_dates native_attempt = Ok a /\
    grants toy_sha256 no_dates begins None sample_events = 1.
Proof.
  destruct (is_ok_value (normalizeExactSettlementAttempt no_dates native_attempt)) as [a E];
    [vm_compute; reflexivity|].
  exists a. split; [exact E|].
  assert (lower_attempt native_attempt = a) as <-.
  { apply Ok_inj. rewrite <- E. vm_compute. reflexivity. }
  apply (exact_settlement_completes toy_sha256 no_dates eq_refl empty_snapshot native_attempt _ "accepted" (day "04")
    sample_result sample_payment E); try reflexivity.
  - discriminate.
  - do 2 eexists. split; [vm_compute; reflexivity|]. split; [vm_compute; reflexivity|reflexivity].
  - intros d [Hd|Hd]; cbn in Hd; [|discriminate]. injection Hd as <-.
    do 2 eexists. split; [vm_compute; reflexivity|]. split; [vm_compute; reflexivity|reflexivity].
  - split; [|split; [|split]].
    + intros s Hs. injection Hs as <-. lia.
    + intros hs Hs. injection Hs as <-. split; [cbn; lia|]. repeat constructor. eexists. reflexivity.
    + intros c Hc. injection Hc as <-. reflexivity.
    + vm_compute. discriminate.
Defined.

Definition identified_attempt := accepted_attempt <| a_handlerStartedAt := Present (day "04") |>
  <| a_handlerResult := Present sample_result |> <| a_paymentIdentifier := Present (sample_claim (hash_of "ab")) |>.
Definition reserved_snapshot := {|
  now := day "03"; s_attempt := None; s_head := None; s_payment := None; s_identifier := None;
  s_reservation := Some (sample_reservation pending); s_heads := None; s_maxHeads := None |}.

Lemma commit_can_leave_reservation_witness :
  exists ch, prepareExactTransition toy_sha256 no_dates (CommitCommand sample_payment None)
    (with_attempt reserved_snapshot (Some identified_attempt)) = Ok ch /\ ch_reservation ch = None.
Proof.
  destruct (commit_can_leave_reservation toy_sha256 no_dates reserved_snapshot identified_attempt sample_payment
    (sample_claim (hash_of "ab")) (sample_reservation pending)) as (ch & E & _ & H & _); try reflexivity.
  exists ch. split; [exact E|exact H].
Defined.
