(* ===== verification/BatchAttempts.v ===== *)
(** * Batch settlement attempts

    Models [protocol/packages/server/src/batch-settlement-attempts.ts] with its record types
    (types.ts): the durable attempt to settle one batch payment, its validation, the deposit
    transition it may install, and when it is ready to commit. *)

From S2P Require Import Prelude Amount BatchLane Json Binary Commitment ChainTruth Dates PaymentIdentifier.
From S2P Require Import ExactHeads ExactTransitions Channels.

(** ** Records *)

Inductive BatchSettlementAttemptStatus := BatchPending | BatchApplied | BatchSafelyReleased.
#[export] Instance batch_status_eq_dec : EqDecision BatchSettlementAttemptStatus.
Proof. solve_decision. Defined.

(** The kinds of channel operation; a batch attempt is one of the first three. *)
Inductive ChannelOperationKind := OpPayment | OpDeposit | OpTopUp | OpClaim | OpRefund | OpRecovery | OpRetirement.
#[export] Instance operation_kind_eq_dec : EqDecision ChannelOperationKind.
Proof. solve_decision. Defined.

Record ChannelTransition := {
  previous : option ServerChannelRecord;
  next : ServerChannelRecord
}.

Record BatchSettlementAttemptRecord := {
  b_attemptId : string;
  b_channelId : string;
  b_covenantId : string;
  b_requestFingerprint : string;
  b_paymentRequirementsHash : string;
  b_paymentPayloadHash : string;
  maximumCharge : string;
  b_expected : ServerChannelRecord;
  b_status : BatchSettlementAttemptStatus;
  b_createdAt : string;
  b_updatedAt : string;
  b_handlerStartedAt : prop string;
  b_handlerResult : prop ProtectedHandlerResult;
  b_handlerCompletedAt : prop string;
  b_recoveryReason : prop string;
  operationKind : ChannelOperationKind;
  b_payerId : string;
  b_paymentIdentifier : prop PaymentIdentifierReservationClaim;
  channelTransition : prop ChannelTransition;
  b_commitmentId : prop string;
  completedPaymentIdentifier : prop string
}.
#[export] Instance batch_attempt_eta : Settable BatchSettlementAttemptRecord := fun a =>
  Build_BatchSettlementAttemptRecord (b_attemptId a) (b_channelId a) (b_covenantId a) (b_requestFingerprint a)
    (b_paymentRequirementsHash a) (b_paymentPayloadHash a) (maximumCharge a) (b_expected a) (b_status a)
    (b_createdAt a) (b_updatedAt a) (b_handlerStartedAt a) (b_handlerResult a) (b_handlerCompletedAt a)
    (b_recoveryReason a) (operationKind a) (b_payerId a) (b_paymentIdentifier a) (channelTransition a)
    (b_commitmentId a) (completedPaymentIdentifier a).

Record BatchCommitmentRecord := {
  bc_commitmentId : string;
  bc_channelId : string;
  bc_covenantId : string;
  bc_requestFingerprint : string;
  bc_paymentRequirementsHash : string;
  bc_paymentPayloadHash : string;
  bc_activeOutpoint : FundingOutpoint;
  bc_activeScriptPublicKey : string;
  bc_voucher : Voucher;
  chargedAmount : string;
  chargedCumulativeBefore : string;
  chargedCumulativeAfter : string;
  bc_claimedCumulativeAmount : string;
  bc_paymentIdentifier : prop string;
  bc_settlement : json;
  bc_response : json
}.
#[export] Instance commitment_eta : Settable BatchCommitmentRecord := fun c =>
  Build_BatchCommitmentRecord (bc_commitmentId c) (bc_channelId c) (bc_covenantId c) (bc_requestFingerprint c)
    (bc_paymentRequirementsHash c) (bc_paymentPayloadHash c) (bc_activeOutpoint c) (bc_activeScriptPublicKey c)
    (bc_voucher c) (chargedAmount c) (chargedCumulativeBefore c) (chargedCumulativeAfter c)
    (bc_claimedCumulativeAmount c) (bc_paymentIdentifier c) (bc_settlement c) (bc_response c).

Record SettlementCommit := {
  batchAttemptId : string;
  sc_channel : ServerChannelRecord;
  commitment : BatchCommitmentRecord;
  sc_paymentIdentifier : option PaymentIdentifierRecord;
  sc_expected : ServerChannelRecord
}.

(** ** Their JSON *)

Definition batch_status_text (s : BatchSettlementAttemptStatus) : string :=
  match s with BatchPending => "pending" | BatchApplied => "applied" | BatchSafelyReleased => "safely-released" end.
Definition kind_text (k : ChannelOperationKind) : string :=
  match k with
  | OpPayment => "payment" | OpDeposit => "deposit" | OpTopUp => "top-up" | OpClaim => "claim"
  | OpRefund => "refund" | OpRecovery => "recovery" | OpRetirement => "retirement"
  end.
Definition transition_json (t : ChannelTransition) : json :=
  JObject [("previous", jopt channel_json (previous t)); ("next", channel_json (next t))].
Definition batch_attempt_json (a : BatchSettlementAttemptRecord) : json :=
  JObject ([("attemptId", JString (b_attemptId a)); ("channelId", JString (b_channelId a));
            ("covenantId", JString (b_covenantId a)); ("requestFingerprint", JString (b_requestFingerprint a));
            ("paymentRequirementsHash", JString (b_paymentRequirementsHash a));
            ("paymentPayloadHash", JString (b_paymentPayloadHash a)); ("maximumCharge", JString (maximumCharge a));
            ("expected", channel_json (b_expected a)); ("status", JString (batch_status_text (b_status a)));
            ("createdAt", JString (b_createdAt a)); ("updatedAt", JString (b_updatedAt a))]
           ++ jprop "handlerStartedAt" JString (b_handlerStartedAt a)
           ++ jprop "handlerResult" result_json (b_handlerResult a)
           ++ jprop "handlerCompletedAt" JString (b_handlerCompletedAt a)
           ++ jprop "recoveryReason" JString (b_recoveryReason a)
           ++ [("operationKind", JString (kind_text (operationKind a))); ("payerId", JString (b_payerId a))]
           ++ jprop "paymentIdentifier" (fun c => JObject (claim_fields c)) (b_paymentIdentifier a)
           ++ jprop "channelTransition" transition_json (channelTransition a)
           ++ jprop "commitmentId" JString (b_commitmentId a)
           ++ jprop "completedPaymentIdentifier" JString (completedPaymentIdentifier a)).
Definition voucher_json (v : Voucher) : json :=
  JObject [("covenantId", JString (v_covenantId v));
           ("authorizedCumulativeAmount", JString (v_authorizedCumulativeAmount v));
           ("signature", JString (v_signature v))].
Definition commitment_json (c : BatchCommitmentRecord) : json :=
  JObject ([("commitmentId", JString (bc_commitmentId c)); ("channelId", JString (bc_channelId c));
            ("covenantId", JString (bc_covenantId c)); ("requestFingerprint", JString (bc_requestFingerprint c));
            ("paymentRequirementsHash", JString (bc_paymentRequirementsHash c));
            ("paymentPayloadHash", JString (bc_paymentPayloadHash c));
            ("activeOutpoint", outpoint_json (bc_activeOutpoint c));
            ("activeScriptPublicKey", JString (bc_activeScriptPublicKey c)); ("voucher", voucher_json (bc_voucher c));
            ("chargedAmount", JString (chargedAmount c));
            ("chargedCumulativeBefore", JString (chargedCumulativeBefore c));
            ("chargedCumulativeAfter", JString (chargedCumulativeAfter c));
            ("claimedCumulativeAmount", JString (bc_claimedCumulativeAmount c))]
           ++ jprop "paymentIdentifier" JString (bc_paymentIdentifier c)
           ++ [("settlement", bc_settlement c); ("response", bc_response c)]).

(** The lane arithmetic reads a channel's four amounts. *)
Definition lane_of (c : ServerChannelRecord) : BatchLaneState := {|
  BatchLane.fundingAmount := sv_fundingAmount c; BatchLane.chargedCumulativeAmount := sv_chargedCumulativeAmount c;
  BatchLane.claimedCumulativeAmount := sv_claimedCumulativeAmount c;
  BatchLane.signedMaxClaimable := sv_signedMaxClaimable c |}.

(** ** Operations *)

Definition isNonzeroLowerHash32 (value : string) : bool := is_lower_hash32 value && negb (is_zero64 value).
Definition incrementVersion (version : string) : result string :=
  v ← parseBatchLaneAmount version "channel version"; Ok (toString (v + 1)).
Definition assertImmutableChannelIdentity (previous next : ServerChannelRecord) : result () :=
  throw_if ((sv_channelId previous !== sv_channelId next)
            || (toLowerCase (sv_covenantId previous) !== toLowerCase (sv_covenantId next))
            || (stableJson (genesis_evidence_json (genesisEvidence previous))
                !== stableJson (genesis_evidence_json (genesisEvidence next)))
            || (stableJson (config_json (channelConfig previous)) !== stableJson (config_json (channelConfig next))))
    "channel immutable identity cannot change".

Section BatchAttempts.
Context (sha256 : bytes -> bytes) (other_dates : string -> option Z).

Definition assertIsoDate (value label : string) : result () :=
  throw_if (negb (isSome (Date_parse other_dates value))) (label +:+ " must be an ISO date string").

Definition normalizeBatchSettlementAttempt (input : BatchSettlementAttemptRecord) :
    result BatchSettlementAttemptRecord :=
  _ ← throw_if (b_status input !== BatchPending) "new batch settlement attempt must be pending";
  _ ← throw_if (negb (is_lower_hash32 (b_attemptId input)) || negb (is_lower_hash32 (b_channelId input))
                || negb (isNonzeroLowerHash32 (b_covenantId input)))
        "batch settlement identifiers must be canonical lowercase";
  _ ← throw_if ((operationKind input !== OpPayment) && (operationKind input !== OpDeposit)
                && (operationKind input !== OpTopUp)) "batch settlement operation kind is invalid";
  _ ← throw_if ((js_length (b_payerId input) =? 0) || (256 <? js_length (b_payerId input)))
        "batch settlement payer identity is invalid";
  _ ← match get (channelTransition input) with
      | Some t =>
          _ ← throw_if (operationKind input === OpPayment) "ordinary payment cannot install a channel transition";
          throw_if ((sv_channelId (next t) !== b_channelId input) || (sv_covenantId (next t) !== b_covenantId input)
                    || (stableJson (channel_json (next t)) !== stableJson (channel_json (b_expected input))))
            "batch channel transition is inconsistent"
      | None => throw_if (operationKind input !== OpPayment)
                  "deposit and top-up attempts require an atomic channel transition"
      end;
  _ ← throw_if (match get (b_paymentIdentifier input) with
                | Some c => ownerId c !== b_attemptId input
                | None => false
                end) "batch payment identifier owner does not match its attempt";
  _ ← throw_if ((b_channelId input !== sv_channelId (b_expected input))
                || (b_covenantId input !== sv_covenantId (b_expected input)))
        "batch settlement attempt identity is inconsistent";
  _ ← for_each (fun '(value, label) =>
        throw_if (negb (is_lower_hash32 value)) (label +:+ " must be canonical lowercase hash hex"))
        [(b_requestFingerprint input, "request fingerprint");
         (b_paymentRequirementsHash input, "payment requirements hash");
         (b_paymentPayloadHash input, "payment payload hash");
         (txid (activeOutpoint (b_expected input)), "active outpoint transaction id")];
  _ ← parseBatchLaneAmount (maximumCharge input) "maximum batch charge";
  _ ← batchLaneAccounting (lane_of (b_expected input));
  _ ← assertIsoDate (b_createdAt input) "batch settlement creation time";
  _ ← assertIsoDate (b_updatedAt input) "batch settlement update time";
  Ok input.

Definition claim_json (p : prop PaymentIdentifierReservationClaim) : json :=
  field (fun c => JObject (claim_fields c)) (get p).
Definition batchSettlementAttemptsMatch (left right : BatchSettlementAttemptRecord) : bool :=
  (b_attemptId left === b_attemptId right) && (b_channelId left === b_channelId right)
  && (b_covenantId left === b_covenantId right) && (b_requestFingerprint left === b_requestFingerprint right)
  && (b_paymentRequirementsHash left === b_paymentRequirementsHash right)
  && (b_paymentPayloadHash left === b_paymentPayloadHash right) && (maximumCharge left === maximumCharge right)
  && (operationKind left === operationKind right) && (b_payerId left === b_payerId right)
  && (stableJson (claim_json (b_paymentIdentifier left)) === stableJson (claim_json (b_paymentIdentifier right)))
  && (stableJson (field transition_json (get (channelTransition left)))
      === stableJson (field transition_json (get (channelTransition right))))
  && (stableJson (channel_json (b_expected left)) === stableJson (channel_json (b_expected right))).

Definition assertBatchDepositTransition (previous : option ServerChannelRecord) (next : ServerChannelRecord)
    (kind : ChannelOperationKind) : result () :=
  _ ← batchLaneAccounting (lane_of next);
  match previous with
  | None =>
      _ ← assertServerChannelLineageConsistency sha256 next;
      _ ← throw_if (kind !== OpDeposit) "new channel requires a deposit operation";
      _ ← throw_if (sv_version next !== "0") "new channel must begin at version zero";
      throw_if (sv_status next !== Active) "new channel must begin active"
  | Some previous =>
      _ ← assertImmutableChannelIdentity previous next;
      _ ← throw_if ((sv_status previous !== Active) || (sv_status next !== Active))
            "deposit transition requires an active channel";
      rolled_back ← or_else (Ok ((sv_chargedCumulativeAmount next !== sv_chargedCumulativeAmount previous)
                                 || (sv_claimedCumulativeAmount next !== sv_claimedCumulativeAmount previous)
                                 || (get (lastCommitmentId next) !== get (lastCommitmentId previous)))) (
                    or_else (v ← incrementVersion (sv_version previous); Ok (sv_version next !== v)) (
                    or_else (n ← parseBatchLaneAmount (sv_signedMaxClaimable next) "next signed ceiling";
                             p ← parseBatchLaneAmount (sv_signedMaxClaimable previous) "previous signed ceiling";
                             Ok (n <? p))
                            (n ← parseBatchLaneAmount (sv_fundingAmount next) "next funding amount";
                             p ← parseBatchLaneAmount (sv_fundingAmount previous) "previous funding amount";
                             Ok (n <? p))));
      _ ← throw_if rolled_back "deposit transition would roll back monotonic channel state";
      let outpointChanged := negb (sameOutpoint (activeOutpoint previous) (activeOutpoint next)) in
      _ ← throw_if (outpointChanged && (kind !== OpTopUp)) "only a verified top-up may replace the active outpoint";
      _ ← throw_if (negb outpointChanged && (kind === OpTopUp)) "top-up must replace the active outpoint";
      _ ← throw_if (negb outpointChanged
                    && ((sv_fundingAmount next !== sv_fundingAmount previous)
                        || (toLowerCase (activeScriptPublicKey next) !== toLowerCase (activeScriptPublicKey previous))
                        || (escrowAddress next !== escrowAddress previous)))
            "same-outpoint deposit state is inconsistent";
      replaced ← and_also (Ok (negb outpointChanged))
                   (same ← sameCovenantLineage (lineage previous) (lineage next); Ok (negb same));
      _ ← throw_if replaced "same-outpoint deposit cannot replace covenant lineage";
      _ ← assertServerCovenantJournalExtension sha256 previous next;
      unfunded ← and_also (Ok outpointChanged)
                   (n ← parseBatchLaneAmount (sv_fundingAmount next) "top-up funding amount";
                    p ← parseBatchLaneAmount (sv_fundingAmount previous) "previous funding amount"; Ok (n <=? p));
      throw_if unfunded "top-up funding must increase"
  end.

Definition batchSettlementAttemptIsReadyToCommit (attempt : option BatchSettlementAttemptRecord)
    (record : SettlementCommit) : bool :=
  match attempt with
  | None => false
  | Some attempt =>
      (b_status attempt === BatchPending) && truthy (b_handlerStartedAt attempt)
      && match get (b_handlerResult attempt) with
         | None => false
         | Some r =>
             (b_channelId attempt === sv_channelId (sc_channel record))
             && (b_covenantId attempt === sv_covenantId (sc_channel record))
             && (b_requestFingerprint attempt === bc_requestFingerprint (commitment record))
             && (b_paymentRequirementsHash attempt === bc_paymentRequirementsHash (commitment record))
             && (b_paymentPayloadHash attempt === bc_paymentPayloadHash (commitment record))
             && (default (maximumCharge attempt) (get (hr_chargedAmount r)) === chargedAmount (commitment record))
             && (stableJson (channel_json (b_expected attempt)) === stableJson (channel_json (sc_expected record)))
         end
  end.

Definition assertDurableHandlerResult (handlerResult : ProtectedHandlerResult) (completedAt : string) : result () :=
  _ ← assertIsoDate completedAt "batch handler completion time";
  _ ← throw_if (match get (hr_status handlerResult) with Some s => (s <? 100) || (599 <? s) | None => false end)
        "batch handler status is invalid";
  _ ← throw_if (match get (hr_headers handlerResult) with
                | Some hs => existsb (fun kv => match kv.2 with JString _ => false | _ => true end) hs
                | None => false
                end) "batch handler headers are invalid";
  _ ← throw_if (match get (hr_headers handlerResult) with Some hs => 64 <? Z.of_nat (length hs) | None => false end)
        "batch handler has too many response headers";
  let serialized := JSON_stringify (result_json handlerResult) in
  throw_if (256 * 1024 <? byte_length serialized) "batch handler result exceeds the durable size limit".

Definition assertBatchHandlerResultTransition (attempt : BatchSettlementAttemptRecord)
    (handlerResult : ProtectedHandlerResult) (completedAt : string) : result () :=
  _ ← throw_if ((b_status attempt !== BatchPending) || negb (truthy (b_handlerStartedAt attempt)))
        "batch handler has not started on a pending settlement";
  _ ← assertDurableHandlerResult handlerResult completedAt;
  mischarged ← match get (hr_chargedAmount handlerResult) with
               | None => Ok false
               | Some c =>
                   charge ← parseBatchLaneAmount c "batch handler charge";
                   accepted ← parseBatchLaneAmount (maximumCharge attempt) "accepted batch charge";
                   Ok (charge !== accepted)
               end;
  _ ← throw_if mischarged "batch handler charge must equal the accepted fixed charge";
  throw_if (match get (b_handlerResult attempt) with
            | Some r => stableJson (result_json r) !== stableJson (result_json handlerResult)
            | None => false
            end) "batch handler result conflicts with durable state".
End BatchAttempts.
