(* ===== verification/Store.v ===== *)
(** * The in-memory server store: state, budget and exact payments

    Models [MemoryServerChannelStore] of [protocol/packages/server/src/stores.ts]: its maps,
    the durable-record budget (admission, terminal records, pruning), the application of an
    exact transition, and head selection.  The channel, batch and claim operations are in
    StoreChannels.v.  An operation is a function of the store: a throw keeps what was
    written before it, as in the class.  A [Map] is a finite map; the terminal queue, whose
    insertion order matters, is an association list.  The private fields are grouped by what
    they are about. *)

From S2P Require Import Prelude Amount BatchLane Json Binary Commitment ChainTruth Dates PaymentIdentifier.
From S2P Require Import ExactHeads ExactTransitions Channels BatchAttempts.

(** ** Records *)

Record ServerDurableStateLimits := {
  maxRecords : Z;
  maxBytes : Z;
  maxRecordsPerPayer : Z;
  maxExactHeads : Z;
  terminalRetentionMs : Z
}.
Definition DEFAULT_DURABLE_STATE_LIMITS : ServerDurableStateLimits := {|
  maxRecords := 10000; maxBytes := 512 * 1024 * 1024; maxRecordsPerPayer := 1000; maxExactHeads := 256;
  terminalRetentionMs := 24 * 60 * 60 * 1000 |}.

Inductive BudgetKind := BatchKind | ExactKind.
#[export] Instance budget_kind_eq_dec : EqDecision BudgetKind.
Proof. solve_decision. Defined.

(** [compactedAt] is declared but never written. *)
Record BudgetRecord := {
  br_key : string;
  br_kind : BudgetKind;
  br_attemptId : string;
  br_payerId : string;
  br_bytes : Z;
  terminalAt : option Z;
  br_commitmentId : option string;
  br_paymentIdentifier : option string;
  safelyReleased : bool
}.

Inductive ChannelOperationLeaseStatus := LeaseReserved | LeasePending | LeaseRecoveryRequired.
#[export] Instance lease_status_eq_dec : EqDecision ChannelOperationLeaseStatus.
Proof. solve_decision. Defined.
Record ChannelOperationLeaseRecord := {
  leaseId : string;
  l_channelId : string;
  l_covenantId : string;
  l_kind : ChannelOperationKind;
  l_expected : option ServerChannelRecord;
  l_status : ChannelOperationLeaseStatus;
  l_createdAt : string;
  l_updatedAt : string;
  l_recoveryReason : prop string
}.
#[export] Instance lease_eta : Settable ChannelOperationLeaseRecord := fun l =>
  Build_ChannelOperationLeaseRecord (leaseId l) (l_channelId l) (l_covenantId l) (l_kind l) (l_expected l)
    (l_status l) (l_createdAt l) (l_updatedAt l) (l_recoveryReason l).

Inductive ClaimAttemptStatus := ClaimPending | ClaimBroadcast | ClaimAccepted | ClaimApplied.
#[export] Instance claim_status_eq_dec : EqDecision ClaimAttemptStatus.
Proof. solve_decision. Defined.
Record ClaimAttemptRecord := {
  ca_attemptId : string;
  ca_channelId : string;
  ca_covenantId : string;
  ca_activeOutpoint : FundingOutpoint;
  ca_activeScriptPublicKey : string;
  ca_fundingAmount : string;
  claimAmount : string;
  ca_chargedCumulativeAmount : string;
  ca_claimedCumulativeAmount : string;
  ca_signedMaxClaimable : string;
  ca_voucherSignature : prop string;
  channelStatus : ChannelStatus;
  ca_transaction : string;
  ca_transactionId : string;
  requiredConfirmations : Z;
  ca_status : ClaimAttemptStatus;
  ca_finality : prop string;
  ca_acceptance : prop AcceptedTransactionEvidence;
  continuationOutpoint : prop FundingOutpoint;
  continuationScriptPublicKey : prop string;
  continuationFundingAmount : prop string;
  operationLeaseId : string;
  ca_expected : ServerChannelRecord
}.
#[export] Instance claim_attempt_eta : Settable ClaimAttemptRecord := fun a =>
  Build_ClaimAttemptRecord (ca_attemptId a) (ca_channelId a) (ca_covenantId a) (ca_activeOutpoint a)
    (ca_activeScriptPublicKey a) (ca_fundingAmount a) (claimAmount a) (ca_chargedCumulativeAmount a)
    (ca_claimedCumulativeAmount a) (ca_signedMaxClaimable a) (ca_voucherSignature a) (channelStatus a)
    (ca_transaction a) (ca_transactionId a) (requiredConfirmations a) (ca_status a) (ca_finality a)
    (ca_acceptance a) (continuationOutpoint a) (continuationScriptPublicKey a) (continuationFundingAmount a)
    (operationLeaseId a) (ca_expected a).

(** ** The private fields *)

Record ChannelTables := {
  channels : gmap string ServerChannelRecord;
  channelByCovenantId : gmap string string;
  channelOperations : gmap string ChannelOperationLeaseRecord;
  channelByLeaseId : gmap string string
}.
Record BatchTables := {
  commitments : gmap string BatchCommitmentRecord;
  batchAttempts : gmap string BatchSettlementAttemptRecord;
  openBatchAttemptByChannel : gmap string string
}.
Record ExactTables := {
  exactPayments : gmap string ExactPaymentRecord;
  exactHeads : gmap string ExactHeadRecord;
  exactAttempts : gmap string ExactSettlementAttemptRecord
}.
Record IdentifierTables := {
  paymentIdentifiers : gmap string PaymentIdentifierRecord;
  paymentIdentifierReservations : gmap string PaymentIdentifierReservationRecord
}.
Record ClaimTables := {
  claimAttempts : gmap string ClaimAttemptRecord;
  openClaimAttemptByChannel : gmap string string
}.
Record BudgetTables := {
  budgetRecords : gmap string BudgetRecord;
  payerBudgetCounts : gmap string Z;
  terminalBudgetQueue : list (string * Z);
  budgetBytes : Z
}.
Record Store := {
  chan : ChannelTables;
  batch : BatchTables;
  exact : ExactTables;
  ids : IdentifierTables;
  claims : ClaimTables;
  budget : BudgetTables
}.
#[export] Instance chan_eta : Settable ChannelTables := fun c =>
  Build_ChannelTables (channels c) (channelByCovenantId c) (channelOperations c) (channelByLeaseId c).
#[export] Instance batch_eta : Settable BatchTables := fun b =>
  Build_BatchTables (commitments b) (batchAttempts b) (openBatchAttemptByChannel b).
#[export] Instance exact_eta : Settable ExactTables := fun e =>
  Build_ExactTables (exactPayments e) (exactHeads e) (exactAttempts e).
#[export] Instance ids_eta : Settable IdentifierTables := fun i =>
  Build_IdentifierTables (paymentIdentifiers i) (paymentIdentifierReservations i).
#[export] Instance claims_eta : Settable ClaimTables := fun c =>
  Build_ClaimTables (claimAttempts c) (openClaimAttemptByChannel c).
#[export] Instance budget_eta : Settable BudgetTables := fun b =>
  Build_BudgetTables (budgetRecords b) (payerBudgetCounts b) (terminalBudgetQueue b) (budgetBytes b).
#[export] Instance store_eta : Settable Store := fun s =>
  Build_Store (chan s) (batch s) (exact s) (ids s) (claims s) (budget s).

Definition empty_store : Store := {|
  chan := Build_ChannelTables ∅ ∅ ∅ ∅; batch := Build_BatchTables ∅ ∅ ∅; exact := Build_ExactTables ∅ ∅ ∅;
  ids := Build_IdentifierTables ∅ ∅; claims := Build_ClaimTables ∅ ∅; budget := Build_BudgetTables ∅ ∅ [] 0 |}.

(** ** Operations on the store *)

(** The store afterwards and what the method returned or threw. *)
Definition op (A : Type) : Type := Store -> Store * result A.
#[export] Instance op_ret : MRet op := fun _ a s => (s, Ok a).
#[export] Instance op_bind : MBind op := fun _ _ k m s =>
  match m s with
  | (s', Ok a) => k a s'
  | (s', Throw e) => (s', Throw e)
  end.
Definition lift {A} (r : result A) : op A := fun s => (s, r).
Definition state : op Store := fun s => (s, Ok s).
Definition modify (f : Store -> Store) : op () := fun s => (f s, Ok tt).
Definition fail_if (b : bool) (msg : string) : op () := lift (throw_if b msg).

(** The clock readings of one operation: [new Date().toISOString()], and the first and second
    call of the store's [now]. *)
Record Clock := { iso : string; now1 : Z; now2 : Z }.

(** A string that is used only when truthy. *)
Definition nonempty (o : option string) : option string :=
  match o with Some s => if s === "" then None else Some s | None => None end.

Definition expiredReplayResponse : json :=
  JObject [("status", JNumber 409); ("headers", JObject []);
           ("body", JObject [("error", JString "replay_record_retained")])].
Definition exactPaymentKey (transactionId : string) : string := toLowerCase transactionId.

Section Store.
Context (blake2b : bytes -> bytes) (other_dates : string -> option Z) (limits : ServerDurableStateLimits).

(** *** The budget *)

Definition deleteBudgetRecord (key : string) (s : Store) : Store :=
  match budgetRecords (budget s) !! key with
  | None => s
  | Some record =>
      let payerRecords := default 0 (payerBudgetCounts (budget s) !! br_payerId record) in
      s <| budget := {|
        budgetRecords := delete key (budgetRecords (budget s));
        payerBudgetCounts :=
          if payerRecords <=? 1 then delete (br_payerId record) (payerBudgetCounts (budget s))
          else <[br_payerId record := payerRecords - 1]> (payerBudgetCounts (budget s));
        terminalBudgetQueue := map_delete key (terminalBudgetQueue (budget s));
        budgetBytes := budgetBytes (budget s) - br_bytes record |} |>
  end.

Definition dequeue (key : string) (s : Store) : Store :=
  s <| budget := (budget s) <| terminalBudgetQueue := map_delete key (terminalBudgetQueue (budget s)) |> |>.

(** The records a pruned terminal record leaves: the reservation it released goes; otherwise
    the attempt goes and the replay records keep an expired response. *)
Definition release_reservation (record : BudgetRecord) (s : Store) : Store :=
  match nonempty (br_paymentIdentifier record) with
  | None => s
  | Some id =>
      match paymentIdentifierReservations (ids s) !! id with
      | Some r => if (status r === safely_released) && (ownerId (r_claim r) === br_attemptId record)
                  then s <| ids := (ids s) <| paymentIdentifierReservations := delete id (paymentIdentifierReservations (ids s)) |> |>
                  else s
      | None => s
      end
  end.
Definition expire_attempt (record : BudgetRecord) (s : Store) : Store :=
  match br_kind record with
  | BatchKind =>
      let s := s <| batch := (batch s) <| batchAttempts := delete (br_attemptId record) (batchAttempts (batch s)) |> |> in
      match nonempty (br_commitmentId record) with
      | None => s
      | Some c =>
          match commitments (batch s) !! c with
          | Some commitment =>
              s <| batch := (batch s) <| commitments :=
                <[c := commitment <| bc_response := expiredReplayResponse |>]> (commitments (batch s)) |> |>
          | None => s
          end
      end
  | ExactKind =>
      let s := s <| exact := (exact s) <| exactAttempts := delete (br_attemptId record) (exactAttempts (exact s)) |> |> in
      let key := exactPaymentKey (br_attemptId record) in
      match exactPayments (exact s) !! key with
      | Some payment =>
          s <| exact := (exact s) <| exactPayments :=
            <[key := payment <| p_response := expiredReplayResponse |>]> (exactPayments (exact s)) |> |>
      | None => s
      end
  end.
Definition expire_identifier (record : BudgetRecord) (s : Store) : Store :=
  match nonempty (br_paymentIdentifier record) with
  | None => s
  | Some id =>
      match paymentIdentifiers (ids s) !! id with
      | Some i => s <| ids := (ids s) <| paymentIdentifiers :=
                    <[id := i <| i_response := expiredReplayResponse |>]> (paymentIdentifiers (ids s)) |> |>
      | None => s
      end
  end.

(** The loop takes the first key of the queue and removes it, or stops: the queue's length
    bounds its iterations. *)
Fixpoint prune_loop (fuel : nat) (cutoff : Z) (s : Store) : Store :=
  match fuel, terminalBudgetQueue (budget s) with
  | S fuel, (key, _) :: _ =>
      match budgetRecords (budget s) !! key with
      | None => prune_loop fuel cutoff (dequeue key s)
      | Some record =>
          match terminalAt record with
          | None => prune_loop fuel cutoff (dequeue key s)
          | Some t =>
              if cutoff <? t then s
              else
                let s := dequeue key s in
                prune_loop fuel cutoff
                  (deleteBudgetRecord key
                     (if safelyReleased record then release_reservation record s
                      else expire_identifier record (expire_attempt record s)))
          end
      end
  | _, _ => s
  end.
Definition pruneTerminalBudgetRecords (now : Z) (s : Store) : Store :=
  prune_loop (length (terminalBudgetQueue (budget s))) (now - terminalRetentionMs limits) s.

Definition budget_key (kind : BudgetKind) (id : string) : string :=
  match kind with BatchKind => "batch:" +:+ id | ExactKind => "exact:" +:+ id end.

(** The reservation and the budget record a claim on a released identifier replaces. *)
Definition safelyReleasedPaymentIdentifierReclaim (claim : option PaymentIdentifierReservationClaim) (s : Store) :
    result (option (string * string * BudgetRecord)) :=
  match claim with
  | None => Ok None
  | Some claim =>
      match paymentIdentifierReservations (ids s) !! id claim with
      | None => Ok None
      | Some released =>
          if status released !== safely_released then Ok None
          else
            let budgetKey := budget_key (if paymentKind (r_claim released) === "exact" then ExactKind else BatchKind)
                               (ownerId (r_claim released)) in
            match budgetRecords (budget s) !! budgetKey with
            | Some b =>
                _ ← throw_if (negb (safelyReleased b) || (br_attemptId b !== ownerId (r_claim released))
                              || (br_paymentIdentifier b !== Some (id claim)))
                      "safely released payment identifier budget is inconsistent";
                Ok (Some (id claim, budgetKey, b))
            | None => Throw (Error "safely released payment identifier budget is inconsistent")
            end
      end
  end.

Definition drop_replaced (replacement : option (string * string * BudgetRecord)) (s : Store) : Store :=
  match replacement with
  | None => s
  | Some (reservationId, _, b) =>
      let s := deleteBudgetRecord (br_key b) s in
      s <| ids := (ids s) <| paymentIdentifierReservations :=
        delete reservationId (paymentIdentifierReservations (ids s)) |> |>
  end.
Definition add_budget_record (record : BudgetRecord) (s : Store) : Store :=
  s <| budget := {|
    budgetRecords := <[br_key record := record]> (budgetRecords (budget s));
    payerBudgetCounts := <[br_payerId record := default 0 (payerBudgetCounts (budget s) !! br_payerId record) + 1]>
                           (payerBudgetCounts (budget s));
    terminalBudgetQueue := terminalBudgetQueue (budget s);
    budgetBytes := budgetBytes (budget s) + br_bytes record |} |>.

Definition admitBudgetRecord (key : string) (kind : BudgetKind) (attemptId payerId : string)
    (paymentIdentifier : option string) (bytes : Z)
    (replacementClaim : option PaymentIdentifierReservationClaim) (now : Z) : op () :=
  _ ← modify (pruneTerminalBudgetRecords now);
  s ← state;
  replacement ← lift (safelyReleasedPaymentIdentifierReclaim replacementClaim s);
  (* two records are the same object exactly when they are under the same key *)
  _ ← fail_if (match budgetRecords (budget s) !! key with
               | None => false
               | Some _ => match replacement with Some (_, k, _) => k !== key | None => true end
               end) "durable budget reservation already exists";
  let replacedRecordCount := match replacement with Some _ => 1 | None => 0 end in
  let replacedBytes := match replacement with Some (_, _, b) => br_bytes b | None => 0 end in
  let replacedPayerRecordCount :=
    match replacement with Some (_, _, b) => if br_payerId b === payerId then 1 else 0 | None => 0 end in
  let projectedPayerRecords :=
    default 0 (payerBudgetCounts (budget s) !! payerId) - replacedPayerRecordCount + 1 in
  _ ← fail_if (maxRecords limits <? Z.of_nat (size (budgetRecords (budget s))) - replacedRecordCount + 1)
        "durable protected-payment record limit exceeded";
  _ ← fail_if (maxBytes limits <? budgetBytes (budget s) - replacedBytes + bytes)
        "durable protected-payment byte limit exceeded";
  _ ← fail_if (maxRecordsPerPayer limits <? projectedPayerRecords)
        "durable protected-payment per-payer limit exceeded";
  _ ← modify (drop_replaced replacement);
  modify (add_budget_record {| br_key := key; br_kind := kind; br_attemptId := attemptId; br_payerId := payerId;
            br_bytes := bytes; terminalAt := None; br_commitmentId := None;
            br_paymentIdentifier := nonempty paymentIdentifier; safelyReleased := false |}).

Definition assertTerminalBudgetFits (key : string) (bytes : Z) (s : Store) : result () :=
  match budgetRecords (budget s) !! key with
  | None => Throw (Error "durable budget reservation is missing")
  | Some current =>
      throw_if (br_bytes current <? bytes) "durable terminal bundle exceeded its reserved byte quota"
  end.

(** The terminal record in its place, its bytes corrected, its key queued. *)
Definition end_budget_record (key : string) (current : BudgetRecord) (bytes : Z)
    (commitmentId paymentIdentifier : option string) (released : bool) (terminal : Z) (s : Store) : Store :=
  s <| budget := {|
    budgetRecords := <[key := {|
      br_key := br_key current; br_kind := br_kind current; br_attemptId := br_attemptId current;
      br_payerId := br_payerId current; br_bytes := bytes; terminalAt := Some terminal;
      br_commitmentId := match nonempty commitmentId with Some c => Some c | None => br_commitmentId current end;
      br_paymentIdentifier :=
        match nonempty paymentIdentifier with Some i => Some i | None => br_paymentIdentifier current end;
      safelyReleased := released || safelyReleased current |}]> (budgetRecords (budget s));
    payerBudgetCounts := payerBudgetCounts (budget s);
    terminalBudgetQueue := map_set key terminal (terminalBudgetQueue (budget s));
    budgetBytes := budgetBytes (budget s) + (bytes - br_bytes current) |} |>.

Definition terminalizeBudgetRecord (key : string) (bytes : Z) (commitmentId paymentIdentifier : option string)
    (released : bool) (clock : Clock) : op () :=
  s ← state;
  match budgetRecords (budget s) !! key with
  | None => lift (Throw (Error "durable budget reservation is missing"))
  | Some current =>
      _ ← fail_if (br_bytes current <? bytes) "durable terminal bundle exceeded its reserved byte quota";
      _ ← modify (end_budget_record key current bytes commitmentId paymentIdentifier released (now1 clock));
      modify (pruneTerminalBudgetRecords (now2 clock))
  end.

Record ServerDurableStateStats := {
  records : Z;
  stats_bytes : Z;
  openRecords : Z;
  recoveryRequiredRecords : Z;
  payerRecords : gmap string Z
}.
Definition needs_recovery (s : Store) (record : BudgetRecord) : bool :=
  match (i ← nonempty (br_paymentIdentifier record); paymentIdentifierReservations (ids s) !! i) with
  | Some r => status r === recovery_required
  | None => false
  end
  || match br_kind record with
     | BatchKind => match batchAttempts (batch s) !! br_attemptId record with
                    | Some a => isSome (get (b_recoveryReason a)) | None => false end
     | ExactKind => match exactAttempts (exact s) !! br_attemptId record with
                    | Some a => isSome (get (a_recoveryReason a)) | None => false end
     end.
Definition count (p : BudgetRecord -> bool) (m : gmap string BudgetRecord) : Z :=
  map_fold (fun _ r n => (if p r then 1 else 0) + n) 0 m.
Definition durableStateStats (now : Z) : op ServerDurableStateStats :=
  _ ← modify (pruneTerminalBudgetRecords now);
  s ← state;
  let all := budgetRecords (budget s) in
  mret {| records := Z.of_nat (size all); stats_bytes := budgetBytes (budget s);
          openRecords := count (fun r => isNone (terminalAt r)) all;
          recoveryRequiredRecords := count (needs_recovery s) all;
          payerRecords := payerBudgetCounts (budget s) |}.

(** *** Exact payments and heads *)

Definition reads {V} (m : gmap string V) (k : option string) : option V :=
  match nonempty k with Some k => m !! k | None => None end.

(** The writes of a decided transition. *)
Definition write_changes (changes : ExactTransitionChanges) (s : Store) : Store :=
  let s := match ch_head changes with
           | Some h => s <| exact := (exact s) <| exactHeads := <[headId h := h]> (exactHeads (exact s)) |> |>
           | None => s
           end in
  let s := match ch_reservation changes with
           | Some r => s <| ids := (ids s) <| paymentIdentifierReservations :=
                         <[id (r_claim r) := r]> (paymentIdentifierReservations (ids s)) |> |>
           | None => s
           end in
  let s := match ch_identifier changes with
           | Some i => s <| ids := (ids s) <| paymentIdentifiers := <[i_id i := i]> (paymentIdentifiers (ids s)) |> |>
           | None => s
           end in
  let s := match ch_payment changes with
           | Some p => s <| exact := (exact s) <| exactPayments :=
                         <[exactPaymentKey (p_transactionId p) := p]> (exactPayments (exact s)) |> |>
           | None => s
           end in
  match ch_attempt changes with
  | KeepAttempt => s
  | DeleteAttempt =>
      match ch_transactionId changes with
      | Some t => s <| exact := (exact s) <| exactAttempts := delete t (exactAttempts (exact s)) |> |>
      | None => s
      end
  | PutAttempt a =>
      s <| exact := (exact s) <| exactAttempts := <[a_transactionId a := a]> (exactAttempts (exact s)) |> |>
  end.

(** What a command reads, as the store holds it. *)
Definition exact_snapshot (command : ExactTransitionCommand) (attempt : option ExactSettlementAttemptRecord)
    (scope : ExactTransitionScope) (now : string) (s : Store) : ExactTransitionSnapshot :=
  let head := reads (exactHeads (exact s)) (sc_headId scope) in
  let registering := match command with RegisterHeadCommand _ => isNone head | _ => false end in
  {| ExactTransitions.now := now; s_attempt := attempt; s_head := head;
     s_payment := reads (exactPayments (exact s)) (exactPaymentKey <$> nonempty (sc_transactionId scope));
     s_identifier := reads (paymentIdentifiers (ids s)) (sc_identifierId scope);
     s_reservation := reads (paymentIdentifierReservations (ids s)) (sc_identifierId scope);
     s_heads := if registering then Some (snd <$> map_to_list (exactHeads (exact s))) else None;
     s_maxHeads := if registering then Some (maxExactHeads limits) else None |}.

Definition applyExactTransition (command : ExactTransitionCommand) (clock : Clock) : op ExactTransitionResult :=
  s ← state;
  initial ← lift (exactTransitionScope blake2b other_dates command None);
  let attempt := reads (exactAttempts (exact s)) (sc_transactionId initial) in
  scope ← lift (exactTransitionScope blake2b other_dates command attempt);
  changes ← lift (prepareExactTransition blake2b other_dates command
                    (exact_snapshot command attempt scope (iso clock) s));
  _ ← match ch_budget changes with
      | Some (Admit next bytes) =>
          admitBudgetRecord ("exact:" +:+ a_transactionId next) ExactKind (a_transactionId next) (a_payerId next)
            (id <$> get (a_paymentIdentifier next)) bytes (get (a_paymentIdentifier next)) (now1 clock)
      | Some (Terminal txId bytes _ _) =>
          lift (assertTerminalBudgetFits ("exact:" +:+ txId) bytes s)
      | _ => mret tt
      end;
  _ ← modify (write_changes changes);
  _ ← match ch_budget changes with
      | Some (Terminal txId bytes identifierId released) =>
          terminalizeBudgetRecord ("exact:" +:+ txId) bytes None identifierId released clock
      | Some (DeleteBudget txId) => modify (deleteBudgetRecord ("exact:" +:+ txId))
      | _ => mret tt
      end;
  mret (ch_result changes).

(** Head ids are lower-case hexadecimal: [localeCompare] orders them by code unit. *)
Fixpoint insert_head (h : ExactHeadRecord) (l : list ExactHeadRecord) : list ExactHeadRecord :=
  match l with
  | [] => [h]
  | h' :: l' => if key_le (headId h) (headId h') then h :: l else h' :: insert_head h l'
  end.
Definition sorted_heads (l : list ExactHeadRecord) : list ExactHeadRecord := foldr insert_head [] l.
Definition listExactHeads (s : Store) : list ExactHeadRecord :=
  sorted_heads (snd <$> map_to_list (exactHeads (exact s))).

(** [BigInt] of 0x and the selection key refuses a key that is not hexadecimal text. *)
Definition selectExactHead (request : ExactHeadSelectionRequest) (s : Store) :
    result (option ExactHeadRecord) :=
  candidates ← fold_result (fun l h => m ← exactHeadMatchesSelection h request; Ok (if m : bool then l ++ [h] else l))
                 (snd <$> map_to_list (exactHeads (exact s))) [];
  let candidates := sorted_heads candidates in
  match candidates with
  | [] => Ok None
  | _ =>
      let selectionKey := q_selectionKey request in
      _ ← throw_if (negb (string_forall is_hex selectionKey) || (selectionKey === ""))
            "Cannot convert to a BigInt";
      Ok (candidates !! Z.to_nat (parse_hex selectionKey mod Z.of_nat (length candidates)))
  end.
End Store.
