(* ===== verification/StoreChannels.v ===== *)
(** * The in-memory server store: channels, batch attempts and claims

    Models the channel, lease, batch-settlement and claim-attempt operations of
    [MemoryServerChannelStore] in [protocol/packages/server/src/stores.ts].  The state is the
    one of Store.v. *)

From S2P Require Import Prelude Amount BatchLane Json Binary ChainTruth Dates PaymentIdentifier ExactHeads.
From S2P Require Import ExactTransitions Channels BatchAttempts Store.

(** [stableJson] equality of two snapshots, [null] and [undefined] alike. *)
Definition sameChannelSnapshot (left right : option ServerChannelRecord) : bool :=
  match left, right with
  | Some l, Some r => stableJson (channel_json l) === stableJson (channel_json r)
  | None, None => true
  | _, _ => false
  end.
Definition matchesExpectedChannel (current : option ServerChannelRecord) (expected : ServerChannelRecord) : bool :=
  sameChannelSnapshot current (Some expected).

Definition channelOperationLeasesMatch (existing input : ChannelOperationLeaseRecord) : bool :=
  (leaseId existing === leaseId input) && (l_channelId existing === l_channelId input)
  && (l_covenantId existing === l_covenantId input) && (l_kind existing === l_kind input)
  && sameChannelSnapshot (l_expected existing) (l_expected input).

(** ** Claim attempts *)

Definition claim_status_text (s : ClaimAttemptStatus) : string :=
  match s with ClaimPending => "pending" | ClaimBroadcast => "broadcast" | ClaimAccepted => "accepted" | ClaimApplied => "applied" end.
Definition claim_artifact_fields (a : ClaimAttemptRecord) : list (string * json) :=
  [("attemptId", JString (ca_attemptId a)); ("channelId", JString (ca_channelId a));
   ("covenantId", JString (ca_covenantId a)); ("activeOutpoint", outpoint_json (ca_activeOutpoint a));
   ("activeScriptPublicKey", JString (ca_activeScriptPublicKey a)); ("fundingAmount", JString (ca_fundingAmount a));
   ("claimAmount", JString (claimAmount a)); ("chargedCumulativeAmount", JString (ca_chargedCumulativeAmount a));
   ("claimedCumulativeAmount", JString (ca_claimedCumulativeAmount a));
   ("signedMaxClaimable", JString (ca_signedMaxClaimable a))]
  ++ jprop "voucherSignature" JString (ca_voucherSignature a)
  ++ [("channelStatus", JString (channel_status_text (channelStatus a)));
      ("transaction", JString (ca_transaction a)); ("transactionId", JString (ca_transactionId a));
      ("requiredConfirmations", JNumber (requiredConfirmations a))]
  ++ jprop "continuationOutpoint" outpoint_json (continuationOutpoint a)
  ++ jprop "continuationScriptPublicKey" JString (continuationScriptPublicKey a)
  ++ jprop "continuationFundingAmount" JString (continuationFundingAmount a)
  ++ [("operationLeaseId", JString (operationLeaseId a)); ("expected", channel_json (ca_expected a))].
Definition claim_attempt_json (a : ClaimAttemptRecord) : json :=
  JObject (claim_artifact_fields a ++ [("status", JString (claim_status_text (ca_status a)))]
           ++ jprop "finality" JString (ca_finality a) ++ jprop "acceptance" accepted_json (ca_acceptance a)).

Definition claimAttemptsMatch (left right : ClaimAttemptRecord) : bool :=
  stableJson (claim_attempt_json left) === stableJson (claim_attempt_json right).
(** Without the status, the finality and the acceptance. *)
Definition claimAttemptArtifactsMatch (left right : ClaimAttemptRecord) : bool :=
  stableJson (JObject (claim_artifact_fields left)) === stableJson (JObject (claim_artifact_fields right)).

Definition index_in_range (i : Z) : bool := (0 <=? i) && (i <=? U32_MAX).

(** The evidence each status carries. *)
Definition assert_claim_status (attempt : ClaimAttemptRecord) : result () :=
  let finality := get (ca_finality attempt) in
  let acceptance := get (ca_acceptance attempt) in
  let evidence_matches :=
    match acceptance with Some e => ae_transactionId e === ca_transactionId attempt | None => false end in
  match ca_status attempt with
  | ClaimPending => throw_if (isSome finality || isSome acceptance) "pending claim attempt cannot have chain evidence"
  | ClaimBroadcast =>
      _ ← throw_if ((finality !== Some "broadcast") && (finality !== Some "accepted") && (finality !== Some "confirmed"))
            "broadcast claim attempt requires observed finality";
      _ ← throw_if ((finality === Some "broadcast") && isSome acceptance)
            "broadcast-only claim attempt cannot have acceptance evidence";
      throw_if (((finality === Some "accepted") || (finality === Some "confirmed")) && negb evidence_matches)
        "accepted claim observation requires matching evidence"
  | _ =>
      unconfirmed ← match acceptance with
        | Some e =>
            or_else (Ok ((finality !== Some "confirmed") || negb evidence_matches))
              (d ← decideChainEvidence (StatusAccepted e) (requiredConfirmations attempt);
               Ok (match d with DecidedConfirmed _ => false | _ => true end))
        | None => Ok true
        end;
      throw_if unconfirmed "accepted claim attempt lacks confirmed chain evidence"
  end.

Definition assertClaimAttemptShape (attempt : ClaimAttemptRecord) : result () :=
  _ ← throw_if (negb (isSafeInteger (requiredConfirmations attempt)) || (requiredConfirmations attempt <? 1))
        "claim attempt confirmation threshold is invalid";
  _ ← throw_if (negb (is_lower_hash32 (ca_attemptId attempt)) || negb (is_lower_hash32 (ca_channelId attempt))
                || negb (isNonzeroLowerHash32 (ca_covenantId attempt))
                || negb (is_lower_hash32 (txid (ca_activeOutpoint attempt)))
                || negb (is_lower_hash32 (ca_transactionId attempt))
                || negb (is_lower_hash32 (operationLeaseId attempt)))
        "claim attempt identifiers must be canonical lowercase";
  _ ← throw_if (negb (index_in_range (index (ca_activeOutpoint attempt))))
        "claim attempt active outpoint index is invalid";
  _ ← throw_if (ca_transaction attempt === "") "claim attempt transaction artifact is required";
  claim ← parseBatchLaneAmount (claimAmount attempt) "claim amount";
  _ ← throw_if (claim =? 0) "claim amount must be positive";
  _ ← batchLaneAccounting {| BatchLane.fundingAmount := ca_fundingAmount attempt;
        BatchLane.chargedCumulativeAmount := ca_chargedCumulativeAmount attempt;
        BatchLane.claimedCumulativeAmount := ca_claimedCumulativeAmount attempt;
        BatchLane.signedMaxClaimable := ca_signedMaxClaimable attempt |};
  let expected := ca_expected attempt in
  _ ← throw_if ((sv_channelId expected !== ca_channelId attempt) || (sv_covenantId expected !== ca_covenantId attempt)
                || (sv_fundingAmount expected !== ca_fundingAmount attempt)
                || (sv_chargedCumulativeAmount expected !== ca_chargedCumulativeAmount attempt)
                || (sv_claimedCumulativeAmount expected !== ca_claimedCumulativeAmount attempt)
                || (sv_signedMaxClaimable expected !== ca_signedMaxClaimable attempt)
                || (get (voucherSignature expected) !== get (ca_voucherSignature attempt))
                || (sv_status expected !== channelStatus attempt)
                || negb (sameOutpoint (activeOutpoint expected) (ca_activeOutpoint attempt))
                || (toLowerCase (activeScriptPublicKey expected) !== toLowerCase (ca_activeScriptPublicKey attempt)))
        "claim attempt snapshot is inconsistent";
  let continuationFields :=
    (if isSome (get (continuationOutpoint attempt)) then 1 else 0)
    + (if isSome (get (continuationScriptPublicKey attempt)) then 1 else 0)
    + (if isSome (get (continuationFundingAmount attempt)) then 1 else 0) in
  _ ← throw_if (negb (continuationFields =? 0) && negb (continuationFields =? 3))
        "claim continuation state must be complete";
  _ ← match get (continuationOutpoint attempt) with
      | None => Ok tt
      | Some o =>
          _ ← throw_if (negb (is_lower_hash32 (txid o)) || (txid o !== ca_transactionId attempt)
                        || negb (index_in_range (index o))) "claim continuation outpoint is invalid";
          _ ← parseBatchLaneAmount (default "" (get (continuationFundingAmount attempt)))
                "claim continuation funding amount";
          Ok tt
      end;
  assert_claim_status attempt.

Definition normalizeClaimAttempt (input : ClaimAttemptRecord) (existing : option ClaimAttemptRecord) :
    result ClaimAttemptRecord :=
  _ ← assertClaimAttemptShape input;
  _ ← throw_if (ca_status input === ClaimApplied) "claim attempts can only be applied atomically";
  match existing with
  | None =>
      _ ← throw_if (ca_status input !== ClaimPending) "new claim attempt must be pending";
      Ok input
  | Some existing =>
      _ ← assertClaimAttemptShape existing;
      _ ← throw_if (negb (claimAttemptArtifactsMatch existing input))
            "claim attempt immutable artifact conflicts with durable state";
      if ca_status existing === ca_status input then
        _ ← throw_if (negb (claimAttemptsMatch existing input))
              "claim attempt same-state update conflicts with durable state";
        Ok input
      else
        _ ← throw_if (negb (((ca_status existing === ClaimPending) && (ca_status input === ClaimBroadcast))
                            || ((ca_status existing === ClaimBroadcast) && (ca_status input === ClaimAccepted))))
              "invalid claim attempt status transition";
        Ok input
  end.

Section Channels.
Context (sha256 : bytes -> bytes) (other_dates : string -> option Z) (limits : ServerDurableStateLimits).

Definition isoDate (value label : string) : op () := lift (assertIsoDate other_dates value label).

(** ** Channels and leases *)

Definition set_chan (f : ChannelTables -> ChannelTables) : op () := modify (fun s => s <| chan := f (chan s) |>).
Definition set_batch (f : BatchTables -> BatchTables) : op () := modify (fun s => s <| batch := f (batch s) |>).
Definition set_claims (f : ClaimTables -> ClaimTables) : op () := modify (fun s => s <| claims := f (claims s) |>).
Definition set_ids (f : IdentifierTables -> IdentifierTables) : op () := modify (fun s => s <| ids := f (ids s) |>).

(** The channel's canonical keys; throws when they are bound to another channel. *)
Definition assertChannelBinding (channel : ServerChannelRecord) : op (string * string) :=
  s ← state;
  let channelId := toLowerCase (sv_channelId channel) in
  let covenantId := toLowerCase (sv_covenantId channel) in
  _ ← fail_if (match channels (chan s) !! channelId with
               | Some current => toLowerCase (sv_covenantId current) !== covenantId
               | None => false
               end) "channel covenant lineage cannot change";
  _ ← fail_if (match nonempty (channelByCovenantId (chan s) !! covenantId) with
               | Some registered => registered !== channelId
               | None => false
               end) "covenant lineage is already registered to another channel";
  mret (channelId, covenantId).

Definition setChannel (channel : ServerChannelRecord) : op () :=
  _ ← lift (assertServerChannelLineageConsistency sha256 channel);
  '(channelId, covenantId) ← assertChannelBinding channel;
  set_chan (fun c => c <| channelByCovenantId := <[covenantId := channelId]> (channelByCovenantId c) |>
                       <| channels := <[channelId := channel]> (channels c) |>).

(** The constructor's loop over the given channels. *)
Fixpoint set_channels (l : list ServerChannelRecord) : op () :=
  match l with
  | [] => mret tt
  | channel :: l => _ ← setChannel channel; set_channels l
  end.
Definition assertDurableStateLimits : result () :=
  for_each (fun '(value, label) =>
      throw_if (negb (isSafeInteger value) || (value <=? 0))
        ("durable state " +:+ label +:+ " must be a positive safe integer"))
    [(maxRecords limits, "record limit"); (maxBytes limits, "byte limit");
     (maxRecordsPerPayer limits, "per-payer record limit"); (maxExactHeads limits, "exact head limit");
     (terminalRetentionMs limits, "terminal retention")].
Definition new_store (initial : list ServerChannelRecord) : result Store :=
  _ ← assertDurableStateLimits;
  match set_channels initial empty_store with
  | (s, Ok _) => Ok s
  | (_, Throw e) => Throw e
  end.

Definition registerChannel (channel : ServerChannelRecord) : op () :=
  s ← state;
  match channels (chan s) !! sv_channelId channel with
  | Some existing =>
      fail_if (stableJson (channel_json existing) !== stableJson (channel_json channel))
        "existing channel state cannot be replaced"
  | None => setChannel channel
  end.

Definition requireChannelOperation (channelId leaseId' : string) : op ChannelOperationLeaseRecord :=
  s ← state;
  match channelOperations (chan s) !! channelId with
  | Some lease =>
      _ ← fail_if (leaseId lease !== leaseId') "channel operation lease was not found";
      mret lease
  | None => lift (Throw (Error "channel operation lease was not found"))
  end.
Definition findChannelOperationByLeaseId (leaseId' : string) (s : Store) : option ChannelOperationLeaseRecord :=
  reads (channelOperations (chan s)) (channelByLeaseId (chan s) !! leaseId').
Definition release_lease (channelId leaseId' : string) : op () :=
  set_chan (fun c => c <| channelOperations := delete channelId (channelOperations c) |>
                       <| channelByLeaseId := delete leaseId' (channelByLeaseId c) |>).
(** [{ ...lease, ...update }]; a reason that is not given is kept. *)
Definition updateChannelOperation (channelId leaseId' : string) (newStatus : ChannelOperationLeaseStatus)
    (updatedAt' : string) (reason : prop string) : op () :=
  lease ← requireChannelOperation channelId leaseId';
  set_chan (fun c => c <| channelOperations :=
    <[channelId := lease <| l_status := newStatus |> <| l_updatedAt := updatedAt' |>
        <| l_recoveryReason := match reason with Absent => l_recoveryReason lease | r => r end |>]>
      (channelOperations c) |>).

Definition normalizeChannelOperationLease (input : ChannelOperationLeaseRecord) : result ChannelOperationLeaseRecord :=
  _ ← throw_if (negb (is_lower_hash32 (leaseId input)) || negb (is_lower_hash32 (l_channelId input))
                || negb (isNonzeroLowerHash32 (l_covenantId input)))
        "channel operation identifiers must be canonical lowercase";
  _ ← throw_if (l_status input !== LeaseReserved) "new channel operation must be reserved";
  _ ← throw_if (match l_expected input with
                | Some c => (sv_channelId c !== l_channelId input) || (sv_covenantId c !== l_covenantId input)
                | None => false
                end) "channel operation snapshot identity is inconsistent";
  _ ← assertIsoDate other_dates (l_createdAt input) "channel operation creation time";
  _ ← assertIsoDate other_dates (l_updatedAt input) "channel operation update time";
  Ok input.

Definition claimChannelOperation (input : ChannelOperationLeaseRecord) : op (ChannelOperationLeaseRecord * bool) :=
  lease ← lift (normalizeChannelOperationLease input);
  s ← state;
  match channelOperations (chan s) !! l_channelId lease with
  | Some existing =>
      _ ← fail_if (negb (channelOperationLeasesMatch existing lease))
            "channel already has a conflicting durable operation";
      mret (existing, false)
  | None =>
      _ ← fail_if (negb (sameChannelSnapshot (channels (chan s) !! l_channelId lease) (l_expected lease)))
            "channel state changed before operation claim";
      _ ← set_chan (fun c => c <| channelOperations := <[l_channelId lease := lease]> (channelOperations c) |>
                               <| channelByLeaseId := <[leaseId lease := l_channelId lease]> (channelByLeaseId c) |>);
      mret (lease, true)
  end.

Definition abandonChannelOperation (leaseId' observedAt : string) : op () :=
  _ ← isoDate observedAt "channel operation abandonment time";
  s ← state;
  match findChannelOperationByLeaseId leaseId' s with
  | None => mret tt
  | Some lease =>
      _ ← fail_if (l_status lease !== LeaseReserved) "uncertain channel operation cannot be abandoned";
      _ ← fail_if ((openBatchAttemptByChannel (batch s) !! l_channelId lease === Some (leaseId lease))
                   || isSome (openClaimAttemptByChannel (claims s) !! l_channelId lease))
            "attempt-owned channel operation must use its safe abandon path";
      release_lease (l_channelId lease) (leaseId lease)
  end.

Definition retireChannel (channelId leaseId' : string) (expected : ServerChannelRecord) : op () :=
  s ← state;
  match channels (chan s) !! channelId with
  | None => mret tt
  | Some channel =>
      lease ← requireChannelOperation channelId leaseId';
      _ ← fail_if (l_kind lease !== OpRetirement) "channel operation lease is not a retirement";
      _ ← fail_if (negb (sameChannelSnapshot (Some channel) (Some expected))
                   || negb (sameChannelSnapshot (Some channel) (l_expected lease)))
            "channel state changed before retirement";
      _ ← fail_if ((sv_status channel === Refunded) || isNone (currentHead (lineage channel)))
            "terminal refunded channel cannot be retired";
      version ← lift (incrementVersion (sv_version channel));
      let retired := channel <| sv_version := version |> <| sv_status := Retired |> in
      _ ← lift (assertServerChannelLineageConsistency sha256 retired);
      _ ← set_chan (fun c => c <| channels := <[channelId := retired]> (channels c) |>);
      release_lease channelId leaseId'
  end.

Definition applyCovenantLineage (expected channel : ServerChannelRecord) (leaseId' : string) : op () :=
  s ← state;
  let channelId := sv_channelId expected in
  _ ← fail_if (negb (sameChannelSnapshot (channels (chan s) !! channelId) (Some expected)))
        "channel state changed before covenant lineage apply";
  lease ← requireChannelOperation channelId leaseId';
  _ ← fail_if (((l_kind lease !== OpRefund) && (l_kind lease !== OpRecovery))
               || negb (sameChannelSnapshot (l_expected lease) (Some expected)))
        "covenant lineage apply does not own the channel snapshot";
  _ ← fail_if (isSome (openBatchAttemptByChannel (batch s) !! channelId)
               || isSome (openClaimAttemptByChannel (claims s) !! channelId))
        "channel has an open attempt during covenant lineage apply";
  _ ← lift (assertServerCovenantLineageExtension sha256 expected channel);
  _ ← setChannel channel;
  release_lease channelId leaseId'.

(** ** Payment identifiers *)

Definition applyPaymentIdentifierTransition (claim : option PaymentIdentifierReservationClaim)
    (transition : PaymentIdentifierReservationTransition) : op () :=
  s ← state;
  next ← lift (transitionPaymentIdentifierReservation claim
                 (c ← claim; paymentIdentifierReservations (ids s) !! id c) transition);
  match next with
  | Some r => set_ids (fun i => i <| paymentIdentifierReservations :=
                <[id (r_claim r) := r]> (paymentIdentifierReservations i) |>)
  | None => mret tt
  end.
Definition assertPaymentIdentifierClaimAvailable (claim : option PaymentIdentifierReservationClaim) : op () :=
  s ← state;
  lift (assertPaymentIdentifierAvailable claim
          (c ← claim; paymentIdentifierReservations (ids s) !! id c)
          (c ← claim; paymentIdentifiers (ids s) !! id c)).
Definition assertCompletedPaymentIdentifier (attempt : BatchSettlementAttemptRecord)
    (completed : option PaymentIdentifierRecord) : op () :=
  s ← state;
  let claim := get (b_paymentIdentifier attempt) in
  lift (assertPaymentIdentifierCompletion claim completed
          (c ← claim; paymentIdentifierReservations (ids s) !! id c)
          (c ← claim; paymentIdentifiers (ids s) !! id c)).

(** ** Batch settlements *)

Definition assertSettlementTransition (previous next : ServerChannelRecord) (commitment : BatchCommitmentRecord) :
    result () :=
  _ ← assertImmutableChannelIdentity previous next;
  rolled_back ←
    or_else (Ok ((sv_fundingAmount next !== sv_fundingAmount previous)
                 || (sv_claimedCumulativeAmount next !== sv_claimedCumulativeAmount previous)
                 || negb (sameOutpoint (activeOutpoint next) (activeOutpoint previous))
                 || (toLowerCase (activeScriptPublicKey next) !== toLowerCase (activeScriptPublicKey previous)))) (
    or_else (n ← parseBatchLaneAmount (sv_chargedCumulativeAmount next) "next charged amount";
             p ← parseBatchLaneAmount (sv_chargedCumulativeAmount previous) "previous charged amount"; Ok (n <? p)) (
    or_else (n ← parseBatchLaneAmount (sv_signedMaxClaimable next) "next signed ceiling";
             p ← parseBatchLaneAmount (sv_signedMaxClaimable previous) "previous signed ceiling"; Ok (n <? p)) (
    or_else (Ok (get (lastCommitmentId next) !== Some (bc_commitmentId commitment))) (
    or_else (v ← incrementVersion (sv_version previous); Ok (sv_version next !== v))
            (same ← sameCovenantLineage (lineage previous) (lineage next); Ok (negb same))))));
  _ ← throw_if rolled_back "settlement would roll back or replace channel state";
  _ ← batchLaneAccounting (lane_of next);
  assertServerChannelLineageConsistency sha256 next.

Definition requireBatchAttempt (attemptId : string) : op BatchSettlementAttemptRecord :=
  s ← state;
  match batchAttempts (batch s) !! toLowerCase attemptId with
  | Some attempt => mret attempt
  | None => lift (Throw (Error "batch settlement attempt was not found"))
  end.
Definition put_batch_attempt (attempt : BatchSettlementAttemptRecord) : op () :=
  set_batch (fun b => b <| batchAttempts := <[b_attemptId attempt := attempt]> (batchAttempts b) |>).
Definition batch_key (attempt : BatchSettlementAttemptRecord) : string := "batch:" +:+ b_attemptId attempt.

Definition claimBatchSettlement (input : BatchSettlementAttemptRecord) (clock : Clock) :
    op (BatchSettlementAttemptRecord * bool) :=
  attempt ← lift (normalizeBatchSettlementAttempt other_dates input);
  s ← state;
  match batchAttempts (batch s) !! b_attemptId attempt with
  | Some existing =>
      _ ← fail_if (negb (batchSettlementAttemptsMatch existing attempt))
            "batch payment is already claimed for a different request";
      mret (existing, false)
  | None =>
      let channelId := b_channelId attempt in
      let current := channels (chan s) !! channelId in
      let claim := get (b_paymentIdentifier attempt) in
      _ ← match get (channelTransition attempt) with
          | Some t =>
              _ ← fail_if (negb (sameChannelSnapshot current (previous t)))
                    "channel state changed before deposit transition";
              _ ← fail_if (negb (sameChannelSnapshot (Some (next t)) (Some (b_expected attempt))))
                    "deposit transition does not match attempt snapshot";
              _ ← lift (assertBatchDepositTransition sha256 (previous t) (next t) (operationKind attempt));
              _ ← assertChannelBinding (next t);
              mret tt
          | None => fail_if (negb (matchesExpectedChannel current (b_expected attempt)))
                      "channel state changed before batch settlement claim"
          end;
      _ ← fail_if (isSome (nonempty (openBatchAttemptByChannel (batch s) !! channelId)))
            "channel already has a pending batch settlement";
      _ ← fail_if (isSome (channelOperations (chan s) !! channelId))
            "channel already has a conflicting durable operation";
      _ ← assertPaymentIdentifierClaimAvailable claim;
      _ ← admitBudgetRecord limits (batch_key attempt) BatchKind (b_attemptId attempt) (b_payerId attempt)
            (id <$> claim) (durableOpenRecordBytes (batch_attempt_json attempt)) claim (now1 clock);
      _ ← match get (channelTransition attempt) with Some t => setChannel (next t) | None => mret tt end;
      _ ← applyPaymentIdentifierTransition claim (Reserve (b_createdAt attempt));
      _ ← put_batch_attempt attempt;
      _ ← set_batch (fun b => b <| openBatchAttemptByChannel :=
            <[channelId := b_attemptId attempt]> (openBatchAttemptByChannel b) |>);
      _ ← set_chan (fun c => c
            <| channelOperations := <[channelId := {|
                 leaseId := b_attemptId attempt; l_channelId := channelId; l_covenantId := b_covenantId attempt;
                 l_kind := operationKind attempt; l_expected := Some (b_expected attempt);
                 l_status := LeaseReserved; l_createdAt := b_createdAt attempt; l_updatedAt := b_updatedAt attempt;
                 l_recoveryReason := Absent |}]> (channelOperations c) |>
            <| channelByLeaseId := <[b_attemptId attempt := channelId]> (channelByLeaseId c) |>);
      mret (attempt, true)
  end.

(** The lease and the reservation follow the attempt's new state. *)
Definition follow_attempt (attempt : BatchSettlementAttemptRecord) (lease_status : ChannelOperationLeaseStatus)
    (reservation_status : PaymentIdentifierReservationStatus) (reason : prop string) (at_ : string) : op () :=
  _ ← updateChannelOperation (b_channelId attempt) (b_attemptId attempt) lease_status at_ reason;
  applyPaymentIdentifierTransition (get (b_paymentIdentifier attempt)) (Update reservation_status at_ reason).

Definition beginBatchHandler (attemptId startedAt : string) : op bool :=
  attempt ← requireBatchAttempt attemptId;
  if (b_status attempt !== BatchPending) || truthy (b_handlerStartedAt attempt) then mret false
  else
    _ ← isoDate startedAt "batch handler start time";
    _ ← put_batch_attempt (attempt <| b_handlerStartedAt := Present startedAt |> <| b_updatedAt := startedAt |>);
    _ ← follow_attempt attempt LeasePending pending Absent startedAt;
    mret true.

Definition resetBatchHandlerBeforeExecution (attemptId startedAt : string) (clock : Clock) : op bool :=
  attempt ← requireBatchAttempt attemptId;
  if (b_status attempt !== BatchPending) || (get (b_handlerStartedAt attempt) !== Some startedAt)
     || isSome (get (b_handlerResult attempt)) || truthy (b_recoveryReason attempt) then mret false
  else
    _ ← put_batch_attempt (attempt <| b_handlerStartedAt := Undefined |> <| b_updatedAt := iso clock |>);
    _ ← follow_attempt attempt LeaseReserved reserved Undefined (iso clock);
    mret true.

Definition recordBatchHandlerResult (attemptId : string) (handlerResult : ProtectedHandlerResult)
    (completedAt : string) : op () :=
  attempt ← requireBatchAttempt attemptId;
  _ ← lift (assertBatchHandlerResultTransition other_dates attempt handlerResult completedAt);
  if isSome (get (b_handlerResult attempt)) then mret tt
  else
    _ ← put_batch_attempt (attempt <| b_handlerResult := Present handlerResult |>
          <| b_handlerCompletedAt := Present completedAt |> <| b_recoveryReason := Undefined |>
          <| b_updatedAt := completedAt |>);
    follow_attempt attempt LeasePending pending Undefined completedAt.

Definition markBatchHandlerRecoveryRequired (attemptId reason observedAt : string) : op () :=
  attempt ← requireBatchAttempt attemptId;
  _ ← fail_if ((b_status attempt !== BatchPending) || negb (truthy (b_handlerStartedAt attempt))
               || isSome (get (b_handlerResult attempt))) "batch handler is not awaiting recovery";
  _ ← isoDate observedAt "batch handler recovery time";
  _ ← put_batch_attempt (attempt <| b_recoveryReason := Present reason |> <| b_updatedAt := observedAt |>);
  follow_attempt attempt LeaseRecoveryRequired recovery_required (Present reason) observedAt.

(** The attempt no longer holds its channel. *)
Definition release_channel (channelId leaseId' : string) : op () :=
  _ ← set_batch (fun b => b <| openBatchAttemptByChannel := delete channelId (openBatchAttemptByChannel b) |>);
  release_lease channelId leaseId'.

Definition abandonBatchSettlement (attemptId reason observedAt : string) (clock : Clock) : op () :=
  attempt ← requireBatchAttempt attemptId;
  _ ← isoDate observedAt "batch settlement abandonment time";
  _ ← fail_if ((b_status attempt !== BatchPending) || truthy (b_handlerStartedAt attempt)
               || isSome (get (b_handlerResult attempt)) || truthy (b_recoveryReason attempt))
        "uncertain or completed batch settlement cannot be abandoned";
  _ ← requireChannelOperation (b_channelId attempt) (b_attemptId attempt);
  let claim := get (b_paymentIdentifier attempt) in
  _ ← applyPaymentIdentifierTransition claim (Release reason observedAt false);
  _ ← set_batch (fun b => b <| batchAttempts := delete (b_attemptId attempt) (batchAttempts b) |>);
  _ ← release_channel (b_channelId attempt) (b_attemptId attempt);
  match claim with
  | Some c =>
      s ← state;
      terminalizeBudgetRecord limits (batch_key attempt)
        (durableByteLength (JObject [("paymentIdentifierReservation",
           field reservation_json (paymentIdentifierReservations (ids s) !! id c))]))
        None (Some (id c)) true clock
  | None => modify (deleteBudgetRecord (batch_key attempt))
  end.

Definition commitSettlement (record : SettlementCommit) (clock : Clock) : op () :=
  s ← state;
  let current := channels (chan s) !! sv_channelId (sc_expected record) in
  _ ← fail_if (negb (matchesExpectedChannel current (sc_expected record)))
        "channel state changed before settlement commit";
  match current, batchAttempts (batch s) !! batchAttemptId record with
  | Some current, Some attempt =>
      _ ← fail_if (negb (batchSettlementAttemptIsReadyToCommit (Some attempt) record))
            "batch settlement attempt is not ready to apply";
      lease ← requireChannelOperation (b_channelId attempt) (b_attemptId attempt);
      _ ← fail_if ((l_kind lease !== operationKind attempt)
                   || ((l_status lease !== LeasePending) && (l_status lease !== LeaseRecoveryRequired)))
            "batch settlement does not own the channel operation";
      let paymentIdentifier := sc_paymentIdentifier record in
      let commitment := commitment record in
      let channel := sc_channel record in
      _ ← lift (assertSettlementTransition current channel commitment);
      _ ← assertCompletedPaymentIdentifier attempt paymentIdentifier;
      _ ← assertChannelBinding channel;
      let appliedAttempt := attempt
        <| b_handlerResult := Absent |> <| b_handlerCompletedAt := Absent |> <| channelTransition := Absent |>
        <| b_status := BatchApplied |> <| b_recoveryReason := Undefined |>
        <| b_commitmentId := Present (bc_commitmentId commitment) |>
        <| completedPaymentIdentifier := match paymentIdentifier with Some i => Present (i_id i) | None => Undefined end |>
        <| b_updatedAt := iso clock |> in
      let terminalBudgetBytes := durableByteLength (JObject
        [("attempt", batch_attempt_json appliedAttempt); ("commitment", commitment_json commitment);
         ("paymentIdentifier", field identifier_json paymentIdentifier)]) in
      _ ← lift (assertTerminalBudgetFits (batch_key attempt) terminalBudgetBytes s);
      _ ← set_batch (fun b => b <| commitments := <[bc_commitmentId commitment := commitment]> (commitments b) |>);
      _ ← match paymentIdentifier with
          | Some i =>
              _ ← set_ids (fun t => t <| paymentIdentifiers := <[i_id i := i]> (paymentIdentifiers t) |>);
              applyPaymentIdentifierTransition (get (b_paymentIdentifier attempt)) (Complete (b_updatedAt attempt))
          | None => mret tt
          end;
      _ ← setChannel channel;
      _ ← put_batch_attempt appliedAttempt;
      _ ← release_channel (b_channelId attempt) (b_attemptId attempt);
      terminalizeBudgetRecord limits (batch_key attempt) terminalBudgetBytes
        (Some (bc_commitmentId commitment)) (i_id <$> paymentIdentifier) false clock
  | _, _ => lift (Throw (Error "batch settlement attempt is not ready to apply"))
  end.

(** ** Claim attempts *)

Definition assertClaimTransition (previous next : ServerChannelRecord) (attempt : ClaimAttemptRecord) : result () :=
  _ ← assertImmutableChannelIdentity previous next;
  expected ← applyBatchClaimAccounting (lane_of previous) (claimAmount attempt);
  unexpected ←
    or_else (Ok ((sv_fundingAmount next !== BatchLane.fundingAmount expected)
                 || (sv_claimedCumulativeAmount next !== BatchLane.claimedCumulativeAmount expected)
                 || (sv_chargedCumulativeAmount next !== sv_chargedCumulativeAmount previous)
                 || (sv_signedMaxClaimable next !== sv_signedMaxClaimable previous)
                 || (get (lastCommitmentId next) !== get (lastCommitmentId previous))
                 || (get (voucherSignature next) !== get (voucherSignature previous)))) (
    or_else (v ← incrementVersion (sv_version previous); Ok (sv_version next !== v))
      (Ok (match get (continuationOutpoint attempt) with
           | None => true
           | Some o => negb (sameOutpoint (activeOutpoint next) o)
           end
           || (Some (toLowerCase (activeScriptPublicKey next))
               !== (toLowerCase <$> get (continuationScriptPublicKey attempt))))));
  _ ← throw_if unexpected "claim transition is not the reserved monotonic successor";
  _ ← batchLaneAccounting (lane_of next);
  assertServerCovenantJournalExtension sha256 previous next.

Definition loadOpenClaimAttempt (channelId : string) (s : Store) : option ClaimAttemptRecord :=
  match reads (claimAttempts (claims s)) (openClaimAttemptByChannel (claims s) !! channelId) with
  | Some record => if ca_status record !== ClaimApplied then Some record else None
  | None => None
  end.

Definition saveClaimAttempt (record : ClaimAttemptRecord) (clock : Clock) : op () :=
  s ← state;
  attempt ← lift (normalizeClaimAttempt record (claimAttempts (claims s) !! ca_attemptId record));
  _ ← fail_if (match nonempty (openClaimAttemptByChannel (claims s) !! ca_channelId attempt) with
               | Some openAttemptId => openAttemptId !== ca_attemptId attempt
               | None => false
               end) "claim attempt is already pending";
  lease ← requireChannelOperation (ca_channelId attempt) (operationLeaseId attempt);
  _ ← fail_if ((l_kind lease !== OpClaim) || negb (sameChannelSnapshot (l_expected lease) (Some (ca_expected attempt))))
        "claim attempt does not own the channel snapshot";
  _ ← set_claims (fun c => c
        <| claimAttempts := <[ca_attemptId attempt := attempt]> (claimAttempts c) |>
        <| openClaimAttemptByChannel := <[ca_channelId attempt := ca_attemptId attempt]> (openClaimAttemptByChannel c) |>);
  updateChannelOperation (ca_channelId attempt) (operationLeaseId attempt) LeasePending (iso clock) Absent.

Definition release_claim (attempt : ClaimAttemptRecord) : op () :=
  _ ← set_claims (fun c => c <| openClaimAttemptByChannel := delete (ca_channelId attempt) (openClaimAttemptByChannel c) |>);
  release_lease (ca_channelId attempt) (operationLeaseId attempt).

Definition applyClaimAttempt (channel : ServerChannelRecord) (attempt : ClaimAttemptRecord) : op () :=
  s ← state;
  match claimAttempts (claims s) !! ca_attemptId attempt with
  | None => lift (Throw (Error "claim apply must match the persisted accepted attempt"))
  | Some currentAttempt =>
      _ ← fail_if ((ca_status currentAttempt !== ClaimAccepted) || (ca_status attempt !== ClaimAccepted)
                   || negb (claimAttemptsMatch currentAttempt attempt))
            "claim apply must match the persisted accepted attempt";
      lease ← requireChannelOperation (ca_channelId currentAttempt) (operationLeaseId currentAttempt);
      _ ← fail_if (l_kind lease !== OpClaim) "claim apply does not own the channel operation";
      match channels (chan s) !! sv_channelId channel with
      | None => lift (Throw (Error "channel state changed before claim apply"))
      | Some currentChannel =>
          _ ← fail_if ((sv_channelId currentChannel !== ca_channelId currentAttempt)
                       || (toLowerCase (sv_covenantId currentChannel) !== toLowerCase (ca_covenantId currentAttempt))
                       || negb (sameOutpoint (activeOutpoint currentChannel) (ca_activeOutpoint currentAttempt))
                       || (toLowerCase (activeScriptPublicKey currentChannel)
                           !== toLowerCase (ca_activeScriptPublicKey currentAttempt))
                       || (sv_fundingAmount currentChannel !== ca_fundingAmount currentAttempt)
                       || (sv_chargedCumulativeAmount currentChannel !== ca_chargedCumulativeAmount currentAttempt)
                       || (sv_claimedCumulativeAmount currentChannel !== ca_claimedCumulativeAmount currentAttempt)
                       || (sv_signedMaxClaimable currentChannel !== ca_signedMaxClaimable currentAttempt)
                       || (get (voucherSignature currentChannel) !== get (ca_voucherSignature currentAttempt))
                       || (sv_status currentChannel !== channelStatus currentAttempt))
                "channel state changed before claim apply";
          _ ← lift (assertClaimTransition currentChannel channel currentAttempt);
          _ ← setChannel channel;
          _ ← set_claims (fun c => c <| claimAttempts :=
                <[ca_attemptId currentAttempt := currentAttempt <| ca_status := ClaimApplied |>]> (claimAttempts c) |>);
          release_claim currentAttempt
      end
  end.

Definition abandonClaimAttempt (attemptId : string) : op () :=
  s ← state;
  match claimAttempts (claims s) !! attemptId with
  | None => mret tt
  | Some currentAttempt =>
      if ca_status currentAttempt === ClaimApplied then mret tt
      else
        _ ← fail_if (ca_status currentAttempt === ClaimAccepted) "accepted claim attempt cannot be abandoned";
        _ ← requireChannelOperation (ca_channelId currentAttempt) (operationLeaseId currentAttempt);
        _ ← set_claims (fun c => c <| claimAttempts := delete attemptId (claimAttempts c) |>);
        release_claim currentAttempt
  end.
End Channels.

(** ** The store's methods as commands *)

Inductive StoreCommand :=
  | RegisterChannel (channel : ServerChannelRecord)
  | RetireChannel (channelId leaseId : string) (expected : ServerChannelRecord)
  | ApplyCovenantLineage (expected channel : ServerChannelRecord) (leaseId : string)
  | ClaimChannelOperation (lease : ChannelOperationLeaseRecord)
  | AbandonChannelOperation (leaseId observedAt : string)
  | ClaimBatchSettlement (attempt : BatchSettlementAttemptRecord)
  | BeginBatchHandler (attemptId startedAt : string)
  | ResetBatchHandler (attemptId startedAt : string)
  | RecordBatchHandlerResult (attemptId : string) (handlerResult : ProtectedHandlerResult) (completedAt : string)
  | MarkBatchRecovery (attemptId reason observedAt : string)
  | AbandonBatchSettlement (attemptId reason observedAt : string)
  | CommitSettlement (record : SettlementCommit)
  | ExactCommand (command : ExactTransitionCommand)
  | SaveClaimAttempt (record : ClaimAttemptRecord)
  | ApplyClaimAttempt (channel : ServerChannelRecord) (attempt : ClaimAttemptRecord)
  | AbandonClaimAttempt (attemptId : string)
  | DurableStateStats.

Section Commands.
Context (sha256 blake2b : bytes -> bytes) (other_dates : string -> option Z) (limits : ServerDurableStateLimits).

Definition forget {A} (m : op A) : op () := _ ← m; mret tt.
Definition exec (command : StoreCommand) (clock : Clock) : op () :=
  match command with
  | RegisterChannel c => registerChannel sha256 c
  | RetireChannel c l e => retireChannel sha256 c l e
  | ApplyCovenantLineage e c l => applyCovenantLineage sha256 e c l
  | ClaimChannelOperation l => forget (claimChannelOperation other_dates l)
  | AbandonChannelOperation l t => abandonChannelOperation other_dates l t
  | ClaimBatchSettlement a => forget (claimBatchSettlement sha256 other_dates limits a clock)
  | BeginBatchHandler a t => forget (beginBatchHandler other_dates a t)
  | ResetBatchHandler a t => forget (resetBatchHandlerBeforeExecution a t clock)
  | RecordBatchHandlerResult a r t => recordBatchHandlerResult other_dates a r t
  | MarkBatchRecovery a r t => markBatchHandlerRecoveryRequired other_dates a r t
  | AbandonBatchSettlement a r t => abandonBatchSettlement other_dates limits a r t clock
  | CommitSettlement r => commitSettlement sha256 limits r clock
  | ExactCommand c => forget (applyExactTransition blake2b other_dates limits c clock)
  | SaveClaimAttempt r => saveClaimAttempt r clock
  | ApplyClaimAttempt c a => applyClaimAttempt sha256 c a
  | AbandonClaimAttempt a => abandonClaimAttempt a
  | DurableStateStats => forget (durableStateStats limits (now1 clock))
  end.
(** A method that throws leaves what it had written. *)
Definition exec_all (s : Store) (commands : list (StoreCommand * Clock)) : Store :=
  foldl (fun s c => (exec c.1 c.2 s).1) s commands.
End Commands.
