(* ===== verification/StoreBudget.v ===== *)
(** * The durable-record budget of the store

    The invariant of the budget tables of Store.v and every store operation preserving it:
    the byte and payer totals are exact, the terminal queue lists exactly the terminal
    records, and the configured limits are never exceeded. *)

From S2P Require Import Prelude Amount BatchLane Json Binary ChainTruth Dates PaymentIdentifier ExactHeads.
From S2P Require Import ExactTransitions Channels BatchAttempts Store StoreChannels.

(** ** Totals over a finite map *)

Definition total {V} (f : V -> Z) (m : gmap string V) : Z := map_fold (fun _ r n => f r + n) 0 m.

Section Totals.
Context {V : Type}.
Implicit Types (m : gmap string V) (f g : V -> Z).

Lemma total_empty f : total f ∅ = 0.
Proof. apply map_fold_empty. Qed.
Lemma total_insert_new f m k r : m !! k = None -> total f (<[k := r]> m) = f r + total f m.
Proof. intros. unfold total. rewrite map_fold_insert_L; [done|lia|done]. Qed.
Lemma total_delete f m k r : m !! k = Some r -> total f (delete k m) = total f m - f r.
Proof. intros Hk. rewrite <- (insert_delete_id m k r Hk) at 2. rewrite total_insert_new by apply lookup_delete_eq. lia. Qed.
Lemma total_insert f m k r : total f (<[k := r]> m) = f r + total f m - from_option f 0 (m !! k).
Proof.
  destruct (m !! k) as [r0|] eqn:E; cbn; [|rewrite total_insert_new by done; lia].
  rewrite <- insert_delete_eq, total_insert_new by apply lookup_delete_eq. rewrite (total_delete _ _ _ _ E). lia.
Qed.
Lemma total_size m : total (fun _ => 1) m = Z.of_nat (size m).
Proof.
  induction m as [|k r m Hk IH] using map_ind; [done|]. rewrite total_insert_new, IH, map_size_insert_None by done. lia.
Qed.
Lemma total_nonneg f m : (forall k r, m !! k = Some r -> 0 <= f r) -> 0 <= total f m.
Proof.
  induction m as [|k r m Hk IH] using map_ind; intros Hf; [rewrite total_empty; lia|].
  rewrite total_insert_new by done. assert (0 <= f r) by (apply (Hf k); by simplify_map_eq).
  assert (0 <= total f m); [|lia]. apply IH. intros k' r' Hr. apply (Hf k'). by rewrite lookup_insert_ne by congruence.
Qed.
Lemma total_lookup f m k r : (forall k r, m !! k = Some r -> 0 <= f r) -> m !! k = Some r -> f r <= total f m.
Proof.
  intros Hf Hk. rewrite <- (insert_delete_id m k r Hk), total_insert_new by apply lookup_delete_eq.
  assert (0 <= total f (delete k m)); [|lia]. apply total_nonneg. intros k' r' [_ Hr]%lookup_delete_Some. by apply (Hf k').
Qed.
End Totals.

(** ** The invariant *)

Definition owned_records (p : string) (m : gmap string BudgetRecord) : Z :=
  total (fun r => if br_payerId r === p then 1 else 0) m.

Record books (b : BudgetTables) : Prop := {
  bk_record k r : budgetRecords b !! k = Some r -> br_key r = k /\ 0 <= br_bytes r;
  bk_bytes : budgetBytes b = total br_bytes (budgetRecords b);
  bk_payers p : default 0 (payerBudgetCounts b !! p) = owned_records p (budgetRecords b);
  bk_payer p n : payerBudgetCounts b !! p = Some n -> 0 < n;
  bk_queue_keys : NoDup (map fst (terminalBudgetQueue b));
  bk_queue k t : (k, t) ∈ terminalBudgetQueue b <->
    exists r, budgetRecords b !! k = Some r /\ terminalAt r = Some t
}.

Record within (limits : ServerDurableStateLimits) (b : BudgetTables) : Prop := {
  wi_records : Z.of_nat (size (budgetRecords b)) <= maxRecords limits;
  wi_bytes : budgetBytes b <= maxBytes limits;
  wi_payer p : default 0 (payerBudgetCounts b !! p) <= maxRecordsPerPayer limits
}.
Definition budget_ok (limits : ServerDurableStateLimits) (s : Store) : Prop := books (budget s) /\ within limits (budget s).

(** ** The terminal queue *)

Lemma queue_delete k (q : list (string * Z)) :
  NoDup (map fst q) ->
  NoDup (map fst (map_delete k q)) /\ (forall k' t, (k', t) ∈ map_delete k q <-> k' <> k /\ (k', t) ∈ q).
Proof.
  induction q as [|[k0 t0] q IH]; cbn [map map_delete fst]; intros H.
  - split; [done|]. intros k' t. split; [intros []%elem_of_nil|intros [_ []%elem_of_nil]].
  - apply NoDup_cons in H as [Hn Hd]. destruct (IH Hd) as [IH1 IH2]. destruct (decide (k = k0)) as [->|Hne].
    + split; [done|]. intros k' t. rewrite elem_of_cons. split; [|naive_solver].
      intros Hin. split; [|by right]. intros ->. apply Hn. apply list_elem_of_In, in_map_iff. exists (k0, t).
      by rewrite <- list_elem_of_In.
    + cbn [map fst]. split.
      * constructor; [|done]. intros Hin. apply Hn. apply list_elem_of_In, in_map_iff in Hin as ([k' t] & Hk & Hin).
        apply list_elem_of_In, IH2 in Hin as [_ Hin]. apply list_elem_of_In, in_map_iff. exists (k', t).
        by rewrite <- list_elem_of_In.
      * intros k' t. rewrite !elem_of_cons, IH2. naive_solver.
Qed.

Lemma queue_set k v (q : list (string * Z)) :
  NoDup (map fst q) ->
  NoDup (map fst (map_set k v q)) /\
  (forall k' t, (k', t) ∈ map_set k v q <-> (k' = k /\ t = v) \/ (k' <> k /\ (k', t) ∈ q)).
Proof.
  induction q as [|[k0 t0] q IH]; cbn [map map_set fst]; intros H.
  - split; [repeat constructor; apply not_elem_of_nil|]. intros k' t. rewrite list_elem_of_singleton.
    split; [intros [= -> ->]; by left|intros [[-> ->]|[_ []%elem_of_nil]]; done].
  - apply NoDup_cons in H as [Hn Hd]. destruct (IH Hd) as [IH1 IH2].
    assert (forall t, (k0, t) ∉ q) as Hk0.
    { intros t Hin. apply Hn, list_elem_of_In, in_map_iff. exists (k0, t). by rewrite <- list_elem_of_In. }
    destruct (decide (k = k0)) as [->|Hne]; cbn [map fst].
    + split; [by constructor|]. intros k' t. rewrite !elem_of_cons. specialize (Hk0 t). naive_solver.
    + split.
      * constructor; [|done]. intros Hin. apply list_elem_of_In, in_map_iff in Hin as ([k' t] & Hk & Hin).
        apply list_elem_of_In, IH2 in Hin as [[-> ->]|[_ Hin]]; [done|]. cbn in Hk. subst. by apply (Hk0 t).
      * intros k' t. rewrite !elem_of_cons, IH2. naive_solver.
Qed.

(** ** One step of the books *)

Lemma books_empty : books (budget empty_store).
Proof.
  constructor; cbn.
  - intros k r Hk. by rewrite lookup_empty in Hk.
  - by rewrite total_empty.
  - intros p. unfold owned_records. by rewrite lookup_empty, total_empty.
  - intros p n Hp. by rewrite lookup_empty in Hp.
  - constructor.
  - intros k t. split; [intros []%elem_of_nil|intros (r & Hr & _); by rewrite lookup_empty in Hr].
Qed.

Lemma owned_nonneg p m : 0 <= owned_records p m.
Proof. apply total_nonneg. intros. case_bool_decide; lia. Qed.

Lemma dequeue_absent_books s key :
  books (budget s) -> (forall r t, budgetRecords (budget s) !! key = Some r -> terminalAt r <> Some t) ->
  books (budget (dequeue key s)).
Proof.
  intros [H1 H2 H3 H4 H5 H6] Hn. destruct (queue_delete key _ H5) as [Hd He]. constructor; cbn; try done.
  intros k t. rewrite He, H6. split; [naive_solver|]. intros (r & Hr & Ht). split; [|eauto].
  intros ->. by apply (Hn r t).
Qed.

(** Deleting a record, whether or not it was just taken off the queue. *)
Lemma delete_books s key q :
  NoDup (map fst q) -> (forall k t, (k, t) ∈ map_delete key q <-> k <> key /\ (k, t) ∈ terminalBudgetQueue (budget s)) ->
  books (budget s) -> 
  books (budget (deleteBudgetRecord key (s <| budget := (budget s) <| terminalBudgetQueue := q |> |>))) \/
  budgetRecords (budget s) !! key = None.
Proof.
  intros Hnd Hq [H1 H2 H3 H4 H5 H6]. unfold deleteBudgetRecord.
  change (budgetRecords (budget (s <| budget := (budget s) <| terminalBudgetQueue := q |> |>)))
    with (budgetRecords (budget s)).
  destruct (budgetRecords (budget s) !! key) as [record|] eqn:E; [|by right]. left.
  destruct (H1 _ _ E) as [Hkey Hb].
  change (payerBudgetCounts (budget (s <| budget := (budget s) <| terminalBudgetQueue := q |> |>)))
    with (payerBudgetCounts (budget s)).
  set (n := default 0 (payerBudgetCounts (budget s) !! br_payerId record)).
  assert (n = owned_records (br_payerId record) (budgetRecords (budget s))) as Hn by apply H3.
  assert (1 <= n) as Hn1.
  { rewrite Hn. pose proof (total_lookup (fun r => if br_payerId r === br_payerId record then 1 else 0)
      (budgetRecords (budget s)) key record) as Hx. cbn beta in Hx. rewrite bool_decide_eq_true_2 in Hx by done.
    apply Hx; [|done]. intros. case_bool_decide; lia. }
  destruct (queue_delete key q Hnd) as [Hd He].
  constructor; cbn.
  - intros k r [_ Hr]%lookup_delete_Some. by apply H1.
  - rewrite (total_delete _ _ _ _ E), H2. done.
  - intros p. unfold owned_records. rewrite (total_delete _ _ _ _ E). fold (owned_records p (budgetRecords (budget s))).
    rewrite <- H3. destruct (decide (br_payerId record = p)) as [<-|Hne].
    + rewrite bool_decide_eq_true_2 by done. fold n. destruct (Z.leb_spec n 1) as [|Hlt].
      * rewrite lookup_delete_eq. cbn. lia.
      * rewrite lookup_insert_eq. cbn. lia.
    + rewrite bool_decide_eq_false_2 by done. destruct (n <=? 1).
      * rewrite lookup_delete_ne by done. lia.
      * rewrite lookup_insert_ne by done. lia.
  - intros p m. destruct (Z.leb_spec n 1) as [|Hlt].
    + intros [_ Hp]%lookup_delete_Some. by apply H4 in Hp.
    + intros [[<- <-]|[_ Hp]]%lookup_insert_Some; [lia|by apply H4 in Hp].
  - done.
  - intros k t. rewrite Hq, H6. split.
    + intros (Hne & r & Hr & Ht). exists r. by rewrite lookup_delete_ne.
    + intros (r & [Hne Hr]%lookup_delete_Some & Ht). split; [done|eauto].
Qed.

Lemma delete_budget_cong key s s' :
  budget s = budget s' -> budget (deleteBudgetRecord key s) = budget (deleteBudgetRecord key s').
Proof. unfold deleteBudgetRecord. intros H. rewrite H. by destruct (budgetRecords (budget s') !! key). Qed.

Lemma delete_record_books s key : books (budget s) -> books (budget (deleteBudgetRecord key s)).
Proof.
  intros H. assert (s = s <| budget := (budget s) <| terminalBudgetQueue := terminalBudgetQueue (budget s) |> |>) as Es
    by (by destruct s as [? ? ? ? ? []]).
  destruct (queue_delete key _ (bk_queue_keys _ H)) as [_ Hq].
  destruct (delete_books s key (terminalBudgetQueue (budget s)) (bk_queue_keys _ H) Hq H) as [Hb|Hn].
  - by rewrite <- Es in Hb.
  - unfold deleteBudgetRecord. by rewrite Hn.
Qed.

(** The part of a record's deletion that the limits see. *)
Lemma delete_within limits s key :
  books (budget s) -> within limits (budget s) -> within limits (budget (deleteBudgetRecord key s)).
Proof.
  intros Hb Hw. unfold deleteBudgetRecord. destruct (budgetRecords (budget s) !! key) as [record|] eqn:E; [|done].
  destruct Hw as [W1 W2 W3]. destruct (bk_record _ Hb _ _ E) as [_ Hr]. constructor; cbn.
  - rewrite map_size_delete_Some by done. lia.
  - lia.
  - intros p. specialize (W3 p). pose proof (bk_payers _ Hb p). pose proof (owned_nonneg p (budgetRecords (budget s))).
    destruct (decide (br_payerId record = p)) as [<-|Hne]; destruct (Z.leb_spec (default 0 (payerBudgetCounts (budget s) !! br_payerId record)) 1).
    all: repeat first [rewrite lookup_delete_eq|rewrite lookup_insert_eq|rewrite lookup_delete_ne by done
      |rewrite lookup_insert_ne by done]; cbn; lia.
Qed.

(** ** Pruning *)

Lemma release_budget r s : budget (release_reservation r s) = budget s.
Proof. unfold release_reservation. by repeat case_match. Qed.
Lemma expire_attempt_budget r s : budget (expire_attempt r s) = budget s.
Proof. unfold expire_attempt. cbv zeta. by repeat case_match. Qed.
Lemma expire_identifier_budget r s : budget (expire_identifier r s) = budget s.
Proof. unfold expire_identifier. by repeat case_match. Qed.

(** A store property that every step of the pruning loop keeps. *)
Section PruneInduction.
Context (P : Store -> Prop).
Context (P_dequeue : forall key s, P s ->
  (forall r t, budgetRecords (budget s) !! key = Some r -> terminalAt r <> Some t) -> P (dequeue key s)).
Context (P_drop : forall key r t s, P s -> budgetRecords (budget s) !! key = Some r -> terminalAt r = Some t ->
  P (deleteBudgetRecord key (if safelyReleased r then release_reservation r (dequeue key s)
       else expire_identifier r (expire_attempt r (dequeue key s))))).

Lemma prune_loop_ind fuel cutoff s : P s -> P (prune_loop fuel cutoff s).
Proof using P_dequeue P_drop.
  revert s. induction fuel as [|fuel IH]; intros s H; [done|]. cbn [prune_loop].
  destruct (terminalBudgetQueue (budget s)) as [|[key t0] q]; [done|].
  destruct (budgetRecords (budget s) !! key) as [r|] eqn:E.
  - destruct (terminalAt r) as [t|] eqn:Et.
    + destruct (cutoff <? t); [done|]. apply IH. by apply (P_drop key r t).
    + apply IH, P_dequeue; [done|]. intros r' t. rewrite E. intros [= <-]. congruence.
  - apply IH, P_dequeue; [done|]. intros r t. by rewrite E.
Qed.
End PruneInduction.

Lemma prune_step_budget key r s :
  budget (deleteBudgetRecord key (if safelyReleased r then release_reservation r (dequeue key s)
       else expire_identifier r (expire_attempt r (dequeue key s))))
  = budget (deleteBudgetRecord key (dequeue key s)).
Proof.
  apply delete_budget_cong. destruct (safelyReleased r);
    by rewrite ?release_budget, ?expire_identifier_budget, ?expire_attempt_budget.
Qed.

(** Taking a record off the queue and deleting it is deleting it. *)
Lemma delete_dequeue_books key s :
  books (budget s) -> isSome (budgetRecords (budget s) !! key) = true ->
  books (budget (deleteBudgetRecord key (dequeue key s))).
Proof.
  intros H Hs. destruct (queue_delete key _ (bk_queue_keys _ H)) as [Hd He].
  destruct (delete_books s key (map_delete key (terminalBudgetQueue (budget s)))) as [Hb|Hn]; try done.
  - intros k t. destruct (queue_delete key _ Hd) as [_ He']. rewrite He', He. naive_solver.
  - by rewrite Hn in Hs.
Qed.

Lemma prune_ok limits now s : budget_ok limits s -> budget_ok limits (pruneTerminalBudgetRecords limits now s).
Proof.
  unfold pruneTerminalBudgetRecords. apply prune_loop_ind.
  - intros key s1 [Hb [W1 W2 W3]] Hn. split; [by apply dequeue_absent_books|]. by constructor.
  - intros key r t s1 [Hb Hw] Hr Ht. unfold budget_ok. rewrite prune_step_budget. split.
    + apply delete_dequeue_books; [done|by rewrite Hr].
    + assert (within limits (budget (deleteBudgetRecord key s1))) as Hd by (by apply delete_within).
      unfold deleteBudgetRecord in *. cbn in Hd |- *. rewrite Hr in *. destruct Hd as [D1 D2 D3]. by constructor.
Qed.

(** ** Operations that keep a property of the store *)

Definition preserves (P : Store -> Prop) {A} (m : op A) : Prop := forall s, P s -> P (m s).1.

Section Preserves.
Context (P : Store -> Prop).
Lemma preserves_ret {A} (a : A) : preserves P (mret a). Proof. by intros s. Qed.
Lemma preserves_lift {A} (r : result A) : preserves P (lift r). Proof. by intros s. Qed.
Lemma preserves_fail b msg : preserves P (fail_if b msg). Proof. by intros s. Qed.
Lemma preserves_state : preserves P state. Proof. by intros s. Qed.
Lemma preserves_modify f : (forall s, P s -> P (f s)) -> preserves P (modify f).
Proof. intros H s. apply H. Qed.
Lemma preserves_bind {A B} (m : op A) (k : A -> op B) :
  preserves P m -> (forall a, preserves P (k a)) -> preserves P (m ≫= k).
Proof.
  intros Hm Hk s Hs. unfold mbind, op_bind. specialize (Hm s Hs). destruct (m s) as [s' [a|e]]; [|done]. by apply Hk.
Qed.
Lemma preserves_bind_lift {A B} (r : result A) (k : A -> op B) :
  (forall a, r = Ok a -> preserves P (k a)) -> preserves P (lift r ≫= k).
Proof. intros Hk s Hs. unfold mbind, op_bind, lift. destruct r as [a|e]; [|done]. by apply Hk. Qed.
End Preserves.
Create HintDb store.
#[export] Hint Resolve preserves_ret preserves_lift preserves_fail preserves_state : store.

(** Goes through the steps of an operation; [solve_modify] closes its writes. *)
Ltac preserve solve_modify :=
  repeat first
    [ progress (intros)
    | solve [auto with store]
    | solve [apply preserves_modify; solve_modify]
    | apply preserves_bind
    | match goal with |- preserves _ (match ?x with _ => _ end) => destruct x end
    | match goal with |- preserves _ (let '(_, _) := ?x in _) => destruct x end ].

(** ** Admission and terminal records *)

Lemma add_record_books record s :
  books (budget s) -> budgetRecords (budget s) !! br_key record = None -> terminalAt record = None ->
  0 <= br_bytes record -> books (budget (add_budget_record record s)).
Proof.
  intros [H1 H2 H3 H4 H5 H6] Hk Ht Hn. constructor; cbn.
  - intros k r [[<- <-]|[_ Hr]]%lookup_insert_Some; [done|by apply H1].
  - rewrite total_insert_new, H2 by done. lia.
  - intros p. unfold owned_records. rewrite total_insert_new by done. fold (owned_records p (budgetRecords (budget s))).
    rewrite <- (H3 p). destruct (decide (br_payerId record = p)) as [<-|Hne].
    + rewrite lookup_insert_eq, bool_decide_eq_true_2 by done. cbn. lia.
    + rewrite lookup_insert_ne, bool_decide_eq_false_2 by done. lia.
  - intros p n. pose proof (H3 (br_payerId record)) as Hc. pose proof (owned_nonneg (br_payerId record) (budgetRecords (budget s))).
    intros [[<- <-]|[_ Hp]]%lookup_insert_Some; [lia|by apply H4 in Hp].
  - done.
  - intros k t. rewrite H6. split; intros (r & Hr & Hrt); exists r; (split; [|done]).
    + rewrite lookup_insert_ne; [done|]. intros <-. congruence.
    + apply lookup_insert_Some in Hr as [[<- <-]|[_ Hr]]; [congruence|done].
Qed.

Lemma end_record_books key current n c i released t s :
  books (budget s) -> budgetRecords (budget s) !! key = Some current -> 0 <= n ->
  books (budget (end_budget_record key current n c i released t s)).
Proof.
  intros [H1 H2 H3 H4 H5 H6] Hk Hn. destruct (queue_set key t _ H5) as [Hd He]. destruct (H1 _ _ Hk) as [Hkey _].
  constructor; cbn; try done.
  - intros k r [[<- <-]|[_ Hr]]%lookup_insert_Some; [done|by apply H1].
  - rewrite total_insert, Hk, H2. cbn. lia.
  - intros p. unfold owned_records. rewrite total_insert, Hk. cbn. rewrite H3. unfold owned_records. lia.
  - intros k t'. rewrite He, H6. split.
    + intros [[-> ->]|(Hne & r & Hr & Ht)]; [|exists r; by rewrite lookup_insert_ne].
      eexists. rewrite lookup_insert_eq. by split.
    + intros (r & [[<- <-]|[Hne Hr]]%lookup_insert_Some & Ht); [left; cbn in Ht; by simplify_eq|].
      right. split; [done|eauto].
Qed.

(** What the three admission checks say, about the store without the replaced record. *)
Lemma drop_replaced_ok limits s claim replacement payerId :
  budget_ok limits s -> safelyReleasedPaymentIdentifierReclaim claim s = Ok replacement ->
  let s' := drop_replaced replacement s in
  budget_ok limits s' /\
  Z.of_nat (size (budgetRecords (budget s'))) =
    Z.of_nat (size (budgetRecords (budget s))) - match replacement with Some _ => 1 | None => 0 end /\
  budgetBytes (budget s') = budgetBytes (budget s) - match replacement with Some (_, _, b) => br_bytes b | None => 0 end /\
  default 0 (payerBudgetCounts (budget s') !! payerId) = default 0 (payerBudgetCounts (budget s) !! payerId)
    - match replacement with Some (_, _, b) => if br_payerId b === payerId then 1 else 0 | None => 0 end /\
  (forall key, match budgetRecords (budget s) !! key with
     | None => false
     | Some _ => match replacement with Some (_, k, _) => k !== key | None => true end
     end = false -> budgetRecords (budget s') !! key = None).
Proof.
  intros Hok Hr. cbv zeta. destruct replacement as [[[rid k] b]|].
  2:{ cbn. split; [done|]. do 3 (split; [lia|]). intros key. by destruct (_ !! key). }
  unfold safelyReleasedPaymentIdentifierReclaim in Hr. destruct claim as [c|]; [|done].
  destruct (paymentIdentifierReservations (ids s) !! id c) as [released|]; [|done].
  destruct (status released !== safely_released); [done|].
  match type of Hr with context [budgetRecords (budget s) !! ?x] => set (bk := x) in * end.
  destruct (budgetRecords (budget s) !! bk) as [b'|] eqn:E; [|done].
  apply bind_ok in Hr as ([] & _ & Hr). apply Ok_inj in Hr. clearbody bk. injection Hr as <- <- <-.
  destruct Hok as [Hb Hw]. destruct (bk_record _ Hb _ _ E) as [Hkey _]. cbn [drop_replaced]. rewrite Hkey.
  pose proof (delete_record_books s bk Hb) as Hb'. pose proof (delete_within limits s bk Hb Hw) as Hw'.
  set (s' := deleteBudgetRecord bk s) in *.
  change (budget (s' <| ids := _ |>)) with (budget s').
  split; [by split|]. pose proof (bk_payers _ Hb' payerId) as Hp'. pose proof (bk_payers _ Hb payerId) as Hp.
  assert (budgetRecords (budget s') = delete bk (budgetRecords (budget s))) as Er
    by (unfold s', deleteBudgetRecord; by rewrite E).
  assert (budgetBytes (budget s') = budgetBytes (budget s) - br_bytes b') as Ebytes
    by (unfold s', deleteBudgetRecord; by rewrite E).
  repeat split.
  - rewrite Er, map_size_delete_Some by done. assert (size (budgetRecords (budget s)) <> 0%nat); [|lia].
    intros Hz%map_size_empty_inv. rewrite Hz, lookup_empty in E. done.
  - done.
  - rewrite Hp', Hp, Er. unfold owned_records. rewrite (total_delete _ _ _ _ E). done.
  - intros key Hk. rewrite Er. destruct (decide (bk = key)) as [->|Hne]; [apply lookup_delete_eq|].
    rewrite lookup_delete_ne by done. destruct (budgetRecords (budget s) !! key); [|done]. by rewrite bool_decide_eq_false_2 in Hk.
Qed.

Lemma admit_ok limits key kind attemptId payerId pid n claim now :
  0 <= n -> preserves (budget_ok limits) (admitBudgetRecord limits key kind attemptId payerId pid n claim now).
Proof.
  intros Hn s H. apply (prune_ok limits now) in H. unfold admitBudgetRecord.
  unfold mbind, op_bind, modify at 1, state. set (s1 := pruneTerminalBudgetRecords limits now s) in *.
  unfold lift at 1. destruct (safelyReleasedPaymentIdentifierReclaim claim s1) as [replacement|e] eqn:Er; [|done].
  unfold fail_if, lift.
  destruct (throw_if _ "durable budget reservation already exists") as [[]|e] eqn:E1; [|done].
  destruct (throw_if _ "durable protected-payment record limit exceeded") as [[]|e] eqn:E2; [|done].
  destruct (throw_if _ "durable protected-payment byte limit exceeded") as [[]|e] eqn:E3; [|done].
  destruct (throw_if _ "durable protected-payment per-payer limit exceeded") as [[]|e] eqn:E4; [|done].
  apply throw_if_ok in E1, E2, E3, E4. cbn [fst modify]. clearbody s1. clear s.
  pose proof (drop_replaced_ok limits s1 claim replacement payerId H Er) as Hdrop. cbv zeta in Hdrop.
  destruct Hdrop as ([Hb Hw] & Hsize & Hbytes & Hpayer & Hkey).
  specialize (Hkey _ E1). set (s2 := drop_replaced replacement s1) in *. clearbody s2.
  apply Z.ltb_ge in E2, E3, E4. destruct Hw as [W1 W2 W3].
  split; [by apply add_record_books|]. constructor; cbn.
  - rewrite map_size_insert_None by done. lia.
  - lia.
  - intros p. destruct (decide (payerId = p)) as [<-|Hne]; [rewrite lookup_insert_eq; cbn; lia|].
    by rewrite lookup_insert_ne.
Qed.

Lemma terminalize_ok limits key n c i released clock :
  0 <= n -> preserves (budget_ok limits) (terminalizeBudgetRecord limits key n c i released clock).
Proof.
  intros Hn s [Hb Hw]. unfold terminalizeBudgetRecord, mbind, op_bind, state.
  destruct (budgetRecords (budget s) !! key) as [current|] eqn:E; [|done].
  unfold fail_if, lift. destruct (throw_if _ _) as [[]|e] eqn:E1; [|done]. apply throw_if_ok, Z.ltb_ge in E1.
  cbn [modify fst]. apply prune_ok. split; [by apply end_record_books|].
  destruct Hw as [W1 W2 W3]. constructor; cbn; [|lia|done].
  rewrite map_size_insert_Some by done. done.
Qed.

Lemma delete_ok limits key s : budget_ok limits s -> budget_ok limits (deleteBudgetRecord key s).
Proof. intros [Hb Hw]. split; [by apply delete_record_books|by apply delete_within]. Qed.

(** ** Every method *)

Lemma byte_length_durable j : 0 <= durableByteLength j.
Proof. apply byte_length_nonneg. Qed.

Lemma durable_open_nonneg j : 0 <= durableOpenRecordBytes j.
Proof.
  unfold durableOpenRecordBytes. pose proof (byte_length_durable j). assert (0 <= MAX_DURABLE_RESPONSE_BYTES) by done. lia.
Qed.
#[export] Hint Resolve byte_length_durable durable_open_nonneg : store.

Definition budget_bytes (b : option ExactTransitionBudget) : Z :=
  match b with Some (Admit _ n) | Some (Terminal _ n _ _) => n | _ => 0 end.
Lemma transition_bytes blake2b other_dates command s ch :
  prepareExactTransition blake2b other_dates command s = Ok ch -> 0 <= budget_bytes (ch_budget ch).
Proof.
  destruct command; cbn [prepareExactTransition]; intros H;
    try (destruct (s_attempt s) as [a|]; [cbn [prepareAttempt] in H|done]);
    unfold prepareClaim, prepareCommit, prepareRegisterHead, prepareUnavailableHead, pending_changes in H;
    repeat first
      [ progress inv_result
      | progress subst
      | match type of H with
        | (match ?x with _ => _ end) = Ok _ => destruct x eqn:?
        | Ok _ = Ok _ => apply Ok_inj in H
        end
      | match goal with Hc : (match ?x with _ => _ end) = Ok _ |- _ => destruct x eqn:? end ];
    cbn; try lia; auto with store.
  match goal with |- context [match ?x with Some r => Terminal _ _ _ _ | None => _ end] => destruct x end; cbn; [auto with store|lia].
Qed.

Lemma write_changes_budget ch s : budget (write_changes ch s) = budget s.
Proof. unfold write_changes. cbv zeta. by repeat case_match. Qed.

Section Methods.
Context (sha256 blake2b : bytes -> bytes) (other_dates : string -> option Z) (limits : ServerDurableStateLimits).
#[local] Abbreviation ok := (budget_ok limits).

(** Writes of the other tables. *)
Lemma set_chan_ok f : preserves ok (set_chan f). Proof. by apply preserves_modify. Qed.
Lemma set_batch_ok f : preserves ok (set_batch f). Proof. by apply preserves_modify. Qed.
Lemma set_claims_ok f : preserves ok (set_claims f). Proof. by apply preserves_modify. Qed.
Lemma set_ids_ok f : preserves ok (set_ids f). Proof. by apply preserves_modify. Qed.
Lemma write_ok ch : preserves ok (modify (write_changes ch)).
Proof. apply preserves_modify. intros s. unfold budget_ok. by rewrite write_changes_budget. Qed.
Lemma prune_hint now : preserves ok (modify (pruneTerminalBudgetRecords limits now)).
Proof. apply preserves_modify. intros s. apply prune_ok. Qed.
Lemma delete_hint key : preserves ok (modify (deleteBudgetRecord key)).
Proof. apply preserves_modify. intros s. apply delete_ok. Qed.
#[local] Hint Resolve set_chan_ok set_batch_ok set_claims_ok set_ids_ok admit_ok terminalize_ok prune_hint delete_hint write_ok : store.

Ltac step := preserve ltac:(done).

Lemma binding_ok c : preserves ok (assertChannelBinding c). Proof. unfold assertChannelBinding. step. Qed.
#[local] Hint Resolve binding_ok : store.
Lemma setChannel_ok c : preserves ok (setChannel sha256 c). Proof. unfold setChannel. step. Qed.
Lemma require_ok c l : preserves ok (requireChannelOperation c l). Proof. unfold requireChannelOperation. step. Qed.
Lemma require_attempt_ok a : preserves ok (requireBatchAttempt a). Proof. unfold requireBatchAttempt. step. Qed.
Lemma transition_ok c t : preserves ok (applyPaymentIdentifierTransition c t).
Proof. unfold applyPaymentIdentifierTransition. step. Qed.
#[local] Hint Resolve setChannel_ok require_ok require_attempt_ok transition_ok : store.
Lemma update_lease_ok c l st t r : preserves ok (updateChannelOperation c l st t r).
Proof. unfold updateChannelOperation. step. Qed.
#[local] Hint Resolve update_lease_ok : store.
Lemma follow_ok a l r p t : preserves ok (follow_attempt a l r p t). Proof. unfold follow_attempt. step. Qed.
Lemma release_ok c l : preserves ok (release_lease c l). Proof. unfold release_lease. step. Qed.
Lemma put_attempt_ok a : preserves ok (put_batch_attempt a). Proof. unfold put_batch_attempt. step. Qed.
#[local] Hint Resolve follow_ok release_ok put_attempt_ok : store.
Lemma release_channel_ok c l : preserves ok (release_channel c l). Proof. unfold release_channel. step. Qed.
Lemma release_claim_ok a : preserves ok (release_claim a). Proof. unfold release_claim. step. Qed.
#[local] Hint Resolve release_channel_ok release_claim_ok : store.

Lemma exec_ok command clock : preserves ok (exec sha256 blake2b other_dates limits command clock).
Proof.
  destruct command; cbn [exec]; unfold forget, registerChannel, retireChannel, applyCovenantLineage,
    claimChannelOperation, abandonChannelOperation, claimBatchSettlement, beginBatchHandler,
    resetBatchHandlerBeforeExecution, recordBatchHandlerResult, markBatchHandlerRecoveryRequired,
    abandonBatchSettlement, commitSettlement, saveClaimAttempt, applyClaimAttempt, abandonClaimAttempt,
    durableStateStats, isoDate, assertPaymentIdentifierClaimAvailable, assertCompletedPaymentIdentifier;
    try solve [step].
  (* an exact command *)
  apply preserves_bind; [|intros; apply preserves_ret]. unfold applyExactTransition.
  apply preserves_bind; [apply preserves_state|]. intros s.
  do 2 (apply preserves_bind_lift; intros ? _). apply preserves_bind_lift. intros changes E%transition_bytes.
  destruct (ch_budget changes) as [[| |]|]; cbn [budget_bytes] in E; step.
Qed.
End Methods.

(** ** Properties *)

Lemma set_channels_budget sha256 l s : budget (set_channels sha256 l s).1 = budget s.
Proof.
  revert s. induction l as [|c l IH]; intros s; [done|]. cbn [set_channels].
  enough (preserves (fun s' => budget s' = budget s) (setChannel sha256 c ≫= fun _ => set_channels sha256 l)) as H by (by apply H).
  apply preserves_bind.
  - unfold setChannel, assertChannelBinding. preserve ltac:(done).
  - intros _ s' Hs'. by rewrite IH.
Qed.

Lemma new_store_ok sha256 limits initial s : new_store sha256 limits initial = Ok s -> budget_ok limits s.
Proof.
  intros H. unfold new_store in H. apply bind_ok in H as ([] & Hl & H).
  assert (budget s = budget empty_store) as Hb.
  { pose proof (set_channels_budget sha256 initial empty_store) as E.
    destruct (set_channels sha256 initial empty_store) as [s' [a|e]]; [|done]. by apply Ok_inj in H as <-. }
  unfold budget_ok. rewrite Hb. split; [apply books_empty|].
  unfold assertDurableStateLimits in Hl. apply for_each_ok in Hl. rewrite !Forall_cons in Hl.
  destruct Hl as (H1 & H2 & H3 & _). apply throw_if_ok in H1, H2, H3. inv_bool.
  constructor; cbn; [change (size ∅) with 0%nat; lia|lia|].
  intros p. rewrite lookup_empty. cbn. lia.
Qed.
Lemma exec_all_ok sha256 blake2b other_dates limits commands s :
  budget_ok limits s -> budget_ok limits (exec_all sha256 blake2b other_dates limits s commands).
Proof.
  revert s. induction commands as [|[c clock] commands IH]; intros s Hs; [done|]. apply IH. by apply exec_ok.
Qed.

(** C12. The durable-record budget is exact and never exceeded.  From a new store and
    through any sequence of store methods, failed ones included, at any clock readings: the
    byte total is the sum of the recorded bundles, every payer's counter is the number of
    records it owns, the terminal queue lists exactly the terminal records, and the
    configured limits on records, bytes and records per payer hold. *)
Theorem budget_never_exceeded sha256 blake2b other_dates limits initial s commands :
  new_store sha256 limits initial = Ok s ->
  budget_ok limits (exec_all sha256 blake2b other_dates limits s commands).
Proof. intros H. by apply exec_all_ok, (new_store_ok sha256 limits initial). Qed.
