(* ===== verification/StorePrune.v ===== *)
(** * Pruning of terminal records

    The loop of [#pruneTerminalBudgetRecords]: it ends, it removes exactly the budget records
    whose retention is over, in the order they became terminal, and every payment,
    commitment and identifier stays behind as a replay record. *)

From S2P Require Import Prelude Binary PaymentIdentifier ExactHeads ExactTransitions Channels BatchAttempts.
From S2P Require Import Store StoreBudget.

(** Every value of the old table is in the new one, unchanged or rewritten by [f]. *)
Definition rewritten {V} (f : V -> V) (m m' : gmap string V) : Prop :=
  forall k, m' !! k = m !! k \/ m' !! k = f <$> m !! k.

Lemma rewritten_refl {V} (f : V -> V) m : rewritten f m m.
Proof. intros k. by left. Qed.
Lemma rewritten_trans {V} (f : V -> V) m1 m2 m3 :
  (forall v, f (f v) = f v) -> rewritten f m1 m2 -> rewritten f m2 m3 -> rewritten f m1 m3.
Proof.
  intros Hf H12 H23 k. destruct (H12 k) as [E|E], (H23 k) as [E'|E']; rewrite E', E; auto.
  right. destruct (m1 !! k); cbn; [by rewrite Hf|done].
Qed.
Lemma rewritten_insert {V} (f : V -> V) m k v : m !! k = Some v -> rewritten f m (<[k := f v]> m).
Proof.
  intros Hk k'. destruct (decide (k = k')) as [<-|Hne]; [|left; by rewrite lookup_insert_ne].
  right. by rewrite lookup_insert_eq, Hk.
Qed.

Definition expire_payment (p : ExactPaymentRecord) : ExactPaymentRecord := p <| p_response := expiredReplayResponse |>.
Definition expire_commitment (c : BatchCommitmentRecord) : BatchCommitmentRecord :=
  c <| bc_response := expiredReplayResponse |>.
Definition expire_id (i : PaymentIdentifierRecord) : PaymentIdentifierRecord := i <| i_response := expiredReplayResponse |>.

(** What pruning leaves of the other tables. *)
Record keeps_replay (s s' : Store) : Prop := {
  kr_chan : chan s' = chan s;
  kr_claims : claims s' = claims s;
  kr_heads : exactHeads (exact s') = exactHeads (exact s);
  kr_payments : rewritten expire_payment (exactPayments (exact s)) (exactPayments (exact s'));
  kr_commitments : rewritten expire_commitment (commitments (batch s)) (commitments (batch s'));
  kr_identifiers : rewritten expire_id (paymentIdentifiers (ids s)) (paymentIdentifiers (ids s'));
  kr_attempts : exactAttempts (exact s') ⊆ exactAttempts (exact s) /\ batchAttempts (batch s') ⊆ batchAttempts (batch s);
  kr_reservations k :
    paymentIdentifierReservations (ids s') !! k = paymentIdentifierReservations (ids s) !! k \/
    (paymentIdentifierReservations (ids s') !! k = None /\
     exists r, paymentIdentifierReservations (ids s) !! k = Some r /\ status r = safely_released)
}.

Lemma keeps_refl s : keeps_replay s s.
Proof. constructor; try done; try apply rewritten_refl; intros; by left. Qed.
Lemma keeps_trans a b c : keeps_replay a b -> keeps_replay b c -> keeps_replay a c.
Proof.
  intros [A1 A2 A3 A4 A5 A6 [A7 A8] A9] [B1 B2 B3 B4 B5 B6 [B7 B8] B9]. constructor; try congruence.
  1-3: by eapply rewritten_trans.
  - split; by etransitivity.
  - intros k. specialize (A9 k). specialize (B9 k). destruct A9 as [E|[E H]], B9 as [E'|[E' (r & Hr & Hs)]]; rewrite E'.
    + by left.
    + right. split; [done|]. exists r. by rewrite <- E.
    + right. by rewrite E.
    + congruence.
Qed.

Lemma keeps_attempt r s : keeps_replay s (expire_attempt r s).
Proof.
  unfold expire_attempt. destruct (br_kind r); cbv zeta.
  - destruct (nonempty (br_commitmentId r)) as [c|]; [destruct (commitments _ !! c) as [v|] eqn:E|];
      constructor; try done; cbn; try apply rewritten_refl; try (by intros; left); try (split; [done|apply delete_subseteq]).
    by apply rewritten_insert.
  - cbn. destruct (exactPayments (exact s) !! exactPaymentKey (br_attemptId r)) as [v|] eqn:E;
      constructor; try done; cbn; try apply rewritten_refl; try (by intros; left); try (split; [apply delete_subseteq|done]).
    by apply rewritten_insert.
Qed.
Lemma keeps_identifier r s : keeps_replay s (expire_identifier r s).
Proof.
  unfold expire_identifier. destruct (nonempty (br_paymentIdentifier r)) as [i|]; [|apply keeps_refl].
  destruct (paymentIdentifiers (ids s) !! i) as [v|] eqn:E; [|apply keeps_refl].
  constructor; try done; cbn; try apply rewritten_refl; try (by intros; left). by apply rewritten_insert.
Qed.
Lemma keeps_reservation r s : keeps_replay s (release_reservation r s).
Proof.
  unfold release_reservation. destruct (nonempty (br_paymentIdentifier r)) as [i|]; [|apply keeps_refl].
  destruct (paymentIdentifierReservations (ids s) !! i) as [v|] eqn:E; [|apply keeps_refl].
  destruct ((status v === safely_released) && _) eqn:Hv; [|apply keeps_refl].
  constructor; try done; cbn; try apply rewritten_refl; try (by intros; left).
  intros k. destruct (decide (i = k)) as [<-|Hne]; [|left; by rewrite lookup_delete_ne].
  right. rewrite lookup_delete_eq. split; [done|]. exists v. inv_bool. done.
Qed.
Lemma keeps_budget (s : Store) b : keeps_replay s (s <| budget := b |>).
Proof. constructor; try done; try apply rewritten_refl; intros; by left. Qed.
Lemma keeps_delete k s : keeps_replay s (deleteBudgetRecord k s).
Proof. unfold deleteBudgetRecord. destruct (budgetRecords (budget s) !! k); [apply keeps_budget|apply keeps_refl]. Qed.

(** ** The loop *)

Lemma replay_budget (r : BudgetRecord) (s : Store) : budget (release_reservation r s) = budget s.
Proof. unfold release_reservation. by repeat case_match. Qed.
Lemma expire_budget r s : budget (expire_identifier r (expire_attempt r s)) = budget s.
Proof. unfold expire_identifier, expire_attempt. cbv zeta. by repeat case_match. Qed.
Lemma map_delete_absent k (q : list (string * Z)) : k ∉ map fst q -> map_delete k q = q.
Proof.
  induction q as [|[k' v] q IH]; cbn [map fst map_delete]; intros H; [done|]. apply not_elem_of_cons in H as [Hne H].
  rewrite decide_False by done. by rewrite IH.
Qed.

(** The books at a queue whose first key is due. *)
Lemma loop_step s key t q record s1 :
  books (budget s) -> terminalBudgetQueue (budget s) = (key, t) :: q ->
  budgetRecords (budget s) !! key = Some record -> budget s1 = budget (dequeue key s) ->
  books (budget (deleteBudgetRecord key s1)) /\ terminalBudgetQueue (budget (deleteBudgetRecord key s1)) = q /\
  budgetRecords (budget (deleteBudgetRecord key s1)) = delete key (budgetRecords (budget s)).
Proof.
  intros Hb Hq Hr E. pose proof (bk_queue_keys _ Hb) as Hd. rewrite Hq in Hd. cbn in Hd. apply NoDup_cons in Hd as [Hk Hd].
  assert (terminalBudgetQueue (budget (dequeue key s)) = q) as Eq by (cbn; rewrite Hq; cbn; by rewrite decide_True).
  assert (map_delete key (terminalBudgetQueue (budget s)) = q) as Eq' by exact Eq.
  assert (deleteBudgetRecord key s1 = s1 <| budget := budget (deleteBudgetRecord key s) |>) as ->.
  { unfold deleteBudgetRecord. rewrite E. change (budgetRecords (budget (dequeue key s))) with (budgetRecords (budget s)).
    rewrite Hr. cbn. rewrite Eq', map_delete_absent by done. by destruct s1. }
  split; [by apply delete_record_books|]. cbn. unfold deleteBudgetRecord. rewrite Hr. cbn. by rewrite Eq'.
Qed.

Lemma prune_loop_exact fuel cutoff s :
  (length (terminalBudgetQueue (budget s)) <= fuel)%nat -> books (budget s) ->
  let s' := prune_loop fuel cutoff s in
  keeps_replay s s' /\
  exists due, terminalBudgetQueue (budget s) = due ++ terminalBudgetQueue (budget s') /\
    Forall (fun e => e.2 <= cutoff) due /\
    from_option (fun e => cutoff < e.2) True (head (terminalBudgetQueue (budget s'))) /\
    forall k, budgetRecords (budget s') !! k =
      if decide (k ∈ map fst due) then None else budgetRecords (budget s) !! k.
Proof.
  revert s. induction fuel as [|fuel IH]; intros s Hn Hb; cbv zeta.
  { destruct (terminalBudgetQueue (budget s)) as [|e q] eqn:Hq; [|cbn in Hn; lia]. cbn [prune_loop].
    split; [apply keeps_refl|]. exists []. rewrite Hq. split_and!; try done. }
  cbn [prune_loop]. destruct (terminalBudgetQueue (budget s)) as [|[key t] q] eqn:Hq.
  { split; [apply keeps_refl|]. exists []. rewrite Hq. split_and!; try done. }
  destruct (proj1 (bk_queue _ Hb key t) ltac:(rewrite Hq; left)) as (record & Hr & Ht). rewrite Hr, Ht.
  destruct (cutoff <? t) eqn:Hc; inv_bool.
  { split; [apply keeps_refl|]. exists []. rewrite Hq. split_and!; try done. }
  cbv zeta.
  set (s1 := if safelyReleased record then _ else _).
  assert (keeps_replay s s1 /\ budget s1 = budget (dequeue key s)) as [Hk1 E1].
  { subst s1. assert (keeps_replay s (dequeue key s)) as Hd by apply keeps_budget. destruct (safelyReleased record).
    - split; [|apply replay_budget]. eapply keeps_trans; [exact Hd|apply keeps_reservation].
    - split; [|apply expire_budget]. eapply keeps_trans; [exact Hd|].
      eapply keeps_trans; [apply keeps_attempt|apply keeps_identifier]. }
  destruct (loop_step s key t q record s1 Hb Hq Hr E1) as (Hb2 & Hq2 & Hr2). set (s2 := deleteBudgetRecord key s1) in *.
  assert (keeps_replay s s2) as Hk2 by (eapply keeps_trans; [exact Hk1|apply keeps_delete]).
  cbn in Hn. destruct (IH s2 ltac:(rewrite Hq2; lia) Hb2) as (Hk & due & Hd & Hall & Hhead & Hl).
  split; [by eapply keeps_trans|]. exists ((key, t) :: due). rewrite Hq2 in Hd. split_and!; [by rewrite Hd|by constructor|done|].
  intros k. rewrite Hl, Hr2. cbn [map fst]. destruct (decide (k = key)) as [->|Hne].
  - rewrite (decide_True (P := key ∈ key :: map fst due)) by left. rewrite lookup_delete_eq. by destruct (decide _).
  - rewrite lookup_delete_ne by done. destruct (decide (k ∈ map fst due)) as [Hin|Hin].
    + rewrite decide_True; [done|by right].
    + rewrite decide_False; [done|]. rewrite elem_of_cons. naive_solver.
Qed.

(** C13. Pruning ends and does exactly its work.  On every store whose books are in
    order (every reachable one is), the due records at the front of the terminal queue are
    removed, in order, up to the first one still within its retention, whose later
    companions also stay; no other budget record is touched.  The channels, heads and open
    claims are unchanged, and every accepted payment, batch commitment and payment
    identifier remains on record, at most its cached response replaced by the expired one, so
    the replay lookup of a pruned payment still finds it.  A reservation only goes when it was safely
    released. *)
Theorem prune_exact limits now s :
  books (budget s) ->
  let s' := pruneTerminalBudgetRecords limits now s in
  let cutoff := now - terminalRetentionMs limits in
  keeps_replay s s' /\
  exists due, terminalBudgetQueue (budget s) = due ++ terminalBudgetQueue (budget s') /\
    Forall (fun e => e.2 <= cutoff) due /\
    from_option (fun e => cutoff < e.2) True (head (terminalBudgetQueue (budget s'))) /\
    forall k, budgetRecords (budget s') !! k =
      if decide (k ∈ map fst due) then None else budgetRecords (budget s) !! k.
Proof. intros Hb. by apply prune_loop_exact. Qed.
