(* ===== verification/StoreHistory.v ===== *)
(** * Channel histories

    What the store's methods do to a channel over time: every change is one step of an
    abstract lane (a charge, a claim, a deposit, a retirement or a covenant reconciliation),
    so charged and signed amounts never roll back, versions only grow, and a channel keeps
    its covenant, which no other channel shares. *)

From S2P Require Import Prelude Amount BatchLane Json Binary ResourceBudget Commitment ChainTruth Lineage.
From S2P Require Import LineageUpdate Dates PaymentIdentifier ExactHeads ExactTransitions Channels.
From S2P Require Import BatchAttempts Store StoreChannels StoreBudget.

(** ** Snapshots *)

(** Array items are never undefined in the trees of lineage records. *)
Lemma dense_fields l : dense (JObject l) = true <-> forall kv, kv ∈ l -> dense kv.2 = true.
Proof. cbn [dense]. apply forallb_elem. Qed.

Lemma dense_transition t : dense (ChainTruth.transition_json t) = true.
Proof. by destruct t as [? ? ? ? ? ? [?|] [?|] ?]. Qed.
Lemma dense_event e : dense (event_json e) = true.
Proof.
  destruct e as [n t|n a|n h ids]; cbn [event_json]; apply dense_fields; intros kv;
    rewrite !elem_of_cons, elem_of_nil; intros Hkv; destruct_or?; subst; try done.
  - apply dense_transition.
  - cbn [snd dense]. apply forallb_elem. intros x Hx. apply list_elem_of_In, in_map_iff in Hx as (id & <- & _). done.
Qed.
Lemma dense_joption {A} k (f : A -> json) o kv :
  (forall a, dense (f a) = true) -> kv ∈ joption k f o -> dense kv.2 = true.
Proof. destruct o as [a|]; cbn; [rewrite list_elem_of_singleton|by intros ? ?%elem_of_nil]. intros Hf ->. apply Hf. Qed.

Lemma dense_anchor a : dense (anchor_json a) = true.
Proof.
  apply dense_fields. unfold anchor_fields. intros kv. rewrite !elem_of_app, !elem_of_cons, !elem_of_nil.
  intros H. destruct_or?; subst; try done.
  - by destruct (anchor_head a).
  - eapply dense_joption; [|done]. done.
  - eapply dense_joption; [|done]. apply dense_transition.
Qed.

Lemma dense_state sha256 l : assertLineageState sha256 l = Ok tt -> dense (state_json l) = true.
Proof.
  intros (_ & Hm & _)%assertState_ok. apply dense_fields. intros kv.
  rewrite !elem_of_app, !elem_of_cons, !elem_of_nil. intros H. destruct_or?; subst; try done.
  - cbn [snd]. unfold manifest_json. apply dense_fields. intros kv. rewrite !elem_of_app. intros [H|[H|H]].
    + rewrite !elem_of_cons, elem_of_nil in H. destruct_or?; by subst.
    + unfold assertLaunchManifest in Hm. cbv zeta in Hm.
      do 8 (apply bind_ok in Hm as (? & _ & Hm)). apply bind_ok in Hm as (id & Hid & _).
      apply stableStringify_ok in Hid as [_ Hu]. apply no_undefined_dense in Hu. by apply (dense_fields _) in H.
    + rewrite !elem_of_cons, elem_of_nil in H. destruct_or?; by subst.
  - apply dense_anchor.
  - cbn [snd dense]. apply forallb_elem. intros x Hx. apply list_elem_of_In, in_map_iff in Hx as (e & <- & _).
    rewrite dense_event. by destruct e.
  - by destruct (currentHead l).
  - eapply dense_joption; [|done]. done.
Qed.

Section Histories.
Context (sha256 : bytes -> bytes).
#[local] Abbreviation consistent c := (assertServerChannelLineageConsistency sha256 c = Ok tt).

Lemma consistent_state c : consistent c -> assertLineageState sha256 (lineage c) = Ok tt.
Proof.
  unfold assertServerChannelLineageConsistency, canonicalCovenantTransitions. intros H.
  apply bind_ok in H as (ts & H & _). by apply bind_ok in H as ([] & H & _).
Qed.

Lemma dense_jprop {A} k (f : A -> json) p kv :
  (forall a, dense (f a) = true) -> kv ∈ jprop k f p -> dense kv.2 = true.
Proof.
  destruct p as [| |a]; cbn; [by intros ? ?%elem_of_nil|..]; rewrite list_elem_of_singleton; intros Hf ->; [done|apply Hf].
Qed.

Lemma dense_channel c : consistent c -> dense (channel_json c) = true.
Proof.
  intros H%consistent_state%dense_state. apply dense_fields. intros kv.
  rewrite !elem_of_app, !elem_of_cons, !elem_of_nil. intros Hin. destruct_or?; subst; try done.
  all: eapply dense_jprop; [|done]; done.
Qed.

(** Equal snapshots are channels with the same identity, version, amounts and status. *)
Lemma snapshot_fields a b :
  consistent a -> consistent b -> sameChannelSnapshot (Some a) (Some b) = true ->
  (sv_channelId a, sv_covenantId a, sv_version a, lane_of a) = (sv_channelId b, sv_covenantId b, sv_version b, lane_of b).
Proof.
  intros Ha Hb H. unfold sameChannelSnapshot in H. apply bool_decide_eq_true in H.
  apply stableJson_inj in H; [|by apply dense_channel..]. unfold channel_json in H.
  same_field H "channelId" (JString (sv_channelId a)).
  same_field H "covenantId" (JString (sv_covenantId a)).
  same_field H "version" (JString (sv_version a)).
  same_field H "fundingAmount" (JString (sv_fundingAmount a)).
  same_field H "chargedCumulativeAmount" (JString (sv_chargedCumulativeAmount a)).
  same_field H "claimedCumulativeAmount" (JString (sv_claimedCumulativeAmount a)).
  same_field H "signedMaxClaimable" (JString (sv_signedMaxClaimable a)).
  unfold lane_of. congruence.
Qed.

(** ** The abstract lane of a channel *)

(** The kind of change: amounts are those of the wire form. *)
Inductive lane_change (c c' : ServerChannelRecord) : Prop :=
  | change_charge l l' :
      lane_of c = Lane.encode l -> lane_of c' = Lane.encode l' -> Lane.valid l' ->
      Lane.funding l' = Lane.funding l -> Lane.claimed l' = Lane.claimed l ->
      Lane.charged l <= Lane.charged l' -> Lane.signed l <= Lane.signed l' -> lane_change c c'
  | change_claim l n :
      Lane.valid l -> Lane.claimable l n -> lane_of c = Lane.encode l -> lane_of c' = Lane.encode (Lane.claim l n) ->
      lane_change c c'
  | change_deposit l l' :
      lane_of c = Lane.encode l -> lane_of c' = Lane.encode l' -> Lane.valid l' ->
      Lane.charged l' = Lane.charged l -> Lane.claimed l' = Lane.claimed l ->
      Lane.funding l <= Lane.funding l' -> Lane.signed l <= Lane.signed l' -> lane_change c c'
  | change_retire :
      lane_of c' = lane_of c -> sv_status c' = Retired -> lane_change c c'
  | change_reconcile d :
      sv_chargedCumulativeAmount c' = sv_chargedCumulativeAmount c ->
      sv_signedMaxClaimable c' = sv_signedMaxClaimable c ->
      sameChannelSnapshot (Some c) (Some d) = true ->
      assertCovenantLineageExtension sha256 (lineage d) (lineage c') = Ok tt -> lane_change c c'.

Record channel_step (c c' : ServerChannelRecord) : Prop := {
  st_id : sv_channelId c' = sv_channelId c;
  st_covenant : toLowerCase (sv_covenantId c') = toLowerCase (sv_covenantId c);
  st_version : exists v, 0 <= v /\ sv_version c = toString v /\ sv_version c' = toString (v + 1);
  st_lane : lane_change c c'
}.

Lemma increment_ok v v' : incrementVersion v = Ok v' <-> exists n, 0 <= n <= BATCH_SCRIPT_INT_MAX /\ v = toString n /\ v' = toString (n + 1).
Proof.
  unfold incrementVersion. split.
  - intros H. apply bind_ok in H as (n & [-> Hn]%parse_lane_ok & H). apply Ok_inj in H as <-. by exists n.
  - intros (n & Hn & -> & ->). by rewrite parse_lane_toString.
Qed.

Lemma identity_ok p n :
  assertImmutableChannelIdentity p n = Ok tt ->
  sv_channelId n = sv_channelId p /\ toLowerCase (sv_covenantId n) = toLowerCase (sv_covenantId p).
Proof. unfold assertImmutableChannelIdentity. intros H. inv_ok. done. Qed.

Lemma lane_valid_of c acc :
  batchLaneAccounting (lane_of c) = Ok acc -> exists l, Lane.valid l /\ lane_of c = Lane.encode l.
Proof. intros (l & ? & ? & _)%accounting_ok. by exists l. Qed.

Lemma lane_fields c l :
  lane_of c = Lane.encode l <->
  sv_fundingAmount c = toString (Lane.funding l) /\ sv_chargedCumulativeAmount c = toString (Lane.charged l) /\
  sv_claimedCumulativeAmount c = toString (Lane.claimed l) /\ sv_signedMaxClaimable c = toString (Lane.signed l).
Proof. unfold lane_of, Lane.encode. split; [intros [= -> -> -> ->]; done|by intros (-> & -> & -> & ->)]. Qed.

(** Splits the short-circuit tests of a successful transition. *)
Ltac inv_test :=
  repeat first
    [ progress inv_ok
    | match goal with
      | H : throw_if ?b _ = Ok _ |- _ => apply throw_if_ok in H
      | H : and_also _ _ = Ok false |- _ => unfold and_also in H
      end ].

Ltac inv_amounts :=
  repeat match goal with
  | H1 : ?x = toString ?a, H2 : ?x = toString ?b |- _ =>
      lazymatch a with b => fail | _ => idtac end;
      assert (a = b) by (apply toString_inj_all; congruence); subst
  end.

Lemma settlement_step p n commitment :
  assertSettlementTransition sha256 p n commitment = Ok tt -> channel_step p n /\ consistent n.
Proof.
  unfold assertSettlementTransition. intros H. apply bind_ok in H as ([] & Hid%identity_ok & H).
  apply bind_ok in H as (rb & Hrb & H). apply bind_ok in H as ([] & Hf%throw_if_ok & H). subst rb.
  apply bind_ok in H as (acc & Hacc & H). apply lane_valid_of in Hacc as (l' & Hl' & El').
  repeat match goal with Hx : or_else _ _ = Ok false |- _ => apply or_else_false in Hx as [? Hx] end.
  inv_ok.
  repeat match goal with Hp : parseBatchLaneAmount _ _ = Ok _ |- _ => apply parse_lane_ok in Hp as [? ?] end.
  match goal with Hv : incrementVersion _ = Ok _ |- _ => apply increment_ok in Hv as (v & ? & ? & ?) end.
  split; [|done]. destruct Hid as [Hid Hcov]. apply lane_fields in El' as Hl. destruct Hl as (F1 & F2 & F3 & F4).
  constructor; [done|done|exists v; repeat split; [lia|done|congruence]|]. inv_amounts.
  match goal with Hc : sv_chargedCumulativeAmount p = toString ?a, Hs : sv_signedMaxClaimable p = toString ?b |- _ =>
    apply (change_charge p n (Lane.Make (Lane.funding l') a (Lane.claimed l') b) l'); cbn; try done end.
  apply lane_fields. cbn. repeat split; congruence.
Qed.

Lemma claim_step p n a :
  assertClaimTransition sha256 p n a = Ok tt -> channel_step p n /\ consistent n.
Proof.
  unfold assertClaimTransition. intros H. apply bind_ok in H as ([] & Hid%identity_ok & H).
  apply bind_ok in H as (e & Hc & H). apply apply_claim_ok in Hc as (l & m & Hl & El & Hm & Hcl & ->).
  apply bind_ok in H as (rb & Hrb & H). apply bind_ok in H as ([] & Hf%throw_if_ok & H). subst rb.
  apply bind_ok in H as (acc & _ & H).
  repeat match goal with Hx : or_else _ _ = Ok false |- _ => apply or_else_false in Hx as [? Hx] end.
  inv_ok. match goal with Hv : incrementVersion _ = Ok _ |- _ => apply increment_ok in Hv as (v & ? & ? & ?) end.
  unfold assertServerCovenantJournalExtension in H. apply bind_ok in H as ([] & _ & H).
  apply bind_ok in H as ([] & Hn & _). split; [|done]. destruct Hid as [Hid Hcov].
  constructor; [done|done|exists v; repeat split; [lia|done|congruence]|].
  apply (change_claim p n l m); try done. apply lane_fields. apply lane_fields in El as (? & ? & ? & ?).
  cbn in *. repeat split; congruence.
Qed.

Lemma deposit_step p n kind :
  assertBatchDepositTransition sha256 (Some p) n kind = Ok tt -> channel_step p n /\ consistent p /\ consistent n.
Proof.
  unfold assertBatchDepositTransition. intros H. apply bind_ok in H as (acc & Hacc & H).
  apply lane_valid_of in Hacc as (l' & Hl' & El').
  apply bind_ok in H as ([] & Hid%identity_ok & H). apply bind_ok in H as ([] & _ & H).
  apply bind_ok in H as (rb & Hrb & H). apply bind_ok in H as ([] & Hf%throw_if_ok & H). subst rb.
  cbv zeta in H. do 3 (apply bind_ok in H as ([] & _ & H)). apply bind_ok in H as (r & _ & H).
  apply bind_ok in H as ([] & _ & H). apply bind_ok in H as ([] & Hj & _).
  unfold assertServerCovenantJournalExtension in Hj. apply bind_ok in Hj as ([] & Hp & Hj).
  apply bind_ok in Hj as ([] & Hn & _). split; [|done].
  repeat match goal with Hx : or_else _ _ = Ok false |- _ => apply or_else_false in Hx as [? Hx] end.
  inv_ok.
  repeat match goal with Hp : parseBatchLaneAmount _ _ = Ok _ |- _ => apply parse_lane_ok in Hp as [? ?] end.
  match goal with Hv : incrementVersion _ = Ok _ |- _ => apply increment_ok in Hv as (v & ? & ? & ?) end.
  destruct Hid as [Hid Hcov]. apply lane_fields in El' as Hl. destruct Hl as (F1 & F2 & F3 & F4).
  constructor; [done|done|exists v; repeat split; [lia|done|congruence]|]. inv_amounts.
  match goal with Hc : sv_fundingAmount p = toString ?a, Hs : sv_signedMaxClaimable p = toString ?b |- _ =>
    apply (change_deposit p n (Lane.Make a (Lane.charged l') (Lane.claimed l') b) l'); cbn; try done end.
  apply lane_fields. cbn. repeat split; congruence.
Qed.

Lemma reconcile_step p d n :
  consistent p -> sameChannelSnapshot (Some p) (Some d) = true ->
  assertServerCovenantLineageExtension sha256 d n = Ok tt -> channel_step p n /\ consistent n.
Proof.
  unfold assertServerCovenantLineageExtension. intros Hp Hs H. apply bind_ok in H as ([] & Hj & H).
  unfold assertServerCovenantJournalExtension in Hj. apply bind_ok in Hj as ([] & Hd & Hj).
  apply bind_ok in Hj as ([] & Hn & Hj). apply bind_ok in Hj as (? & _ & Hj). apply bind_ok in Hj as ([] & _ & Hj).
  apply bind_ok in H as (changed & Hch & H). apply bind_ok in H as ([] & Hf%throw_if_ok & H). subst changed.
  apply bind_ok in H as (nv & Hnv%parse_ok & H). apply bind_ok in H as (pv & Hpv%parse_ok & H).
  apply bind_ok in H as ([] & Hv%throw_if_ok & _).
  repeat match goal with Hx : or_else _ _ = Ok false |- _ => apply or_else_false in Hx as [? Hx] end.
  inv_ok. destruct Hnv as [Hnv ?], Hpv as [Hpv ?]. subst nv.
  pose proof (snapshot_fields p d Hp Hd Hs) as E. split; [|done].
  assert (lane_of p = lane_of d) as El by congruence. unfold lane_of in El. injection El as E1 E2 E3 E4.
  constructor; [congruence|congruence|exists pv; repeat split; [lia|congruence|congruence]|].
  apply (change_reconcile p n d); congruence.
Qed.

Lemma retire_step p v :
  incrementVersion (sv_version p) = Ok v -> channel_step p (p <| sv_version := v |> <| sv_status := Retired |>).
Proof.
  intros (n & Hn & E & ->)%increment_ok. constructor; [by destruct p..| |].
  - exists n. split; [lia|]. split; [done|]. by destruct p.
  - apply change_retire; by destruct p.
Qed.

(** ** Running an operation from one assertion to another *)

Definition hoare {A} (P : Store -> Prop) (m : op A) (Q : A -> Store -> Prop) (E : Store -> Prop) : Prop :=
  forall s, P s -> match m s with (s', Ok a) => Q a s' | (s', Throw _) => E s' end.

Section Hoare.
Context {B : Type} (P : Store -> Prop) (Q : B -> Store -> Prop) (E : Store -> Prop) (P_E : forall s, P s -> E s).
Lemma hoare_frame {A} (m : op A) (k : A -> op B) :
  preserves P m -> (forall a, hoare P (k a) Q E) -> hoare P (m ≫= k) Q E.
Proof using P_E.
  intros Hm Hk s Hs. specialize (Hm s Hs). unfold mbind, op_bind. destruct (m s) as [s' [a|e]]; [by apply Hk|by apply P_E].
Qed.
Lemma hoare_state (k : Store -> op B) : (forall s, P s -> hoare P (k s) Q E) -> hoare P (state ≫= k) Q E.
Proof using. intros Hk s Hs. by apply (Hk s). Qed.
Lemma hoare_lift {A} (r : result A) (k : A -> op B) :
  (forall a, r = Ok a -> hoare P (k a) Q E) -> hoare P (lift r ≫= k) Q E.
Proof using P_E.
  intros Hk s Hs. unfold mbind, op_bind, lift. destruct r as [a|e]; [by apply (Hk a)|by apply P_E].
Qed.
Lemma hoare_fail b msg (k : () -> op B) : (b = false -> hoare P (k tt) Q E) -> hoare P (fail_if b msg ≫= k) Q E.
Proof using P_E. intros Hk. apply hoare_lift. intros [] H%throw_if_ok. auto. Qed.
Lemma hoare_ends (m : op B) : (forall s, P s -> E (m s).1) -> (forall b s, E s -> Q b s) -> hoare P m Q E.
Proof using.
  intros Hm HQ s Hs. specialize (Hm s Hs). destruct (m s) as [s' [b|e]]; [by apply HQ|done].
Qed.
End Hoare.
Lemma hoare_seq {A B} P (m : op A) (k : A -> op B) (R : Store -> Prop) (E : Store -> Prop) :
  (forall s, P s -> R (m s).1) -> (forall s, R s -> E s) -> (forall a, preserves R (k a)) ->
  forall s, P s -> E ((m ≫= k) s).1.
Proof.
  intros Hm HE Hk s Hs. specialize (Hm s Hs). unfold mbind, op_bind. destruct (m s) as [s' [a|e]]; apply HE; [by apply Hk|done].
Qed.

(** ** The channel tables of a store *)

Record channels_ok (s : Store) : Prop := {
  ck_key k c : channels (chan s) !! k = Some c -> k = toLowerCase (sv_channelId c) /\ k <> "" /\ consistent c;
  ck_covenant k c : channels (chan s) !! k = Some c ->
    channelByCovenantId (chan s) !! toLowerCase (sv_covenantId c) = Some k
}.
Definition same_channels (s s' : Store) : Prop :=
  channels (chan s') = channels (chan s) /\ channelByCovenantId (chan s') = channelByCovenantId (chan s).
Definition advances (s s' : Store) : Prop :=
  forall k c, channels (chan s) !! k = Some c ->
    exists c', channels (chan s') !! k = Some c' /\ rtc channel_step c c'.
Definition good (s s' : Store) : Prop := channels_ok s' /\ advances s s'.

Lemma same_good s s' : channels_ok s -> same_channels s s' -> good s s'.
Proof.
  intros [H1 H2] [E1 E2]. split.
  - constructor; rewrite ?E1, ?E2; done.
  - intros k c Hk. rewrite E1. exists c. split; [done|constructor].
Qed.

(** A consistent channel under its lower-case id keeps the tables in order. *)
Lemma setChannel_writes s s1 n :
  same_channels s s1 ->
  let s' := (setChannel sha256 n s1).1 in
  same_channels s s' \/
  (consistent n /\
   (forall c, channels (chan s) !! toLowerCase (sv_channelId n) = Some c ->
      toLowerCase (sv_covenantId c) = toLowerCase (sv_covenantId n)) /\
   (forall k, channelByCovenantId (chan s) !! toLowerCase (sv_covenantId n) = Some k -> k <> "" ->
      k = toLowerCase (sv_channelId n)) /\
   channels (chan s') = <[toLowerCase (sv_channelId n) := n]> (channels (chan s)) /\
   channelByCovenantId (chan s') = <[toLowerCase (sv_covenantId n) := toLowerCase (sv_channelId n)]> (channelByCovenantId (chan s))).
Proof.
  intros Hsame. cbv zeta. destruct (setChannel sha256 n s1) as [s' r] eqn:E. cbn [fst].
  assert (s' = s1 -> same_channels s s') as Hskip by (by intros ->).
  unfold setChannel, mbind, op_bind, lift in E.
  destruct (assertServerChannelLineageConsistency sha256 n) as [[]|e] eqn:Hn; [|left; apply Hskip; congruence].
  unfold assertChannelBinding, mbind, op_bind, state, fail_if, lift in E.
  destruct (throw_if _ "channel covenant lineage cannot change") as [[]|e] eqn:T1; [|left; apply Hskip; congruence].
  destruct (throw_if _ "covenant lineage is already registered to another channel") as [[]|e] eqn:T2;
    [|left; apply Hskip; congruence].
  clear Hskip. destruct Hsame as [E1 E2]. apply throw_if_ok in T1, T2. rewrite E1 in T1. rewrite E2 in T2.
  injection E as <- _. right. split_and!; [done|..].
  - intros c Hc. rewrite Hc in T1. by apply negb_false_iff, bool_decide_eq_true in T1.
  - intros k Hk Hk0. rewrite Hk in T2. unfold nonempty in T2. rewrite bool_decide_eq_false_2 in T2 by done.
    by apply negb_false_iff, bool_decide_eq_true in T2.
  - cbn. by rewrite E1.
  - cbn. by rewrite E2.
Qed.

Lemma setChannel_valid s s1 n :
  channels_ok s -> same_channels s s1 -> toLowerCase (sv_channelId n) <> "" -> channels_ok (setChannel sha256 n s1).1.
Proof.
  intros Hok Hsame Hne. destruct (setChannel_writes s s1 n Hsame) as [H|(Hn & Hold & Hreg & E1 & E2)].
  { by apply (same_good s). }
  constructor; rewrite ?E1, ?E2.
  - intros k' c [[<- <-]|[Hk Hc]]%lookup_insert_Some; [done|by apply (ck_key s)].
  - intros k' c [[<- <-]|[Hk Hc]]%lookup_insert_Some; [apply lookup_insert_eq|].
    pose proof (ck_covenant s Hok _ _ Hc) as Hcov. rewrite lookup_insert_ne; [done|]. intros Hv. rewrite <- Hv in Hcov.
    destruct (ck_key s Hok _ _ Hc) as (_ & Hk0 & _). by specialize (Hreg _ Hcov Hk0).
Qed.

Lemma setChannel_good s s1 n :
  channels_ok s -> same_channels s s1 -> toLowerCase (sv_channelId n) <> "" ->
  (forall p, channels (chan s) !! toLowerCase (sv_channelId n) = Some p -> channel_step p n) ->
  good s (setChannel sha256 n s1).1.
Proof.
  intros Hok Hsame Hne Hp. destruct (setChannel_writes s s1 n Hsame) as [H|(Hn & Hold & Hreg & E1 & E2)].
  { by apply same_good. }
  split; [by apply (setChannel_valid s)|]. intros k' c Hc. rewrite E1.
  destruct (decide (toLowerCase (sv_channelId n) = k')) as [<-|Hk].
  - exists n. split; [apply lookup_insert_eq|]. apply rtc_once. by apply Hp.
  - exists c. split; [by rewrite lookup_insert_ne|constructor].
Qed.

(** ** Methods that do not write the channel tables *)

Lemma delete_chan key s : chan (deleteBudgetRecord key s) = chan s.
Proof. unfold deleteBudgetRecord. by case_match. Qed.
Lemma prune_chan limits now s : chan (pruneTerminalBudgetRecords limits now s) = chan s.
Proof.
  unfold pruneTerminalBudgetRecords. revert s. generalize (now - terminalRetentionMs limits). intros cutoff s.
  apply (prune_loop_ind (fun s' => chan s' = chan s)); [done| |done].
  intros key r t s' <- _ _. rewrite delete_chan.
  unfold release_reservation, expire_identifier, expire_attempt. cbv zeta. by repeat case_match.
Qed.
Lemma drop_replaced_chan r s : chan (drop_replaced r s) = chan s.
Proof. destruct r as [[[rid k] b]|]; [|done]. cbn [drop_replaced]. apply delete_chan. Qed.
Lemma write_changes_chan ch s : chan (write_changes ch s) = chan s.
Proof. unfold write_changes. cbv zeta. by repeat case_match. Qed.

(** Assertions that only look at the channel tables. *)
Record channels_only (P : Store -> Prop) : Prop := { framed_cong s s' : same_channels s s' -> P s -> P s' }.

Section Frame.
Context (limits : ServerDurableStateLimits) (P : Store -> Prop).
Context (P_framed : channels_only P).

Lemma chan_modify f : (forall s, chan (f s) = chan s) -> preserves P (modify f).
Proof using P_framed. intros H. apply preserves_modify. intros s. apply (framed_cong _ P_framed). split; by rewrite H. Qed.
Lemma prune_frame now : preserves P (modify (pruneTerminalBudgetRecords limits now)).
Proof using P_framed. apply chan_modify. intros. apply prune_chan. Qed.
Lemma drop_frame r : preserves P (modify (drop_replaced r)).
Proof using P_framed. apply chan_modify. intros. apply drop_replaced_chan. Qed.
Lemma delete_frame key : preserves P (modify (deleteBudgetRecord key)).
Proof using P_framed. apply chan_modify. intros. apply delete_chan. Qed.
Lemma write_frame ch : preserves P (modify (write_changes ch)).
Proof using P_framed. apply chan_modify. intros. apply write_changes_chan. Qed.
Lemma add_frame r : preserves P (modify (add_budget_record r)).
Proof using P_framed. by apply chan_modify. Qed.
Lemma end_frame key c n ci i r t : preserves P (modify (end_budget_record key c n ci i r t)).
Proof using P_framed. by apply chan_modify. Qed.
Lemma batch_frame f : preserves P (set_batch f).
Proof using P_framed. by apply chan_modify. Qed.
Lemma claims_frame f : preserves P (set_claims f).
Proof using P_framed. by apply chan_modify. Qed.
Lemma ids_frame f : preserves P (set_ids f).
Proof using P_framed. by apply chan_modify. Qed.
Lemma chan_frame f :
  (forall c, channels (f c) = channels c /\ channelByCovenantId (f c) = channelByCovenantId c) -> preserves P (set_chan f).
Proof using P_framed. intros H. apply preserves_modify. intros s. apply (framed_cong _ P_framed). apply H. Qed.
Lemma release_frame c l : preserves P (release_lease c l).
Proof using P_framed. by apply chan_frame. Qed.
Hint Resolve prune_frame drop_frame delete_frame write_frame add_frame end_frame batch_frame claims_frame ids_frame
  release_frame : store.
Ltac frame := preserve ltac:(fail).
Lemma admit_frame key kind a p i n claim now : preserves P (admitBudgetRecord limits key kind a p i n claim now).
Proof using P_framed. unfold admitBudgetRecord. frame. Qed.
Lemma terminalize_frame key n c i r clock : preserves P (terminalizeBudgetRecord limits key n c i r clock).
Proof using P_framed. unfold terminalizeBudgetRecord. frame. Qed.
Lemma require_frame c l : preserves P (requireChannelOperation c l).
Proof using. unfold requireChannelOperation. frame. Qed.
Lemma require_attempt_frame a : preserves P (requireBatchAttempt a).
Proof using. unfold requireBatchAttempt. frame. Qed.
Lemma binding_frame c : preserves P (assertChannelBinding c).
Proof using. unfold assertChannelBinding. frame. Qed.
Lemma put_frame a : preserves P (put_batch_attempt a).
Proof using P_framed. unfold put_batch_attempt. frame. Qed.
Lemma transition_frame c t : preserves P (applyPaymentIdentifierTransition c t).
Proof using P_framed. unfold applyPaymentIdentifierTransition. frame. Qed.
Hint Resolve require_frame : store.
Lemma update_frame c l st t r : preserves P (updateChannelOperation c l st t r).
Proof using P_framed. unfold updateChannelOperation. frame. by apply chan_frame. Qed.
Hint Resolve admit_frame terminalize_frame require_attempt_frame binding_frame put_frame transition_frame update_frame : store.
Lemma follow_frame a l r p t : preserves P (follow_attempt a l r p t).
Proof using P_framed. unfold follow_attempt. frame. Qed.
Lemma release_channel_frame c l : preserves P (release_channel c l).
Proof using P_framed. unfold release_channel. frame. Qed.
Lemma release_claim_frame a : preserves P (release_claim a).
Proof using P_framed. unfold release_claim. frame. Qed.
Lemma available_frame c : preserves P (assertPaymentIdentifierClaimAvailable c).
Proof using. unfold assertPaymentIdentifierClaimAvailable. frame. Qed.
Lemma completed_frame a i : preserves P (assertCompletedPaymentIdentifier a i).
Proof using. unfold assertCompletedPaymentIdentifier. frame. Qed.
End Frame.

(** ** Every method *)

Lemma good_framed s0 : channels_only (good s0).
Proof.
  constructor. intros s s' [E1 E2] [[H1 H2] H3]. split; [constructor; rewrite ?E1, ?E2; done|]. unfold advances. by rewrite E1.
Qed.
Lemma same_framed s0 : channels_only (same_channels s0).
Proof. constructor. unfold same_channels. intros s s' [-> ->] [-> ->]. done. Qed.
Lemma good_refl s : channels_ok s -> good s s.
Proof. intros H. by apply same_good. Qed.
Hint Resolve good_framed same_framed prune_frame drop_frame delete_frame write_frame add_frame end_frame batch_frame
  claims_frame ids_frame release_frame admit_frame terminalize_frame require_frame require_attempt_frame binding_frame
  put_frame transition_frame update_frame follow_frame release_channel_frame release_claim_frame available_frame
  completed_frame : store.
Ltac frame := preserve ltac:(fail).
(** A method whose every write is outside the channel tables. *)
Ltac framed :=
  intros; match goal with |- good ?s (?m ?s).1 =>
    let H := fresh in cut (preserves (good s) m); [intros H; by apply H, good_refl|frame] end.
(** Symbolic execution up to the channel write. *)
Ltac run_step :=
  first
    [ apply hoare_state; intros ? ?
    | apply hoare_fail; [by intros; apply same_good|]; intros
    | apply hoare_lift; [by intros; apply same_good|]; intros
    | apply hoare_frame; [by intros; apply same_good|solve [frame]|]; intros ];
  repeat match goal with a : () |- _ => destruct a end.

Lemma hoare_good {A} s (m : op A) :
  channels_ok s -> hoare (same_channels s) m (fun _ => good s) (good s) -> good s (m s).1.
Proof. intros Hok H. specialize (H s (conj eq_refl eq_refl)). by destruct (m s) as [s' [a|e]]. Qed.

(** A channel write followed by other writes. *)
Lemma hoare_set {A} s n (k : () -> op A) :
  channels_ok s -> toLowerCase (sv_channelId n) <> "" ->
  (forall p, channels (chan s) !! toLowerCase (sv_channelId n) = Some p -> channel_step p n) ->
  (forall a, preserves (good s) (k a)) ->
  hoare (same_channels s) (setChannel sha256 n ≫= k) (fun _ => good s) (good s).
Proof.
  intros Hok Hne Hp Hk s' Hs'. pose proof (setChannel_good s s' n Hok Hs' Hne Hp) as Hg.
  unfold mbind, op_bind. destruct (setChannel sha256 n s') as [s1 [a|e]]; [|done].
  specialize (Hk a s1 Hg). by destruct (k a s1) as [s2 [b|e]].
Qed.

Lemma register_good s c :
  channels_ok s -> is_lower_hash32 (sv_channelId c) = true -> good s (registerChannel sha256 c s).1.
Proof.
  intros Hok Hc. pose proof (good_refl s Hok) as Hr. unfold registerChannel, mbind, op_bind, state.
  destruct (channels (chan s) !! sv_channelId c) as [e|] eqn:E.
  - unfold fail_if, lift. done.
  - assert (toLowerCase (sv_channelId c) = sv_channelId c) as El.
    { apply andb_true_iff in Hc as [Hc _]. apply toLowerCase_lower. done. }
    apply setChannel_good; [done|done| |].
    + rewrite El. intros Hn. rewrite Hn in Hc. done.
    + intros p. by rewrite El, E.
Qed.

Lemma same_trans a b c :
  sameChannelSnapshot (Some a) (Some b) = true -> sameChannelSnapshot (Some b) (Some c) = true ->
  sameChannelSnapshot (Some a) (Some c) = true.
Proof. unfold sameChannelSnapshot. rewrite !bool_decide_eq_true. congruence. Qed.

(** A step from one of two equal snapshots is a step from the other. *)
Lemma step_transfer p d n :
  consistent p -> consistent d -> sameChannelSnapshot (Some p) (Some d) = true -> channel_step d n ->
  channel_step p n.
Proof.
  intros Hp Hd Hs [H1 H2 (v & Hv & V1 & V2) Hl]. pose proof (snapshot_fields p d Hp Hd Hs) as E.
  assert (lane_of p = lane_of d) as El by congruence.
  constructor; [congruence|congruence|exists v; split; [done|]; split; congruence|].
  destruct Hl as [l l' Hl|l m Hl Hm E1|l l' Hl|Hl|d' Hl].
  - apply (change_charge p n l l'); congruence.
  - apply (change_claim p n l m); congruence.
  - apply (change_deposit p n l l'); congruence.
  - apply change_retire; congruence.
  - unfold lane_of in El. injection El as L1 L2 L3 L4. apply (change_reconcile p n d'); try congruence. by apply (same_trans _ d).
Qed.

Lemma key_of s k c : channels_ok s -> channels (chan s) !! k = Some c -> toLowerCase (sv_channelId c) = k /\ k <> "".
Proof. intros Hok Hc. by destruct (ck_key s Hok _ _ Hc) as (-> & ? & _). Qed.

(** The channel write of a method that found [p] under the channel's key. *)
Lemma set_found {A} s k p n (kont : () -> op A) :
  channels_ok s -> channels (chan s) !! k = Some p -> channel_step p n ->
  (forall a, preserves (good s) (kont a)) ->
  hoare (same_channels s) (setChannel sha256 n ≫= kont) (fun _ => good s) (good s).
Proof.
  intros Hok Hp Hstep Hk. destruct (key_of _ _ _ Hok Hp) as [Hkey Hne]. pose proof (st_id _ _ Hstep) as Hid.
  apply hoare_set; [done| | |done]; rewrite Hid, Hkey; [done|]. intros p' Hp'. by simplify_eq.
Qed.

Lemma commit_good limits s record clock :
  channels_ok s -> good s (commitSettlement sha256 limits record clock s).1.
Proof.
  intros Hok. apply hoare_good; [done|]. unfold commitSettlement. run_step. rename s0 into s1. destruct H as [E1 _].
  rewrite E1. run_step.
  destruct (channels (chan s) !! sv_channelId (sc_expected record)) as [current|] eqn:Ec.
  2:{ intros s' Hs'. by apply same_good. }
  destruct (batchAttempts (batch s1) !! batchAttemptId record) as [attempt|]; [|intros s' Hs'; by apply same_good].
  do 3 run_step. cbv zeta. run_step.
  match goal with H : assertSettlementTransition _ _ _ _ = Ok _ |- _ => apply settlement_step in H as [Hstep _] end.
  do 5 run_step. eapply set_found; [exact Hok|exact Ec|done|]. intros. frame.
Qed.

Lemma applyClaim_good s channel attempt :
  channels_ok s -> good s (applyClaimAttempt sha256 channel attempt s).1.
Proof.
  intros Hok. apply hoare_good; [done|]. unfold applyClaimAttempt. run_step. rename s0 into s1. destruct H as [E1 _].
  destruct (claimAttempts (claims s1) !! ca_attemptId attempt) as [current|]; [|intros s' Hs'; by apply same_good].
  do 3 run_step. rewrite E1.
  destruct (channels (chan s) !! sv_channelId channel) as [c|] eqn:Ec; [|intros s' Hs'; by apply same_good].
  do 2 run_step.
  match goal with H : assertClaimTransition _ _ _ _ = Ok _ |- _ => apply claim_step in H as [Hstep _] end.
  eapply set_found; [exact Hok|exact Ec|done|]. intros. frame.
Qed.

Lemma lineage_good s expected channel lease :
  channels_ok s -> good s (applyCovenantLineage sha256 expected channel lease s).1.
Proof.
  intros Hok. apply hoare_good; [done|]. unfold applyCovenantLineage. run_step. rename s0 into s1. destruct H as [E1 _].
  cbv zeta. rewrite E1. run_step.
  destruct (channels (chan s) !! sv_channelId expected) as [c|] eqn:Ec; [|done].
  do 4 run_step. eapply set_found; [exact Hok|exact Ec| |intros; frame].
  eapply reconcile_step; [by eapply ck_key|by apply negb_false_iff|done].
Qed.

Lemma retire_good s k lease expected :
  channels_ok s -> good s (retireChannel sha256 k lease expected s).1.
Proof.
  intros Hok. apply hoare_good; [done|]. unfold retireChannel. run_step. rename s0 into s1. destruct H as [E1 E2].
  rewrite E1. destruct (channels (chan s) !! k) as [c|] eqn:Ec; [|intros s' Hs'; by apply same_good].
  do 6 run_step. clear s1 E1 E2. intros s' Hs'.
  match goal with H : incrementVersion _ = Ok ?v |- _ => pose proof (retire_step c v H) as Hstep;
    set (retired := c <| sv_version := v |> <| sv_status := Retired |>) in *; clear H end.
  clearbody retired. unfold mbind, op_bind, set_chan at 1, modify. cbn [fst].
  set (s2 := s' <| chan := _ |>). enough (good s s2) as Hg.
  { assert (preserves (good s) (release_lease k lease)) as H4 by frame. specialize (H4 s2 Hg).
    by destruct (release_lease k lease s2) as [s3 [a1|e]]. }
  subst s2. destruct Hs' as [E1 E2], (ck_key s Hok _ _ Ec) as (-> & Hne & _), Hstep as [Hid Hcov ? ?] eqn:Eh. clear Eh.
  split; [constructor|]; cbn; rewrite ?E1, ?E2.
  - intros k' c' [[<- <-]|[_ Hc]]%lookup_insert_Some; [by rewrite Hid|by apply (ck_key s)].
  - intros k' c' [[<- <-]|[_ Hc]]%lookup_insert_Some; [rewrite Hcov|]; by apply (ck_covenant s).
  - intros k' c' Hc. destruct (decide (toLowerCase (sv_channelId c) = k')) as [<-|Hk].
    + exists retired. split; [apply lookup_insert_eq|]. simplify_eq. by apply rtc_once.
    + exists c'. split; [|constructor]. change (<[toLowerCase (sv_channelId c) := retired]> (channels (chan s)) !! k' = Some c').
      by rewrite lookup_insert_ne.
Qed.

(** The claim of a batch settlement: an ordinary payment writes no channel, a deposit or a
    top-up installs its transition. *)
Lemma normalize_ids other_dates input attempt :
  normalizeBatchSettlementAttempt other_dates input = Ok attempt ->
  attempt = input /\ is_lower_hash32 (b_channelId attempt) = true /\
  forall t, get (channelTransition attempt) = Some t -> sv_channelId (next t) = b_channelId attempt.
Proof.
  unfold normalizeBatchSettlementAttempt. intros H. apply bind_ok in H as ([] & _ & H).
  apply bind_ok in H as ([] & H1%throw_if_ok & H). apply bind_ok in H as ([] & _ & H). apply bind_ok in H as ([] & _ & H).
  apply bind_ok in H as ([] & H2 & H).
  do 7 (apply bind_ok in H as (? & _ & H)). apply Ok_inj in H as <-. split; [done|].
  split; [by inv_bool|]. intros t Ht. rewrite Ht in H2. apply bind_ok in H2 as ([] & _ & H2%throw_if_ok). by inv_bool.
Qed.

Lemma hoare_assoc {A B C} P (m : op A) (f : A -> op B) (g : B -> op C) Q E :
  hoare P (m ≫= fun a => f a ≫= g) Q E -> hoare P ((m ≫= f) ≫= g) Q E.
Proof. intros H s Hs. specialize (H s Hs). unfold mbind, op_bind in *. by destruct (m s) as [s' [a|e]]. Qed.

Lemma lower_id c : is_lower_hash32 c = true -> toLowerCase c = c.
Proof. intros [Hc _]%andb_true_iff. by apply toLowerCase_lower. Qed.

Lemma hoare_rest {A} s (m : op A) :
  channels_ok s -> preserves (good s) m -> hoare (same_channels s) m (fun _ => good s) (good s).
Proof. intros Hok Hm s' Hs'. specialize (Hm s' (same_good _ _ Hok Hs')). by destruct (m s') as [s'' [a|e]]. Qed.

Lemma batch_claim_good other_dates limits s input clock :
  channels_ok s -> good s (claimBatchSettlement sha256 other_dates limits input clock s).1.
Proof.
  intros Hok. apply hoare_good; [done|]. unfold claimBatchSettlement. run_step.
  match goal with H : normalizeBatchSettlementAttempt _ _ = Ok ?a |- _ =>
    apply normalize_ids in H as (_ & Hlow & Hids); rename a into attempt end.
  run_step. rename s0 into s1. destruct H as [E1 _].
  destruct (batchAttempts (batch s1) !! b_attemptId attempt) as [existing|].
  { run_step. intros s' Hs'. by apply same_good. }
  cbv zeta. rewrite E1. destruct (get (channelTransition attempt)) as [t|] eqn:Et.
  - apply hoare_assoc. run_step. apply hoare_assoc. run_step. apply hoare_assoc. run_step. apply hoare_assoc. run_step.
    do 4 run_step. apply hoare_set; [done|..].
    + rewrite (Hids _ eq_refl), (lower_id _ Hlow). intros E. by rewrite E in Hlow.
    + intros p. rewrite (Hids _ eq_refl), (lower_id _ Hlow). intros Hp. rewrite Hp in H. apply negb_false_iff in H.
      destruct (previous t) as [d|] eqn:Ed; [|done].
      match goal with Ht : assertBatchDepositTransition _ _ _ _ = Ok _ |- _ =>
        apply deposit_step in Ht as (Hstep & Hd & _) end.
      apply (step_transfer p d); [by eapply ck_key|done..].
    + intros. frame. by apply chan_frame; [apply good_framed|].
  - run_step. apply hoare_rest; [done|]. frame. by apply chan_frame; [apply good_framed|].
Qed.

(** Channel ids of registrations are written in lower case, as every other entry point
    requires of them. *)
Definition canonical_ids (command : StoreCommand) : Prop :=
  match command with RegisterChannel c => is_lower_hash32 (sv_channelId c) = true | _ => True end.

Context (blake2b : bytes -> bytes) (other_dates : string -> option Z) (limits : ServerDurableStateLimits).

Lemma forget_fst {A} (m : op A) s : (forget m s).1 = (m s).1.
Proof. unfold forget, mbind, op_bind. by destruct (m s) as [s' [a|e]]. Qed.

Lemma exec_good s command clock :
  channels_ok s -> canonical_ids command -> good s (exec sha256 blake2b other_dates limits command clock s).1.
Proof.
  intros Hok Hc. destruct command; cbn [exec]; rewrite ?forget_fst;
    [by apply register_good|by apply retire_good|by apply lineage_good|idtac|idtac|by apply batch_claim_good|idtac..].
  all: try by apply commit_good.
  all: try by apply applyClaim_good.
  all: revert Hok.
  all: unfold claimChannelOperation, abandonChannelOperation, beginBatchHandler, resetBatchHandlerBeforeExecution,
    recordBatchHandlerResult, markBatchHandlerRecoveryRequired, abandonBatchSettlement, applyExactTransition,
    saveClaimAttempt, abandonClaimAttempt, durableStateStats, isoDate.
  all: try by framed.
  framed. by apply chan_frame; [apply good_framed|].
Qed.

Lemma exec_all_good s commands :
  channels_ok s -> Forall (fun c => canonical_ids c.1) commands ->
  good s (exec_all sha256 blake2b other_dates limits s commands).
Proof.
  revert s. induction commands as [|[c clock] commands IH]; intros s Hok Hall; [by apply good_refl|].
  apply Forall_cons in Hall as [Hc Hall]. cbn [exec_all foldl fst snd].
  destruct (exec_good s c clock Hok Hc) as [Hok1 H1]. destruct (IH _ Hok1 Hall) as [Hok2 H2]. split; [done|].
  intros k ch Hk. destruct (H1 k ch Hk) as (ch1 & Hk1 & Hs1). destruct (H2 k ch1 Hk1) as (ch2 & Hk2 & Hs2).
  exists ch2. split; [done|]. by transitivity ch1.
Qed.

Lemma set_channels_valid l s :
  channels_ok s -> Forall (fun c => is_lower_hash32 (sv_channelId c) = true) l -> channels_ok (set_channels sha256 l s).1.
Proof.
  revert s. induction l as [|c l IH]; intros s Hok Hl; [done|]. apply Forall_cons in Hl as [Hc Hl].
  cbn [set_channels]. unfold mbind at 1, op_bind at 1.
  assert (channels_ok (setChannel sha256 c s).1) as H1.
  { apply (setChannel_valid s s); [done|done|]. rewrite (lower_id _ Hc). intros E. by rewrite E in Hc. }
  destruct (setChannel sha256 c s) as [s1 [[]|e]]; [by apply IH|done].
Qed.

Lemma new_store_valid initial s :
  new_store sha256 limits initial = Ok s -> Forall (fun c => is_lower_hash32 (sv_channelId c) = true) initial ->
  channels_ok s.
Proof.
  unfold new_store. intros H Hi. apply bind_ok in H as ([] & _ & H).
  assert (channels_ok empty_store) as H0 by (constructor; cbn; intros k c; by rewrite lookup_empty).
  pose proof (set_channels_valid initial empty_store H0 Hi) as Hv.
  destruct (set_channels sha256 initial empty_store) as [s' [a|e]]; [|done]. by apply Ok_inj in H as <-.
Qed.

(** ** What a sequence of steps keeps *)

Lemma rtc_identity c c' : rtc channel_step c c' ->
  sv_channelId c' = sv_channelId c /\ toLowerCase (sv_covenantId c') = toLowerCase (sv_covenantId c).
Proof. induction 1 as [c|c c1 c2 [H1 H2 _ _] _ [IH1 IH2]]; [done|]. split; congruence. Qed.

Lemma lane_change_grows c c' n m :
  lane_change c c' -> 0 <= n -> 0 <= m ->
  sv_chargedCumulativeAmount c = toString n -> sv_signedMaxClaimable c = toString m ->
  exists n' m', n <= n' /\ m <= m' /\ sv_chargedCumulativeAmount c' = toString n' /\ sv_signedMaxClaimable c' = toString m'.
Proof.
  intros H Hn Hm E1 E2.
  destruct H as [l l' Hl Hl' Hv _ _ G1 G2|l k Hv Hk Hl Hl'|l l' Hl Hl' Hv G0 _ _ G2|Hl _|d Hc Hs _ _].
  - apply lane_fields in Hl as (_ & F1 & _ & F2), Hl' as (_ & F1' & _ & F2').
    exists (Lane.charged l'), (Lane.signed l'). inv_amounts. done.
  - apply lane_fields in Hl as (_ & F1 & _ & F2), Hl' as (_ & F1' & _ & F2').
    exists (Lane.charged l), (Lane.signed l). inv_amounts. done.
  - apply lane_fields in Hl as (_ & F1 & _ & F2), Hl' as (_ & F1' & _ & F2').
    exists (Lane.charged l'), (Lane.signed l'). inv_amounts. split; [lia|done].
  - unfold lane_of in Hl. injection Hl as _ F1 _ F2. exists n, m. split_and!; [lia|lia|congruence|congruence].
  - exists n, m. split_and!; [lia|lia|congruence|congruence].
Qed.

Lemma rtc_grows c c' : rtc channel_step c c' -> forall n m, 0 <= n -> 0 <= m ->
  sv_chargedCumulativeAmount c = toString n -> sv_signedMaxClaimable c = toString m ->
  exists n' m', n <= n' /\ m <= m' /\ sv_chargedCumulativeAmount c' = toString n' /\ sv_signedMaxClaimable c' = toString m'.
Proof.
  induction 1 as [c|c c1 c2 Hs _ IH]; intros n m Hn Hm E1 E2; [by exists n, m|].
  destruct (lane_change_grows c c1 n m (st_lane _ _ Hs) Hn Hm E1 E2) as (n1 & m1 & G1 & G2 & F1 & F2).
  destruct (IH n1 m1 ltac:(lia) ltac:(lia) F1 F2) as (n2 & m2 & ? & ? & ? & ?).
  exists n2, m2. split_and!; [lia|lia|done|done].
Qed.

Lemma rtc_version c c' : rtc channel_step c c' -> forall v, sv_version c = toString v -> 0 <= v ->
  exists k, 0 <= k /\ sv_version c' = toString (v + k) /\ (k = 0 -> c' = c).
Proof.
  induction 1 as [c|c c1 c2 Hs _ IH]; intros v E Hv; [exists 0; by rewrite Z.add_0_r|].
  destruct (st_version _ _ Hs) as (w & Hw & E1 & E2). assert (w = v) as -> by (apply toString_inj_all; congruence).
  destruct (IH (v + 1) E2 ltac:(lia)) as (k & Hk & E3 & _). exists (k + 1). split_and!; [lia| |lia].
  rewrite E3. f_equal. lia.
Qed.
End Histories.
