(* ===== verification/StoreProperties.v ===== *)
(** * What the store guarantees to the server

    The properties of the channel tables over any use of the store, a registration that
    replaces a live channel, and concrete instances of the store's properties. *)

From S2P Require Import Prelude Amount BatchLane Json Binary ResourceBudget Commitment ChainTruth Lineage.
From S2P Require Import LineageUpdate Compaction Dates PaymentIdentifier ExactHeads ExactTransitions.
From S2P Require Import ExactPhases Channels BatchAttempts Store StoreChannels StoreBudget StorePrune.
From S2P Require Import StoreHistory.

(** ** Channels over time *)

(** Two keys of one store never hold the same covenant. *)
Lemma covenants_distinct sha256 s : channels_ok sha256 s ->
  forall k1 k2 c1 c2, channels (chan s) !! k1 = Some c1 -> channels (chan s) !! k2 = Some c2 ->
    toLowerCase (sv_covenantId c1) = toLowerCase (sv_covenantId c2) -> k1 = k2.
Proof.
  intros Hok k1 k2 c1 c2 H1 H2 E. pose proof (ck_covenant _ _ Hok _ _ H1). pose proof (ck_covenant _ _ Hok _ _ H2). congruence.
Qed.

(** C11. Channel state only moves forward.  Whatever methods the store's callers invoke
    after the construction, in any order, failed ones included, as long as registered channel
    ids are lower-case: a channel on record at some point stays on record, and all that happens
    to it is a sequence of steps of the abstract lane (a charge, a claim, a deposit, a
    retirement or a covenant reconciliation), each raising the version by one.  So it keeps its
    id and covenant, the charged and the signed amounts never decrease, and the version is
    unchanged only when the record is.  Every channel agrees with its covenant lineage, and no
    covenant belongs to two channels. *)
Theorem store_channels_advance sha256 blake2b other_dates limits initial s0 earlier later k c :
  new_store sha256 limits initial = Ok s0 ->
  Forall (fun c => is_lower_hash32 (sv_channelId c) = true) initial ->
  Forall (fun command => canonical_ids command.1) (earlier ++ later) ->
  let s1 := exec_all sha256 blake2b other_dates limits s0 earlier in
  let s2 := exec_all sha256 blake2b other_dates limits s1 later in
  channels (chan s1) !! k = Some c ->
  (exists c', channels (chan s2) !! k = Some c' /\ rtc (channel_step sha256) c c' /\
    sv_channelId c' = sv_channelId c /\ toLowerCase (sv_covenantId c') = toLowerCase (sv_covenantId c) /\
    (forall charged signed, 0 <= charged -> 0 <= signed ->
      sv_chargedCumulativeAmount c = toString charged -> sv_signedMaxClaimable c = toString signed ->
      exists charged' signed', charged <= charged' /\ signed <= signed' /\
        sv_chargedCumulativeAmount c' = toString charged' /\ sv_signedMaxClaimable c' = toString signed') /\
    (forall v, 0 <= v -> sv_version c = toString v ->
      exists n, 0 <= n /\ sv_version c' = toString (v + n) /\ (n = 0 -> c' = c))) /\
  (forall k' c', channels (chan s2) !! k' = Some c' ->
    assertServerChannelLineageConsistency sha256 c' = Ok tt /\
    forall k'' c'', channels (chan s2) !! k'' = Some c'' ->
      toLowerCase (sv_covenantId c') = toLowerCase (sv_covenantId c'') -> k' = k'').
Proof.
  intros Hn Hi [He Hl]%Forall_app. cbv zeta. intros Hk.
  pose proof (new_store_valid _ _ _ _ Hn Hi) as Hok0.
  destruct (exec_all_good sha256 blake2b other_dates limits s0 earlier Hok0 He) as [Hok1 _].
  destruct (exec_all_good sha256 blake2b other_dates limits _ later Hok1 Hl) as [Hok2 Hadv].
  split.
  - destruct (Hadv k c Hk) as (c' & Hk' & Hs). exists c'. destruct (rtc_identity _ _ _ Hs).
    split_and!; [done..| |]; intros; [by eapply rtc_grows|by eapply rtc_version].
  - intros k' c' Hk'. split; [by eapply ck_key|]. intros. by eapply covenants_distinct.
Qed.

(** ** A concrete server *)

Module SampleStore.

Definition launch_manifest : CovenantLaunchManifest :=
  let base := Sample.base_manifest (Sample.hash 10) (li_identitySha256 (ESCROW_V5_LAUNCH_IDENTITY toy_sha256)) in {|
  format := format base; ChainTruth.network := ChainTruth.network base; compiler := escrow_compiler; source := escrow_source;
  bytecode := escrow_bytecode; constructorSlots := INTERNAL_CONSTRUCTOR_SLOTS;
  abi := ESCROW_V5_GENERATED_DECLARATIONS; selectors := INTERNAL_SELECTORS;
  identitySha256 := identitySha256 base; genesis := genesis base |}.
Definition launch_lineage : CovenantLineageState :=
  ok_or Sample.launched (createCovenantLineageState toy_sha256 launch_manifest).

(** A channel of 1000 sompi with nothing charged. *)
Definition channel : ServerChannelRecord := {|
  sv_channelId := hash_of "c1"; sv_covenantId := Sample.covenant; sv_version := "0";
  genesisEvidence := {|
    gv_covenantId := Sample.covenant; gv_authorizingInput := Outpoint (Sample.hash 1) 0;
    genesisOutpoint := Outpoint (Sample.hash 100) 0; genesisScriptPublicKey := Sample.script; genesisAmount := "1000";
    totalOutputCount := 1; authorizedOutputCount := 1; gv_acceptance := acceptance (genesis launch_manifest) |};
  channelConfig := sample_config (hash_of "0a"); escrowAddress := "kaspatest:escrow";
  activeOutpoint := Outpoint (Sample.hash 100) 0; activeScriptPublicKey := Sample.script;
  sv_fundingAmount := "1000"; sv_chargedCumulativeAmount := "0"; sv_claimedCumulativeAmount := "0";
  sv_signedMaxClaimable := "0"; voucherSignature := Absent; lastCommitmentId := Absent;
  lineage := launch_lineage; sv_status := Active |}.

Example channel_consistent : assertServerChannelLineageConsistency toy_sha256 channel = Ok tt.
Proof. vm_compute. reflexivity. Qed.

Definition clock (n : Z) : Clock := {| iso := day "04"; now1 := n; now2 := n |}.
Definition retirement : ChannelOperationLeaseRecord := {|
  leaseId := hash_of "1e"; l_channelId := sv_channelId channel; l_covenantId := sv_covenantId channel;
  l_kind := OpRetirement; l_expected := Some channel; l_status := LeaseReserved; l_createdAt := day "04";
  l_updatedAt := day "04"; l_recoveryReason := Absent |}.
Definition retire_commands : list (StoreCommand * Clock) :=
  [(ClaimChannelOperation retirement, clock 1); (RetireChannel (sv_channelId channel) (leaseId retirement) channel, clock 2)].

Abbreviation run := (exec_all toy_sha256 toy_sha256 no_dates DEFAULT_DURABLE_STATE_LIMITS).
Definition start : Store := ok_or empty_store (new_store toy_sha256 DEFAULT_DURABLE_STATE_LIMITS [channel]).
Lemma start_new : new_store toy_sha256 DEFAULT_DURABLE_STATE_LIMITS [channel] = Ok start.
Proof. vm_compute. reflexivity. Qed.

(** A whole exact settlement, committed at time 1. *)
Definition exact_commands : list (StoreCommand * Clock) := map (fun e => (ExactCommand e.1, clock 1)) sample_events.
Definition settled : Store := run start exact_commands.
End SampleStore.
Import SampleStore.

Example retired : (fun c => (sv_version c, sv_status c)) <$> channels (chan (run start retire_commands)) !! hash_of "c1" = Some ("1", Retired).
Proof. vm_compute. reflexivity. Qed.
Example settled_payment : p_amountSompi <$> exactPayments (exact settled) !! hash_of "ab" = Some "1500".
Proof. vm_compute. reflexivity. Qed.

(** A registration under another spelling of the id replaces a live channel.
    [registerChannel] looks the id up as it is written but stores the record under its
    lower-case form: for a channel already on record, any record of the same covenant that is
    consistent by itself and whose id contains an upper-case letter is not compared with the
    one on record, but overwrites it, at whatever version, charged amount and status it has. *)
Theorem registration_can_replace sha256 s k c n :
  channels_ok sha256 s -> channels (chan s) !! k = Some c ->
  toLowerCase (sv_channelId n) = k -> sv_channelId n <> k ->
  toLowerCase (sv_covenantId n) = toLowerCase (sv_covenantId c) ->
  assertServerChannelLineageConsistency sha256 n = Ok tt ->
  let '(s', r) := registerChannel sha256 n s in
  r = Ok tt /\ channels (chan s') = <[k := n]> (channels (chan s)).
Proof.
  intros Hok Hc Hk Hne Hcov Hn. unfold registerChannel, mbind, op_bind, state.
  destruct (channels (chan s) !! sv_channelId n) as [c'|] eqn:E.
  { destruct (ck_key _ _ Hok _ _ E) as (E1 & _ & _). rewrite E1, toLowerCase_idem in Hk. congruence. }
  unfold setChannel, mbind, op_bind, lift. rewrite Hn. unfold assertChannelBinding, mbind, op_bind, state, fail_if, lift.
  pose proof (ck_covenant _ _ Hok _ _ Hc) as Hr. rewrite Hk, Hc, Hcov, Hr. unfold nonempty.
  destruct (ck_key _ _ Hok _ _ Hc) as (_ & Hk0 & _).
  rewrite (bool_decide_eq_false_2 (k = "")) by done. rewrite !bool_decide_eq_true_2 by done. done.
Qed.

(** ** Instances of the theorems *)

Lemma start_ids : Forall (fun c => is_lower_hash32 (sv_channelId c) = true) [channel].
Proof. repeat constructor. Qed.
Lemma start_valid : channels_ok toy_sha256 start.
Proof. exact (new_store_valid _ _ _ _ start_new start_ids). Qed.
Lemma settled_books : books (budget settled).
Proof. exact (proj1 (exec_all_ok _ _ _ _ exact_commands start (new_store_ok _ _ _ _ start_new))). Qed.

Lemma budget_never_exceeded_witness : budget_ok DEFAULT_DURABLE_STATE_LIMITS settled.
Proof.
  exact (budget_never_exceeded toy_sha256 toy_sha256 no_dates DEFAULT_DURABLE_STATE_LIMITS [channel] start exact_commands start_new).
Defined.

Lemma store_channels_advance_witness :
  exists c', channels (chan (run (run start []) retire_commands)) !! hash_of "c1" = Some c' /\ rtc (channel_step toy_sha256) channel c' /\
    sv_status c' = Retired.
Proof.
  destruct (store_channels_advance toy_sha256 toy_sha256 no_dates DEFAULT_DURABLE_STATE_LIMITS [channel] start []
    retire_commands (hash_of "c1") channel start_new start_ids ltac:(repeat constructor) ltac:(vm_compute; reflexivity))
    as [(c' & Hc & Hs & _) _].
  exists c'. split; [exact Hc|]. split; [exact Hs|].
  assert (sv_status <$> channels (chan (run (run start []) retire_commands)) !! hash_of "c1" = Some Retired) as E
    by (vm_compute; reflexivity).
  rewrite Hc in E. injection E as E. exact E.
Defined.

(** A day later the settled record is pruned, and the payment is still on record. *)
Lemma prune_exact_witness :
  exists due : list (string * Z), map fst due = ["exact:" +:+ hash_of "ab"] /\
    rewritten expire_payment (exactPayments (exact settled))
      (exactPayments (exact (pruneTerminalBudgetRecords DEFAULT_DURABLE_STATE_LIMITS 86400001 settled))).
Proof.
  destruct (prune_exact DEFAULT_DURABLE_STATE_LIMITS 86400001 settled settled_books) as (Hk & due & Hd & _).
  exists due. split; [|exact (kr_payments _ _ Hk)].
  assert (terminalBudgetQueue (budget (pruneTerminalBudgetRecords DEFAULT_DURABLE_STATE_LIMITS 86400001 settled)) = []) as E
    by (vm_compute; reflexivity).
  rewrite E, app_nil_r in Hd. rewrite <- Hd. vm_compute. reflexivity.
Defined.

(** A channel record as it was at registration, under the upper-case spelling of its id. *)
Definition respelled : ServerChannelRecord := channel <| sv_channelId := hash_of "C1" |>.
Lemma registration_can_replace_witness :
  channels (chan (registerChannel toy_sha256 respelled start).1) = <[hash_of "c1" := respelled]> (channels (chan start)).
Proof.
  pose proof (registration_can_replace toy_sha256 start (hash_of "c1") channel respelled start_valid
    ltac:(vm_compute; reflexivity) ltac:(vm_compute; reflexivity) ltac:(vm_compute; discriminate) ltac:(vm_compute; reflexivity)
    ltac:(vm_compute; reflexivity)) as H.
  destruct (registerChannel toy_sha256 respelled start) as [s' r]. exact (proj2 H).
Defined.
