(* ===== verification/HashChain.v ===== *)
(** * Hash-chain heads

    Models [protocol/packages/covenant/src/hash-chain.ts], [sighash.ts] and the generated
    constants ([generated/hash-chain-head-v2.ts]): the chain of guards a borrower opens link by
    link, the redeem script that carries a guard, and its witnesses.  BLAKE3, BLAKE2b and the
    secp256k1 operations of the @noble libraries are parameters; fresh randomness is an
    argument. *)

From S2P Require Import Prelude Amount Json Binary Template.

(** ** Generated constants *)

Definition HASH_CHAIN_HEAD_V2_COMPILED_BASE : string :=
  "6b2022222222222222222222222222222222222222222222222222222222222222226c7604c6e1d70587637553798201209d7552798201209d75788201419d75537953797ed9788769b2519c69b5009c69b352a269b400a069b452a169b9009c6900bd0800000000000000008769785379ac6900cf76d0519c6976d2519c6900cb519c690000cc009c6900d578876900c200bea069b4529c6351d5200000000000000000000000000000000000000000000000000000000000000000876951c200a0696854790120787eb976c902870294765193bc7c7eb976c976026582937cbc7eaa02000001aa7e01207e7c7e01877e00c3887575757575755167760460104a2387637552798201209d75788201419d75527978879169b2519c69b5009c69b352a269b400a069b452a169b9009c6900bd0800000000000000008769782056b328b30c8bf5839e24058747879408bdb36241dc9c2e7c619faa12b2920967ac6900cf76d0519c6976d2519c6900cb519c690000cc009c6900d578876900c200bea269b4529c6351d5200000000000000000000000000000000000000000000000000000000000000000876951c200a0696853790120787eb976c902870294765193bc7c7eb976c976026582937cbc7eaa02000001aa7e01207e7c7e01877e00c38875757575755167760489d59c06876375788201419d75b2519c69b5009c69b9009c69b3519c69b4519c6900bd0800000000000000008769782056b328b30c8bf5839e24058747879408bdb36241dc9c2e7c619faa12b2920967ac6900cf76d0519c6976d2009c6900cb009c6900d5200000000000000000000000000000000000000000000000000000000000000000876900c200a06900c200bea16975757551676a686868".
Definition HASH_CHAIN_HEAD_V2_SAMPLE_OWNER : string :=
  "56b328b30c8bf5839e24058747879408bdb36241dc9c2e7c619faa12b2920967".
Definition HASH_CHAIN_HEAD_V2_SAMPLE_GUARD : string :=
  "2222222222222222222222222222222222222222222222222222222222222222".
(** [HASH_CHAIN_HEAD_V2_LAYOUT] *)
Definition guardOffset : nat := 2.
Definition stateSpan : nat * nat := (1, 33)%nat.
Definition ownerOffsets : list nat := [319; 539]%nat.
(** [HASH_CHAIN_HEAD_V2_SELECTORS] *)
Definition borrow_selector : string := "c6e1d705".
Definition ownerRotate_selector : string := "60104a23".

(** ** sighash.ts *)

Definition KASPA_SIGHASH_TYPES : list Z := [1; 2; 4; 129; 130; 132].
Definition kaspaSighashType (value : Z) : result Z :=
  _ ← throw_if (negb (existsb (fun t => value =? t) KASPA_SIGHASH_TYPES)) "invalid Kaspa sighash type";
  Ok value.

(** ** Guards *)

Record HashChainHeadParams := { hp_ownerPublicKey : string; hp_guard : string }.
Record HashChainBorrowGrant := {
  revealedGuard : string;
  oneTimePublicKey : string;
  oneTimePrivateKey : string
}.

Definition fixedBytes (value label : string) : result bytes :=
  _ ← throw_if (negb (is_hash32 value)) (label +:+ " must be 32-byte hex");
  Ok (hex_decode value).

(** The module's own [pushData]. *)
Definition push_item (data : bytes) : result bytes :=
  let n := Z.of_nat (length data) in
  if n <=? 75 then Ok (concatBytes [bytes_of [n]; data])
  else if n <=? 255 then Ok (concatBytes [bytes_of [76; n]; data])
  else if n <=? 65535 then
    Ok (concatBytes [bytes_of [77; Z.land n 255; Z.shiftr n 8]; data])
  else Throw (Error "borrow witness item is too large").

Section HashChain.
Context (blake3 blake2b : bytes -> bytes).
(** [schnorr.getPublicKey] and [schnorr.utils.lift_x], which throw on invalid input. *)
Context (getPublicKey : bytes -> result bytes) (lift_x : bytes -> result ()).

(** BLAKE3 of the link and the one-time key. *)
Definition hashChainBorrowGuard (revealedGuard oneTimePublicKey : string) : result string :=
  link ← fixedBytes revealedGuard "revealedGuard";
  key ← fixedBytes oneTimePublicKey "oneTimePublicKey";
  Ok (bytesToHex (blake3 (link ++ key))).

Definition hashChainOneTimePublicKey (privateKey : string) : result string :=
  secret ← fixedBytes privateKey "oneTimePrivateKey";
  key ← getPublicKey secret;
  Ok (bytesToHex key).

(** The loop state: the guard so far and the releases, oldest first. *)
Definition next_guard (state : string * list (string * string)) (publicKey : string) :
    result (string * list (string * string)) :=
  let '(guard, forward) := state in
  g ← hashChainBorrowGuard guard publicKey;
  Ok (g, forward ++ [(guard, toLowerCase publicKey)]).
Definition prepareHashChainBorrowGuards (seed : string) (oneTimePublicKeys : list string) :
    result (string * list (string * string)) :=
  _ ← throw_if (match oneTimePublicKeys with [] => true | _ => false end) "hash chain requires a one-time key";
  seed ← fixedBytes seed "seed";
  '(initialGuard, forward) ← fold_result next_guard oneTimePublicKeys (bytesToHex seed, []);
  Ok (initialGuard, rev forward).

(** [seed] and [privateKeys] are the [count + 1] fresh secrets. *)
Definition generateHashChainBorrowGrants (count : Z) (seed : bytes) (privateKeys : list bytes) :
    result (string * list HashChainBorrowGrant) :=
  _ ← throw_if (negb (isSafeInteger count) || (count <? 1) || (1024 <? count))
        "grant count must be an integer from 1 to 1024";
  publicKeys ← fold_result (fun l k => p ← getPublicKey k; Ok (l ++ [bytesToHex p])) privateKeys [];
  '(initialGuard, releases) ← prepareHashChainBorrowGuards (bytesToHex seed) publicKeys;
  Ok (initialGuard, zip_with (fun r k => {| revealedGuard := r.1; oneTimePublicKey := r.2; oneTimePrivateKey := bytesToHex k |})
                      releases (rev privateKeys)).

(** ** The redeem script *)

Definition slot_at (offset : nat) (script : bytes) : bytes := take 32 (drop offset script).
Definition put_owner (owner : bytes) (script : bytes) (offset : nat) : result bytes :=
  _ ← throw_if (slot_at offset script !== hex_decode HASH_CHAIN_HEAD_V2_SAMPLE_OWNER)
        "pinned owner constructor slot changed";
  Ok (set_bytes offset owner script).
Definition buildHashChainHeadRedeemScript (params : HashChainHeadParams) : result string :=
  owner ← fixedBytes (hp_ownerPublicKey params) "ownerPublicKey";
  _ ← lift_x owner;
  guard ← fixedBytes (hp_guard params) "guard";
  script ← fold_result (put_owner owner) ownerOffsets (hex_decode HASH_CHAIN_HEAD_V2_COMPILED_BASE);
  _ ← throw_if (slot_at guardOffset script !== hex_decode HASH_CHAIN_HEAD_V2_SAMPLE_GUARD)
        "pinned guard state slot changed";
  Ok (bytesToHex (set_bytes guardOffset guard script)).

Definition hashChainHeadScriptPublicKey (params : HashChainHeadParams) : result string :=
  script ← buildHashChainHeadRedeemScript params;
  spk ← payToScriptHashScript blake2b script;
  serializedScriptPublicKey spk.

Definition parseHashChainHeadRedeemScript (redeemScript : string) : result HashChainHeadParams :=
  _ ← throw_if (negb (is_byte_hex redeemScript)) "invalid hash-chain redeem script hex";
  let script := hex_decode redeemScript in
  _ ← throw_if (negb (length script =? length (hex_decode HASH_CHAIN_HEAD_V2_COMPILED_BASE))%nat)
        "hash-chain redeem script has the wrong length";
  let params := {| hp_ownerPublicKey := bytesToHex (slot_at 319 script); hp_guard := bytesToHex (slot_at guardOffset script) |} in
  built ← buildHashChainHeadRedeemScript params;
  _ ← throw_if (built !== toLowerCase redeemScript) "hash-chain redeem script does not match the pinned artifact";
  Ok params.

(** ** Witnesses *)

Record BorrowWitness := {
  bw_revealedGuard : string;
  bw_oneTimePublicKey : string;
  bw_signature : string;
  bw_sighashType : option Z;
  bw_redeemScript : string
}.
Definition is_signature (s : string) : bool := (byte_length s =? 128) && string_forall is_hex s.
Definition buildHashChainBorrowSignatureScript (input : BorrowWitness) : result string :=
  _ ← parseHashChainHeadRedeemScript (bw_redeemScript input);
  _ ← throw_if (negb (is_signature (bw_signature input))) "borrow signature must be 64-byte Schnorr hex";
  guard ← fixedBytes (bw_revealedGuard input) "revealedGuard";
  p1 ← push_item guard;
  key ← fixedBytes (bw_oneTimePublicKey input) "oneTimePublicKey";
  p2 ← push_item key;
  t ← kaspaSighashType (default 1 (bw_sighashType input));
  p3 ← push_item (hex_decode (bw_signature input) ++ bytes_of [t]);
  p4 ← push_item (hex_decode borrow_selector);
  p5 ← push_item (hex_decode (bw_redeemScript input));
  Ok (bytesToHex (concatBytes [p1; p2; p3; p4; p5])).

Record RotationWitness := {
  rw_newGuard : string;
  rw_signature : string;
  rw_sighashType : option Z;
  rw_redeemScript : string
}.
Definition buildHashChainOwnerRotationSignatureScript (input : RotationWitness) : result string :=
  _ ← parseHashChainHeadRedeemScript (rw_redeemScript input);
  _ ← throw_if (negb (is_signature (rw_signature input))) "owner rotation signature must be 64-byte Schnorr hex";
  guard ← fixedBytes (rw_newGuard input) "newGuard";
  p1 ← push_item guard;
  t ← kaspaSighashType (default 1 (rw_sighashType input));
  p2 ← push_item (hex_decode (rw_signature input) ++ bytes_of [t]);
  p3 ← push_item (hex_decode ownerRotate_selector);
  p4 ← push_item (hex_decode (rw_redeemScript input));
  Ok (bytesToHex (concatBytes [p1; p2; p3; p4])).

Definition hashChainHeadTemplateHash (ownerPublicKey : string) : result string :=
  built ← buildHashChainHeadRedeemScript
            {| hp_ownerPublicKey := ownerPublicKey; hp_guard := HASH_CHAIN_HEAD_V2_SAMPLE_GUARD |};
  let script := hex_decode built in
  let prefix := take stateSpan.1 script in
  let suffix := drop (stateSpan.1 + stateSpan.2) script in
  Ok (bytesToHex (blake3 (concatBytes [little_endian 8 (Z.of_nat (length prefix)); prefix;
                                       little_endian 8 (Z.of_nat (length suffix)); suffix]))).
End HashChain.

(** * Theorems *)

Lemma fixedBytes_ok value label b :
  fixedBytes value label = Ok b <-> b = hex_decode value /\ is_hash32 value = true.
Proof.
  unfold fixedBytes. split.
  - intros H. apply bind_ok in H as ([] & H & [= <-]). apply throw_if_ok, negb_false_iff in H. done.
  - intros [-> ->]. done.
Qed.
Lemma hash32_hex s : is_hash32 s = true -> HEX_BYTE_PATTERN s = true /\ length (hex_decode s) = 32%nat.
Proof.
  unfold is_hash32. intros [Hx Hl%Z.eqb_eq]%andb_true_iff.
  assert (HEX_BYTE_PATTERN s = true) as H by (unfold HEX_BYTE_PATTERN; by rewrite Hx, Hl).
  split; [done|]. apply hex_decode_length in H. lia.
Qed.
Lemma hash32_of_bytes b : length b = 32%nat -> is_hash32 (bytesToHex b) = true.
Proof.
  intros H. unfold is_hash32. rewrite bytesToHex_length, H, lower_hex_hex by apply bytesToHex_lower. done.
Qed.
Lemma toLowerCase_hex b : toLowerCase (bytesToHex b) = bytesToHex b.
Proof. apply toLowerCase_lower, bytesToHex_lower. Qed.

(** ** Slots of the script *)

Definition in_slot (o i : nat) : Prop := (o <= i < o + 32)%nat.
Lemma slot_lookup o s i : (o + 32 <= length s)%nat ->
  slot_at o s !! i = if decide (i < 32)%nat then s !! (o + i)%nat else None.
Proof.
  intros H. unfold slot_at. destruct (decide (i < 32)%nat).
  - by rewrite lookup_take_lt, lookup_drop by done.
  - apply lookup_ge_None. rewrite length_take, length_drop. lia.
Qed.
Lemma put_slot o v s : length v = 32%nat -> (o + 32 <= length s)%nat ->
  length (set_bytes o v s) = length s /\ slot_at o (set_bytes o v s) = v /\
  forall o', (o' + 32 <= o \/ o + 32 <= o')%nat -> (o' + 32 <= length s)%nat -> slot_at o' (set_bytes o v s) = slot_at o' s.
Proof.
  intros Hv Hs. assert (in_bounds (length s) (o, v)) as Hb by (unfold in_bounds; cbn; lia).
  assert (length (set_bytes o v s) = length s) as Hl by apply (set_bytes_lookup (o, v) s 0 Hb).
  split; [done|]. split.
  - apply list_eq. intros i. rewrite slot_lookup by lia. destruct (set_bytes_lookup (o, v) s (o + i) Hb) as [H _].
    cbn [fst snd] in H. destruct (decide (i < 32)%nat) as [Hi|Hi].
    + rewrite H. rewrite decide_True by (unfold touches; cbn; lia). f_equal. lia.
    + symmetry. apply lookup_ge_None. lia.
  - intros o' Ho Hs'. apply list_eq. intros i. rewrite !slot_lookup by lia. destruct (decide (i < 32)%nat) as [Hi|Hi]; [|done].
    destruct (set_bytes_lookup (o, v) s (o' + i) Hb) as [H _]. cbn [fst snd] in H. rewrite H.
    by rewrite decide_False by (unfold touches; cbn; lia).
Qed.
Lemma put_same o v w s : length v = 32%nat -> length w = 32%nat -> (o + 32 <= length s)%nat ->
  set_bytes o w (set_bytes o v s) = set_bytes o w s.
Proof.
  intros Hv Hw Hs. unfold set_bytes. rewrite Hv, Hw. rewrite take_app_le by (rewrite length_take; lia).
  rewrite take_take, Nat.min_id. do 2 f_equal. rewrite drop_app_ge by (rewrite length_take; lia).
  rewrite drop_app_ge by (rewrite length_take; lia). rewrite drop_drop, length_take. f_equal. lia.
Qed.

Definition base_script : bytes := hex_decode HASH_CHAIN_HEAD_V2_COMPILED_BASE.
Lemma base_length : length base_script = 647%nat.
Proof. reflexivity. Qed.

(** The built script: the owner in both constructor slots, the guard in the state slot. *)
Definition head_script (owner guard : bytes) : bytes :=
  set_bytes 2 guard (set_bytes 539 owner (set_bytes 319 owner base_script)).

Section Theorems.
Context (blake3 blake2b : bytes -> bytes) (getPublicKey : bytes -> result bytes) (lift_x : bytes -> result ()).
#[local] Abbreviation build := (buildHashChainHeadRedeemScript lift_x).
#[local] Abbreviation parse := (parseHashChainHeadRedeemScript lift_x).
#[local] Abbreviation guard_of := (hashChainBorrowGuard blake3).

Lemma head_script_slots owner guard : length owner = 32%nat -> length guard = 32%nat ->
  length (head_script owner guard) = 647%nat /\ slot_at 319 (head_script owner guard) = owner /\
  slot_at 539 (head_script owner guard) = owner /\ slot_at 2 (head_script owner guard) = guard.
Proof using.
  intros Ho Hg. unfold head_script. pose proof base_length as Hb.
  destruct (put_slot 319 owner base_script Ho ltac:(lia)) as (L1 & A1 & B1). set (s1 := set_bytes 319 owner base_script) in *.
  destruct (put_slot 539 owner s1 Ho ltac:(lia)) as (L2 & A2 & B2). set (s2 := set_bytes 539 owner s1) in *.
  destruct (put_slot 2 guard s2 Hg ltac:(lia)) as (L3 & A3 & B3).
  split; [lia|]. split; [rewrite B3, B2 by lia; done|]. split; [rewrite B3 by lia; done|done].
Qed.

Lemma build_ok p s : build p = Ok s <->
  is_hash32 (hp_ownerPublicKey p) = true /\ is_hash32 (hp_guard p) = true /\ lift_x (hex_decode (hp_ownerPublicKey p)) = Ok tt /\
  s = bytesToHex (head_script (hex_decode (hp_ownerPublicKey p)) (hex_decode (hp_guard p))).
Proof using.
  unfold buildHashChainHeadRedeemScript. rewrite bind_ok. setoid_rewrite fixedBytes_ok.
  assert (forall owner guard, length owner = 32%nat ->
    (script ← fold_result (put_owner owner) ownerOffsets base_script;
     _ ← throw_if (slot_at guardOffset script !== hex_decode HASH_CHAIN_HEAD_V2_SAMPLE_GUARD) "pinned guard state slot changed";
     Ok (bytesToHex (set_bytes guardOffset guard script))) = Ok (bytesToHex (head_script owner guard))) as Hbuild.
  { intros owner guard Ho. pose proof base_length as Hb.
    destruct (put_slot 319 owner base_script Ho ltac:(lia)) as (L1 & A1 & B1).
    destruct (put_slot 539 owner (set_bytes 319 owner base_script) Ho ltac:(lia)) as (L2 & A2 & B2).
    unfold ownerOffsets, fold_result, put_owner.
    change (slot_at 319 base_script) with (hex_decode HASH_CHAIN_HEAD_V2_SAMPLE_OWNER).
    rewrite bool_decide_eq_true_2 by done. cbn [negb throw_if mbind result_bind].
    rewrite (B1 539%nat) by lia. change (slot_at 539 base_script) with (hex_decode HASH_CHAIN_HEAD_V2_SAMPLE_OWNER).
    rewrite bool_decide_eq_true_2 by done. cbn [negb throw_if mbind result_bind].
    rewrite (B2 guardOffset), (B1 guardOffset) by (unfold guardOffset; lia).
    change (slot_at guardOffset base_script) with (hex_decode HASH_CHAIN_HEAD_V2_SAMPLE_GUARD).
    rewrite bool_decide_eq_true_2 by done. done. }
  split.
  - intros (owner & [-> Ho] & H). apply bind_ok in H as ([] & Hl & H). apply bind_ok in H as (g & [-> Hg]%fixedBytes_ok & H).
    fold base_script in H. rewrite Hbuild in H by apply (hash32_hex _ Ho). by apply Ok_inj in H as <-.
  - intros (Ho & Hg & Hl & ->). eexists. split; [done|]. rewrite Hl. cbn [mbind result_bind].
    rewrite (proj2 (fixedBytes_ok (hp_guard p) "guard" _)) by done. cbn [mbind result_bind].
    fold base_script. apply Hbuild. by apply hash32_hex.
Qed.

Lemma lower_pattern s : string_forall is_hex (toLowerCase s) = true -> string_forall is_hex s = true.
Proof using.
  induction s as [|c s IH]; cbn [toLowerCase string_forall]; [done|]. intros [Hc Hs]%andb_true_iff.
  rewrite IH by done. rewrite andb_true_r. destruct c as [[] [] [] [] [] [] [] []]; vm_compute in Hc |- *; done.
Qed.

(** C26. The hash-chain script parser accepts exactly the scripts the builder writes,
    in either hexadecimal case, and returns their owner and guard: a text parses to lower-case
    parameters exactly when those parameters, whose owner is a curve point, build its
    lower-case form.  So a script with any other byte changed is refused, and two accepted
    scripts with the same owner and guard are the same script. *)
Theorem hash_chain_script_exact s p :
  parse s = Ok p <->
  is_lower_hash32 (hp_ownerPublicKey p) = true /\ is_lower_hash32 (hp_guard p) = true /\ build p = Ok (toLowerCase s).
Proof using.
  unfold parseHashChainHeadRedeemScript. split.
  - intros H. apply bind_ok in H as ([] & Hp%throw_if_ok & H). apply bind_ok in H as ([] & Hl%throw_if_ok & H).
    inv_bool. apply Nat.eqb_eq in Hl. fold base_script in Hl. rewrite base_length in Hl.
    apply bind_ok in H as (built & Hb & H). apply bind_ok in H as ([] & He%throw_if_ok & [= <-]). inv_bool. subst built.
    assert (forall o, (o + 32 <= 647)%nat -> is_lower_hash32 (bytesToHex (slot_at o (hex_decode s))) = true) as Hs.
    { intros o Ho. unfold is_lower_hash32, slot_at. rewrite bytesToHex_lower, bytesToHex_length, length_take, length_drop, Hl.
      apply Z.eqb_eq. lia. }
    split_and!; [by apply Hs; lia|by apply Hs; unfold guardOffset; lia|done].
  - intros (Ho & Hg & Hb). pose proof Hb as Hb'. apply build_ok in Hb as (Ho' & Hg' & _ & E).
    destruct (hash32_hex _ Ho') as [_ Lo], (hash32_hex _ Hg') as [_ Lg].
    destruct (head_script_slots _ _ Lo Lg) as (L & S1 & _ & S2).
    assert (HEX_BYTE_PATTERN (toLowerCase s) = true) as Hx.
    { rewrite E. unfold HEX_BYTE_PATTERN. rewrite lower_hex_hex by apply bytesToHex_lower.
      rewrite bytesToHex_length, L. done. }
    assert (byte_length s = byte_length (toLowerCase s)) as Hlen.
    { clear. induction s as [|c s IH]; cbn [toLowerCase]; [done|]. by rewrite !byte_length_cons, IH. }
    assert (is_byte_hex s = true) as Hp.
    { unfold HEX_BYTE_PATTERN in Hx. apply andb_true_iff in Hx as [Hx1 Hx2]. unfold is_byte_hex.
      rewrite lower_pattern, Hlen, Hx2 by done. rewrite E, bytesToHex_length, L. done. }
    rewrite Hp. cbn [negb throw_if mbind result_bind].
    assert (hex_decode s = head_script (hex_decode (hp_ownerPublicKey p)) (hex_decode (hp_guard p))) as Ed.
    { rewrite <- (hex_decode_bytesToHex (head_script _ _)), <- E. apply hex_decode_inj; [|done|by rewrite toLowerCase_idem].
      by apply andb_true_iff in Hp as [Hp _]. }
    rewrite Ed, L. fold base_script. rewrite base_length, Nat.eqb_refl. cbn [negb throw_if mbind result_bind].
    unfold guardOffset. rewrite S1, S2.
    assert (forall k, is_lower_hash32 k = true -> bytesToHex (hex_decode k) = k) as Hk.
    { intros k [Hk Hk']%andb_true_iff. rewrite bytesToHex_hex_decode; [by apply toLowerCase_lower|].
      unfold HEX_BYTE_PATTERN. apply Z.eqb_eq in Hk'. by rewrite lower_hex_hex, Hk'. }
    rewrite !Hk by done. destruct p as [owner guard]. cbn [hp_ownerPublicKey hp_guard] in *. rewrite Hb'.
    cbn [mbind result_bind]. by rewrite bool_decide_eq_true_2.
Qed.

(** ** Chains of guards *)

(** The links, newest first, that open [guard] one after the other. *)
Fixpoint opens (guard : string) (links : list (string * string)) : Prop :=
  match links with
  | [] => True
  | (link, key) :: links => guard_of link key = Ok guard /\ opens link links
  end.

Lemma guard_lower link key g : guard_of link key = Ok g -> guard_of link (toLowerCase key) = Ok g.
Proof using.
  unfold hashChainBorrowGuard. intros H. apply bind_ok in H as (l & Hl & H). rewrite Hl. cbn [mbind result_bind].
  apply bind_ok in H as (k & [-> Hk]%fixedBytes_ok & H).
  assert (is_hash32 (toLowerCase key) = true) as Hk'.
  { destruct (hash32_hex _ Hk) as [Hx Hl']. rewrite <- bytesToHex_hex_decode by done. by apply hash32_of_bytes. }
  rewrite (proj2 (fixedBytes_ok (toLowerCase key) "oneTimePublicKey" _)) by done. cbn [mbind result_bind].
  rewrite <- H. do 4 f_equal. apply hex_decode_inj; [by apply hash32_hex..|]. apply toLowerCase_idem.
Qed.

Lemma opens_app g l1 l2 : opens g (l1 ++ l2) <->
  opens g l1 /\ opens (default g (fst <$> last l1)) l2.
Proof using.
  revert g. induction l1 as [|[link key] l1 IH]; intros g; cbn [app opens last fmap option_fmap default]; [naive_solver|].
  rewrite IH. destruct l1 as [|x l1]; [cbn; naive_solver|]. cbn [last]. 
  assert (forall d d', default d (fst <$> last (x :: l1)) = default d' (fst <$> last (x :: l1))) as E.
  { intros d d'. destruct (last (x :: l1)) eqn:E; [done|]. by apply last_None in E. }
  cbn [last] in E. rewrite (E link g). naive_solver.
Qed.

Lemma guards_open keys g0 f0 g f :
  fold_result (next_guard blake3) keys (g0, f0) = Ok (g, f) ->
  exists links, f = f0 ++ links /\ map snd links = map toLowerCase keys /\
    opens g (rev links) /\ default g (fst <$> head links) = g0 /\
    (forall l, opens g0 l -> opens g (rev links ++ l)).
Proof using.
  revert g0 f0. induction keys as [|key keys IH]; intros g0 f0; cbn [fold_result].
  - intros [= <- <-]. exists []. rewrite app_nil_r. done.
  - intros H. apply bind_ok in H as ([g1 f1] & H1 & H). unfold next_guard in H1.
    apply bind_ok in H1 as (g1' & Hg%guard_lower & [= <- <-]).
    apply IH in H as (links & -> & Hk & Ho & Hd & Hl). exists ((g0, toLowerCase key) :: links).
    rewrite <- app_assoc. cbn [app map snd rev]. rewrite Hk.
    split; [done|]. split; [done|]. split; [|split; [done|]].
    + apply (Hl [(g0, toLowerCase key)]). by cbn.
    + intros l Hl'. rewrite <- app_assoc. apply Hl. by cbn.
Qed.

(** A prepared chain opens from its initial guard: the released links, in the
    order borrowers consume them, each hash with their one-time key to the guard before them,
    down to the seed; the keys are those given, newest first.  Issuer and covenant check
    exactly this equation. *)
Theorem prepared_chain_opens seed keys guard releases :
  prepareHashChainBorrowGuards blake3 seed keys = Ok (guard, releases) ->
  opens guard releases /\ map snd releases = rev (map toLowerCase keys) /\
  (fst <$> last releases) = Some (toLowerCase seed).
Proof using.
  unfold prepareHashChainBorrowGuards. intros H. apply bind_ok in H as ([] & Hk%throw_if_ok & H).
  apply bind_ok in H as (sd & [-> Hs]%fixedBytes_ok & H). apply bind_ok in H as ([g f] & H & [= <- <-]).
  apply guards_open in H as (links & -> & Hm & Ho & Hd & _). cbn [app].
  split; [done|]. split; [by rewrite map_rev, Hm|].
  rewrite bytesToHex_hex_decode in Hd by apply (hash32_hex _ Hs).
  destruct links as [|[l k] links]; [by destruct keys|]. cbn [rev]. rewrite last_snoc. cbn in Hd |- *. by rewrite Hd.
Qed.
End Theorems.

Lemma prepared_chain_opens_witness :
  exists guard releases,
    prepareHashChainBorrowGuards toy_sha256 (String.concat "" (repeat "aB" 32))
      [String.concat "" (repeat "01" 32); String.concat "" (repeat "Fe" 32)] = Ok (guard, releases) /\
    opens toy_sha256 guard releases.
Proof.
  destruct (is_ok_value (prepareHashChainBorrowGuards toy_sha256 (String.concat "" (repeat "aB" 32))
      [String.concat "" (repeat "01" 32); String.concat "" (repeat "Fe" 32)])) as [[guard releases] E]; [vm_compute; reflexivity|].
  exists guard, releases. split; [exact E|]. exact (proj1 (prepared_chain_opens toy_sha256 _ _ _ _ E)).
Defined.
