(* ===== verification/HashChainIssuer.v ===== *)
(** * The hash-chain grant issuer: records and storage

    Models the data of [protocol/packages/server/src/hash-chain-issuer.ts]: heads with their
    chains of one-time grants, challenges, assignments, deliveries and accepted payments, the
    tables that hold them, the storage quota, and the checks on untrusted input.  Tables are
    finite maps under their primary keys.  A row is kept as the value it seals: AES-256-GCM
    decrypts what it encrypted, and sealing adds 29 bytes (version, nonce and tag).  The
    issuer's methods are in HashChainGrants.v. *)

From S2P Require Import Prelude Amount Json Binary ResourceBudget ChainTruth Template Dates HashChain.

(** ** Records *)

Inductive GrantPhase := ready | assigned | needsRotation | hold | exhausted | retired.
#[export] Instance phase_eq_dec : EqDecision GrantPhase.
Proof. solve_decision. Defined.

Record HashChainObservedHead := {
  oh_outpoint : FundingOutpoint;
  oh_amount : string;
  oh_guard : string;
  oh_scriptPublicKey : string;
  oh_covenantId : string
}.
Record HashChainCurrentUtxoObservation := {
  uo_outpoint : FundingOutpoint;
  uo_amount : string;
  uo_scriptPublicKey : string;
  uo_covenantId : option string
}.
Record HashChainGrantClaim := {
  gc_grantId : string;
  gc_challengeId : string;
  gc_requestHash : string;
  gc_payerPublicKey : string;
  gc_expiresAt : string;
  gc_signature : string
}.
Record HashChainPublicGrant := {
  pg_headId : string;
  pg_headVersion : Z;
  pg_network : string;
  pg_ownerPublicKey : string;
  pg_head : HashChainObservedHead;
  pg_grantId : string;
  pg_nextGuard : string;
  pg_oneTimePublicKey : string;
  pg_phase : GrantPhase
}.
(** A challenge stored before quotes were durable has no quoted amount. *)
Record HashChainGrantChallenge := {
  ch_headId : string;
  ch_headVersion : Z;
  ch_grantId : string;
  ch_challengeId : string;
  ch_requestHash : string;
  ch_quotedAmount : option string;
  ch_issuedAt : string;
  ch_expiresAt : string
}.
Record HashChainGrantDelivery := {
  dl_grantId : string;
  dl_headVersion : Z;
  dl_nextGuard : string;
  dl_oneTimePublicKey : string;
  dl_oneTimePrivateKey : string;
  dl_expiresAt : string;
  dl_deliveryCommittedAt : string
}.
Record HashChainGrantDeliveryRecord := {
  dr_headId : string;
  dr_headVersion : Z;
  dr_headOutpoint : FundingOutpoint;
  dr_headAmount : string;
  dr_headGuard : string;
  dr_headScriptPublicKey : string;
  dr_covenantId : string;
  dr_ownerPublicKey : string;
  dr_grantId : string;
  dr_nextGuard : string;
  dr_oneTimePublicKey : string;
  dr_challengeId : string;
  dr_challengeIssuedAt : string;
  dr_challengeExpiresAt : string;
  dr_requestHash : string;
  dr_quotedAmount : option string;
  dr_payerPublicKey : string;
  dr_claimantId : option string;
  dr_qualifyingFundingOutpoint : option FundingOutpoint;
  dr_expiresAt : string;
  dr_deliveryCommittedAt : string
}.
Record HashChainAcceptedPayment := {
  pm_transactionId : string;
  pm_grantId : string;
  pm_challengeId : string;
  pm_requestHash : string;
  pm_payerPublicKey : string;
  pm_requirementsHash : string;
  pm_paymentIdentifier : string;
  pm_amount : string;
  pm_finality : string
}.
Record HashChainAcceptedTransition := {
  tr_finality : string;
  tr_predecessor : FundingOutpoint;
  tr_successor : HashChainObservedHead
}.
Record HashChainAcceptedSweep := {
  sw_finality : string;
  sw_predecessor : FundingOutpoint;
  sw_transactionId : string;
  sameIdOutputCount : Z
}.
(** hash-chain-verifier.ts: a transaction on the selected chain *)
Record HashChainSelectedTransaction := {
  se_transactionId : string;
  se_finality : string;
  se_spentHead : FundingOutpoint;
  se_amount : string;
  se_scriptPublicKey : string;
  se_covenantId : string;
  se_authorizingInput : Z
}.

Record StoredGrant := {
  sg_grantId : string;
  sg_revealedGuard : string;
  sg_oneTimePublicKey : string;
  sg_oneTimePrivateKey : option string
}.
Record StoredChallenge := {
  publicChallenge : HashChainGrantChallenge;
  sc_admissionKey : option string
}.
Record StoredAssignment := {
  as_grantId : string;
  as_challengeId : string;
  as_requestHash : string;
  as_quotedAmount : option string;
  as_payerPublicKey : string;
  as_claimantId : option string;
  as_qualifyingFundingOutpoint : option FundingOutpoint;
  as_expiresAt : string;
  as_deliveryCommittedAt : string;
  as_candidateTransactionId : option string
}.
Record HistoryEntry := {
  hi_head : HashChainObservedHead;
  hi_grant : option StoredGrant;
  hi_exposed : bool
}.
Record StoredHead := {
  sh_headId : string;
  sh_version : Z;
  sh_network : string;
  sh_ownerPublicKey : string;
  sh_head : HashChainObservedHead;
  sh_grants : list StoredGrant;
  sh_nextIndex : nat;
  sh_phase : GrantPhase;
  sh_challenges : list StoredChallenge;
  sh_assignment : option StoredAssignment;
  sh_phaseBeforeHold : option GrantPhase;
  sh_history : list HistoryEntry
}.
#[export] Instance assignment_eta : Settable StoredAssignment := fun a =>
  Build_StoredAssignment (as_grantId a) (as_challengeId a) (as_requestHash a) (as_quotedAmount a) (as_payerPublicKey a)
    (as_claimantId a) (as_qualifyingFundingOutpoint a) (as_expiresAt a) (as_deliveryCommittedAt a)
    (as_candidateTransactionId a).
#[export] Instance head_eta : Settable StoredHead := fun h =>
  Build_StoredHead (sh_headId h) (sh_version h) (sh_network h) (sh_ownerPublicKey h) (sh_head h) (sh_grants h)
    (sh_nextIndex h) (sh_phase h) (sh_challenges h) (sh_assignment h) (sh_phaseBeforeHold h) (sh_history h).

(** [state.grants[state.nextIndex]] *)
Definition current_grant (s : StoredHead) : option StoredGrant := sh_grants s !! sh_nextIndex s.

(** ** Their JSON *)

Definition grant_phase_text (p : GrantPhase) : string :=
  match p with
  | ready => "ready" | assigned => "assigned" | needsRotation => "needsRotation" | hold => "hold"
  | exhausted => "exhausted" | retired => "retired"
  end.
Definition observed_head_json (h : HashChainObservedHead) : json :=
  JObject [("outpoint", outpoint_json (oh_outpoint h)); ("amount", JString (oh_amount h)); ("guard", JString (oh_guard h));
           ("covenantId", JString (oh_covenantId h)); ("scriptPublicKey", JString (oh_scriptPublicKey h))].
Definition stored_grant_json (g : StoredGrant) : json :=
  JObject ([("revealedGuard", JString (sg_revealedGuard g)); ("oneTimePublicKey", JString (sg_oneTimePublicKey g))]
           ++ joption "oneTimePrivateKey" JString (sg_oneTimePrivateKey g) ++ [("grantId", JString (sg_grantId g))]).
Definition challenge_json (c : StoredChallenge) : json :=
  let p := publicChallenge c in
  JObject ([("headId", JString (ch_headId p)); ("headVersion", JNumber (ch_headVersion p));
            ("grantId", JString (ch_grantId p)); ("challengeId", JString (ch_challengeId p));
            ("requestHash", JString (ch_requestHash p))] ++ joption "quotedAmount" JString (ch_quotedAmount p)
           ++ [("issuedAt", JString (ch_issuedAt p)); ("expiresAt", JString (ch_expiresAt p))]
           ++ joption "admissionKey" JString (sc_admissionKey c)).
Definition assignment_json (a : StoredAssignment) : json :=
  JObject ([("grantId", JString (as_grantId a)); ("challengeId", JString (as_challengeId a));
            ("requestHash", JString (as_requestHash a))] ++ joption "quotedAmount" JString (as_quotedAmount a)
           ++ [("payerPublicKey", JString (as_payerPublicKey a))] ++ joption "claimantId" JString (as_claimantId a)
           ++ joption "qualifyingFundingOutpoint" outpoint_json (as_qualifyingFundingOutpoint a)
           ++ [("expiresAt", JString (as_expiresAt a)); ("deliveryCommittedAt", JString (as_deliveryCommittedAt a))]
           ++ joption "candidateTransactionId" JString (as_candidateTransactionId a)).
Definition history_json (e : HistoryEntry) : json :=
  JObject ([("head", observed_head_json (hi_head e))] ++ joption "grant" stored_grant_json (hi_grant e)
           ++ [("exposed", JBool (hi_exposed e))]).
Definition stored_head_json (s : StoredHead) : json :=
  JObject ([("headId", JString (sh_headId s)); ("version", JNumber (sh_version s)); ("network", JString (sh_network s));
            ("ownerPublicKey", JString (sh_ownerPublicKey s)); ("head", observed_head_json (sh_head s));
            ("grants", JArray (map stored_grant_json (sh_grants s)));
            ("nextIndex", JNumber (Z.of_nat (sh_nextIndex s))); ("phase", JString (grant_phase_text (sh_phase s)));
            ("challenges", JArray (map challenge_json (sh_challenges s)));
            ("history", JArray (map history_json (sh_history s)))]
           ++ joption "assignment" assignment_json (sh_assignment s)
           ++ joption "phaseBeforeHold" (fun p => JString (grant_phase_text p)) (sh_phaseBeforeHold s)).
Definition delivery_record_json (d : HashChainGrantDeliveryRecord) : json :=
  JObject ([("headId", JString (dr_headId d)); ("headVersion", JNumber (dr_headVersion d));
            ("headOutpoint", outpoint_json (dr_headOutpoint d)); ("headAmount", JString (dr_headAmount d));
            ("headGuard", JString (dr_headGuard d)); ("headScriptPublicKey", JString (dr_headScriptPublicKey d));
            ("covenantId", JString (dr_covenantId d)); ("ownerPublicKey", JString (dr_ownerPublicKey d));
            ("grantId", JString (dr_grantId d)); ("nextGuard", JString (dr_nextGuard d));
            ("oneTimePublicKey", JString (dr_oneTimePublicKey d)); ("challengeId", JString (dr_challengeId d));
            ("challengeIssuedAt", JString (dr_challengeIssuedAt d));
            ("challengeExpiresAt", JString (dr_challengeExpiresAt d)); ("requestHash", JString (dr_requestHash d))]
           ++ joption "quotedAmount" JString (dr_quotedAmount d)
           ++ [("payerPublicKey", JString (dr_payerPublicKey d))] ++ joption "claimantId" JString (dr_claimantId d)
           ++ joption "qualifyingFundingOutpoint" outpoint_json (dr_qualifyingFundingOutpoint d)
           ++ [("expiresAt", JString (dr_expiresAt d)); ("deliveryCommittedAt", JString (dr_deliveryCommittedAt d))]).
Definition accepted_payment_fields (p : HashChainAcceptedPayment) (finality : string) : list (string * json) :=
  [("transactionId", JString (pm_transactionId p)); ("grantId", JString (pm_grantId p));
   ("challengeId", JString (pm_challengeId p)); ("requestHash", JString (pm_requestHash p));
   ("payerPublicKey", JString (pm_payerPublicKey p)); ("requirementsHash", JString (pm_requirementsHash p));
   ("paymentIdentifier", JString (pm_paymentIdentifier p)); ("amount", JString (pm_amount p));
   ("finality", JString finality)].
Definition accepted_payment_json (p : HashChainAcceptedPayment) : json :=
  JObject (accepted_payment_fields p (pm_finality p)).

(** ** The tables *)

Record HashChainGrantStorageLimits := { lim_maxRecords : Z; lim_maxBytes : Z }.
Record Admission := { ad_claimant : string; ad_admission : string; ad_disclosedAt : Z }.
Record Database := {
  heads : gmap string StoredHead;
  deliveries : gmap (string * string) HashChainGrantDeliveryRecord;
  payments : gmap string HashChainAcceptedPayment;
  seen_keys : gmap string string;
  admissions : gmap string Admission;
  legacy_claimants : gset string;
  capacity : HashChainGrantStorageLimits
}.
#[export] Instance database_eta : Settable Database := fun d =>
  Build_Database (heads d) (deliveries d) (payments d) (seen_keys d) (admissions d) (legacy_claimants d) (capacity d).

(** The body of a transaction: a throw rolls it back. *)
Definition tx (A : Type) : Type := Database -> result (Database * A).
#[export] Instance tx_ret : MRet tx := fun _ a d => Ok (d, a).
#[export] Instance tx_bind : MBind tx := fun _ _ k m d =>
  match m d with Ok (d', a) => k a d' | Throw e => Throw e end.
Definition tx_lift {A} (r : result A) : tx A := fun d => match r with Ok a => Ok (d, a) | Throw e => Throw e end.
Definition database : tx Database := fun d => Ok (d, d).
Definition update (f : Database -> Database) : tx () := fun d => Ok (f d, tt).
Definition tx_fail_if (b : bool) (msg : string) : tx () := tx_lift (throw_if b msg).
(** A method: the database afterwards and what it returned or threw. *)
Definition method (A : Type) : Type := Database -> Database * result A.
Definition transactionSync {A} (m : tx A) : method A := fun d =>
  match m d with Ok (d', a) => (d', Ok a) | Throw e => (d, Throw e) end.

(** ** The storage quota *)

Record HashChainGrantStorageUsage := {
  us_limits : HashChainGrantStorageLimits;
  us_records : Z;
  us_bytes : Z;
  us_reservedRecords : Z;
  us_reservedBytes : Z;
  admissionAvailable : bool
}.
Definition DEFAULT_STORAGE_LIMITS : HashChainGrantStorageLimits :=
  {| lim_maxRecords := 100000; lim_maxBytes := 64 * 1024 * 1024 |}.
Definition RECOVERY_BYTES_PER_HEAD : Z := 512 * 1024.
Definition RECOVERY_RECORDS_PER_HEAD : Z := 1025.

Definition validateStorageLimits (limits : HashChainGrantStorageLimits) : result () :=
  throw_if (negb (isSafeInteger (lim_maxRecords limits)) || (lim_maxRecords limits <? 8)
            || (1000000 <? lim_maxRecords limits) || negb (isSafeInteger (lim_maxBytes limits))
            || (lim_maxBytes limits <? 256 * 1024) || (4 * 1024 * 1024 * 1024 <? lim_maxBytes limits))
    "grant storage limits require 8 to 1000000 records and 256 KiB to 4 GiB".

(** [length(sealed)] of a JSON row *)
Definition sealed_length (j : json) : Z := 29 + byte_length (JSON_stringify j).
Definition table_bytes `{Countable K} {V} (payload : K -> V -> Z) (m : gmap K V) : Z :=
  map_fold (fun k v n => payload k v + 128 + n) 0 m.
Definition limits_json (l : HashChainGrantStorageLimits) : json :=
  JObject [("maxRecords", JNumber (lim_maxRecords l)); ("maxBytes", JNumber (lim_maxBytes l))].
Definition meta_text : string := "hash-chain-store-v1".
Definition storageUsage (d : Database) : HashChainGrantStorageUsage :=
  let limits := capacity d in
  let rows {V} (m : gmap string V) := Z.of_nat (size m) in
  let records := rows (heads d) + Z.of_nat (size (deliveries d)) + rows (payments d) + rows (seen_keys d)
                 + rows (admissions d) + Z.of_nat (size (legacy_claimants d)) + 1 + 1 in
  let bytes :=
    table_bytes (fun k v => byte_length k + sealed_length (stored_head_json v)) (heads d)
    + table_bytes (fun (k : string * string) v =>
        byte_length k.1 + byte_length k.2 + sealed_length (delivery_record_json v)) (deliveries d)
    + table_bytes (fun k v => byte_length k + byte_length (pm_grantId v) + sealed_length (accepted_payment_json v)) (payments d)
    + table_bytes (fun k v => byte_length k + byte_length v) (seen_keys d)
    + table_bytes (fun k v => byte_length k + byte_length (ad_claimant v) + byte_length (ad_admission v) + 8) (admissions d)
    + set_fold (fun k n => byte_length k + 128 + n) 0 (legacy_claimants d)
    + (29 + byte_length meta_text + 8 + 128) + (sealed_length (limits_json limits) + 8 + 128) in
  let reservedRecords := rows (heads d) * RECOVERY_RECORDS_PER_HEAD in
  let reservedBytes := rows (heads d) * RECOVERY_BYTES_PER_HEAD in
  {| us_limits := limits; us_records := records; us_bytes := bytes; us_reservedRecords := reservedRecords;
     us_reservedBytes := reservedBytes;
     admissionAvailable := (records + reservedRecords <? lim_maxRecords limits) && (bytes + reservedBytes <? lim_maxBytes limits) |}.

(** [HashChainStorageCapacityError] *)
Definition capacity_error (scope : string) : error :=
  KaspaX402Error "HASH_CHAIN_STORAGE_CAPACITY" ("hash-chain persistent " +:+ scope +:+ " capacity exhausted").
Definition assertStorageCapacity (usage : HashChainGrantStorageUsage) (reserve : bool) : result () :=
  if lim_maxRecords (us_limits usage) <? us_records usage + (if reserve then us_reservedRecords usage else 0)
  then Throw (capacity_error "records")
  else if lim_maxBytes (us_limits usage) <? us_bytes usage + (if reserve then us_reservedBytes usage else 0)
  then Throw (capacity_error "bytes")
  else Ok tt.

(** [fromStorage] on an empty database *)
Definition new_database (storageLimits : option HashChainGrantStorageLimits) : result Database :=
  _ ← match storageLimits with Some l => validateStorageLimits l | None => Ok tt end;
  let d := {| heads := ∅; deliveries := ∅; payments := ∅; seen_keys := ∅; admissions := ∅; legacy_claimants := ∅;
              capacity := default DEFAULT_STORAGE_LIMITS storageLimits |} in
  _ ← assertStorageCapacity (storageUsage d) true;
  Ok d.

(** ** Checks of input *)

Definition hex32 (value label : string) : result string :=
  _ ← throw_if (negb (is_lower_hash32 value)) (label +:+ " must be lowercase 32-byte hex");
  Ok value.
Definition canonicalAmount (value : string) : result string :=
  _ ← throw_if (negb (canonical_decimal value) || (dec_value value =? 0) || (U64_MAX <? dec_value value))
        "head amount must be a positive canonical uint64 string";
  Ok value.
Definition canonicalVersion (value : string) : result string :=
  _ ← throw_if (negb (canonical_decimal value) || (MAX_SAFE_INTEGER <? dec_value value))
        "head version must be a canonical safe-integer string";
  Ok value.
Definition same_outpoint (a b : FundingOutpoint) : bool := (txid a === txid b) && (index a === index b).
Definition sameHead (a b : HashChainObservedHead) : bool :=
  same_outpoint (oh_outpoint a) (oh_outpoint b) && (oh_amount a === oh_amount b) && (oh_guard a === oh_guard b)
  && (oh_scriptPublicKey a === oh_scriptPublicKey b) && (oh_covenantId a === oh_covenantId b).
Definition currentUtxoMatches (observed : option HashChainCurrentUtxoObservation) (expected : HashChainObservedHead) : bool :=
  match observed with
  | None => false
  | Some o =>
      (toLowerCase (txid (uo_outpoint o)) === txid (oh_outpoint expected))
      && (index (uo_outpoint o) === index (oh_outpoint expected)) && (uo_amount o === oh_amount expected)
      && (toLowerCase (uo_scriptPublicKey o) === oh_scriptPublicKey expected)
      && ((toLowerCase <$> uo_covenantId o) === Some (oh_covenantId expected))
  end.
Definition normalizeOutpoint (o : FundingOutpoint) : result FundingOutpoint :=
  _ ← throw_if (index o !== 0) "head outpoint must be output zero";
  t ← hex32 (txid o) "head txid";
  Ok (Outpoint t 0).

Definition publicGrant (s : StoredHead) : HashChainPublicGrant :=
  let grant := current_grant s in
  {| pg_headId := sh_headId s; pg_headVersion := sh_version s; pg_network := sh_network s;
     pg_ownerPublicKey := sh_ownerPublicKey s; pg_head := sh_head s;
     pg_grantId := from_option sg_grantId "" grant; pg_nextGuard := from_option sg_revealedGuard "" grant;
     pg_oneTimePublicKey := from_option sg_oneTimePublicKey "" grant; pg_phase := sh_phase s |}.
Definition publicRecoveryGrant (g : StoredGrant) : StoredGrant :=
  {| sg_grantId := sg_grantId g; sg_revealedGuard := sg_revealedGuard g; sg_oneTimePublicKey := sg_oneTimePublicKey g;
     sg_oneTimePrivateKey := None |}.
Definition assertSupportedGrantNetwork (network : string) (allowMainnet : bool) : result () :=
  throw_if ((network !== "kaspa:testnet-10") && negb (allowMainnet && (network === "kaspa:mainnet")))
    "unsupported grant network; mainnet requires allowMainnet".
(** A value that is used only when truthy. *)
Definition quoted (o : option string) : bool := match o with Some s => s !== "" | None => false end.
Definition nonempty_key (o : option string) : option string :=
  match o with Some s => if s === "" then None else Some s | None => None end.
(** [Date.parse(text) < bound], false on [NaN] *)
Definition before (t : option Z) (bound : Z) : bool := match t with Some t => t <? bound | None => false end.
