(* ===== verification/HashChainGrants.v ===== *)
(** * The hash-chain grant issuer: methods

    Models [HashChainGrantIssuer] of [protocol/packages/server/src/hash-chain-issuer.ts].  A
    method that writes runs its body in one transaction ([mutate]).  A method that awaits a
    chain observation is split at the await: what was captured before it is an argument of
    the part after it, so that other methods can run in between.  Fresh random ids and clock
    readings are arguments; the HMAC of the encryption key, the curve operations and the
    host's admission policy are parameters. *)

From S2P Require Import Prelude Amount Json Binary ResourceBudget ChainTruth Template Dates HashChain HashChainIssuer.

(** How a mutation is charged against the recovery reserve. *)
Inductive MutationMode := allocate | recover | claim.
Inductive AdvanceKind := borrow | rotate.
#[export] Instance mode_eq_dec : EqDecision MutationMode.
Proof. solve_decision. Defined.
#[export] Instance advance_kind_eq_dec : EqDecision AdvanceKind.
Proof. solve_decision. Defined.

(** The clock readings of one method, in order. *)
Record Readings := { first_now : Z; second_now : Z; third_now : Z }.

Record InstallInput := {
  in_headId : string;
  in_network : string;
  in_ownerPublicKey : string;
  in_head : HashChainObservedHead;
  in_grants : list HashChainBorrowGrant
}.
Record CandidateInput := {
  cd_headId : string;
  cd_headVersion : string;
  cd_grantId : string;
  cd_challengeId : string;
  cd_requestHash : string;
  cd_payerPublicKey : string;
  cd_transactionId : string
}.
(** What [#authorizeGrantClaim] captures for the later commit. *)
Record AuthorizedClaim := {
  au_headId : string;
  au_claim : HashChainGrantClaim;
  au_version : Z;
  au_head : HashChainObservedHead;
  au_admissionKey : string;
  au_current : HashChainPublicGrant;
  au_needsQualification : bool
}.

(** What an issuer is opened with: the libraries it calls, the host's options and policy. *)
Class IssuerHost := {
  sha256 : bytes -> bytes;
  blake3 : bytes -> bytes;
  blake2b : bytes -> bytes;
  (** @noble [schnorr.getPublicKey], [lift_x] and [verify(signature, digest, publicKey)] *)
  getPublicKey : bytes -> result bytes;
  lift_x : bytes -> result ();
  verify : bytes -> bytes -> bytes -> bool;
  (** HMAC-SHA-256 under the encryption key *)
  hmac : bytes -> bytes;
  other_dates : string -> option Z;
  allowMainnet : bool;
  maxLiveChallengesPerAdmissionKey : Z;
  (** [admissionPolicy]; a missing preflight accepts. *)
  maxGrantsPerClaimant : Z;
  windowSeconds : Z;
  preflight : HashChainGrantClaim -> HashChainPublicGrant -> bool;
  (** [database.configureStorageCapacity] *)
  configureStorageCapacity : Z -> result ()
}.

Section Issuer.
Context {host : IssuerHost}.

Definition parse_date (s : string) : option Z := Date_parse other_dates s.
Definition fingerprint (text : string) : string := bytesToHex (hmac (utf8Bytes text)).
Definition grantKeyFingerprint (publicKey : string) : string := bytesToHex (hmac (hex_decode publicKey)).
Definition headScript (ownerPublicKey guard : string) : result string :=
  hashChainHeadScriptPublicKey blake2b lift_x {| hp_ownerPublicKey := ownerPublicKey; hp_guard := guard |}.

(** ** Normalization *)

Definition hashChainGrantClaimDigest (network : string) (c : HashChainGrantClaim) : result bytes :=
  text ← stableStringify (JObject
    [("scope", JString "kaspa-x402-hash-chain-grant-claim-v1"); ("network", JString network);
     ("binding", JString "kaspa-hash-chain-exact-v1"); ("grantId", JString (gc_grantId c));
     ("challengeId", JString (gc_challengeId c)); ("requestHash", JString (gc_requestHash c));
     ("payerPublicKey", JString (gc_payerPublicKey c)); ("expiresAt", JString (gc_expiresAt c))]);
  Ok (sha256 (utf8Bytes text)).

(** [grantId] is fresh. *)
Definition normalizeGrant (grant : HashChainBorrowGrant) (grantId : string) : result StoredGrant :=
  guard ← hex32 (revealedGuard grant) "revealedGuard";
  public ← hex32 (oneTimePublicKey grant) "oneTimePublicKey";
  private ← hex32 (oneTimePrivateKey grant) "oneTimePrivateKey";
  derived ← getPublicKey (hex_decode private);
  _ ← throw_if (bytesToHex derived !== public) "one-time private key does not match public key";
  Ok {| sg_grantId := grantId; sg_revealedGuard := guard; sg_oneTimePublicKey := public;
        sg_oneTimePrivateKey := Some private |}.
Definition normalizeGrants (grants : list HashChainBorrowGrant) (fresh : nat -> string) : result (list StoredGrant) :=
  fold_result (fun l grant => g ← normalizeGrant grant (fresh (length l)); Ok (l ++ [g])) grants [].

Definition normalizeHead (head : HashChainObservedHead) (ownerPublicKey : string) : result HashChainObservedHead :=
  outpoint ← normalizeOutpoint (oh_outpoint head);
  amount ← canonicalAmount (oh_amount head);
  guard ← hex32 (oh_guard head) "guard";
  covenantId ← hex32 (oh_covenantId head) "covenantId";
  _ ← throw_if (string_forall (in_range 48 48) covenantId) "covenantId must be nonzero";
  scriptPublicKey ← headScript ownerPublicKey guard;
  _ ← throw_if (toLowerCase (oh_scriptPublicKey head) !== scriptPublicKey)
        "head script does not match pinned covenant and guard";
  Ok {| oh_outpoint := outpoint; oh_amount := amount; oh_guard := guard; oh_covenantId := covenantId;
        oh_scriptPublicKey := scriptPublicKey |}.

Definition normalizeClaim (c : HashChainGrantClaim) : result HashChainGrantClaim :=
  let canonical := match parse_date (gc_expiresAt c) with
    | Some t => match toISOString t with Ok text => text === gc_expiresAt c | Throw _ => false end
    | None => false
    end in
  _ ← throw_if (negb canonical) "grant claim expiry must be canonical UTC ISO time";
  _ ← throw_if (negb (string_forall is_lower_hex (gc_signature c) && (byte_length (gc_signature c) =? 128)))
        "grant signature must be lowercase 64-byte hex";
  grantId ← hex32 (gc_grantId c) "grantId";
  challengeId ← hex32 (gc_challengeId c) "challengeId";
  requestHash ← hex32 (gc_requestHash c) "requestHash";
  payerPublicKey ← hex32 (gc_payerPublicKey c) "payerPublicKey";
  Ok {| gc_grantId := grantId; gc_challengeId := challengeId; gc_requestHash := requestHash;
        gc_payerPublicKey := payerPublicKey; gc_expiresAt := gc_expiresAt c; gc_signature := gc_signature c |}.

(** The stored assignment is the one the claim asks for. *)
Definition tuple_matches (a : StoredAssignment) (c : HashChainGrantClaim) : bool :=
  (as_grantId a === gc_grantId c) && (as_challengeId a === gc_challengeId c)
  && (as_requestHash a === gc_requestHash c) && (as_payerPublicKey a === gc_payerPublicKey c)
  && (as_expiresAt a === gc_expiresAt c).

Definition inspectGrantClaim (s : StoredHead) (c : HashChainGrantClaim) (now : Z) :
    result (StoredGrant * string * StoredChallenge) :=
  _ ← throw_if ((sh_phase s !== ready) && (sh_phase s !== assigned)) "current grant is unavailable";
  match current_grant s, find (fun item => ch_challengeId (publicChallenge item) === gc_challengeId c) (sh_challenges s) with
  | Some grant, Some challenge =>
      match nonempty_key (sg_oneTimePrivateKey grant) with
      | None => Throw (Error "grant claim does not match a live challenge")
      | Some private =>
          let p := publicChallenge challenge in
          _ ← throw_if ((ch_headVersion p !== sh_version s) || (ch_grantId p !== sg_grantId grant)
                        || (ch_requestHash p !== gc_requestHash c) || (gc_grantId c !== sg_grantId grant)
                        || (negb (quoted (ch_quotedAmount p)) && isNone (sh_assignment s))
                        || before (parse_date (ch_expiresAt p)) now || before (parse_date (gc_expiresAt c)) now
                        || match parse_date (gc_expiresAt c) with
                           | Some t => before (parse_date (ch_expiresAt p)) t
                           | None => false
                           end) "grant claim does not match a live challenge";
          digest ← hashChainGrantClaimDigest (sh_network s) c;
          _ ← throw_if (negb (verify (hex_decode (gc_signature c)) digest (hex_decode (gc_payerPublicKey c))))
                "invalid grant payer signature";
          _ ← throw_if (match sh_assignment s with Some a => negb (tuple_matches a c) | None => false end)
                "grant is assigned to another payer or request";
          Ok (grant, private, challenge)
      end
  | _, _ => Throw (Error "grant claim does not match a live challenge")
  end.

(** ** Transactions on one head *)

Definition readStorageLimits : tx HashChainGrantStorageLimits :=
  d ← database; _ ← tx_lift (validateStorageLimits (capacity d)); mret (capacity d).
Definition usage : tx HashChainGrantStorageUsage :=
  _ ← readStorageLimits; d ← database; mret (storageUsage d).

Definition read (headId : string) : tx StoredHead :=
  d ← database;
  match heads d !! headId with
  | None => tx_lift (Throw (Error "grant head is missing"))
  | Some s =>
      _ ← tx_lift (assertSupportedGrantNetwork (sh_network s) allowMainnet);
      _ ← tx_fail_if (match sh_assignment s with
                      | Some a => isNone (as_claimantId a) !== isNone (as_qualifyingFundingOutpoint a)
                      | None => false
                      end) "grant state has incomplete admission qualification";
      mret s
  end.

Definition mutate {T} (headId : string) (mode : MutationMode)
    (change : option StoredHead -> tx (StoredHead * T)) : tx T :=
  limits ← readStorageLimits;
  _ ← tx_lift (configureStorageCapacity (lim_maxBytes limits));
  d ← database;
  let current := heads d !! headId in
  _ ← tx_lift (match current with Some s => assertSupportedGrantNetwork (sh_network s) allowMainnet | None => Ok tt end);
  let wasAssigned := isSome (current ≫= sh_assignment) in
  '(next, result) ← change current;
  _ ← update (fun d => d <| heads := <[headId := next]> (heads d) |>);
  u ← usage;
  _ ← tx_lift (assertStorageCapacity u ((mode === allocate) || ((mode === claim) && negb wasAssigned)));
  mret result.
(** A mutation of a head that must exist. *)
Definition on_head {T} (msg : string) (change : StoredHead -> tx (StoredHead * T)) (current : option StoredHead) :
    tx (StoredHead * T) :=
  match current with Some s => change s | None => tx_lift (Throw (Error msg)) end.
Definition with_public (s : StoredHead) : tx (StoredHead * HashChainPublicGrant) := mret (s, publicGrant s).

(** Every key is remembered; true when one was known already. *)
Fixpoint rememberGrantKeys (headId : string) (grants : list StoredGrant) : tx bool :=
  match grants with
  | [] => mret false
  | g :: grants =>
      let f := grantKeyFingerprint (sg_oneTimePublicKey g) in
      d ← database;
      if isSome (seen_keys d !! f) then _ ← rememberGrantKeys headId grants; mret true
      else
        _ ← update (fun d => d <| seen_keys := <[f := headId]> (seen_keys d) |>);
        rememberGrantKeys headId grants
  end.

(** ** Storage administration *)

Definition getStorageUsage : tx HashChainGrantStorageUsage := usage.
Definition increaseStorageLimits (limits : HashChainGrantStorageLimits) : tx HashChainGrantStorageUsage :=
  _ ← tx_lift (validateStorageLimits limits);
  current ← readStorageLimits;
  _ ← tx_fail_if ((lim_maxBytes limits <? lim_maxBytes current) || (lim_maxRecords limits <? lim_maxRecords current))
        "grant storage limits may only increase";
  _ ← tx_lift (configureStorageCapacity (lim_maxBytes limits));
  _ ← update (fun d => d <| capacity := limits |>);
  u ← usage;
  _ ← tx_lift (assertStorageCapacity u false);
  mret u.
Definition compact_head (s : StoredHead) : StoredHead :=
  if sh_phase s !== retired then s
  else s <| sh_grants := match current_grant s with Some g => [publicRecoveryGrant g] | None => [] end |>
         <| sh_nextIndex := 0%nat |>
         <| sh_history := map (fun e => {| hi_head := hi_head e; hi_grant := publicRecoveryGrant <$> hi_grant e;
                                           hi_exposed := hi_exposed e |}) (sh_history s) |>.
(** The transaction; the physical maintenance after it changes no row. *)
Definition compactStorage : tx HashChainGrantStorageUsage :=
  _ ← update (fun d => d <| heads := compact_head <$> heads d |>);
  u ← usage;
  _ ← tx_lift (assertStorageCapacity u false);
  getStorageUsage.

(** ** Heads *)

Fixpoint check_chain (expected : string) (grants : list StoredGrant) : result () :=
  match grants with
  | [] => Ok tt
  | g :: grants =>
      guard ← hashChainBorrowGuard blake3 (sg_revealedGuard g) (sg_oneTimePublicKey g);
      _ ← throw_if (guard !== expected) "grant chain does not match current head guard";
      check_chain (sg_revealedGuard g) grants
  end.
Definition installHead (input : InstallInput) (maxActiveHeads : option Z) (fresh : nat -> string) : tx HashChainPublicGrant :=
  _ ← tx_fail_if (match maxActiveHeads with
                  | Some n => negb (isSafeInteger n) || (n <? 1) || (1024 <? n)
                  | None => false
                  end) "ready-head pool limit is invalid";
  headId ← tx_lift (hex32 (in_headId input) "headId");
  ownerPublicKey ← tx_lift (hex32 (in_ownerPublicKey input) "ownerPublicKey");
  _ ← tx_lift (assertSupportedGrantNetwork (in_network input) allowMainnet);
  head ← tx_lift (normalizeHead (in_head input) ownerPublicKey);
  let n := Z.of_nat (length (in_grants input)) in
  _ ← tx_fail_if ((n =? 0) || (1024 <? n)) "grant chain length is invalid";
  grants ← tx_lift (normalizeGrants (in_grants input) fresh);
  _ ← tx_lift (check_chain (oh_guard head) grants);
  let stored := {|
    sh_headId := headId; sh_version := 0; sh_network := in_network input; sh_ownerPublicKey := ownerPublicKey;
    sh_head := head; sh_grants := grants; sh_nextIndex := 0; sh_phase := ready; sh_challenges := [];
    sh_assignment := None; sh_phaseBeforeHold := None; sh_history := [] |} in
  mutate headId allocate (fun current =>
    _ ← tx_fail_if (isSome current) "grant head already exists";
    d ← database;
    _ ← tx_fail_if (match maxActiveHeads with
                    | Some n => n <=? Z.of_nat (length (filter (fun kv => sh_phase kv.2 <> retired) (map_to_list (heads d))))
                    | None => false
                    end) "hash-chain ready-head pool is full";
    reused ← rememberGrantKeys headId grants;
    _ ← tx_fail_if reused "one-time key has already been used";
    with_public stored).

Definition expired (s : StoredHead) (now : Z) : bool :=
  (sh_phase s === assigned)
  && match sh_assignment s with Some a => before (parse_date (as_expiresAt a)) now | None => false end.
Definition quarantine (s : StoredHead) : StoredHead := s <| sh_phase := needsRotation |> <| sh_challenges := [] |>.
Definition getCurrent (headId : string) (t : Readings) : tx HashChainPublicGrant :=
  id ← tx_lift (hex32 headId "headId");
  current ← read id;
  let live := match sh_assignment current with
              | Some a => match parse_date (as_expiresAt a) with Some e => first_now t <=? e | None => false end
              | None => true
              end in
  if (sh_phase current !== assigned) || live then mret (publicGrant current)
  else mutate id recover (on_head "grant head is missing" (fun s =>
         with_public (if expired s (second_now t) then quarantine s else s))).

(** [ORDER BY head_id] *)
Definition sorted_ids (d : Database) : list string :=
  map fst (sort_fields (map (fun kv => (kv.1, tt)) (map_to_list (heads d)))).
Fixpoint list_current (ids : list string) (t : string -> Readings) : method (list HashChainPublicGrant) :=
  fun d => match ids with
  | [] => (d, Ok [])
  | id :: ids =>
      match transactionSync (getCurrent id (t id)) d with
      | (d, Throw e) => (d, Throw e)
      | (d, Ok g) => match list_current ids t d with (d, Ok l) => (d, Ok (g :: l)) | r => r end
      end
  end.
Definition listHeads (t : string -> Readings) : method (list HashChainPublicGrant) :=
  fun d => list_current (sorted_ids d) t d.

Definition getDeliveryRecord (headId grantId : string) : tx (option HashChainGrantDeliveryRecord) :=
  id ← tx_lift (hex32 headId "headId");
  grant ← tx_lift (hex32 grantId "grantId");
  d ← database; mret (deliveries d !! (id, grant)).
Definition getAcceptedPayment (transactionId : string) : tx (option HashChainAcceptedPayment) :=
  id ← tx_lift (hex32 transactionId "transactionId");
  d ← database; mret (payments d !! id).

(** ** Challenges *)

(** [list.find(test)] where the test can throw. *)
Fixpoint find_result {A} (test : A -> result bool) (l : list A) : result (option A) :=
  match l with
  | [] => Ok None
  | x :: l => b ← test x; if (b : bool) then Ok (Some x) else find_result test l
  end.
(** [Date.parse(text) >= now], false on [NaN] *)
Definition from_now (t : option Z) (now : Z) : bool := match t with Some t => now <=? t | None => false end.

Definition getChallenge (headId challengeId : string) : tx (option HashChainGrantChallenge) :=
  id ← tx_lift (hex32 headId "headId");
  s ← read id;
  found ← tx_lift (find_result (fun item =>
    c ← hex32 challengeId "challengeId"; Ok (ch_challengeId (publicChallenge item) === c)) (sh_challenges s));
  mret (publicChallenge <$> found).

Definition challengeAdmissionKey (headId : string) (challenge : StoredChallenge) : result string :=
  match sc_admissionKey challenge with
  | Some k => Ok k
  | None =>
      text ← stableStringify (JObject
        [("scope", JString "kaspa:x402:legacy-hash-chain-claim-caller:v2"); ("headId", JString headId);
         ("challengeId", JString (ch_challengeId (publicChallenge challenge)))]);
      Ok (bytesToHex (sha256 (utf8Bytes text)))
  end.
Definition invalidClaimAdmissionKey (headId : string) : result string :=
  text ← stableStringify (JObject
    [("scope", JString "kaspa:x402:invalid-hash-chain-claim:v1"); ("headId", JString headId)]);
  Ok (bytesToHex (sha256 (utf8Bytes text))).
Definition grantClaimAdmissionKey (headId : string) (c : HashChainGrantClaim) : tx string :=
  id ← tx_lift (hex32 headId "headId");
  match normalizeClaim c with
  | Throw _ => tx_lift (invalidClaimAdmissionKey id)
  | Ok normalized =>
      s ← read id;
      match find (fun item => let p := publicChallenge item in
                    (ch_grantId p === gc_grantId normalized) && (ch_challengeId p === gc_challengeId normalized)
                    && (ch_requestHash p === gc_requestHash normalized)) (sh_challenges s) with
      | Some challenge => tx_lift (challengeAdmissionKey id challenge)
      | None => tx_lift (invalidClaimAdmissionKey id)
      end
  end.

(** A challenge for the same admission, request and quote. *)
Definition same_admission (admission request amount : string) (version : Z) (c : StoredChallenge) : bool :=
  let p := publicChallenge c in
  (sc_admissionKey c === Some admission) && (ch_requestHash p === request)
  && (ch_quotedAmount p === Some amount) && (ch_headVersion p === version).
Definition getAdmittedChallenge (headId requestHash quotedAmount admissionKey : string) (now : Z) :
    tx (option HashChainGrantChallenge) :=
  id ← tx_lift (hex32 headId "headId");
  s ← read id;
  if sh_phase s !== ready then mret None
  else
    request ← tx_lift (hex32 requestHash "requestHash");
    amount ← tx_lift (canonicalAmount quotedAmount);
    admission ← tx_lift (hex32 admissionKey "challenge admission key");
    mret (publicChallenge <$> find (fun c =>
      from_now (parse_date (ch_expiresAt (publicChallenge c))) now
      && same_admission admission request amount (sh_version s) c
      && (Some (ch_grantId (publicChallenge c)) === (sg_grantId <$> current_grant s))) (sh_challenges s)).

(** [state.grants[state.nextIndex]!.grantId], a type error past the end *)
Definition current_grantId (s : StoredHead) : result string :=
  match current_grant s with
  | Some g => Ok (sg_grantId g)
  | None => Throw (Error "Cannot read properties of undefined (reading 'grantId')")
  end.
(** [HashChainChallengeCapacityError] *)
Definition challenge_capacity_error (message : string) : error :=
  KaspaX402Error "HASH_CHAIN_CHALLENGE_CAPACITY" message.
(** [challengeId] is fresh. *)
Definition issueAdmittedChallenge (headId requestHash : string) (lifetimeSeconds : Z)
    (quotedAmount admissionKey challengeId : string) (now : Z) : tx HashChainGrantChallenge :=
  id ← tx_lift (hex32 headId "headId");
  request ← tx_lift (hex32 requestHash "requestHash");
  amount ← tx_lift (canonicalAmount quotedAmount);
  admission ← tx_lift (hex32 admissionKey "challenge admission key");
  _ ← tx_fail_if (negb (isSafeInteger lifetimeSeconds) || (lifetimeSeconds <? 1) || (300 <? lifetimeSeconds))
        "challenge lifetime must be 1 to 300 seconds";
  mutate id allocate (on_head "current grant is unavailable" (fun s =>
    _ ← tx_fail_if (sh_phase s !== ready) "current grant is unavailable";
    let live := filter (fun c => from_now (parse_date (ch_expiresAt (publicChallenge c))) now) (sh_challenges s) in
    existing ← tx_lift (find_result (fun c =>
      and_also (Ok (same_admission admission request amount (sh_version s) c))
               (g ← current_grantId s; Ok (ch_grantId (publicChallenge c) === g))) live);
    match existing with
    | Some c => mret (s <| sh_challenges := live |>, publicChallenge c)
    | None =>
        let admitted := Z.of_nat (length (filter (fun c => sc_admissionKey c = Some admission) live)) in
        _ ← tx_lift (if maxLiveChallengesPerAdmissionKey <=? admitted
                     then Throw (challenge_capacity_error "too many live challenges for admission key") else Ok tt);
        _ ← tx_lift (if 64 <=? Z.of_nat (length live)
                     then Throw (challenge_capacity_error "too many live challenges for head") else Ok tt);
        grantId ← tx_lift (current_grantId s);
        issuedAt ← tx_lift (toISOString now);
        expiresAt ← tx_lift (toISOString (now + lifetimeSeconds * 1000));
        let challenge := {| publicChallenge :=
          {| ch_headId := id; ch_headVersion := sh_version s; ch_grantId := grantId; ch_challengeId := challengeId;
             ch_requestHash := request; ch_quotedAmount := Some amount; ch_issuedAt := issuedAt;
             ch_expiresAt := expiresAt |}; sc_admissionKey := Some admission |} in
        mret (s <| sh_challenges := live ++ [challenge] |>, publicChallenge challenge)
    end)).

(** ** Claims *)

Definition authorizeGrantClaim (headId : string) (c : HashChainGrantClaim) (now : Z) : tx AuthorizedClaim :=
  id ← tx_lift (hex32 headId "headId");
  normalized ← tx_lift (normalizeClaim c);
  s ← read id;
  '(_, _, challenge) ← tx_lift (inspectGrantClaim s normalized now);
  let current := publicGrant s in
  _ ← tx_fail_if (isNone (sh_assignment s) && negb (preflight normalized current)) "payer is ineligible for grant";
  admissionKey ← tx_lift (challengeAdmissionKey id challenge);
  mret {| au_headId := id; au_claim := normalized; au_version := sh_version s; au_head := sh_head s;
          au_admissionKey := admissionKey; au_current := current; au_needsQualification := isNone (sh_assignment s) |}.

(** [claimGrantAfterCurrentHeadObservation] up to its first await *)
Definition begin_claim (headId : string) (c : HashChainGrantClaim) (expectedAdmissionKey : option string) (now : Z) :
    tx AuthorizedClaim :=
  id ← tx_lift (hex32 headId "headId");
  authorized ← authorizeGrantClaim id c now;
  _ ← tx_lift (match expectedAdmissionKey with
               | Some k => expected ← hex32 k "expected admission key";
                           throw_if (expected !== au_admissionKey authorized) "grant claim admission changed during authorization"
               | None => Ok tt
               end);
  mret authorized.

Definition holdForReorg (headId : string) : tx HashChainPublicGrant :=
  id ← tx_lift (hex32 headId "headId");
  mutate id recover (on_head "grant head is missing" (fun s =>
    let s := if sh_phase s !== hold then s <| sh_phaseBeforeHold := Some (sh_phase s) |> else s in
    with_public (s <| sh_phase := hold |>))).

(** ... between the observation and the qualification *)
Definition observed_claim (a : AuthorizedClaim) (observed : option HashChainCurrentUtxoObservation) (t : Readings) : method () :=
  fun d => match transactionSync (getCurrent (au_headId a) t) d with
  | (d, Throw e) => (d, Throw e)
  | (d, Ok latest) =>
      if (pg_headVersion latest !== pg_headVersion (au_current a)) || negb (sameHead (pg_head latest) (pg_head (au_current a)))
      then (d, Throw (Error "grant head changed during authoritative observation"))
      else if currentUtxoMatches observed (pg_head (au_current a)) then (d, Ok tt)
      else match transactionSync (holdForReorg (au_headId a)) d with
           | (d, Throw e) => (d, Throw e)
           | (d, Ok _) => (d, Throw (Error "current hash-chain head does not match the authoritative selected UTXO"))
           end
  end.

Fixpoint select_outpoint (d : Database) (candidates : list FundingOutpoint) : result (option (FundingOutpoint * string)) :=
  match candidates with
  | [] => Ok None
  | candidate :: candidates =>
      _ ← throw_if (negb (isSafeInteger (index candidate)) || (index candidate <? 0)) "qualifying funding outpoint is required";
      t ← hex32 (txid candidate) "funding transaction";
      let f := fingerprint ("outpoint:" +:+ t +:+ ":" +:+ toString (index candidate)) in
      if isNone (admissions d !! f) then Ok (Some (Outpoint t (index candidate), f)) else select_outpoint d candidates
  end.
Definition used_since (d : Database) (key : Admission -> string) (f : string) (windowStart : Z) : Z :=
  Z.of_nat (size (filter (fun kv : string * Admission => key kv.2 = f /\ windowStart <= ad_disclosedAt kv.2) (admissions d))).

(** The first disclosure of a grant: admission, assignment and delivery record. *)
Definition assign_grant (a : AuthorizedClaim) (s : StoredHead) (grant : StoredGrant) (challenge : StoredChallenge)
    (candidates : list FundingOutpoint) (t : Readings) : tx (StoredHead * StoredAssignment) :=
  let c := au_claim a in
  let p := publicChallenge challenge in
  _ ← tx_fail_if (match candidates with [] => true | _ => false end) "qualifying funding outpoint is required";
  let claimantId := gc_payerPublicKey c in
  let claimantFingerprint := fingerprint ("claimant:" +:+ claimantId) in
  let admissionFingerprint := fingerprint ("admission:" +:+ au_admissionKey a) in
  d ← database;
  _ ← tx_fail_if (bool_decide (claimantFingerprint ∈ legacy_claimants d)) "legacy claimant requires a fresh payer key";
  let now := second_now t in
  let windowStart := now - windowSeconds * 1000 in
  _ ← tx_fail_if ((maxGrantsPerClaimant <=? used_since d ad_claimant claimantFingerprint windowStart)
                  || (maxGrantsPerClaimant <=? used_since d ad_admission admissionFingerprint windowStart))
        "claimant grant quota exceeded";
  selected ← tx_lift (select_outpoint d candidates);
  match selected with
  | None => tx_lift (Throw (Error "funding outpoint already qualified a disclosed grant"))
  | Some (outpoint, f) =>
      _ ← update (fun d => d <| admissions := <[f := {| ad_claimant := claimantFingerprint;
                                   ad_admission := admissionFingerprint; ad_disclosedAt := now |}]> (admissions d) |>);
      committedAt ← tx_lift (toISOString (third_now t));
      let assignment := {|
        as_grantId := gc_grantId c; as_challengeId := gc_challengeId c; as_requestHash := gc_requestHash c;
        as_quotedAmount := ch_quotedAmount p; as_payerPublicKey := gc_payerPublicKey c; as_claimantId := Some claimantId;
        as_qualifyingFundingOutpoint := Some outpoint; as_expiresAt := gc_expiresAt c;
        as_deliveryCommittedAt := committedAt; as_candidateTransactionId := None |} in
      let record := {|
        dr_headId := sh_headId s; dr_headVersion := sh_version s; dr_headOutpoint := oh_outpoint (sh_head s);
        dr_headAmount := oh_amount (sh_head s); dr_headGuard := oh_guard (sh_head s);
        dr_headScriptPublicKey := oh_scriptPublicKey (sh_head s); dr_covenantId := oh_covenantId (sh_head s);
        dr_ownerPublicKey := sh_ownerPublicKey s; dr_grantId := sg_grantId grant; dr_nextGuard := sg_revealedGuard grant;
        dr_oneTimePublicKey := sg_oneTimePublicKey grant; dr_challengeId := gc_challengeId c;
        dr_challengeIssuedAt := ch_issuedAt p; dr_challengeExpiresAt := ch_expiresAt p; dr_requestHash := gc_requestHash c;
        dr_quotedAmount := ch_quotedAmount p; dr_payerPublicKey := gc_payerPublicKey c; dr_claimantId := Some claimantId;
        dr_qualifyingFundingOutpoint := Some outpoint; dr_expiresAt := gc_expiresAt c;
        dr_deliveryCommittedAt := committedAt |} in
      d ← database;
      _ ← tx_fail_if (isSome (deliveries d !! (au_headId a, sg_grantId grant)))
            "UNIQUE constraint failed: hash_chain_deliveries.head_id, hash_chain_deliveries.grant_id";
      _ ← update (fun d => d <| deliveries := <[(au_headId a, sg_grantId grant) := record]> (deliveries d) |>);
      mret (s <| sh_assignment := Some assignment |> <| sh_phase := assigned |> <| sh_challenges := [challenge] |>, assignment)
  end.
(** [#commitAuthorizedGrantClaim]: the key is disclosed only in what this returns. *)
Definition commitAuthorizedGrantClaim (a : AuthorizedClaim) (candidates : list FundingOutpoint) (t : Readings) :
    tx HashChainGrantDelivery :=
  mutate (au_headId a) claim (on_head "grant head changed after claim authorization" (fun s =>
    _ ← tx_fail_if ((sh_version s !== au_version a) || negb (sameHead (sh_head s) (au_head a)))
          "grant head changed after claim authorization";
    '(grant, private, challenge) ← tx_lift (inspectGrantClaim s (au_claim a) (first_now t));
    '(s, assignment) ← match sh_assignment s with
                       | Some assignment => mret (s, assignment)
                       | None => assign_grant a s grant challenge candidates t
                       end;
    mret (s, {| dl_grantId := sg_grantId grant; dl_headVersion := sh_version s; dl_nextGuard := sg_revealedGuard grant;
                dl_oneTimePublicKey := sg_oneTimePublicKey grant; dl_oneTimePrivateKey := private;
                dl_expiresAt := as_expiresAt assignment; dl_deliveryCommittedAt := as_deliveryCommittedAt assignment |}))).

Definition pinPaymentCandidate (input : CandidateInput) : tx () :=
  id ← tx_lift (hex32 (cd_headId input) "headId");
  version ← tx_lift (canonicalVersion (cd_headVersion input));
  grantId ← tx_lift (hex32 (cd_grantId input) "grantId");
  challengeId ← tx_lift (hex32 (cd_challengeId input) "challengeId");
  request ← tx_lift (hex32 (cd_requestHash input) "requestHash");
  payer ← tx_lift (hex32 (cd_payerPublicKey input) "payerPublicKey");
  transactionId ← tx_lift (hex32 (cd_transactionId input) "transactionId");
  mutate id recover (on_head "grant head is missing" (fun s =>
    accepted ← getAcceptedPayment transactionId;
    match accepted with
    | Some p =>
        delivery ← getDeliveryRecord id grantId;
        _ ← tx_fail_if ((pm_grantId p !== grantId) || (pm_challengeId p !== challengeId) || (pm_requestHash p !== request)
                        || (pm_payerPublicKey p !== payer)
                        || match delivery with
                           | Some r => (toString (dr_headVersion r) !== version) || (dr_challengeId r !== challengeId)
                                       || (dr_requestHash r !== request) || (dr_payerPublicKey r !== payer)
                           | None => true
                           end) "accepted payment candidate does not match the durable grant delivery";
        mret (s, tt)
    | None =>
        match sh_assignment s with
        | Some a =>
            _ ← tx_fail_if ((toString (sh_version s) !== version)
                            || (sh_phase s !== assigned)
                               && negb ((sh_phase s === hold) && (sh_phaseBeforeHold s === Some assigned))
                            || (as_grantId a !== grantId) || (as_challengeId a !== challengeId)
                            || (as_requestHash a !== request) || (as_payerPublicKey a !== payer))
                  "payment candidate does not match the assigned grant";
            _ ← tx_fail_if (quoted (as_candidateTransactionId a) && (as_candidateTransactionId a !== Some transactionId))
                  "assigned grant already owns another payment candidate";
            mret (s <| sh_assignment := Some (a <| as_candidateTransactionId := Some transactionId |>) |>, tt)
        | None => tx_lift (Throw (Error "payment candidate does not match the assigned grant"))
        end
    end)).

Definition markAbandoned (headId : string) (now : Z) : tx HashChainPublicGrant :=
  id ← tx_lift (hex32 headId "headId");
  mutate id recover (on_head "no assigned grant to abandon" (fun s =>
    if sh_phase s === needsRotation then with_public s
    else match sh_assignment s with
         | Some a =>
             _ ← tx_fail_if (sh_phase s !== assigned) "no assigned grant to abandon";
             _ ← tx_fail_if (from_now (parse_date (as_expiresAt a)) now) "assigned grant has not expired";
             with_public (quarantine s)
         | None => tx_lift (Throw (Error "no assigned grant to abandon"))
         end)).

(** ** Accepted transitions *)

(** [history.push(entry)], of which 128 are kept *)
Definition push_history (s : StoredHead) : StoredHead :=
  let history := sh_history s ++ [{| hi_head := sh_head s; hi_grant := current_grant s; hi_exposed := isSome (sh_assignment s) |}] in
  s <| sh_history := if (128 <? length history)%nat then drop 1 history else history |>.
Definition accepted_finality (finality : string) : bool := (finality === "accepted") || (finality === "confirmed").

(** A borrow of a held head without payment must differ from the assigned quote. *)
Definition nonconforming_borrow (id : string) (s : StoredHead) (grant : StoredGrant) (after : HashChainObservedHead) : tx bool :=
  delivery ← match sh_assignment s with Some a => getDeliveryRecord id (as_grantId a) | None => mret None end;
  mret (match sh_assignment s, delivery with
  | Some a, Some r =>
      ((sh_phaseBeforeHold s === Some assigned) || (sh_phaseBeforeHold s === Some needsRotation))
      && quoted (as_quotedAmount a) && (dr_quotedAmount r === as_quotedAmount a) && (as_grantId a === sg_grantId grant)
      && (dr_headVersion r === sh_version s) && same_outpoint (dr_headOutpoint r) (oh_outpoint (sh_head s))
      && (dec_value (oh_amount after) - dec_value (oh_amount (sh_head s)) !== dec_value (default "" (as_quotedAmount a)))
  | _, _ => false
  end).
(** The payment consumes the assigned grant at its quote. *)
Definition quote_differs (quote : option string) (amount : string) : bool := quoted quote && (quote !== Some amount).
Definition consumes_assignment (id : string) (s : StoredHead) (grant : StoredGrant) (after : HashChainObservedHead)
    (p : HashChainAcceptedPayment) : tx bool :=
  delivery ← getDeliveryRecord id (pm_grantId p);
  mret (match sh_assignment s, delivery with
  | Some a, Some r =>
      (sg_grantId grant === pm_grantId p) && (as_challengeId a === pm_challengeId p) && (as_requestHash a === pm_requestHash p)
      && (as_payerPublicKey a === pm_payerPublicKey p) && (dr_headVersion r === sh_version s)
      && same_outpoint (dr_headOutpoint r) (oh_outpoint (sh_head s)) && (dr_headAmount r === oh_amount (sh_head s))
      && (dr_headGuard r === oh_guard (sh_head s)) && negb (quote_differs (as_quotedAmount a) (pm_amount p))
      && negb (quote_differs (dr_quotedAmount r) (pm_amount p))
      && (dec_value (oh_amount after) === dec_value (oh_amount (sh_head s)) + dec_value (pm_amount p))
  | _, _ => false
  end).
Definition insert_payment (p : HashChainAcceptedPayment) : tx () :=
  d ← database;
  _ ← tx_fail_if (isSome (payments d !! pm_transactionId p)) "UNIQUE constraint failed: hash_chain_payments.transaction_id";
  _ ← tx_fail_if (negb (bool_decide (map_Forall (fun _ q => pm_grantId q <> pm_grantId p) (payments d))))
        "UNIQUE constraint failed: hash_chain_payments.grant_id";
  update (fun d => d <| payments := <[pm_transactionId p := p]> (payments d) |>).
(** The replacement chain when it opens the new guard. *)
Definition replacement_chain (replacement : list HashChainBorrowGrant) (guard : string) (fresh : nat -> string) :
    option (list StoredGrant) :=
  let n := Z.of_nat (length replacement) in
  if (0 <? n) && (n <=? 1024) then
    match (grants ← normalizeGrants replacement fresh; _ ← check_chain guard grants; Ok grants) with
    | Ok grants => Some grants
    | Throw _ => None
    end
  else None.

Definition check_borrow (id : string) (s : StoredHead) (after : HashChainObservedHead)
    (payment : option HashChainAcceptedPayment) : tx () :=
  match current_grant s with
  | Some grant =>
      _ ← tx_fail_if ((oh_guard after !== sg_revealedGuard grant)
                      || (dec_value (oh_amount after) <=? dec_value (oh_amount (sh_head s))))
            "accepted borrow is not the current positive head transition";
      _ ← (if (sh_phase s === hold) && isNone payment then
             ok ← nonconforming_borrow id s grant after;
             tx_fail_if (negb ok) "held head requires a nonconforming assigned borrow"
           else mret tt);
      match payment with
      | Some p =>
          ok ← consumes_assignment id s grant after p;
          _ ← tx_fail_if (negb ok) "accepted payment does not consume the assigned exact grant";
          insert_payment p
      | None => mret tt
      end
  | None => tx_lift (Throw (Error "accepted borrow is not the current positive head transition"))
  end.
(** Its chain, and whether all its keys are new. *)
Definition check_rotation (id : string) (s : StoredHead) (after : HashChainObservedHead)
    (replacement : list HashChainBorrowGrant) (fresh : nat -> string) : tx (list StoredGrant * bool) :=
  _ ← tx_fail_if ((oh_guard after === oh_guard (sh_head s))
                  || (dec_value (oh_amount after) <? dec_value (oh_amount (sh_head s)))) "accepted owner rotation is invalid";
  match replacement_chain replacement (oh_guard after) fresh with
  | Some grants => reused ← rememberGrantKeys id grants; mret (grants, negb reused)
  | None => mret ([], false)
  end.

Definition advance (headId : string) (transition : HashChainAcceptedTransition) (kind : AdvanceKind)
    (replacement : list HashChainBorrowGrant) (fresh : nat -> string) (payment : option HashChainAcceptedPayment)
    (recoveryRotation : bool) : tx HashChainPublicGrant :=
  id ← tx_lift (hex32 headId "headId");
  _ ← tx_fail_if (negb (accepted_finality (tr_finality transition))) "transition lacks trusted accepted finality";
  mutate id (if (kind === borrow) || recoveryRotation then recover else allocate)
    (on_head "head must be live and reconciled before advancement" (fun s =>
    _ ← tx_fail_if ((sh_phase s === retired)
                    || (sh_phase s === hold)
                       && ((kind !== borrow) || (isSome payment && (sh_phaseBeforeHold s !== Some assigned))))
          "head must be live and reconciled before advancement";
    predecessor ← tx_lift (normalizeOutpoint (tr_predecessor transition));
    _ ← tx_fail_if (negb (same_outpoint predecessor (oh_outpoint (sh_head s)))) "transition does not spend the current head";
    after ← tx_lift (normalizeHead (tr_successor transition) (sh_ownerPublicKey s));
    _ ← tx_fail_if ((oh_covenantId after !== oh_covenantId (sh_head s))
                    || same_outpoint (oh_outpoint after) (oh_outpoint (sh_head s)))
          "successor changed covenant identity or reused outpoint";
    '(grants, safe) ← match kind with
                      | borrow => _ ← check_borrow id s after payment; mret ([], false)
                      | rotate => check_rotation id s after replacement fresh
                      end;
    let wasQuarantined := (sh_phase s === needsRotation)
                          || (sh_phase s === hold) && (sh_phaseBeforeHold s === Some needsRotation) in
    let grants := match kind with borrow => sh_grants s | rotate => grants end in
    let grants := if recoveryRotation then map publicRecoveryGrant (take 1 grants) else grants in
    let nextIndex := match kind with borrow => S (sh_nextIndex s) | rotate => 0%nat end in
    let phase := if (kind === rotate) && (negb safe || recoveryRotation) then needsRotation
                 else if (length grants <=? nextIndex)%nat then exhausted
                 else if wasQuarantined && (kind === borrow) then needsRotation else ready in
    with_public {|
      sh_headId := sh_headId s; sh_version := sh_version s + 1; sh_network := sh_network s;
      sh_ownerPublicKey := sh_ownerPublicKey s; sh_head := after; sh_grants := grants; sh_nextIndex := nextIndex;
      sh_phase := phase; sh_challenges := []; sh_assignment := None; sh_phaseBeforeHold := None;
      sh_history := sh_history (push_history s) |})).

Definition recordAcceptedBorrow (headId : string) (transition : HashChainAcceptedTransition) : tx HashChainPublicGrant :=
  advance headId transition borrow [] (fun _ => "") None false.
(** The selected transaction continues this head under this guard. *)
Definition selects_successor (selected : option HashChainSelectedTransaction) (transactionId : string)
    (current : HashChainPublicGrant) (guard : string) : result (option HashChainSelectedTransaction) :=
  match selected with
  | None => Ok None
  | Some t =>
      if (se_transactionId t === transactionId) && accepted_finality (se_finality t)
         && same_outpoint (se_spentHead t) (oh_outpoint (pg_head current)) && (se_authorizingInput t === 0)
         && (se_covenantId t === oh_covenantId (pg_head current)) then
        script ← headScript (pg_ownerPublicKey current) guard;
        Ok (if se_scriptPublicKey t === script then Some t else None)
      else Ok None
  end.
Definition selected_transition (t : HashChainSelectedTransaction) (current : HashChainPublicGrant) (guard : string) :
    HashChainAcceptedTransition :=
  {| tr_finality := se_finality t; tr_predecessor := oh_outpoint (pg_head current);
     tr_successor := {| oh_outpoint := Outpoint (se_transactionId t) 0; oh_amount := se_amount t; oh_guard := guard;
                        oh_scriptPublicKey := se_scriptPublicKey t; oh_covenantId := se_covenantId t |} |}.
(** [recoverSelectedUnmatchedBorrow] before and after its await *)
Definition begin_borrow_recovery (headId transactionId : string) (t : Readings) : tx HashChainPublicGrant :=
  id ← tx_lift (hex32 headId "headId");
  _ ← tx_lift (hex32 transactionId "transactionId");
  current ← getCurrent id t;
  _ ← tx_fail_if ((pg_phase current !== hold) || (pg_nextGuard current === "")) "head is not awaiting an assigned borrow readback";
  mret current.
Definition recovered_borrow (headId transactionId : string) (current : HashChainPublicGrant)
    (selected : option HashChainSelectedTransaction) (t : Readings) : method HashChainPublicGrant :=
  fun d => match selects_successor selected transactionId current (pg_nextGuard current) with
  | Throw e => (d, Throw e)
  | Ok None => (d, Throw (Error "transaction is not the selected successor of the held head"))
  | Ok (Some found) =>
      match transactionSync (getCurrent headId t) d with
      | (d, Throw e) => (d, Throw e)
      | (d, Ok latest) =>
          if (pg_headVersion latest !== pg_headVersion current) || (pg_phase latest !== hold)
             || negb (sameHead (pg_head latest) (pg_head current))
          then (d, Throw (Error "held head changed during selected-chain readback"))
          else transactionSync (recordAcceptedBorrow headId (selected_transition found current (pg_nextGuard current))) d
      end
  end.

Definition recordAcceptedPayment (headId : string) (transition : HashChainAcceptedTransition)
    (payment : HashChainAcceptedPayment) (t : Readings) : tx HashChainPublicGrant :=
  id ← tx_lift (hex32 headId "headId");
  transactionId ← tx_lift (hex32 (pm_transactionId payment) "transactionId");
  grantId ← tx_lift (hex32 (pm_grantId payment) "grantId");
  challengeId ← tx_lift (hex32 (pm_challengeId payment) "challengeId");
  request ← tx_lift (hex32 (pm_requestHash payment) "requestHash");
  payer ← tx_lift (hex32 (pm_payerPublicKey payment) "payerPublicKey");
  requirements ← tx_lift (hex32 (pm_requirementsHash payment) "requirementsHash");
  amount ← tx_lift (canonicalAmount (pm_amount payment));
  let normalized := {|
    pm_transactionId := transactionId; pm_grantId := grantId; pm_challengeId := challengeId; pm_requestHash := request;
    pm_payerPublicKey := payer; pm_requirementsHash := requirements; pm_paymentIdentifier := pm_paymentIdentifier payment;
    pm_amount := amount; pm_finality := pm_finality payment |} in
  _ ← tx_fail_if ((pm_paymentIdentifier payment === "") || (256 <? js_length (pm_paymentIdentifier payment))
                  || negb (accepted_finality (pm_finality payment))
                  || (transactionId !== txid (oh_outpoint (tr_successor transition)))
                  || (pm_finality payment !== tr_finality transition)) "accepted payment evidence is inconsistent";
  existing ← getAcceptedPayment transactionId;
  match existing with
  | Some p =>
      a ← tx_lift (stableStringify (JObject (accepted_payment_fields p "accepted")));
      b ← tx_lift (stableStringify (JObject (accepted_payment_fields normalized "accepted")));
      _ ← tx_fail_if (a !== b) "transaction already belongs to another payment";
      getCurrent id t
  | None => advance id transition borrow [] (fun _ => "") (Some normalized) false
  end.

Definition is_capacity_error (e : error) : bool :=
  match e with KaspaX402Error code _ => code === "HASH_CHAIN_STORAGE_CAPACITY" | Error _ => false end.
(** Each attempt draws its own fresh ids. *)
Definition recordAcceptedRotation (headId : string) (transition : HashChainAcceptedTransition)
    (grants : list HashChainBorrowGrant) (fresh fresh' : nat -> string) : method HashChainPublicGrant :=
  fun d => match transactionSync (advance headId transition rotate grants fresh None false) d with
  | (d, Throw e) =>
      if is_capacity_error e then transactionSync (advance headId transition rotate grants fresh' None true) d else (d, Throw e)
  | r => r
  end.
(** [recoverOwnerRotationAfterSelectedObservation] before and after its await *)
Definition begin_rotation_recovery (headId transactionId : string) (grants : list HashChainBorrowGrant) (t : Readings) :
    tx (HashChainPublicGrant * string) :=
  id ← tx_lift (hex32 headId "headId");
  _ ← tx_lift (hex32 transactionId "rotation transaction ID");
  current ← getCurrent id t;
  _ ← tx_fail_if (pg_phase current !== needsRotation) "head is not awaiting owner rotation";
  match grants with
  | g :: _ =>
      _ ← tx_fail_if (1024 <? Z.of_nat (length grants)) "replacement grant chain length is invalid";
      first ← tx_lift (normalizeGrant g "");
      newGuard ← tx_lift (hashChainBorrowGuard blake3 (sg_revealedGuard first) (sg_oneTimePublicKey first));
      mret (current, newGuard)
  | [] => tx_lift (Throw (Error "replacement grant chain length is invalid"))
  end.
Definition recovered_rotation (headId transactionId : string) (grants : list HashChainBorrowGrant)
    (current : HashChainPublicGrant) (newGuard : string) (selected : option HashChainSelectedTransaction)
    (fresh fresh' : nat -> string) (t : Readings) : method HashChainPublicGrant :=
  fun d => match selects_successor selected transactionId current newGuard with
  | Throw e => (d, Throw e)
  | Ok None => (d, Throw (Error "owner rotation is not accepted on the selected chain"))
  | Ok (Some found) =>
      match transactionSync (getCurrent headId t) d with
      | (d, Throw e) => (d, Throw e)
      | (d, Ok latest) =>
          if (pg_headVersion latest !== pg_headVersion current) || (pg_phase latest !== needsRotation)
             || negb (sameHead (pg_head latest) (pg_head current))
          then (d, Throw (Error "head changed during owner rotation readback"))
          else recordAcceptedRotation headId (selected_transition found current newGuard) grants fresh fresh' d
      end
  end.

Definition recordAcceptedSweep (headId : string) (sweep : HashChainAcceptedSweep) : tx HashChainPublicGrant :=
  id ← tx_lift (hex32 headId "headId");
  _ ← tx_fail_if (negb (accepted_finality (sw_finality sweep)) || (sameIdOutputCount sweep !== 0))
        "owner sweep lacks accepted zero-successor evidence";
  sweepTxid ← tx_lift (hex32 (sw_transactionId sweep) "owner sweep transactionId");
  mutate id recover (on_head "head cannot be swept in its current phase" (fun s =>
    _ ← tx_fail_if ((sh_phase s === hold) || (sh_phase s === retired)) "head cannot be swept in its current phase";
    predecessor ← tx_lift (normalizeOutpoint (sw_predecessor sweep));
    _ ← tx_fail_if (negb (same_outpoint predecessor (oh_outpoint (sh_head s)))) "owner sweep does not spend the current head";
    _ ← tx_fail_if (sweepTxid === txid (oh_outpoint (sh_head s))) "owner sweep transaction cannot reuse the head txid";
    let s := push_history s in
    with_public (s <| sh_version := sh_version s + 1 |> <| sh_phase := retired |> <| sh_assignment := None |>
                   <| sh_challenges := [] |>))).

Definition reconcileObservedHead (headId : string) (observed : HashChainObservedHead) : tx HashChainPublicGrant :=
  id ← tx_lift (hex32 headId "headId");
  mutate id recover (on_head "head is not in reconciliation hold" (fun s =>
    _ ← tx_fail_if (sh_phase s !== hold) "head is not in reconciliation hold";
    actual ← tx_lift (normalizeHead observed (sh_ownerPublicKey s));
    s ← (if sameHead actual (sh_head s) then
           let prior := default needsRotation (sh_phaseBeforeHold s) in
           mret (s <| sh_phase := if prior === retired then needsRotation else prior |>)
         else
           match find (fun item => sameHead (hi_head item) actual) (sh_history s) with
           | Some previous =>
               mret (s <| sh_head := actual |>
                       <| sh_grants := match hi_grant previous with Some g => [g] | None => [] end |>
                       <| sh_nextIndex := 0%nat |> <| sh_assignment := None |> <| sh_challenges := [] |>
                       <| sh_phase := needsRotation |>)
           | None => tx_lift (Throw (Error "observed head is outside known lineage; keep hold and investigate"))
           end);
    with_public (s <| sh_phaseBeforeHold := None |>))).
End Issuer.
