(* ===== verification/HashChainRun.v ===== *)
(** * The hash-chain grant issuer: opening a store, commands

    Models [fromStorage] on a store that exists, with the migrations of older schemas
    ([protocol/packages/server/src/hash-chain-issuer.ts]), and every method that can change
    the database as a command.  A method with an await is one command per part, whose
    captured values are arbitrary, so a sequence of commands is any interleaving of callers. *)

From S2P Require Import Prelude Amount Json Binary ResourceBudget ChainTruth Template Dates HashChain HashChainIssuer.
From S2P Require Import HashChainGrants.

Section Opening.
Context {host : IssuerHost}.

(** [for (const row of rows) body(row)]; a [SELECT] without an order gives some order. *)
Fixpoint for_rows {A} (body : A -> tx ()) (rows : list A) : tx () :=
  match rows with
  | [] => mret tt
  | row :: rows => _ ← body row; for_rows body rows
  end.
Definition head_rows : tx (list (string * StoredHead)) := d ← database; mret (map_to_list (heads d)).
Definition delivery_rows : tx (list ((string * string) * HashChainGrantDeliveryRecord)) :=
  d ← database; mret (map_to_list (deliveries d)).
Definition write_head (id : string) (s : StoredHead) : tx () := update (fun d => d <| heads := <[id := s]> (heads d) |>).

(** [INSERT OR IGNORE] of a key that is remembered for a head *)
Definition reserve_key (id publicKey label : string) : tx () :=
  k ← tx_lift (hex32 publicKey label);
  update (fun d => if isSome (seen_keys d !! grantKeyFingerprint k) then d
                   else d <| seen_keys := <[grantKeyFingerprint k := id]> (seen_keys d) |>).
Definition migrateLegacyGrantKeys : tx () :=
  rows ← head_rows;
  _ ← for_rows (fun '(id, s) =>
        _ ← for_rows (fun g => reserve_key id (sg_oneTimePublicKey g) "stored one-time key") (sh_grants s);
        _ ← for_rows (fun e => match hi_grant e with
                               | Some g => reserve_key id (sg_oneTimePublicKey g) "historical one-time key"
                               | None => mret tt
                               end) (sh_history s);
        let s := if sh_phase s === hold then s <| sh_phaseBeforeHold := Some needsRotation |>
                 else if sh_phase s !== retired then s <| sh_phase := needsRotation |> else s in
        write_head id (s <| sh_challenges := [] |>)) rows;
  records ← delivery_rows;
  for_rows (fun '((id, _), r) => reserve_key id (dr_oneTimePublicKey r) "delivered one-time key") records.
Definition migrateQuotedGrants : tx () :=
  rows ← head_rows;
  for_rows (fun '(id, s) => if sh_phase s === ready then write_head id (s <| sh_challenges := [] |>) else mret tt) rows.

Definition legacyClaimantFingerprint (payerPublicKey : string) : result string :=
  payer ← hex32 payerPublicKey "legacy payer public key";
  Ok (fingerprint ("claimant:" +:+ payer)).
Definition add_legacy (f : string) : tx () := update (fun d => d <| legacy_claimants := {[f]} ∪ legacy_claimants d |>).
Definition migrate_assignment (id : string) (s : StoredHead) (a : StoredAssignment) : tx () :=
  f ← tx_lift (legacyClaimantFingerprint (as_payerPublicKey a));
  _ ← add_legacy f;
  match find (fun item => ch_challengeId (publicChallenge item) === as_challengeId a) (sh_challenges s) with
  | None => mret tt
  | Some challenge =>
      disclosedAt ← tx_lift (match parse_date (as_deliveryCommittedAt a) with
                             | Some t => Ok t
                             | None => Throw (Error "legacy grant delivery time is invalid")
                             end);
      admissionKey ← tx_lift (challengeAdmissionKey id challenge);
      let outpoint := fingerprint ("legacy:" +:+ id +:+ ":" +:+ as_grantId a) in
      update (fun d => if isSome (admissions d !! outpoint) then d
                       else d <| admissions := <[outpoint := {| ad_claimant := f;
                                     ad_admission := fingerprint ("admission:" +:+ admissionKey);
                                     ad_disclosedAt := disclosedAt |}]> (admissions d) |>)
  end.
Definition migrateLegacyGrantAdmissions : tx () :=
  rows ← head_rows;
  _ ← for_rows (fun '(id, s) =>
        match sh_assignment s with
        | Some a => if isNone (as_claimantId a) && isNone (as_qualifyingFundingOutpoint a)
                    then migrate_assignment id s a else mret tt
        | None => mret tt
        end) rows;
  records ← delivery_rows;
  for_rows (fun '(_, r) =>
    if isNone (dr_claimantId r) || isNone (dr_qualifyingFundingOutpoint r) then
      f ← tx_lift (legacyClaimantFingerprint (dr_payerPublicKey r)); add_legacy f
    else mret tt) records.

(** [fromStorage] on a store with a persisted policy, opened with its own key *)
Definition reopenStorage (schemaVersion : Z) (storageLimits : option HashChainGrantStorageLimits) : tx () :=
  _ ← tx_lift (match storageLimits with Some l => validateStorageLimits l | None => Ok tt end);
  limits ← readStorageLimits;
  _ ← tx_lift (match storageLimits with
               | Some l => persisted ← stableStringify (limits_json limits); given ← stableStringify (limits_json l);
                           throw_if (persisted !== given)
                             "grant storage limits differ from the persisted policy; use increaseStorageLimits"
               | None => Ok tt
               end);
  _ ← tx_lift (configureStorageCapacity (lim_maxBytes limits));
  _ ← tx_fail_if (negb (existsb (fun v => schemaVersion =? v) [0; 1; 2])) "unsupported grant database schema version";
  _ ← (if schemaVersion =? 0 then migrateLegacyGrantKeys else mret tt);
  _ ← (if schemaVersion =? 2 then mret tt else migrateQuotedGrants);
  _ ← migrateLegacyGrantAdmissions;
  u ← usage;
  tx_lift (assertStorageCapacity u false).
End Opening.

(** ** Commands *)

Inductive IssuerCommand :=
  | Reopen (storageLimits : option HashChainGrantStorageLimits)
  | IncreaseStorageLimits (limits : HashChainGrantStorageLimits)
  | CompactStorage
  | InstallHead (input : InstallInput) (maxActiveHeads : option Z) (fresh : nat -> string)
  | GetCurrent (headId : string) (t : Readings)
  | ListHeads (t : string -> Readings)
  | IssueAdmittedChallenge (headId requestHash : string) (lifetimeSeconds : Z)
      (quotedAmount admissionKey challengeId : string) (now : Z)
  | ObservedClaim (authorized : AuthorizedClaim) (observed : option HashChainCurrentUtxoObservation) (t : Readings)
  | CommitClaim (authorized : AuthorizedClaim) (candidates : list FundingOutpoint) (t : Readings)
  | PinPaymentCandidate (input : CandidateInput)
  | MarkAbandoned (headId : string) (now : Z)
  | RecordAcceptedBorrow (headId : string) (transition : HashChainAcceptedTransition)
  | RecoveredBorrow (headId transactionId : string) (current : HashChainPublicGrant)
      (selected : option HashChainSelectedTransaction) (t : Readings)
  | RecordAcceptedPayment (headId : string) (transition : HashChainAcceptedTransition)
      (payment : HashChainAcceptedPayment) (t : Readings)
  | RecordAcceptedRotation (headId : string) (transition : HashChainAcceptedTransition)
      (grants : list HashChainBorrowGrant) (fresh fresh' : nat -> string)
  | RecoveredRotation (headId transactionId : string) (grants : list HashChainBorrowGrant)
      (current : HashChainPublicGrant) (newGuard : string) (selected : option HashChainSelectedTransaction)
      (fresh fresh' : nat -> string) (t : Readings)
  | RecordAcceptedSweep (headId : string) (sweep : HashChainAcceptedSweep)
  | HoldForReorg (headId : string)
  | ReconcileObservedHead (headId : string) (observed : HashChainObservedHead).

(** A key that left the issuer: for which head and to whom. *)
Record Disclosure := { ds_headId : string; ds_claim : HashChainGrantClaim; ds_delivery : HashChainGrantDelivery }.

Section Commands.
Context {host : IssuerHost}.

Definition quiet {A} (r : Database * result A) : Database * list Disclosure := (r.1, []).
Definition exec (command : IssuerCommand) (d : Database) : Database * list Disclosure :=
  match command with
  | Reopen l => quiet (transactionSync (reopenStorage 2 l) d)
  | IncreaseStorageLimits l => quiet (transactionSync (increaseStorageLimits l) d)
  | CompactStorage => quiet (transactionSync compactStorage d)
  | InstallHead i n fresh => quiet (transactionSync (installHead i n fresh) d)
  | GetCurrent id t => quiet (transactionSync (getCurrent id t) d)
  | ListHeads t => quiet (listHeads t d)
  | IssueAdmittedChallenge id r l q k c now => quiet (transactionSync (issueAdmittedChallenge id r l q k c now) d)
  | ObservedClaim a o t => quiet (observed_claim a o t d)
  | CommitClaim a candidates t =>
      match transactionSync (commitAuthorizedGrantClaim a candidates t) d with
      | (d, Ok delivery) => (d, [{| ds_headId := au_headId a; ds_claim := au_claim a; ds_delivery := delivery |}])
      | (d, Throw _) => (d, [])
      end
  | PinPaymentCandidate i => quiet (transactionSync (pinPaymentCandidate i) d)
  | MarkAbandoned id now => quiet (transactionSync (markAbandoned id now) d)
  | RecordAcceptedBorrow id tr => quiet (transactionSync (recordAcceptedBorrow id tr) d)
  | RecoveredBorrow id txid current selected t => quiet (recovered_borrow id txid current selected t d)
  | RecordAcceptedPayment id tr p t => quiet (transactionSync (recordAcceptedPayment id tr p t) d)
  | RecordAcceptedRotation id tr grants fresh fresh' => quiet (recordAcceptedRotation id tr grants fresh fresh' d)
  | RecoveredRotation id txid grants current guard selected fresh fresh' t =>
      quiet (recovered_rotation id txid grants current guard selected fresh fresh' t d)
  | RecordAcceptedSweep id sweep => quiet (transactionSync (recordAcceptedSweep id sweep) d)
  | HoldForReorg id => quiet (transactionSync (holdForReorg id) d)
  | ReconcileObservedHead id observed => quiet (transactionSync (reconcileObservedHead id observed) d)
  end.
(** The database and everything disclosed, oldest first. *)
Definition exec_all (d : Database) (commands : list IssuerCommand) : Database * list Disclosure :=
  foldl (fun '(d, log) command => let '(d, ds) := exec command d in (d, log ++ ds)) (d, []) commands.
End Commands.
