(* ===== verification/HashChainSteps.v ===== *)
(** * The hash-chain grant issuer as an abstract machine

    What a method does to one head is one of seven moves of [head_step]; what it does to the
    database is a sequence of [db_step]s.  The moves state only positions, chains, keys,
    assignments and payments, not texts, clocks or quotas.  The refinement theorem is proved
    here once; the invariants of HashChainInvariant.v are proved against the machine. *)

From S2P Require Import Prelude Amount Json Binary ResourceBudget ChainTruth Template Dates HashChain HashChainIssuer.
From S2P Require Import HashChainGrants HashChainRun.

(** The phase a hold interrupts; a hold without a recorded phase ends in quarantine. *)
Definition effective (s : StoredHead) : GrantPhase :=
  if decide (sh_phase s = hold) then default needsRotation (sh_phaseBeforeHold s) else sh_phase s.
(** Grants may still be disclosed. *)
Definition live (s : StoredHead) : Prop := effective s = ready \/ effective s = assigned.
Definition chain_links (l : list StoredGrant) : list (string * string) :=
  map (fun g => (sg_revealedGuard g, sg_oneTimePublicKey g)) l.
Definition grown (a b : HashChainObservedHead) : Z := dec_value (oh_amount b) - dec_value (oh_amount a).

Section Machine.
Context {host : IssuerHost}.

Definition key_of (g : StoredGrant) : string := grantKeyFingerprint (sg_oneTimePublicKey g).
(** A private key that is kept belongs to the public key. *)
Definition genuine (g : StoredGrant) : Prop :=
  match sg_oneTimePrivateKey g with
  | Some k => exists b, getPublicKey (hex_decode k) = Ok b /\ sg_oneTimePublicKey g = bytesToHex b
  | None => True
  end.
(** All keys were new and now belong to this head. *)
Definition reserved (id : string) (grants : list StoredGrant) (old new : gmap string string) : Prop :=
  NoDup (map key_of grants) /\ forall g, g ∈ grants -> old !! key_of g = None /\ new !! key_of g = Some id.
Definition chain_of (guard : string) (grants : list StoredGrant) : Prop :=
  opens blake3 guard (chain_links grants) /\ Forall genuine grants.

(** The assignment of a claim, its delivery record, its disclosure *)
Definition assigns (a : StoredAssignment) (c : HashChainGrantClaim) : Prop := tuple_matches a c = true.
Definition records (s : StoredHead) (g : StoredGrant) (a : StoredAssignment) (r : HashChainGrantDeliveryRecord) : Prop :=
  dr_headId r = sh_headId s /\ dr_headVersion r = sh_version s /\ dr_headGuard r = oh_guard (sh_head s) /\
  dr_headAmount r = oh_amount (sh_head s) /\ dr_grantId r = sg_grantId g /\ dr_nextGuard r = sg_revealedGuard g /\
  dr_oneTimePublicKey r = sg_oneTimePublicKey g /\ dr_challengeId r = as_challengeId a /\
  dr_requestHash r = as_requestHash a /\ dr_payerPublicKey r = as_payerPublicKey a /\ dr_quotedAmount r = as_quotedAmount a.
Definition same_assignment (a b : option StoredAssignment) : Prop :=
  (fun x => x <| as_candidateTransactionId := None |>) <$> a = (fun x => x <| as_candidateTransactionId := None |>) <$> b.

(** The payment is for the assigned grant at its quote. *)
Definition pays (s : StoredHead) (g : StoredGrant) (r : HashChainGrantDeliveryRecord) (after : HashChainObservedHead)
    (p : HashChainAcceptedPayment) : Prop :=
  pm_grantId p = sg_grantId g /\ pm_transactionId p = txid (oh_outpoint after) /\
  (exists a, sh_assignment s = Some a /\ as_challengeId a = pm_challengeId p /\ as_requestHash a = pm_requestHash p /\
     as_payerPublicKey a = pm_payerPublicKey p) /\
  dr_headVersion r = sh_version s /\ quote_differs (dr_quotedAmount r) (pm_amount p) = false /\
  grown (sh_head s) after = dec_value (pm_amount p).

(** The head moved to a successor: lineage is kept, claims are over. *)
Definition advanced (s s' : StoredHead) (after : HashChainObservedHead) : Prop :=
  sh_headId s' = sh_headId s /\ sh_head s' = after /\ sh_version s' = sh_version s + 1 /\
  oh_covenantId after = oh_covenantId (sh_head s) /\ sh_assignment s' = None /\ sh_challenges s' = [] /\
  sh_history s' = sh_history (push_history s) /\
  (sh_phase s' = exhausted -> (length (sh_grants s') <= sh_nextIndex s')%nat) /\
  sh_phase s' ∈ [ready; needsRotation; exhausted].

Inductive head_step (id : string) (d : Database) : option StoredHead -> Database -> StoredHead -> Prop :=
  | step_install s keys :
      sh_headId s = id -> sh_version s = 0 -> sh_phase s = ready -> sh_nextIndex s = 0%nat -> sh_assignment s = None ->
      sh_history s = [] -> chain_of (oh_guard (sh_head s)) (sh_grants s) -> seen_keys d ⊆ keys ->
      reserved id (sh_grants s) (seen_keys d) keys ->
      head_step id d None (d <| seen_keys := keys |>) s
  (** Challenges, candidates, quarantine, hold and its end: the position stays. *)
  | step_keep s s' :
      sh_headId s' = sh_headId s -> sh_version s' = sh_version s -> sh_head s' = sh_head s ->
      sh_grants s' = sh_grants s -> sh_nextIndex s' = sh_nextIndex s -> sh_history s' = sh_history s ->
      same_assignment (sh_assignment s') (sh_assignment s) ->
      effective s' = effective s \/ effective s' = needsRotation ->
      head_step id d (Some s) d s'
  | step_assign s s' g a r more :
      sh_phase s = ready \/ sh_phase s = assigned -> sh_assignment s = None -> current_grant s = Some g ->
      isSome (sg_oneTimePrivateKey g) = true -> as_grantId a = sg_grantId g -> records s g a r ->
      quoted (as_quotedAmount a) = true -> deliveries d !! (id, sg_grantId g) = None ->
      sh_headId s' = sh_headId s -> sh_version s' = sh_version s -> sh_head s' = sh_head s ->
      sh_grants s' = sh_grants s -> sh_nextIndex s' = sh_nextIndex s -> sh_history s' = sh_history s ->
      sh_assignment s' = Some a -> sh_phase s' = assigned ->
      head_step id d (Some s) (d <| admissions := more |> <| deliveries := <[(id, sg_grantId g) := r]> (deliveries d) |>) s'
  | step_borrow s s' g after payment d' :
      sh_phase s <> retired -> current_grant s = Some g -> oh_guard after = sg_revealedGuard g ->
      0 < grown (sh_head s) after -> advanced s s' after -> sh_grants s' = sh_grants s ->
      sh_nextIndex s' = S (sh_nextIndex s) ->
      (sh_phase s' = ready -> live s \/ sh_phase s = exhausted) ->
      match payment with
      | None => d' = d
      | Some p => exists r, deliveries d !! (id, pm_grantId p) = Some r /\ pays s g r after p /\
          payments d !! pm_transactionId p = None /\ map_Forall (fun _ q => pm_grantId q <> pm_grantId p) (payments d) /\
          d' = d <| payments := <[pm_transactionId p := p]> (payments d) |>
      end ->
      head_step id d (Some s) d' s'
  | step_rotate s s' after keys :
      sh_phase s <> retired -> sh_phase s <> hold -> oh_guard after <> oh_guard (sh_head s) ->
      0 <= grown (sh_head s) after -> advanced s s' after -> sh_nextIndex s' = 0%nat ->
      chain_of (oh_guard after) (sh_grants s') -> seen_keys d ⊆ keys ->
      (sh_phase s' = ready -> reserved id (sh_grants s') (seen_keys d) keys) ->
      head_step id d (Some s) (d <| seen_keys := keys |>) s'
  | step_sweep s s' :
      sh_headId s' = sh_headId s -> sh_version s' = sh_version s + 1 -> sh_head s' = sh_head s ->
      sh_grants s' = sh_grants s -> sh_nextIndex s' = sh_nextIndex s -> sh_history s' = sh_history (push_history s) ->
      sh_assignment s' = None -> sh_phase s' = retired ->
      head_step id d (Some s) d s'
  (** Back to a recorded position after a reorganization, quarantined. *)
  | step_revert s s' e :
      sh_phase s = hold -> e ∈ sh_history s -> sh_headId s' = sh_headId s -> sh_version s' = sh_version s ->
      sameHead (hi_head e) (sh_head s') = true -> sh_grants s' = option_list (hi_grant e) -> sh_nextIndex s' = 0%nat ->
      sh_history s' = sh_history s -> sh_assignment s' = None -> sh_phase s' = needsRotation ->
      head_step id d (Some s) d s'.

Inductive db_step : Database -> Database -> Prop :=
  | db_head id d d1 s' :
      head_step id d (heads d !! id) d1 s' -> db_step d (d1 <| heads := <[id := s']> (heads d) |>)
  | db_policy d limits : db_step d (d <| capacity := limits |>)
  | db_compact d : db_step d (d <| heads := compact_head <$> heads d |>)
  | db_legacy d more claimants : db_step d (d <| admissions := more |> <| legacy_claimants := claimants |>).

(** The disclosed key is the one of the current grant, assigned to this claim. *)
Definition disclosed (d : Database) (x : Disclosure) : Prop :=
  exists s a g, heads d !! ds_headId x = Some s /\ sh_assignment s = Some a /\ current_grant s = Some g /\
    assigns a (ds_claim x) /\ sg_grantId g = dl_grantId (ds_delivery x) /\ sg_revealedGuard g = dl_nextGuard (ds_delivery x) /\
    sg_oneTimePublicKey g = dl_oneTimePublicKey (ds_delivery x) /\
    sg_oneTimePrivateKey g = Some (dl_oneTimePrivateKey (ds_delivery x)) /\ as_grantId a = sg_grantId g.

(** ** Runs of transactions *)

Lemma tx_bind_ok {A B} (m : tx A) (k : A -> tx B) d r :
  (x ← m; k x) d = Ok r <-> exists d1 a, m d = Ok (d1, a) /\ k a d1 = Ok r.
Proof using. cbv [mbind tx_bind]. destruct (m d) as [[d1 a]|e]; naive_solver. Qed.
Lemma tx_lift_ok {A} (r : result A) d d' a : tx_lift r d = Ok (d', a) <-> r = Ok a /\ d' = d.
Proof using. unfold tx_lift. destruct r; naive_solver. Qed.
Lemma tx_fail_if_ok b msg d d' u : tx_fail_if b msg d = Ok (d', u) <-> b = false /\ d' = d.
Proof using. unfold tx_fail_if. rewrite tx_lift_ok, throw_if_ok. done. Qed.
Lemma database_ok d d' a : database d = Ok (d', a) <-> a = d /\ d' = d.
Proof using. unfold database. naive_solver. Qed.
Lemma update_ok f d d' u : update f d = Ok (d', u) <-> d' = f d.
Proof using. destruct u. unfold update. naive_solver. Qed.
End Machine.

Ltac inv_tx :=
  repeat match goal with
  | H : @mbind tx _ _ _ _ _ _ = Ok _ |- _ => apply tx_bind_ok in H as (? & ? & ? & H)
  | H : tx_lift _ _ = Ok (_, _) |- _ => apply tx_lift_ok in H as [? ->]
  | H : tx_fail_if _ _ _ = Ok (_, _) |- _ => apply tx_fail_if_ok in H as [? ->]
  | H : database _ = Ok (_, _) |- _ => apply database_ok in H as [-> ->]
  | H : update _ _ = Ok (_, _) |- _ => apply update_ok in H as ->
  | H : @mret tx _ _ _ _ = Ok _ |- _ => unfold mret, tx_ret in H
  | H : tx_lift _ _ = Ok ?p |- _ => is_var p; destruct p
  | H : Ok _ = Ok _ |- _ => injection H as H; try subst
  | H : (_, _) = (_, _) |- _ => injection H as H; try subst
  | H : Throw _ = Ok _ |- _ => discriminate H
  | x : () |- _ => destruct x
  | x : _ * _ |- _ => destruct x
  end.

Section Refinement.
Context {host : IssuerHost}.

Definition within_limits (d : Database) : Prop :=
  us_records (storageUsage d) <= lim_maxRecords (capacity d) /\ us_bytes (storageUsage d) <= lim_maxBytes (capacity d).

Lemma capacity_ok d reserve u : assertStorageCapacity (storageUsage d) reserve = Ok u -> within_limits d.
Proof using.
  unfold assertStorageCapacity, within_limits. change (us_limits (storageUsage d)) with (capacity d).
  assert (0 <= us_reservedRecords (storageUsage d) /\ 0 <= us_reservedBytes (storageUsage d)) as [Hr Hb].
  { unfold storageUsage. cbn [us_reservedRecords us_reservedBytes]. unfold RECOVERY_RECORDS_PER_HEAD, RECOVERY_BYTES_PER_HEAD. lia. }
  destruct (Z.ltb_spec (lim_maxRecords (capacity d)) (us_records (storageUsage d) + (if reserve then us_reservedRecords (storageUsage d) else 0))); [done|].
  destruct (Z.ltb_spec (lim_maxBytes (capacity d)) (us_bytes (storageUsage d) + (if reserve then us_reservedBytes (storageUsage d) else 0))); [done|].
  intros _. destruct reserve; lia.
Qed.
Lemma limits_ok d d' l : readStorageLimits d = Ok (d', l) -> d' = d /\ l = capacity d.
Proof using. unfold readStorageLimits. intros H. inv_tx. done. Qed.
Lemma usage_ok d d' u : usage d = Ok (d', u) -> d' = d /\ u = storageUsage d.
Proof using. unfold usage. intros H. inv_tx. apply limits_ok in H0 as [-> _]. done. Qed.
Lemma read_ok id d d' s : read id d = Ok (d', s) -> d' = d /\ heads d !! id = Some s.
Proof using.
  unfold read. intros H. apply tx_bind_ok in H as (d1 & d2 & Hd & H). apply database_ok in Hd as [-> ->].
  destruct (heads d !! id) as [s'|] eqn:E; inv_tx; done.
Qed.

(** A mutation applies its change, writes the head and stays within the quota. *)
Lemma mutate_ok {T} id mode (change : option StoredHead -> tx (StoredHead * T)) d d' r :
  mutate id mode change d = Ok (d', r) ->
  exists d1 next, change (heads d !! id) d = Ok (d1, (next, r)) /\
    d' = d1 <| heads := <[id := next]> (heads d1) |> /\ within_limits d'.
Proof using.
  unfold mutate. intros H. apply tx_bind_ok in H as (d1 & l & Hl & H). apply limits_ok in Hl as [-> ->].
  apply tx_bind_ok in H as (d1 & [] & Hc & H). apply tx_lift_ok in Hc as [_ ->].
  apply tx_bind_ok in H as (d1 & d2 & Hd & H). apply database_ok in Hd as [-> ->].
  apply tx_bind_ok in H as (d1 & [] & Hn & H). apply tx_lift_ok in Hn as [_ ->].
  apply tx_bind_ok in H as (d1 & [next result] & Hchange & H).
  apply tx_bind_ok in H as (d2 & [] & Hu & H). apply update_ok in Hu as ->.
  apply tx_bind_ok in H as (d3 & u & Hu & H). apply usage_ok in Hu as [-> ->].
  apply tx_bind_ok in H as (d4 & [] & Ha & H). apply tx_lift_ok in Ha as [Ha ->]. inv_tx.
  exists d1, next. split; [done|]. split; [done|]. by eapply capacity_ok.
Qed.
Lemma on_head_ok {T} msg (change : StoredHead -> tx (StoredHead * T)) o d r :
  on_head msg change o d = Ok r -> exists s, o = Some s /\ change s d = Ok r.
Proof using. unfold on_head. destruct o; [eauto|]. intros H. destruct r. by inv_tx. Qed.

(** A transaction that only takes machine steps and, if it writes, respects the quota. *)
Definition sound {A} (m : tx A) : Prop :=
  forall d d' a, m d = Ok (d', a) -> rtc db_step d d' /\ (within_limits d -> within_limits d').

Lemma sound_mutate {T} id mode (change : option StoredHead -> tx (StoredHead * T)) :
  (forall d d1 next r, change (heads d !! id) d = Ok (d1, (next, r)) ->
     heads d1 = heads d /\ head_step id d (heads d !! id) d1 next) -> sound (mutate id mode change).
Proof using.
  intros Hstep d d' r H. apply mutate_ok in H as (d1 & next & Hc & -> & Hl).
  split; [|done]. apply Hstep in Hc as [Hh Hc]. rewrite Hh. apply rtc_once. by constructor.
Qed.
Lemma sound_lift {A B} (r : result A) (k : A -> tx B) : (forall a, r = Ok a -> sound (k a)) -> sound (a ← tx_lift r; k a).
Proof using.
  intros Hk d d' b H. apply tx_bind_ok in H as (d1 & a & Hr & H). apply tx_lift_ok in Hr as [Hr ->]. exact (Hk a Hr _ _ _ H).
Qed.
Lemma sound_guard {B} b msg (k : () -> tx B) : (b = false -> sound (k tt)) -> sound (u ← tx_fail_if b msg; k u).
Proof using. intros Hk. apply sound_lift. intros []. rewrite throw_if_ok. done. Qed.
Lemma sound_read {B} id (k : StoredHead -> tx B) : (forall s, sound (k s)) -> sound (s ← read id; k s).
Proof using.
  intros Hk d d' b H. apply tx_bind_ok in H as (d1 & a & Hr & H). apply read_ok in Hr as [-> _]. exact (Hk a _ _ _ H).
Qed.
Lemma sound_ret {A} (a : A) : sound (mret a).
Proof using. intros d d' b H. inv_tx. split; [apply rtc_refl|done]. Qed.
Lemma sound_transaction {A} (m : tx A) d : sound m ->
  rtc db_step d (transactionSync m d).1 /\ (within_limits d -> within_limits (transactionSync m d).1).
Proof using.
  intros Hm. unfold transactionSync. destruct (m d) as [[d' a]|e] eqn:E; cbn [fst]; [exact (Hm _ _ _ E)|].
  split; [apply rtc_refl|done].
Qed.

Lemma same_assignment_refl a : same_assignment a a.
Proof using. done. Qed.
End Refinement.
#[export] Hint Resolve same_assignment_refl : core.

(** ** Methods that keep the position *)

Section Methods.
Context {host : IssuerHost}.

Lemma sound_on_head {T} id mode msg (change : StoredHead -> tx (StoredHead * T)) :
  (forall d d1 s next r, change s d = Ok (d1, (next, r)) -> heads d1 = heads d /\ head_step id d (Some s) d1 next) ->
  sound (mutate id mode (on_head msg change)).
Proof using.
  intros Hc. apply sound_mutate. intros d d1 next r H. apply on_head_ok in H as (s & -> & H). eauto.
Qed.

Lemma keep_quarantine id d s : head_step id d (Some s) d (quarantine s).
Proof using. apply step_keep; try done. by right. Qed.
Lemma keep_same id d s : head_step id d (Some s) d s.
Proof using. apply step_keep; try done. by left. Qed.
Lemma keep_challenges id d s l : head_step id d (Some s) d (s <| sh_challenges := l |>).
Proof using. apply step_keep; try done. by left. Qed.
#[local] Hint Resolve keep_quarantine keep_same keep_challenges : core.

Lemma getCurrent_sound id t : sound (getCurrent id t).
Proof using.
  apply sound_lift. intros id' _. apply sound_read. intros s. cbv zeta.
  match goal with |- sound (if ?b then _ else _) => destruct b end; [apply sound_ret|].
  apply sound_on_head. intros d d1 s' next r H. unfold with_public in H. inv_tx. destruct (expired s' _); auto.
Qed.
Lemma markAbandoned_sound id now : sound (markAbandoned id now).
Proof using.
  apply sound_lift. intros id' _. apply sound_on_head. intros d d1 s next r H. unfold with_public in H.
  destruct (sh_phase s === needsRotation); [inv_tx; auto|].
  destruct (sh_assignment s); inv_tx; auto.
Qed.
Lemma hold_sound id : sound (holdForReorg id).
Proof using.
  apply sound_lift. intros id' _. apply sound_on_head. intros d d1 s next r H. unfold with_public in H. inv_tx.
  split; [done|]. destruct (decide (sh_phase s = hold)) as [E|E].
  - rewrite bool_decide_true by done. apply step_keep; try done. left. unfold effective. cbn. by rewrite E, !decide_True.
  - rewrite bool_decide_false by done. apply step_keep; try done. left. unfold effective. cbn.
    by rewrite decide_True, decide_False.
Qed.
Lemma issue_sound id request lifetime quote key c now : sound (issueAdmittedChallenge id request lifetime quote key c now).
Proof using.
  do 4 (apply sound_lift; intros ? _). apply sound_guard. intros _. apply sound_on_head. intros d d1 s next r H. cbv zeta in H.
  apply tx_bind_ok in H as (d2 & [] & Hg & H). apply tx_fail_if_ok in Hg as [_ ->].
  apply tx_bind_ok in H as (d2 & o & Ho & H). apply tx_lift_ok in Ho as [_ ->]. destruct o; inv_tx; auto.
Qed.
Lemma pin_sound input : sound (pinPaymentCandidate input).
Proof using.
  do 7 (apply sound_lift; intros ? _). apply sound_on_head. intros d d1 s next r H.
  apply tx_bind_ok in H as (d2 & o & Ho & H). unfold getAcceptedPayment in Ho. inv_tx.
  match type of H with context [payments ?d !! ?k] => destruct (payments d !! k) as [p|] end; [unfold getDeliveryRecord in H; inv_tx; auto|].
  destruct (sh_assignment s) eqn:E; inv_tx. split; [done|]. apply step_keep; try done.
  - by rewrite E.
  - by left.
Qed.
Lemma sweep_sound id sweep : sound (recordAcceptedSweep id sweep).
Proof using.
  apply sound_lift. intros id' _. apply sound_guard. intros _. apply sound_lift. intros ? _. apply sound_on_head.
  intros d d1 s next r H. unfold with_public in H. inv_tx. split; [done|]. by apply step_sweep.
Qed.
Lemma reconcile_sound id observed : sound (reconcileObservedHead id observed).
Proof using.
  apply sound_lift. intros id' _. apply sound_on_head. intros d d1 s next r H. unfold with_public in H. 
  apply tx_bind_ok in H as (d2 & [] & Hg & H). apply tx_fail_if_ok in Hg as [Hg ->].
  apply tx_bind_ok in H as (d2 & actual & Ha & H). apply tx_lift_ok in Ha as [_ ->]. inv_bool.
  apply tx_bind_ok in H as (d2 & s2 & Hs & H). inv_tx.
  destruct (sameHead actual (sh_head s)) eqn:Es.
  - inv_tx. split; [done|]. apply step_keep; try done. unfold effective at 2. rewrite decide_True by done.
    unfold effective. cbn. destruct (default needsRotation (sh_phaseBeforeHold s)); cbn; auto.
  - destruct (find _ (sh_history s)) as [e|] eqn:Ef; inv_tx. apply List.find_some in Ef as [He Hs]. split; [done|].
    eapply step_revert; try done. by apply list_elem_of_In.
Qed.
End Methods.

(** ** Methods that move or disclose *)

Section Moves.
Context {host : IssuerHost}.

Lemma normalizeGrant_genuine g id s : normalizeGrant g id = Ok s -> genuine s.
Proof using.
  unfold normalizeGrant. intros H. inv_ok. unfold genuine. cbn. eauto.
Qed.
Lemma normalizeGrants_genuine l fresh grants : normalizeGrants l fresh = Ok grants -> Forall genuine grants.
Proof using.
  apply (fold_result_inv (Forall genuine)); [|done]. intros t x t' _ Ht H. inv_result.
  apply Forall_app. split; [done|]. apply Forall_singleton. by eapply normalizeGrant_genuine.
Qed.
Lemma check_chain_ok guard grants u : check_chain guard grants = Ok u -> opens blake3 guard (chain_links grants).
Proof using.
  revert guard. induction grants as [|g grants IH]; intros guard H; [done|]. cbn [check_chain] in H. inv_ok.
  cbn [chain_links map opens]. split; [by subst|]. by apply IH.
Qed.

Lemma remember_ok id grants d d' reused : rememberGrantKeys id grants d = Ok (d', reused) ->
  exists keys, d' = d <| seen_keys := keys |> /\ seen_keys d ⊆ keys /\
    (reused = false -> reserved id grants (seen_keys d) keys).
Proof using.
  revert d d' reused. induction grants as [|g grants IH]; intros d d' reused; cbn [rememberGrantKeys].
  - intros H. inv_tx. exists (seen_keys d'). split; [by destruct d'|]. split; [done|]. intros _. split; [constructor|].
    by intros ? ?%elem_of_nil.
  - intros H. apply tx_bind_ok in H as (d1 & d2 & Hd & H). apply database_ok in Hd as [-> ->].
    destruct (seen_keys d !! _) as [o|] eqn:E; cbn [isSome isNone negb] in H.
    + apply tx_bind_ok in H as (d1 & b & Hb & H). inv_tx. apply IH in Hb as (keys & -> & Hk & _). by exists keys.
    + apply tx_bind_ok in H as (d1 & [] & Hb & H). apply update_ok in Hb as ->.
      apply IH in H as (keys & -> & Hk & Hr). cbn in Hk, Hr. exists keys. split; [by destruct d|].
      split; [by etrans; [apply insert_subseteq|]|]. intros Hf. destruct (Hr Hf) as [Hn Hg].
      assert (forall g', g' ∈ grants -> key_of g' <> key_of g) as Hne.
      { intros g' Hg' Heq. destruct (Hg _ Hg') as [Hg1 _]. by rewrite Heq, lookup_insert_eq in Hg1. }
      split.
      * cbn [map]. constructor; [|done]. rewrite list_elem_of_fmap. intros (g' & Heq & Hg'). by destruct (Hne g').
      * intros g' [->|Hg']%elem_of_cons.
        -- split; [done|]. eapply lookup_weaken; [|done]. apply lookup_insert_eq.
        -- destruct (Hg _ Hg') as [Hg1 Hg2]. by rewrite lookup_insert_ne in Hg1 by (intros Heq; by destruct (Hne g')).
Qed.

Lemma installHead_sound input limit fresh : sound (installHead input limit fresh).
Proof using.
  apply sound_guard. intros _. apply sound_lift. intros id _. apply sound_lift. intros owner _. apply sound_lift. intros [] _.
  apply sound_lift. intros head _. cbv zeta. apply sound_guard. intros _. apply sound_lift. intros grants Hg%normalizeGrants_genuine.
  apply sound_lift. intros [] Hc%check_chain_ok. apply sound_mutate. intros d d1 next r H.
  apply tx_bind_ok in H as (d2 & [] & Hi & H). apply tx_fail_if_ok in Hi as [Hi ->].
  apply tx_bind_ok in H as (d2 & d3 & Hd & H). apply database_ok in Hd as [-> ->].
  apply tx_bind_ok in H as (d2 & [] & Hd & H). apply tx_fail_if_ok in Hd as [_ ->].
  apply tx_bind_ok in H as (d2 & reused & Hm & H). apply tx_bind_ok in H as (d3 & [] & Hr & H).
  apply tx_fail_if_ok in Hr as [-> ->]. unfold with_public in H. inv_tx.
  apply remember_ok in Hm as (keys & -> & Hk & Hr). specialize (Hr eq_refl).
  destruct (heads d !! id); [done|]. split; [done|]. by apply step_install.
Qed.

Lemma normalizeHead_ok head owner h : normalizeHead head owner = Ok h ->
  txid (oh_outpoint h) = txid (oh_outpoint head) /\ oh_guard h = oh_guard head /\ headScript owner (oh_guard h) = Ok (oh_scriptPublicKey h).
Proof using.
  unfold normalizeHead, normalizeOutpoint, hex32. intros H. inv_ok. done.
Qed.

Lemma nonconforming_ok id s g after d d' b : nonconforming_borrow id s g after d = Ok (d', b) ->
  d' = d /\ (b = true -> sh_phaseBeforeHold s = Some assigned \/ sh_phaseBeforeHold s = Some needsRotation).
Proof using.
  unfold nonconforming_borrow. intros H. apply tx_bind_ok in H as (d1 & o & Ho & H).
  assert (d1 = d) as -> by (destruct (sh_assignment s); [unfold getDeliveryRecord in Ho|]; inv_tx; done).
  inv_tx. split; [done|]. destruct (sh_assignment s), o; try done. intros Hb. inv_bool.
  repeat match goal with H : _ || _ = true |- _ => apply orb_true_iff in H as [H|H]; inv_bool end; auto.
Qed.
Lemma consumes_ok id s g after p d d' : consumes_assignment id s g after p d = Ok (d', true) ->
  pm_transactionId p = txid (oh_outpoint after) ->
  d' = d /\ exists r, deliveries d !! (id, pm_grantId p) = Some r /\ pays s g r after p.
Proof using.
  unfold consumes_assignment, getDeliveryRecord, hex32. intros H Ht.
  apply tx_bind_ok in H as (d1 & o & Ho & H). inv_tx. inv_ok. split; [done|].
  destruct (sh_assignment s) as [a|] eqn:Ea; [|done]. destruct (deliveries _ !! _) as [r|] eqn:Er; [|done].
  exists r. split; [done|]. inv_bool. unfold pays, grown. split_and!; try done; [|lia]. by exists a.
Qed.
Lemma insert_payment_ok p d d' u : insert_payment p d = Ok (d', u) ->
  payments d !! pm_transactionId p = None /\ map_Forall (fun _ q => pm_grantId q <> pm_grantId p) (payments d) /\
  d' = d <| payments := <[pm_transactionId p := p]> (payments d) |>.
Proof using.
  unfold insert_payment. intros H. inv_tx.
  inv_bool. split; [by destruct (payments d !! _)|]. done.
Qed.

Lemma check_borrow_ok id s after payment d d' u : check_borrow id s after payment d = Ok (d', u) ->
  (forall p, payment = Some p -> pm_transactionId p = txid (oh_outpoint after)) ->
  exists g, current_grant s = Some g /\ oh_guard after = sg_revealedGuard g /\ 0 < grown (sh_head s) after /\
    (sh_phase s = hold -> payment = None -> sh_phaseBeforeHold s = Some assigned \/ sh_phaseBeforeHold s = Some needsRotation) /\
    match payment with
    | None => d' = d
    | Some p => exists r, deliveries d !! (id, pm_grantId p) = Some r /\ pays s g r after p /\
        payments d !! pm_transactionId p = None /\ map_Forall (fun _ q => pm_grantId q <> pm_grantId p) (payments d) /\
        d' = d <| payments := <[pm_transactionId p := p]> (payments d) |>
    end.
Proof using.
  unfold check_borrow. intros H Ht. destruct (current_grant s) as [g|]; [|by inv_tx]. exists g. split; [done|].
  apply tx_bind_ok in H as (d1 & [] & Hg & H). apply tx_fail_if_ok in Hg as [Hg ->]. inv_bool.
  apply tx_bind_ok in H as (d1 & [] & Hn & H). split; [done|]. split; [unfold grown; lia|].
  assert (d1 = d /\ (sh_phase s = hold -> payment = None -> sh_phaseBeforeHold s = Some assigned \/ sh_phaseBeforeHold s = Some needsRotation)) as [-> Hh].
  { destruct ((sh_phase s === hold) && isNone payment) eqn:E.
    - apply tx_bind_ok in Hn as (d2 & b & Hn & Hb). apply nonconforming_ok in Hn as [-> Hn].
      apply tx_fail_if_ok in Hb as [Hb ->]. inv_bool. auto.
    - inv_tx. split; [done|]. intros Hp ->. rewrite bool_decide_true in E by done. done. }
  split; [done|]. destruct payment as [p|]; [|by inv_tx]. 
  apply tx_bind_ok in H as (d1 & b & Hc & H). apply tx_bind_ok in H as (d2 & [] & Hb & H).
  apply tx_fail_if_ok in Hb as [Hb ->]. inv_bool. subst b. apply consumes_ok in Hc as [-> (r & Hr & Hp)]; [|auto].
  apply insert_payment_ok in H. exists r. naive_solver.
Qed.
Lemma check_rotation_ok id s after l fresh d d' grants safe : check_rotation id s after l fresh d = Ok (d', (grants, safe)) ->
  oh_guard after <> oh_guard (sh_head s) /\ 0 <= grown (sh_head s) after /\ chain_of (oh_guard after) grants /\
  exists keys, d' = d <| seen_keys := keys |> /\ seen_keys d ⊆ keys /\ (safe = true -> reserved id grants (seen_keys d) keys).
Proof using.
  unfold check_rotation, replacement_chain. intros H. apply tx_bind_ok in H as (d1 & [] & Hg & H).
  apply tx_fail_if_ok in Hg as [Hg ->]. inv_bool. split; [done|]. split; [unfold grown; lia|]. cbv zeta in H.
  assert (forall o : option (list StoredGrant), (match o with Some grants => reused ← rememberGrantKeys id grants; mret (grants, negb reused)
            | None => mret ([], false) end) d = Ok (d', (grants, safe)) ->
          (forall gs, o = Some gs -> chain_of (oh_guard after) gs) -> chain_of (oh_guard after) grants /\
    exists keys, d' = d <| seen_keys := keys |> /\ seen_keys d ⊆ keys /\ (safe = true -> reserved id grants (seen_keys d) keys)) as Hr.
  { intros [gs|] Ho Hgs; [|inv_tx; split; [done|]; exists (seen_keys d'); by destruct d'].
    apply tx_bind_ok in Ho as (d1 & reused & Hm & Ho). inv_tx. apply remember_ok in Hm as (keys & -> & Hk & Hr).
    split; [auto|]. exists keys. split; [done|]. split; [done|]. destruct reused; [done|auto]. }
  apply (Hr _ H). clear. intros gs. destruct (_ && _); [|done].
  destruct (gs' ← normalizeGrants l fresh; _) as [gs'|] eqn:E; [|done]. intros [= <-]. inv_result. split; [by eapply check_chain_ok|].
  by eapply normalizeGrants_genuine.
Qed.
End Moves.

Section Advances.
Context {host : IssuerHost}.

Lemma recovery_grants l guard : chain_of guard l -> chain_of guard (map publicRecoveryGrant (take 1 l)).
Proof using.
  intros [Ho Hg]. destruct l as [|g l]; [done|]. cbn. split; [|by repeat constructor].
  cbn in Ho |- *. naive_solver.
Qed.

Lemma phase_cases (b q : bool) len idx p :
  p = (if b then needsRotation else if (len <=? idx)%nat then exhausted else if q then needsRotation else ready) ->
  (p = exhausted -> (len <= idx)%nat) /\ p ∈ [ready; needsRotation; exhausted] /\ (p = ready -> b = false /\ q = false).
Proof using.
  intros ->. rewrite !elem_of_cons. destruct b; [naive_solver|]. destruct (Nat.leb_spec len idx); [naive_solver|].
  destruct q; naive_solver.
Qed.

Lemma advance_sound id tr kind l fresh payment recovery :
  (kind = borrow -> recovery = false) ->
  (forall p, payment = Some p -> pm_transactionId p = txid (oh_outpoint (tr_successor tr))) ->
  sound (advance id tr kind l fresh payment recovery).
Proof using.
  intros Hrec Hpay. apply sound_lift. intros id' _. apply sound_guard. intros _. apply sound_on_head.
  intros d d1 s next r H. unfold with_public in H.
  apply tx_bind_ok in H as (d2 & [] & Hg & H). apply tx_fail_if_ok in Hg as [Hg ->].
  apply tx_bind_ok in H as (d2 & pred & Hp & H). apply tx_lift_ok in Hp as [_ ->].
  apply tx_bind_ok in H as (d2 & [] & Hp & H). apply tx_fail_if_ok in Hp as [_ ->].
  apply tx_bind_ok in H as (d2 & after & Ha & H). apply tx_lift_ok in Ha as [Ha ->].
  apply tx_bind_ok in H as (d2 & [] & Hc & H). apply tx_fail_if_ok in Hc as [Hc ->].
  apply tx_bind_ok in H as (d2 & [grants safe] & Hk & H). apply normalizeHead_ok in Ha as (Htx & _ & _).
  apply orb_false_iff in Hg as [Hret%bool_decide_eq_false Hhold].
  apply orb_false_iff in Hc as [Hcov%negb_false_iff%bool_decide_eq_true _].
  set (gs := match kind with borrow => sh_grants s | rotate => grants end) in H. cbv zeta in H.
  set (gs' := if recovery then map publicRecoveryGrant (take 1 gs) else gs) in H.
  set (ix := match kind with borrow => S (sh_nextIndex s) | rotate => 0%nat end) in H.
  match type of H with context [if ?b then needsRotation else if _ then exhausted else if ?q then needsRotation else ready] =>
    destruct (phase_cases b q (length gs') ix _ eq_refl) as (Hex & Hin & Hready) end.
  match type of Hready with ?p = ready -> _ => set (ph := p) in H, Hex, Hin, Hready end. clearbody ph. inv_tx.
  destruct kind; cbn in gs, ix.
  - destruct recovery; [discriminate (Hrec eq_refl)|]. apply tx_bind_ok in Hk as (d3 & [] & Hb & Hk). inv_tx.
    apply check_borrow_ok in Hb as (g & Hg & Hgu & Hpos & Hh & Hpm); [|intros p ->; rewrite Htx; by apply Hpay].
    split; [destruct payment as [p|]; [by destruct Hpm as (? & ? & ? & ? & ? & ->)|by subst]|].
    eapply step_borrow; try done.
    intros Hr. destruct (Hready Hr) as [_ Hq]. cbn in Hq. rewrite andb_true_r in Hq.
    apply orb_false_iff in Hq as [Hq%bool_decide_eq_false Hq2]. unfold live, effective.
    destruct (decide (sh_phase s = hold)) as [Eh|Eh]; [|destruct (sh_phase s); naive_solver].
    rewrite Eh in Hhold, Hq2, Hh. cbn in Hhold, Hq2. apply bool_decide_eq_false in Hq2.
    destruct payment as [p|]; cbn in Hhold; [destruct (bool_decide_reflect (sh_phaseBeforeHold s = Some assigned)) as [->|]; [auto|discriminate Hhold]|].
    destruct (Hh eq_refl eq_refl) as [->|E]; [auto|congruence].
  - apply check_rotation_ok in Hk as (Hgu & Hpos & Hchain & keys & -> & Hkeys & Hsafe).
    destruct (bool_decide_reflect (sh_phase s = hold)) as [Eh|Eh]; [done|]. split; [done|].
    eapply (step_rotate _ _ _ _ after); try done.
    + cbn. subst gs' gs. destruct recovery; [by apply recovery_grants|done].
    + intros Hr. destruct (Hready Hr) as [Hq _]. subst gs' gs. destruct recovery, safe; try done. by apply Hsafe.
Qed.
End Advances.

(** ** Disclosure *)

Section Disclosure.
Context {host : IssuerHost}.

Lemma inspect_ok s c now g private challenge : inspectGrantClaim s c now = Ok (g, private, challenge) ->
  (sh_phase s = ready \/ sh_phase s = assigned) /\ current_grant s = Some g /\ sg_oneTimePrivateKey g = Some private /\
  gc_grantId c = sg_grantId g /\ (sh_assignment s = None -> quoted (ch_quotedAmount (publicChallenge challenge)) = true) /\
  (forall a, sh_assignment s = Some a -> assigns a c).
Proof using.
  unfold inspectGrantClaim. intros H. apply bind_ok in H as ([] & Hp%throw_if_ok & H).
  apply andb_false_iff in Hp. split; [destruct Hp; inv_bool; auto|]. clear Hp.
  destruct (current_grant s) as [g'|]; [|done]. destruct (find _ _) as [ch|]; [|done].
  unfold nonempty_key in H. destruct (sg_oneTimePrivateKey g') as [k|] eqn:Ek; [|done]. destruct (k === ""); [done|].
  apply bind_ok in H as ([] & Hg%throw_if_ok & H). apply bind_ok in H as (digest & _ & H).
  apply bind_ok in H as ([] & _ & H). apply bind_ok in H as ([] & Ha%throw_if_ok & [= <- <- <-]). inv_bool.
  split_and!; try done.
  - intros E. rewrite E in *. match goal with H : negb (quoted _) && _ = false |- _ => apply andb_false_iff in H as [H|H]; [by inv_bool|done] end.
  - intros a E. rewrite E in Ha. by inv_bool.
Qed.

Lemma assign_ok a s g challenge candidates t d d' s' asg :
  assign_grant a s g challenge candidates t d = Ok (d', (s', asg)) ->
  sh_assignment s = None -> current_grant s = Some g -> sh_phase s = ready \/ sh_phase s = assigned ->
  isSome (sg_oneTimePrivateKey g) = true -> gc_grantId (au_claim a) = sg_grantId g ->
  quoted (ch_quotedAmount (publicChallenge challenge)) = true ->
  heads d' = heads d /\ head_step (au_headId a) d (Some s) d' s' /\ sh_assignment s' = Some asg /\
  assigns asg (au_claim a) /\ as_grantId asg = sg_grantId g /\ sh_grants s' = sh_grants s /\ sh_nextIndex s' = sh_nextIndex s.
Proof using.
  intros H Hn Hg Hp Hk Hc Hq. unfold assign_grant in H. cbv zeta in H.
  apply tx_bind_ok in H as (d1 & [] & H1 & H). apply tx_fail_if_ok in H1 as [_ ->].
  apply tx_bind_ok in H as (d1 & d2 & H1 & H). apply database_ok in H1 as [-> ->].
  apply tx_bind_ok in H as (d1 & [] & H1 & H). apply tx_fail_if_ok in H1 as [_ ->].
  apply tx_bind_ok in H as (d1 & [] & H1 & H). apply tx_fail_if_ok in H1 as [_ ->].
  apply tx_bind_ok in H as (d1 & o & H1 & H). apply tx_lift_ok in H1 as [_ ->].
  destruct o as [[o f]|]; [|by inv_tx].
  apply tx_bind_ok in H as (d1 & [] & H1 & H). apply update_ok in H1 as ->.
  apply tx_bind_ok in H as (d1 & at' & H1 & H). apply tx_lift_ok in H1 as [_ ->].
  apply tx_bind_ok in H as (d1 & d2 & H1 & H). apply database_ok in H1 as [-> ->].
  apply tx_bind_ok in H as (d1 & [] & Hf & H). apply tx_fail_if_ok in Hf as [Hf ->].
  apply tx_bind_ok in H as (d1 & [] & H1 & H). apply update_ok in H1 as ->. inv_tx.
  split; [done|]. split.
  - eapply (step_assign _ d s _ g); try done; [exact Hc|by unfold records; split_and!|exact Hq|]. cbn in Hf. by destruct (deliveries d !! _).
  - split_and!; try done. unfold assigns, tuple_matches. cbn. by rewrite !bool_decide_true by done.
Qed.

Lemma commit_ok a candidates t d d' delivery : commitAuthorizedGrantClaim a candidates t d = Ok (d', delivery) ->
  exists d1 s', head_step (au_headId a) d (heads d !! au_headId a) d1 s' /\ d' = d1 <| heads := <[au_headId a := s']> (heads d) |> /\
    within_limits d' /\
    exists asg g, sh_assignment s' = Some asg /\ current_grant s' = Some g /\ assigns asg (au_claim a) /\
      sg_grantId g = dl_grantId delivery /\ sg_revealedGuard g = dl_nextGuard delivery /\
      sg_oneTimePublicKey g = dl_oneTimePublicKey delivery /\ sg_oneTimePrivateKey g = Some (dl_oneTimePrivateKey delivery) /\
      as_grantId asg = sg_grantId g.
Proof using.
  intros H. apply mutate_ok in H as (d1 & s' & H & -> & Hl). apply on_head_ok in H as (s & Hs & H).
  apply tx_bind_ok in H as (d2 & [] & H1 & H). apply tx_fail_if_ok in H1 as [_ ->].
  apply tx_bind_ok in H as (d2 & [[g private] challenge] & H1 & H). apply tx_lift_ok in H1 as [Hi ->].
  apply inspect_ok in Hi as (Hp & Hg & Hk & Hc & Hq & Ht).
  apply tx_bind_ok in H as (d2 & [s2 asg] & Ha & H). inv_tx.
  destruct (sh_assignment s) as [asg0|] eqn:Ea.
  - inv_tx. exists d1, s'. rewrite Hs. split; [apply keep_same|]. split; [done|]. split; [done|].
    exists asg, g. specialize (Ht _ eq_refl). split_and!; try done.
    unfold assigns, tuple_matches in Ht. inv_bool. congruence.
  - apply assign_ok in Ha as (Hh & Hstep & Hasg & Has & Hid & Hgr & Hix); try done; [|by rewrite Hk|auto].
    exists d1, s'. rewrite Hs, <- Hh. split; [done|]. split; [done|]. split; [done|].
    exists asg, g. split_and!; try done. unfold current_grant. by rewrite Hgr, Hix.
Qed.
End Disclosure.

(** ** Every command *)

Section Commands.
Context {host : IssuerHost}.

Definition steps_of (d d' : Database) : Prop := rtc db_step d d' /\ (within_limits d -> within_limits d').
Lemma steps_refl d : steps_of d d.
Proof using. split; [apply rtc_refl|done]. Qed.
Lemma steps_trans d1 d2 d3 : steps_of d1 d2 -> steps_of d2 d3 -> steps_of d1 d3.
Proof using. intros [H1 L1] [H2 L2]. split; [by etrans|auto]. Qed.
Lemma transaction_steps {A} (m : tx A) d d' r : sound m -> transactionSync m d = (d', r) -> steps_of d d'.
Proof using. intros Hm E. pose proof (sound_transaction m d Hm) as H. by rewrite E in H. Qed.

Lemma increase_sound limits : sound (increaseStorageLimits limits).
Proof using.
  apply sound_lift. intros [] _ d d' u H. apply tx_bind_ok in H as (d1 & l & Hl & H). apply limits_ok in Hl as [-> ->].
  apply tx_bind_ok in H as (d1 & [] & H1 & H). apply tx_fail_if_ok in H1 as [_ ->].
  apply tx_bind_ok in H as (d1 & [] & H1 & H). apply tx_lift_ok in H1 as [_ ->].
  apply tx_bind_ok in H as (d1 & [] & H1 & H). apply update_ok in H1 as ->.
  apply tx_bind_ok in H as (d1 & v & Hu & H). apply usage_ok in Hu as [-> ->].
  apply tx_bind_ok in H as (d1 & [] & Ha & H). apply tx_lift_ok in Ha as [Ha ->]. inv_tx.
  split; [apply rtc_once; constructor|]. intros _. by eapply capacity_ok.
Qed.
Lemma compact_sound : sound compactStorage.
Proof using.
  intros d d' u H. apply tx_bind_ok in H as (d1 & [] & H1 & H). apply update_ok in H1 as ->.
  apply tx_bind_ok in H as (d1 & v & Hu & H). apply usage_ok in Hu as [-> ->].
  apply tx_bind_ok in H as (d1 & [] & Ha & H). apply tx_lift_ok in Ha as [Ha ->]. apply usage_ok in H as [-> _].
  split; [apply rtc_once; constructor|]. intros _. by eapply capacity_ok.
Qed.

Definition legacy_only (d d' : Database) : Prop :=
  exists more claimants, d' = d <| admissions := more |> <| legacy_claimants := claimants |>.
Lemma legacy_refl d : legacy_only d d.
Proof using. exists (admissions d), (legacy_claimants d). by destruct d. Qed.
Lemma legacy_trans d1 d2 d3 : legacy_only d1 d2 -> legacy_only d2 d3 -> legacy_only d1 d3.
Proof using. intros (m1 & c1 & ->) (m2 & c2 & ->). by exists m2, c2. Qed.
Lemma for_rows_legacy {A} (body : A -> tx ()) rows d d' u :
  (forall row d d' u, body row d = Ok (d', u) -> legacy_only d d') -> for_rows body rows d = Ok (d', u) -> legacy_only d d'.
Proof using.
  intros Hb. revert d. induction rows as [|row rows IH]; intros d H; cbn [for_rows] in H.
  - inv_tx. apply legacy_refl.
  - apply tx_bind_ok in H as (d1 & [] & H1 & H). eauto using legacy_trans.
Qed.
Lemma migrate_admissions_legacy d d' u : migrateLegacyGrantAdmissions d = Ok (d', u) -> legacy_only d d'.
Proof using.
  intros H. apply tx_bind_ok in H as (d1 & rows & H1 & H). unfold head_rows in H1. inv_tx.
  unfold delivery_rows in *. inv_tx.
  match goal with H1 : for_rows _ _ _ = _, H2 : for_rows _ _ _ = _ |- _ => rename H1 into Hr2; rename H2 into Hr1 end.
  apply for_rows_legacy in Hr1; [|].
  - apply for_rows_legacy in Hr2; [|].
    + eauto using legacy_trans.
    + clear. intros [id s] d d' u H. destruct (sh_assignment s) as [a|]; [|inv_tx; apply legacy_refl]. destruct (_ && _); [|inv_tx; apply legacy_refl].
      unfold migrate_assignment, add_legacy in H. apply tx_bind_ok in H as (d1 & f & H1 & H). apply tx_lift_ok in H1 as [_ ->].
      apply tx_bind_ok in H as (d1 & [] & H1 & H). apply update_ok in H1 as ->. destruct (find _ _) as [ch|].
      * apply tx_bind_ok in H as (d1 & t & H1 & H). apply tx_lift_ok in H1 as [_ ->].
        apply tx_bind_ok in H as (d1 & k & H1 & H). apply tx_lift_ok in H1 as [_ ->]. apply update_ok in H as ->.
        destruct (isSome _); [by exists (admissions d), ({[f]} ∪ legacy_claimants d); destruct d|by eexists _, _].
      * inv_tx. by exists (admissions d), ({[f]} ∪ legacy_claimants d); destruct d.
  - clear. intros [k r] d d' u H. destruct (_ || _); [|inv_tx; apply legacy_refl].
    unfold add_legacy in H. inv_tx. by eexists (admissions _), _; destruct_all Database.
Qed.

Lemma reopen_sound limits : sound (reopenStorage 2 limits).
Proof using.
  apply sound_lift. intros [] _ d d' u H. apply tx_bind_ok in H as (d1 & l & Hl & H). apply limits_ok in Hl as [-> ->].
  do 2 (apply tx_bind_ok in H as (d1 & [] & H1 & H); apply tx_lift_ok in H1 as [_ ->]).
  apply tx_bind_ok in H as (d1 & [] & H1 & H). apply tx_fail_if_ok in H1 as [_ ->].
  do 2 (apply tx_bind_ok in H as (d1 & [] & H1 & H); cbv in H1; injection H1 as <-).
  apply tx_bind_ok in H as (d3 & [] & Hm & H). apply migrate_admissions_legacy in Hm as (more & claimants & ->).
  apply tx_bind_ok in H as (d4 & v & Hu & H). apply usage_ok in Hu as [-> ->]. apply tx_lift_ok in H as [Ha ->].
  split; [apply rtc_once; constructor|]. intros _. by eapply capacity_ok.
Qed.

Lemma list_steps ids t d d' r : list_current ids t d = (d', r) -> steps_of d d'.
Proof using.
  revert d d' r. induction ids as [|id ids IH]; intros d d' r; cbn [list_current]; [intros [= <- _]; apply steps_refl|].
  destruct (transactionSync _ d) as [d1 [g|e]] eqn:E; apply transaction_steps in E; try apply getCurrent_sound; [|by intros [= <- _]].
  destruct (list_current ids t d1) as [d2 [l|e]] eqn:E2; apply IH in E2; intros [= <- _]; by eapply steps_trans.
Qed.
Lemma observed_steps a o t d d' r : observed_claim a o t d = (d', r) -> steps_of d d'.
Proof using.
  unfold observed_claim. destruct (transactionSync _ d) as [d1 [g|e]] eqn:E; apply transaction_steps in E; try apply getCurrent_sound;
    [|by intros [= <- _]].
  destruct (_ || _); [by intros [= <- _]|]. destruct (currentUtxoMatches _ _); [by intros [= <- _]|].
  destruct (transactionSync _ d1) as [d2 [l|e]] eqn:E2; apply transaction_steps in E2; try apply hold_sound;
    intros [= <- _]; by eapply steps_trans.
Qed.
Lemma borrow_sound id tr : sound (recordAcceptedBorrow id tr).
Proof using. by apply advance_sound. Qed.
Lemma recovered_borrow_steps id txid current selected t d d' r :
  recovered_borrow id txid current selected t d = (d', r) -> steps_of d d'.
Proof using.
  unfold recovered_borrow. destruct (selects_successor _ _ _ _) as [[found|]|]; try by intros [= <- _]; apply steps_refl.
  destruct (transactionSync _ d) as [d1 [g|e]] eqn:E; apply transaction_steps in E; try apply getCurrent_sound; [|by intros [= <- _]].
  destruct (_ || _); [by intros [= <- _]|]. intros E2. apply transaction_steps in E2; [|apply borrow_sound]. by eapply steps_trans.
Qed.
Lemma rotation_steps id tr grants fresh fresh' d d' r :
  recordAcceptedRotation id tr grants fresh fresh' d = (d', r) -> steps_of d d'.
Proof using.
  unfold recordAcceptedRotation. destruct (transactionSync _ d) as [d1 [g|e]] eqn:E; apply transaction_steps in E;
    try by apply advance_sound.
  - by intros [= <- _].
  - destruct (is_capacity_error e); [|by intros [= <- _]]. intros E2. apply transaction_steps in E2; [|by apply advance_sound].
    by eapply steps_trans.
Qed.
Lemma recovered_rotation_steps id txid grants current guard selected fresh fresh' t d d' r :
  recovered_rotation id txid grants current guard selected fresh fresh' t d = (d', r) -> steps_of d d'.
Proof using.
  unfold recovered_rotation. destruct (selects_successor _ _ _ _) as [[found|]|]; try by intros [= <- _]; apply steps_refl.
  destruct (transactionSync _ d) as [d1 [g|e]] eqn:E; apply transaction_steps in E; try apply getCurrent_sound; [|by intros [= <- _]].
  destruct (_ || _); [by intros [= <- _]|]. intros E2. apply rotation_steps in E2. by eapply steps_trans.
Qed.
Lemma payment_sound id tr p t : sound (recordAcceptedPayment id tr p t).
Proof using.
  do 8 (apply sound_lift; intros ? _). cbv zeta. apply sound_guard. intros Hb d d' r H.
  apply tx_bind_ok in H as (d1 & o & Ho & H).
  assert (d1 = d) as -> by (unfold getAcceptedPayment in Ho; by inv_tx). destruct o as [q|].
  - apply tx_bind_ok in H as (d1 & a' & Ha & H). apply tx_lift_ok in Ha as [_ ->].
    apply tx_bind_ok in H as (d1 & b' & Ha & H). apply tx_lift_ok in Ha as [_ ->].
    apply tx_bind_ok in H as (d1 & [] & Ha & H). apply tx_fail_if_ok in Ha as [_ ->]. by eapply getCurrent_sound.
  - eapply advance_sound; [|..|exact H]; [done|]. intros q [= <-]. inv_bool. done.
Qed.

Lemma exec_steps command d d' log : exec command d = (d', log) -> steps_of d d' /\ Forall (disclosed d') log.
Proof using.
  assert (forall A (m : tx A), sound m -> quiet (transactionSync m d) = (d', log) -> steps_of d d' /\ Forall (disclosed d') log) as Htx.
  { intros A m Hm [= <- <-]. split; [|constructor]. by apply (transaction_steps m _ _ (transactionSync m d).2); [|destruct (transactionSync m d)]. }
  assert (forall A (m : method A), (forall d' r, m d = (d', r) -> steps_of d d') -> quiet (m d) = (d', log) ->
      steps_of d d' /\ Forall (disclosed d') log) as Hm.
  { intros A m Hm [= <- <-]. split; [|constructor]. by apply (Hm _ (m d).2); destruct (m d). }
  destruct command; cbn [exec].
  all: try by (apply Htx; auto using reopen_sound, increase_sound, compact_sound, installHead_sound, getCurrent_sound,
      issue_sound, pin_sound, markAbandoned_sound, borrow_sound, payment_sound, sweep_sound, hold_sound, reconcile_sound).
  all: try by (apply Hm; eauto using list_steps, observed_steps, recovered_borrow_steps, rotation_steps, recovered_rotation_steps).
  unfold transactionSync. destruct (commitAuthorizedGrantClaim _ _ _ d) as [[d1 delivery]|e] eqn:E; intros [= <- <-].
  - apply commit_ok in E as (d2 & s' & Hstep & -> & Hl & asg & g & Ha & Hg & H). split.
    + split; [|done]. apply rtc_once. by constructor.
    + constructor; [|done]. exists s', asg, g. cbn [ds_headId ds_claim ds_delivery heads]. split; [|naive_solver].
      cbn. by rewrite lookup_insert_eq.
  - split; [apply steps_refl|done].
Qed.

(** A run takes machine steps and discloses along the way. *)
Lemma run_steps commands d d' log log' :
  foldl (fun '(d, log) command => let '(d, ds) := exec command d in (d, log ++ ds)) (d, log) commands = (d', log') ->
  steps_of d d' /\ exists new, log' = log ++ new /\
    forall x, x ∈ new -> exists d1, rtc db_step d d1 /\ disclosed d1 x /\ rtc db_step d1 d'.
Proof using.
  revert d log. induction commands as [|command commands IH]; intros d log; cbn [foldl].
  - intros [= <- <-]. split; [apply steps_refl|]. exists []. split; [by rewrite app_nil_r|]. by intros x ?%elem_of_nil.
  - destruct (exec command d) as [d1 ds] eqn:E. apply exec_steps in E as [Hs Hd]. intros H.
    apply IH in H as (Hs2 & new & -> & Hn). split; [by eapply steps_trans|]. exists (ds ++ new). split; [by rewrite app_assoc|].
    intros x [Hx|Hx]%elem_of_app.
    + exists d1. rewrite Forall_forall in Hd. split; [apply Hs|]. split; [by apply Hd|apply Hs2].
    + destruct (Hn x Hx) as (d2 & H1 & H2 & H3). exists d2. split; [|done]. etrans; [apply Hs|done].
Qed.

(** C14. Every method of the grant issuer, on any input, in any order and with its awaits
    interleaved at will, changes the database by steps of the abstract machine only: new heads
    bring chains of new keys, a grant is assigned once and with a delivery record, heads move
    along revealed guards or by owner rotations, neither of which loses value, and every
    key that leaves the issuer is the current one, assigned to the claim it answers. *)
Theorem issuer_refines_machine commands d d' log :
  exec_all d commands = (d', log) ->
  rtc db_step d d' /\
  forall x, x ∈ log -> exists d1, rtc db_step d d1 /\ disclosed d1 x /\ rtc db_step d1 d'.
Proof using. intros H. apply run_steps in H as [[Hs _] (new & -> & Hn)]. done. Qed.
End Commands.
