(* ===== verification/HashChainInvariant.v ===== *)
(** * The hash-chain grant issuer: invariants and guarantees

    The invariant of the abstract machine of HashChainSteps.v and what it gives on every run
    from a new database: one-time keys are disclosed to one claim only, disclosed grants open
    the head they were issued for, accepted payments were delivered and quoted, and the
    storage quota holds. *)

From S2P Require Import Prelude Amount Json Binary ResourceBudget ChainTruth Template Dates HashChain HashChainIssuer.
From S2P Require Import HashChainGrants HashChainRun HashChainSteps.

Section Invariant.
Context {host : IssuerHost}.

Definition record_key (r : HashChainGrantDeliveryRecord) : string := grantKeyFingerprint (dr_oneTimePublicKey r).
(** The table's delivery is in use by the head's assignment. *)
Definition in_use (s : StoredHead) (grantId : string) : Prop := exists a, sh_assignment s = Some a /\ as_grantId a = grantId.

Section Tables.
Context (seen : gmap string string) (delivered : gmap (string * string) HashChainGrantDeliveryRecord).

Record head_ok (id : string) (s : StoredHead) : Prop := {
  ho_id : sh_headId s = id;
  ho_chain : chain_of (oh_guard (sh_head s)) (drop (sh_nextIndex s) (sh_grants s));
  ho_history : forall e g, e ∈ sh_history s -> hi_grant e = Some g -> chain_of (oh_guard (hi_head e)) [g];
  ho_assigned : forall a, sh_assignment s = Some a -> exists g r,
    current_grant s = Some g /\ as_grantId a = sg_grantId g /\ delivered !! (id, sg_grantId g) = Some r /\ records s g a r;
  ho_exhausted : effective s = exhausted -> (length (sh_grants s) <= sh_nextIndex s)%nat;
  (** Grants that can still be disclosed have keys of their own, disclosed at most now. *)
  ho_keys : live s -> NoDup (map key_of (sh_grants s)) /\ forall g, g ∈ sh_grants s -> seen !! key_of g = Some id;
  ho_unused : live s -> forall grantId r i g, delivered !! (id, grantId) = Some r -> sh_grants s !! i = Some g ->
    key_of g = record_key r -> (i < sh_nextIndex s)%nat \/ i = sh_nextIndex s /\ in_use s grantId
}.
End Tables.

Record db_ok (d : Database) : Prop := {
  ok_heads : forall id s, heads d !! id = Some s -> head_ok (seen_keys d) (deliveries d) id s;
  ok_delivered : forall id grantId r, deliveries d !! (id, grantId) = Some r ->
    dr_headId r = id /\ dr_grantId r = grantId /\ quoted (dr_quotedAmount r) = true /\ seen_keys d !! record_key r = Some id /\
    opens blake3 (dr_headGuard r) [(dr_nextGuard r, dr_oneTimePublicKey r)];
  ok_once : forall id grantId r id' grantId' r', deliveries d !! (id, grantId) = Some r ->
    deliveries d !! (id', grantId') = Some r' -> record_key r = record_key r' -> id = id' /\ grantId = grantId';
  ok_payments : forall t p, payments d !! t = Some p -> pm_transactionId p = t /\
    exists id r, deliveries d !! (id, pm_grantId p) = Some r /\ dr_challengeId r = pm_challengeId p /\
      dr_requestHash r = pm_requestHash p /\ dr_payerPublicKey r = pm_payerPublicKey p /\ dr_quotedAmount r = Some (pm_amount p);
  ok_paid_once : forall t p t' p', payments d !! t = Some p -> payments d !! t' = Some p' -> pm_grantId p = pm_grantId p' -> t = t'
}.

Lemma head_ok_mono seen seen' delivered delivered' id s :
  seen ⊆ seen' -> (forall grantId, delivered' !! (id, grantId) = delivered !! (id, grantId)) ->
  head_ok seen delivered id s -> head_ok seen' delivered' id s.
Proof using.
  intros Hs Hd [Hid Hc Hh Ha He Hk Hu]. split; try done.
  - intros a E. destruct (Ha a E) as (g & r & ? & ? & ? & ?). exists g, r. by rewrite Hd.
  - intros Hl. destruct (Hk Hl) as [? Hg]. split; [done|]. intros g Hin. eapply lookup_weaken; [|done]. by apply Hg.
  - intros Hl grantId r i g. rewrite Hd. by apply Hu.
Qed.

Lemma chain_cons guard g l : chain_of guard (g :: l) <->
  opens blake3 guard [(sg_revealedGuard g, sg_oneTimePublicKey g)] /\ genuine g /\ chain_of (sg_revealedGuard g) l.
Proof using. unfold chain_of. cbn. rewrite Forall_cons. naive_solver. Qed.
Lemma chain_single guard g : chain_of guard [g] <->
  opens blake3 guard [(sg_revealedGuard g, sg_oneTimePublicKey g)] /\ genuine g.
Proof using. rewrite chain_cons. unfold chain_of. naive_solver. Qed.
Lemma chain_current seen delivered id s g : head_ok seen delivered id s -> current_grant s = Some g ->
  chain_of (oh_guard (sh_head s)) [g] /\ chain_of (sg_revealedGuard g) (drop (S (sh_nextIndex s)) (sh_grants s)).
Proof using.
  intros Hok Hg. pose proof (ho_chain _ _ _ _ Hok) as Hc. rewrite (drop_S _ _ _ Hg) in Hc.
  apply chain_cons in Hc as (? & ? & ?). by rewrite chain_single.
Qed.

Lemma pushed_history s e : e ∈ sh_history (push_history s) ->
  e ∈ sh_history s \/ e = {| hi_head := sh_head s; hi_grant := current_grant s; hi_exposed := isSome (sh_assignment s) |}.
Proof using.
  set (h := sh_history s ++ [{| hi_head := sh_head s; hi_grant := current_grant s; hi_exposed := isSome (sh_assignment s) |}]). change (sh_history (push_history s)) with (if (128 <? length h)%nat then drop 1 h else h).
  intros H. assert (e ∈ h) as He.
  { destruct (128 <? length h)%nat; [|done]. rewrite <- (take_drop 1 h). apply elem_of_app. by right. }
  subst h. clear H.
  apply elem_of_app in He as [He|He]; [by left|]. right. by apply list_elem_of_singleton in He.
Qed.
Lemma push_history_ok seen delivered id s : head_ok seen delivered id s ->
  forall e g, e ∈ sh_history (push_history s) -> hi_grant e = Some g -> chain_of (oh_guard (hi_head e)) [g].
Proof using.
  intros Hok e g [He| ->]%pushed_history; [by eapply ho_history|]. cbn. intros Hg. by eapply chain_current.
Qed.

(** ** Each move keeps the head valid *)

Lemma effective_phase s : sh_phase s <> hold -> effective s = sh_phase s.
Proof using. unfold effective. intros H. by rewrite decide_False. Qed.
Lemma not_live s : effective s ∉ [ready; assigned] -> ~ live s.
Proof using. unfold live. rewrite !not_elem_of_cons. naive_solver. Qed.
(** A head after an advance, a sweep or a revert is not on hold. *)
Lemma moved_live s : sh_phase s ∈ [ready; needsRotation; exhausted] -> live s -> sh_phase s = ready.
Proof using.
  unfold live. rewrite !elem_of_cons, elem_of_nil. intros Hp [H|H]; rewrite effective_phase in H; destruct (sh_phase s); naive_solver.
Qed.
Lemma moved_exhausted s : sh_phase s ∈ [ready; needsRotation; exhausted] -> effective s = exhausted -> sh_phase s = exhausted.
Proof using. rewrite !elem_of_cons, elem_of_nil. intros Hp H. rewrite effective_phase in H; destruct (sh_phase s); naive_solver. Qed.
Lemma fresh_unused d id grants keys grantId r i g : db_ok d -> reserved id grants (seen_keys d) keys ->
  deliveries d !! (id, grantId) = Some r -> grants !! i = Some g -> key_of g = record_key r -> False.
Proof using.
  intros Hok [_ Hr] Hd Hg Hk. apply (ok_delivered _ Hok) in Hd as (_ & _ & _ & Hs & _).
  apply list_elem_of_lookup_2, Hr in Hg as [Hg _]. rewrite Hk in Hg. congruence.
Qed.
Lemma reserved_keys id grants old keys : reserved id grants old keys ->
  NoDup (map key_of grants) /\ forall g, g ∈ grants -> keys !! key_of g = Some id.
Proof using. intros [H1 H2]. split; [done|]. intros g Hg. by apply H2. Qed.

Lemma install_ok id d s keys : db_ok d ->
  sh_headId s = id -> sh_phase s = ready -> sh_nextIndex s = 0%nat -> sh_assignment s = None ->
  sh_history s = [] -> chain_of (oh_guard (sh_head s)) (sh_grants s) ->
  reserved id (sh_grants s) (seen_keys d) keys -> head_ok keys (deliveries d) id s.
Proof using.
  intros Hok Hid Hp Hix Ha Hh Hc Hr. split; try done.
  - by rewrite Hix.
  - rewrite Hh. by intros e g ?%elem_of_nil.
  - congruence.
  - rewrite effective_phase; congruence.
  - intros _. by eapply reserved_keys.
  - intros _ grantId r i g H1 H2 H3. by destruct (fresh_unused _ _ _ _ _ _ _ _ Hok Hr H1 H2 H3).
Qed.

Lemma same_fields a b : same_assignment (Some a) (Some b) ->
  as_grantId a = as_grantId b /\ as_challengeId a = as_challengeId b /\ as_requestHash a = as_requestHash b /\
  as_quotedAmount a = as_quotedAmount b /\ as_payerPublicKey a = as_payerPublicKey b.
Proof using. destruct a, b. unfold same_assignment. cbn. intros H. by simplify_eq. Qed.
Lemma same_some a o : same_assignment (Some a) o -> exists b, o = Some b.
Proof using. destruct o; [eauto|done]. Qed.
Lemma records_move s s' g a a' r : records s g a r -> sh_headId s' = sh_headId s -> sh_version s' = sh_version s ->
  sh_head s' = sh_head s -> same_assignment (Some a') (Some a) -> records s' g a' r.
Proof using. unfold records. intros H -> -> -> (? & -> & -> & -> & ->)%same_fields. done. Qed.

Lemma keep_ok seen delivered id s s' : head_ok seen delivered id s ->
  sh_headId s' = sh_headId s -> sh_version s' = sh_version s -> sh_head s' = sh_head s ->
  sh_grants s' = sh_grants s -> sh_nextIndex s' = sh_nextIndex s -> sh_history s' = sh_history s ->
  same_assignment (sh_assignment s') (sh_assignment s) -> effective s' = effective s \/ effective s' = needsRotation ->
  head_ok seen delivered id s'.
Proof using.
  intros Hok Hid Hv Hh Hg Hix Hhi Ha He.
  assert (live s' -> live s) as Hl by (unfold live; destruct He as [->|E]; [done|rewrite E; by intros []]).
  destruct Hok as [O1 O2 O3 O4 O5 O6 O7]. split.
  - congruence.
  - by rewrite Hh, Hix, Hg.
  - by rewrite Hhi.
  - intros a' E. rewrite E in Ha. destruct (same_some _ _ Ha) as [a Ea]. rewrite Ea in Ha.
    destruct (O4 a Ea) as (g & r & H1 & H2 & H3 & H4). exists g, r. split; [unfold current_grant; by rewrite Hg, Hix|].
    split; [by rewrite (proj1 (same_fields _ _ Ha))|]. split; [done|]. by eapply records_move.
  - destruct He as [->|E]; [by rewrite Hg, Hix|by rewrite E].
  - rewrite Hg. auto.
  - intros Hl' grantId r i g. rewrite Hg, Hix. intros H1 H2 H3. destruct (O7 (Hl Hl') _ _ _ _ H1 H2 H3) as [|[-> (a & Ea & Eg)]]; [by left|].
    right. split; [done|]. rewrite Ea in Ha. unfold in_use. destruct (sh_assignment s') as [a'|]; [|done]. exists a'.
    by rewrite (proj1 (same_fields _ _ Ha)).
Qed.

Lemma assign_keeps_ok seen delivered id s s' g a r : head_ok seen delivered id s ->
  sh_phase s = ready \/ sh_phase s = assigned -> sh_assignment s = None -> current_grant s = Some g ->
  as_grantId a = sg_grantId g -> records s g a r ->
  sh_headId s' = sh_headId s -> sh_version s' = sh_version s -> sh_head s' = sh_head s ->
  sh_grants s' = sh_grants s -> sh_nextIndex s' = sh_nextIndex s -> sh_history s' = sh_history s ->
  sh_assignment s' = Some a -> sh_phase s' = assigned ->
  head_ok seen (<[(id, sg_grantId g) := r]> delivered) id s'.
Proof using.
  intros [O1 O2 O3 O4 O5 O6 O7] Hp Hn Hg Ha Hr Hid Hv Hh Hgr Hix Hhi Ha' Hp'.
  assert (live s) as Hl by (unfold live; rewrite effective_phase by (destruct Hp as [-> | ->]; done); done).
  destruct (O6 Hl) as [Hnd Hkeys]. split.
  - congruence.
  - by rewrite Hh, Hix, Hgr.
  - by rewrite Hhi.
  - intros a' E. rewrite Ha' in E. injection E as <-. exists g, r. split; [unfold current_grant; by rewrite Hgr, Hix|].
    split; [done|]. split; [by rewrite lookup_insert_eq|]. by eapply records_move.
  - rewrite effective_phase; congruence.
  - by rewrite Hgr.
  - intros _ grantId r' i g'. rewrite Hgr, Hix. intros H1 H2 H3. destruct (decide (grantId = sg_grantId g)) as [->|Hne].
    + rewrite lookup_insert_eq in H1. injection H1 as <-. right. split; [|by exists a].
      assert (key_of g' = key_of g) as Hk.
      { rewrite H3. unfold record_key, key_of. by destruct Hr as (_ & _ & _ & _ & _ & _ & -> & _). }
      apply (NoDup_lookup _ _ _ (key_of g) Hnd); rewrite list_lookup_fmap; [by rewrite H2, <- Hk|].
      unfold current_grant in Hg. by rewrite Hg.
    + rewrite lookup_insert_ne in H1 by congruence. destruct (O7 Hl _ _ _ _ H1 H2 H3) as [|[_ (b & Eb & _)]]; [by left|congruence].
Qed.
End Invariant.

Section Moved.
Context {host : IssuerHost}.

Lemma borrow_ok seen delivered id s s' g after : head_ok seen delivered id s ->
  current_grant s = Some g -> oh_guard after = sg_revealedGuard g ->
  advanced s s' after -> sh_grants s' = sh_grants s -> sh_nextIndex s' = S (sh_nextIndex s) ->
  (sh_phase s' = ready -> live s \/ sh_phase s = exhausted) -> head_ok seen delivered id s'.
Proof using.
  intros Hok Hg Hgu (Hid & Hh & Hv & _ & Ha & _ & Hhi & Hex & Hin) Hgr Hix Hr.
  destruct (chain_current _ _ _ _ _ Hok Hg) as [_ Hc].
  assert (live s' -> live s) as Hl.
  { intros Hl. destruct (Hr (moved_live _ Hin Hl)) as [|He]; [done|]. exfalso.
    pose proof (ho_exhausted _ _ _ _ Hok) as Hx. rewrite effective_phase in Hx by congruence. specialize (Hx He).
    unfold current_grant in Hg. apply lookup_lt_Some in Hg. lia. }
  split.
  - rewrite Hid. by eapply ho_id.
  - by rewrite Hh, Hix, Hgr, Hgu.
  - rewrite Hhi. by eapply push_history_ok.
  - congruence.
  - intros He. by apply Hex, moved_exhausted.
  - rewrite Hgr. intros Hl'. by apply (ho_keys _ _ _ _ Hok), Hl.
  - rewrite Hgr, Hix. intros Hl' grantId r i g' H1 H2 H3. left.
    destruct (ho_unused _ _ _ _ Hok (Hl Hl') _ _ _ _ H1 H2 H3) as [|[-> _]]; lia.
Qed.

Lemma rotate_ok id d s s' after keys : db_ok d -> head_ok (seen_keys d) (deliveries d) id s ->
  advanced s s' after -> sh_nextIndex s' = 0%nat -> chain_of (oh_guard after) (sh_grants s') ->
  (sh_phase s' = ready -> reserved id (sh_grants s') (seen_keys d) keys) -> head_ok keys (deliveries d) id s'.
Proof using.
  intros Hdb Hok (Hid & Hh & Hv & _ & Ha & _ & Hhi & Hex & Hin) Hix Hc Hr. split.
  - rewrite Hid. by eapply ho_id.
  - by rewrite Hh, Hix.
  - rewrite Hhi. by eapply push_history_ok.
  - congruence.
  - intros He. by apply Hex, moved_exhausted.
  - intros Hl. eapply reserved_keys, Hr, moved_live; done.
  - intros Hl grantId r i g H1 H2 H3. destruct (fresh_unused _ _ _ _ _ _ _ _ Hdb (Hr (moved_live _ Hin Hl)) H1 H2 H3).
Qed.

(** Heads that end where no grant can be disclosed. *)
Lemma closed_ok seen delivered id s' :
  sh_headId s' = id -> chain_of (oh_guard (sh_head s')) (drop (sh_nextIndex s') (sh_grants s')) ->
  (forall e g, e ∈ sh_history s' -> hi_grant e = Some g -> chain_of (oh_guard (hi_head e)) [g]) ->
  (forall a, sh_assignment s' = Some a -> exists g r, current_grant s' = Some g /\ as_grantId a = sg_grantId g /\
     delivered !! (id, sg_grantId g) = Some r /\ records s' g a r) ->
  sh_phase s' = retired \/ sh_phase s' = needsRotation -> head_ok seen delivered id s'.
Proof using.
  intros Hid Hc Hh Ha Hp. assert (effective s' = sh_phase s') as He by (apply effective_phase; destruct Hp; congruence).
  assert (~ live s') as Hl by (unfold live; rewrite He; destruct Hp; intros []; congruence).
  split; try done. rewrite He. destruct Hp; congruence.
Qed.
Lemma sweep_ok seen delivered id s s' : head_ok seen delivered id s ->
  sh_headId s' = sh_headId s -> sh_head s' = sh_head s -> sh_grants s' = sh_grants s -> sh_nextIndex s' = sh_nextIndex s ->
  sh_history s' = sh_history (push_history s) -> sh_assignment s' = None -> sh_phase s' = retired -> head_ok seen delivered id s'.
Proof using.
  intros Hok Hid Hh Hg Hix Hhi Ha Hp. apply closed_ok; [by rewrite Hid; eapply ho_id| | |congruence|auto].
  - rewrite Hh, Hix, Hg. by eapply ho_chain.
  - rewrite Hhi. by eapply push_history_ok.
Qed.
Lemma revert_ok seen delivered id s s' e : head_ok seen delivered id s -> e ∈ sh_history s ->
  sh_headId s' = sh_headId s -> sameHead (hi_head e) (sh_head s') = true -> sh_grants s' = option_list (hi_grant e) ->
  sh_nextIndex s' = 0%nat -> sh_history s' = sh_history s -> sh_assignment s' = None -> sh_phase s' = needsRotation ->
  head_ok seen delivered id s'.
Proof using.
  intros Hok He Hid Hs Hg Hix Hhi Ha Hp. apply closed_ok; [by rewrite Hid; eapply ho_id| | |congruence|auto].
  - rewrite Hix, Hg. unfold sameHead in Hs. inv_bool.
    match goal with H : oh_guard (hi_head e) = _ |- _ => rewrite <- H end.
    destruct (hi_grant e) as [g|] eqn:E; [by eapply ho_history|]. split; [done|constructor].
  - rewrite Hhi. by eapply ho_history.
Qed.
Lemma compact_ok seen delivered id s : head_ok seen delivered id s -> head_ok seen delivered id (compact_head s).
Proof using.
  intros Hok. unfold compact_head. destruct (bool_decide_reflect (sh_phase s = retired)) as [Hp|Hp]; [|done]. cbn [negb].
  assert (forall guard g, chain_of guard [g] -> chain_of guard [publicRecoveryGrant g]) as Hpub.
  { intros guard g. rewrite !chain_single. intros [? _]. done. }
  apply closed_ok; [apply (ho_id _ _ _ _ Hok)| | | |by left].
  - cbn. destruct (current_grant s) as [g|] eqn:E; [|by split; [|constructor]]. apply Hpub. by eapply chain_current.
  - intros e g [e' [-> He]]%list_elem_of_fmap. cbn. intros (g' & Hg & ->)%fmap_Some. apply Hpub. by eapply ho_history.
  - intros a E. destruct (ho_assigned _ _ _ _ Hok a E) as (g & r & H1 & H2 & H3 & H4).
    exists (publicRecoveryGrant g), r. unfold current_grant at 1. cbn. by rewrite H1.
Qed.
End Moved.

(** ** Every step keeps the database valid *)

Section Steps.
Context {host : IssuerHost}.

Definition deliveries_ok (seen : gmap string string) (delivered : gmap (string * string) HashChainGrantDeliveryRecord) : Prop :=
  (forall id grantId r, delivered !! (id, grantId) = Some r ->
    dr_headId r = id /\ dr_grantId r = grantId /\ quoted (dr_quotedAmount r) = true /\ seen !! record_key r = Some id /\
    opens blake3 (dr_headGuard r) [(dr_nextGuard r, dr_oneTimePublicKey r)]) /\
  forall id grantId r id' grantId' r', delivered !! (id, grantId) = Some r -> delivered !! (id', grantId') = Some r' ->
    record_key r = record_key r' -> id = id' /\ grantId = grantId'.
Definition payments_ok (delivered : gmap (string * string) HashChainGrantDeliveryRecord) (paid : gmap string HashChainAcceptedPayment) : Prop :=
  (forall t p, paid !! t = Some p -> pm_transactionId p = t /\
    exists id r, delivered !! (id, pm_grantId p) = Some r /\ dr_challengeId r = pm_challengeId p /\
      dr_requestHash r = pm_requestHash p /\ dr_payerPublicKey r = pm_payerPublicKey p /\ dr_quotedAmount r = Some (pm_amount p)) /\
  forall t p t' p', paid !! t = Some p -> paid !! t' = Some p' -> pm_grantId p = pm_grantId p' -> t = t'.

Lemma put_ok d d1 id s' : db_ok d -> seen_keys d ⊆ seen_keys d1 ->
  (forall id' grantId, id' <> id -> deliveries d1 !! (id', grantId) = deliveries d !! (id', grantId)) ->
  head_ok (seen_keys d1) (deliveries d1) id s' -> deliveries_ok (seen_keys d1) (deliveries d1) ->
  payments_ok (deliveries d1) (payments d1) -> db_ok (d1 <| heads := <[id := s']> (heads d) |>).
Proof using.
  intros Hok Hs Hd Hh [H1 H2] [H3 H4]. split; try done. cbn. intros id' s [[<- <-]|[Hne E]]%lookup_insert_Some; [done|].
  apply (head_ok_mono (seen_keys d) _ (deliveries d)); [done| |by apply ok_heads]. intros grantId. by apply Hd.
Qed.
Lemma put_unchanged d d1 id s' : db_ok d -> seen_keys d ⊆ seen_keys d1 -> deliveries d1 = deliveries d -> payments d1 = payments d ->
  head_ok (seen_keys d1) (deliveries d1) id s' -> db_ok (d1 <| heads := <[id := s']> (heads d) |>).
Proof using.
  intros Hok Hs Hd Hp Hh. apply put_ok; try done; [by rewrite Hd| |].
  - rewrite Hd. split; [|apply (ok_once _ Hok)]. intros id' grantId r E.
    destruct (ok_delivered _ Hok _ _ _ E) as (? & ? & ? & ? & ?). split_and!; try done. by eapply lookup_weaken.
  - rewrite Hd, Hp. split; [apply (ok_payments _ Hok)|apply (ok_paid_once _ Hok)].
Qed.

Lemma assigned_deliveries d id s g a r : db_ok d -> head_ok (seen_keys d) (deliveries d) id s ->
  sh_phase s = ready \/ sh_phase s = assigned -> sh_assignment s = None -> current_grant s = Some g ->
  records s g a r -> quoted (as_quotedAmount a) = true ->
  deliveries_ok (seen_keys d) (<[(id, sg_grantId g) := r]> (deliveries d)).
Proof using.
  intros Hok Hh Hp Hn Hg Hr Hq. pose proof Hr as (R1 & _ & R3 & _ & R5 & R6 & R7 & _ & _ & _ & R11).
  assert (live s) as Hl by (unfold live; rewrite effective_phase by (destruct Hp as [-> | ->]; done); done).
  destruct (ho_keys _ _ _ _ Hh Hl) as [Hnd Hkeys].
  assert (record_key r = key_of g) as Hk by (unfold record_key, key_of; by rewrite R7).
  assert (seen_keys d !! record_key r = Some id) as Hseen by (rewrite Hk; apply Hkeys; by eapply list_elem_of_lookup_2).
  assert (forall id' grantId' r', deliveries d !! (id', grantId') = Some r' -> record_key r' = record_key r -> False) as Hnew.
  { intros id' grantId' r' E Er. destruct (ok_delivered _ Hok _ _ _ E) as (_ & _ & _ & Hs & _). rewrite Er, Hseen in Hs.
    injection Hs as <-. rewrite Hk in Er.
    destruct (ho_unused _ _ _ _ Hh Hl _ _ _ _ E Hg (eq_sym Er)) as [Hi|[_ (b & Eb & _)]]; [lia|congruence]. }
  split.
  - intros id' grantId r' [[[= <- <-] <-]|[_ E]]%lookup_insert_Some; [|by apply (ok_delivered _ Hok)].
    rewrite R1, R5, R11, R3, R6, R7. split_and!; try done; [by eapply ho_id|].
    by destruct (chain_current _ _ _ _ _ Hh Hg) as [[? _]%chain_single _].
  - intros i1 g1 r1 i2 g2 r2 [[[= <- <-] <-]|[_ E1]]%lookup_insert_Some [[[= <- <-] <-]|[_ E2]]%lookup_insert_Some Er; try done.
    + by destruct (Hnew _ _ _ E2).
    + by destruct (Hnew _ _ _ E1).
    + by eapply (ok_once _ Hok).
Qed.
Lemma paid_payments d id s g after p r : db_ok d -> head_ok (seen_keys d) (deliveries d) id s ->
  current_grant s = Some g -> deliveries d !! (id, pm_grantId p) = Some r -> pays s g r after p ->
  payments d !! pm_transactionId p = None -> map_Forall (fun _ q => pm_grantId q <> pm_grantId p) (payments d) ->
  payments_ok (deliveries d) (<[pm_transactionId p := p]> (payments d)).
Proof using.
  intros Hok Hh Hg Hr (P1 & P2 & (a & Ea & P3 & P4 & P5) & P6 & P7 & _) Hn Ho. split.
  - intros t q [[<- <-]|[_ E]]%lookup_insert_Some; [|by apply (ok_payments _ Hok)]. split; [done|]. exists id, r.
    destruct (ho_assigned _ _ _ _ Hh _ Ea) as (g' & r' & H1 & H2 & H3 & H4).
    assert (g' = g) as -> by congruence. assert (r' = r) as -> by congruence.
    destruct H4 as (_ & _ & _ & _ & _ & _ & _ & H8 & H9 & H10 & H11).
    destruct (ok_delivered _ Hok _ _ _ Hr) as (_ & _ & Hq & _). unfold quote_differs in P7. rewrite Hq in P7.
    cbn in P7. inv_bool. split_and!; congruence.
  - intros t q t' q' [[<- <-]|[_ E]]%lookup_insert_Some [[<- <-]|[_ E']]%lookup_insert_Some Heq; try done.
    + by destruct (Ho _ _ E').
    + by destruct (Ho _ _ E).
    + by eapply (ok_paid_once _ Hok).
Qed.

Lemma head_step_ok id d o d1 s' : db_ok d -> (forall s, o = Some s -> head_ok (seen_keys d) (deliveries d) id s) ->
  head_step id d o d1 s' -> db_ok (d1 <| heads := <[id := s']> (heads d) |>).
Proof using.
  intros Hok Ho Hstep. destruct Hstep as [s keys|s s'|s s' g a r more|s s' g after payment d'|s s' after keys|s s'|s s' e];
    try (specialize (Ho _ eq_refl); rename Ho into Hh).
  - apply put_unchanged; try done. by apply (install_ok _ d).
  - apply put_unchanged; try done. by eapply keep_ok.
  - apply put_ok; try done.
    + cbn. intros id' grantId Hne. by rewrite lookup_insert_ne by congruence.
    + by apply (assign_keeps_ok _ (deliveries d) _ s _ _ a).
    + by apply (assigned_deliveries d id s g a r).
    + destruct (conj (ok_payments _ Hok) (ok_paid_once _ Hok)) as [Hp Hq]. split; [|done].
      intros t p E. destruct (Hp t p E) as (Ht & id' & r' & Er & Hr). split; [done|]. exists id', r'. split; [|done].
      cbn. by rewrite lookup_insert_ne by congruence.
  - destruct payment as [p|].
    + match goal with H : exists _, _ |- _ => destruct H as (r & Hr & Hpay & Hn & Hone & ->) end. apply put_ok; try done.
      * by eapply borrow_ok.
      * split; [apply (ok_delivered _ Hok)|apply (ok_once _ Hok)].
      * by apply (paid_payments d id s g after p r).
    + subst d'. apply put_unchanged; try done. by eapply borrow_ok.
  - apply put_unchanged; try done. by eapply (rotate_ok _ d).
  - apply put_unchanged; try done. by eapply sweep_ok.
  - apply put_unchanged; try done. by eapply revert_ok.
Qed.
Lemma db_step_ok d d' : db_step d d' -> db_ok d -> db_ok d'.
Proof using.
  intros [d1 d2 id s' Hs|d1 l|d1|d1 more claimants] Hok.
  - eapply head_step_ok; try done. intros s. by apply ok_heads.
  - by destruct Hok.
  - destruct Hok as [H1 H2 H3 H4 H5]. split; try done. cbn. intros id s. rewrite lookup_fmap. intros (s0 & E & ->)%fmap_Some.
    by apply compact_ok, H1.
  - by destruct Hok.
Qed.
Lemma run_ok d d' : rtc db_step d d' -> db_ok d -> db_ok d'.
Proof using. induction 1; eauto using db_step_ok. Qed.

Lemma new_ok limits d : new_database limits = Ok d -> db_ok d /\ within_limits d.
Proof using.
  unfold new_database. intros H. apply bind_ok in H as ([] & _ & H). apply bind_ok in H as ([] & Hc & [= <-]).
  split; [|by eapply capacity_ok]. split; cbn; intros *; rewrite lookup_empty; done.
Qed.

(** Deliveries and payments are never changed or removed. *)
Lemma step_grows d d' : db_step d d' -> deliveries d ⊆ deliveries d' /\ payments d ⊆ payments d'.
Proof using.
  intros [d1 d2 id s' Hs| | | ]; try done. destruct Hs as [| | | ? ? ? ? payment ? ? ? ? ? ? ? ? Hp Hd | | |]; try done.
  - split; [|done]. by apply insert_subseteq.
  - destruct payment as [p|]; [|by subst]. destruct Hd as (r & _ & _ & Hn & _ & ->). split; [done|]. by apply insert_subseteq.
Qed.
Lemma run_grows d d' : rtc db_step d d' -> deliveries d ⊆ deliveries d' /\ payments d ⊆ payments d'.
Proof using.
  induction 1 as [|d1 d2 d3 Hs _ [IH1 IH2]]; [done|]. destruct (step_grows _ _ Hs). split; by etrans.
Qed.
End Steps.
