(* ===== verification/HashChainProperties.v ===== *)
(** * The hash-chain grant issuer: guarantees on every run

    From a new database and through any sequence of methods, with awaits interleaved at will.
    Ends with a concrete issuer: a head of two grants, a disclosed grant and its payment. *)

From S2P Require Import Prelude Amount Json Binary ResourceBudget ChainTruth Commitment Template Dates HashChain HashChainIssuer.
From S2P Require Import HashChainGrants HashChainRun HashChainSteps HashChainInvariant.

Section Guarantees.
Context {host : IssuerHost}.

(** The delivery record behind a disclosure *)
Lemma disclosed_record d x : db_ok d -> disclosed d x ->
  exists s a g r, heads d !! ds_headId x = Some s /\ assigns a (ds_claim x) /\ records s g a r /\
    deliveries d !! (ds_headId x, dl_grantId (ds_delivery x)) = Some r /\ gc_grantId (ds_claim x) = dl_grantId (ds_delivery x) /\
    dr_oneTimePublicKey r = dl_oneTimePublicKey (ds_delivery x) /\ dr_nextGuard r = dl_nextGuard (ds_delivery x) /\
    genuine g /\ sg_oneTimePublicKey g = dl_oneTimePublicKey (ds_delivery x) /\
    sg_oneTimePrivateKey g = Some (dl_oneTimePrivateKey (ds_delivery x)).
Proof using.
  intros Hok (s & a & g & Hs & Ha & Hg & Has & G1 & G2 & G3 & G4 & G5).
  pose proof (ok_heads _ Hok _ _ Hs) as Hh. destruct (ho_assigned _ _ _ _ Hh _ Ha) as (g' & r & Hg' & _ & Hr & Hrec).
  assert (g' = g) as -> by congruence. destruct (chain_current _ _ _ _ _ Hh Hg) as [[_ Hgen]%chain_single _].
  exists s, a, g, r. pose proof Has as Ht. unfold assigns, tuple_matches in Ht. inv_bool.
  destruct Hrec as (R1 & R2 & R3 & R4 & R5 & R6 & R7 & R8). split_and!; try done; congruence.
Qed.

(** What stays true of a disclosure: its delivery record. *)
Definition delivered_to (d : Database) (x : Disclosure) : Prop :=
  exists r, deliveries d !! (ds_headId x, dl_grantId (ds_delivery x)) = Some r /\
    gc_grantId (ds_claim x) = dl_grantId (ds_delivery x) /\
    dr_oneTimePublicKey r = dl_oneTimePublicKey (ds_delivery x) /\ dr_nextGuard r = dl_nextGuard (ds_delivery x) /\
    dr_challengeId r = gc_challengeId (ds_claim x) /\ dr_requestHash r = gc_requestHash (ds_claim x) /\
    dr_payerPublicKey r = gc_payerPublicKey (ds_claim x) /\
    exists b, getPublicKey (hex_decode (dl_oneTimePrivateKey (ds_delivery x))) = Ok b /\
      dl_oneTimePublicKey (ds_delivery x) = bytesToHex b.
Lemma disclosed_delivered d x : db_ok d -> disclosed d x -> delivered_to d x.
Proof using.
  intros Hok Hx. destruct (disclosed_record _ _ Hok Hx) as (s & a & g & r & _ & Ha & Hr & Hd & H1 & H2 & H3 & Hg & H4 & H5).
  exists r. destruct Hr as (_ & _ & _ & _ & _ & _ & _ & R8 & R9 & R10 & _). unfold assigns, tuple_matches in Ha.
  unfold genuine in Hg. rewrite H5, H4 in Hg. inv_bool. split_and!; try done; congruence.
Qed.
Lemma delivered_grows d d' x : rtc db_step d d' -> delivered_to d x -> delivered_to d' x.
Proof using.
  intros Hs (r & Hr & H). exists r. split; [|done]. eapply lookup_weaken; [done|]. by apply run_grows.
Qed.
Lemma run_guarantees limits d0 commands d log : new_database limits = Ok d0 -> exec_all d0 commands = (d, log) ->
  db_ok d /\ within_limits d /\ forall x, x ∈ log -> delivered_to d x.
Proof using.
  intros Hn H. destruct (new_ok _ _ Hn) as [Hok Hl]. apply run_steps in H as [[Hs Hw] (new & -> & Hnew)].
  split; [by eapply run_ok|]. split; [auto|]. intros x Hx. destruct (Hnew x Hx) as (d1 & H1 & H2 & H3).
  eapply delivered_grows; [done|]. apply disclosed_delivered; [by eapply run_ok|done].
Qed.

(** C15. A one-time key is disclosed to one claim only: if the issuer ever discloses the
    same one-time public key twice, then both disclosures are for the same head and grant, the
    same challenge and request, and the same payer, that is a retry.  This holds over any run,
    through reorganizations, rotations with reused chains, recovery and compaction. *)
Theorem one_time_key_exclusive limits d0 commands d log x y :
  new_database limits = Ok d0 -> exec_all d0 commands = (d, log) -> x ∈ log -> y ∈ log ->
  dl_oneTimePublicKey (ds_delivery x) = dl_oneTimePublicKey (ds_delivery y) ->
  ds_headId x = ds_headId y /\ dl_grantId (ds_delivery x) = dl_grantId (ds_delivery y) /\
  gc_grantId (ds_claim x) = gc_grantId (ds_claim y) /\ gc_challengeId (ds_claim x) = gc_challengeId (ds_claim y) /\
  gc_requestHash (ds_claim x) = gc_requestHash (ds_claim y) /\ gc_payerPublicKey (ds_claim x) = gc_payerPublicKey (ds_claim y).
Proof using.
  intros Hn H Hx Hy Hk. destruct (run_guarantees _ _ _ _ _ Hn H) as (Hok & _ & Hlog).
  destruct (Hlog x Hx) as (rx & X1 & X2 & X3 & X4 & X5 & X6 & X7 & _).
  destruct (Hlog y Hy) as (ry & Y1 & Y2 & Y3 & Y4 & Y5 & Y6 & Y7 & _).
  assert (record_key rx = record_key ry) as E by (unfold record_key; congruence).
  destruct (ok_once _ Hok _ _ _ _ _ _ X1 Y1 E) as [E1 E2]. rewrite E1, E2, Y1 in X1. injection X1 as <-.
  split_and!; congruence.
Qed.

(** C16. A disclosed grant is usable: its link and one-time key hash to the guard of
    the head it was issued for, as recorded in its delivery, the private key belongs to that
    public key, and the delivery carries the price that was quoted. *)
Theorem disclosed_grant_opens limits d0 commands d log x :
  new_database limits = Ok d0 -> exec_all d0 commands = (d, log) -> x ∈ log ->
  exists r b, deliveries d !! (ds_headId x, dl_grantId (ds_delivery x)) = Some r /\
    hashChainBorrowGuard blake3 (dl_nextGuard (ds_delivery x)) (dl_oneTimePublicKey (ds_delivery x)) = Ok (dr_headGuard r) /\
    getPublicKey (hex_decode (dl_oneTimePrivateKey (ds_delivery x))) = Ok b /\
    bytesToHex b = dl_oneTimePublicKey (ds_delivery x) /\ quoted (dr_quotedAmount r) = true.
Proof using.
  intros Hn H Hx. destruct (run_guarantees _ _ _ _ _ Hn H) as (Hok & _ & Hlog).
  destruct (Hlog x Hx) as (r & X1 & X2 & X3 & X4 & X5 & X6 & X7 & b & X8 & X9). exists r, b.
  destruct (ok_delivered _ Hok _ _ _ X1) as (_ & _ & Hq & _ & [Ho _]). rewrite X3, X4 in Ho. done.
Qed.

(** C17. Every payment on record was earned: some head delivered the grant it consumed,
    to the payer and for the challenge and request the payment names, at the quoted price that
    the payment brought; and no two payments consume the same grant. *)
Theorem accepted_payment_quoted limits d0 commands d log t p :
  new_database limits = Ok d0 -> exec_all d0 commands = (d, log) -> payments d !! t = Some p ->
  (exists id r, deliveries d !! (id, pm_grantId p) = Some r /\ dr_challengeId r = pm_challengeId p /\
     dr_requestHash r = pm_requestHash p /\ dr_payerPublicKey r = pm_payerPublicKey p /\ dr_quotedAmount r = Some (pm_amount p)) /\
  forall t' p', payments d !! t' = Some p' -> pm_grantId p' = pm_grantId p -> t' = t.
Proof using.
  intros Hn H Hp. destruct (run_guarantees _ _ _ _ _ Hn H) as (Hok & _ & _). split; [by apply (ok_payments _ Hok _ _ Hp)|].
  intros t' p' Hp' E. by eapply (ok_paid_once _ Hok).
Qed.

(** C18. The storage quota holds at every moment of every run: the rows counted over all
    tables, and their bytes with the per-row overhead, stay within the persisted limits,
    whatever is installed, claimed, settled, recovered or compacted. *)
Theorem storage_within_limits limits d0 commands d log :
  new_database limits = Ok d0 -> exec_all d0 commands = (d, log) ->
  us_records (storageUsage d) <= lim_maxRecords (capacity d) /\ us_bytes (storageUsage d) <= lim_maxBytes (capacity d).
Proof using. intros Hn H. by destruct (run_guarantees _ _ _ _ _ Hn H) as (_ & Hl & _). Qed.
End Guarantees.

(** ** A concrete issuer *)

Module SampleIssuer.

#[export] Instance toy_host : IssuerHost := {|
  sha256 := toy_sha256; blake3 := toy_sha256; blake2b := toy_sha256; getPublicKey := fun k => Ok (toy_sha256 k);
  lift_x := fun _ => Ok tt; verify := fun _ _ _ => true; hmac := toy_sha256; other_dates := fun _ => None;
  allowMainnet := false; maxLiveChallengesPerAdmissionKey := 4; maxGrantsPerClaimant := 2; windowSeconds := 60;
  preflight := fun _ _ => true; configureStorageCapacity := fun _ => Ok tt |}.
Definition hash (pair : string) : string := hex64 pair.
Definition value {A} (d : A) (m : result A) : A := match m with Ok a => a | Throw _ => d end.
Definition fresh (n : nat) : string := hash ("9" +:+ toString (Z.of_nat n)).
(** Two grants, the newest first *)
Definition chain : string * list HashChainBorrowGrant :=
  value ("", []) (generateHashChainBorrowGrants toy_sha256 (fun k => Ok (toy_sha256 k)) 2 (hex_decode (hash "5e"))
                    [hex_decode (hash "01"); hex_decode (hash "02")]).
Definition owner : string := hash "a0".
Definition head_at (transactionId amount guard : string) : HashChainObservedHead := {|
  oh_outpoint := Outpoint transactionId 0; oh_amount := amount; oh_guard := guard;
  oh_scriptPublicKey := value "" (headScript owner guard); oh_covenantId := hash "cc" |}.
Definition first_head : HashChainObservedHead := head_at (hash "aa") "1000" chain.1.
Definition install : IssuerCommand := InstallHead
  {| in_headId := hash "1d"; in_network := "kaspa:testnet-10"; in_ownerPublicKey := owner; in_head := first_head;
     in_grants := chain.2 |} (Some 4) fresh.
Definition issue : IssuerCommand := IssueAdmittedChallenge (hash "1d") (hash "7e") 60 "250" (hash "ad") (hash "c4") 0.
Definition sample_claim : HashChainGrantClaim := {|
  gc_grantId := hash "90"; gc_challengeId := hash "c4"; gc_requestHash := hash "7e"; gc_payerPublicKey := hash "fa";
  gc_expiresAt := "1970-01-01T00:00:30.000Z"; gc_signature := hash "51" +:+ hash "52" |}.
Definition start : Database :=
  value {| heads := ∅; deliveries := ∅; payments := ∅; seen_keys := ∅; admissions := ∅; legacy_claimants := ∅;
           capacity := DEFAULT_STORAGE_LIMITS |} (new_database None).
Definition at_second (n : Z) : Readings := {| first_now := n * 1000; second_now := n * 1000; third_now := n * 1000 |}.
(** What the first part of the claim captures at second one *)
Definition authorization : option AuthorizedClaim :=
  match begin_claim (hash "1d") sample_claim (Some (hash "ad")) 1000 (exec_all start [install; issue]).1 with
  | Ok (_, a) => Some a
  | Throw _ => None
  end.
Definition commit (n : Z) : list IssuerCommand :=
  match authorization with
  | Some a => [ObservedClaim a (Some {| uo_outpoint := oh_outpoint first_head; uo_amount := "1000";
                 uo_scriptPublicKey := oh_scriptPublicKey first_head; uo_covenantId := Some (hash "cc") |}) (at_second n);
               CommitClaim a [Outpoint (hash "f0") 1] (at_second n)]
  | None => []
  end.
(** The payer spends the head with the disclosed key and pays 250 sompi. *)
Definition pay : IssuerCommand := RecordAcceptedPayment (hash "1d")
  {| tr_finality := "accepted"; tr_predecessor := oh_outpoint first_head;
     tr_successor := head_at (hash "b1") "1250" (from_option revealedGuard "" (head chain.2)) |}
  {| pm_transactionId := hash "b1"; pm_grantId := hash "90"; pm_challengeId := hash "c4"; pm_requestHash := hash "7e";
     pm_payerPublicKey := hash "fa"; pm_requirementsHash := hash "7a"; pm_paymentIdentifier := "order-1"; pm_amount := "250";
     pm_finality := "accepted" |} (at_second 3).
Definition session : list IssuerCommand := [install; issue] ++ commit 1 ++ commit 2 ++ [pay].
End SampleIssuer.
Import SampleIssuer.

Abbreviation final := (exec_all start session).1.
Abbreviation disclosures := (exec_all start session).2.
Lemma issuer_start_new : new_database None = Ok start.
Proof. vm_compute. reflexivity. Qed.
Lemma session_run : exec_all start session = (final, disclosures).
Proof. apply surjective_pairing. Qed.
(** The retry at second two discloses the same key. *)
Lemma session_keys : map (fun x => dl_oneTimePublicKey (ds_delivery x)) disclosures =
  ["45653e0a" +:+ String.concat "" (repeat "00" 28); "45653e0a" +:+ String.concat "" (repeat "00" 28)].
Proof. vm_compute. reflexivity. Qed.
Lemma session_paid : pm_amount <$> payments final !! hash "b1" = Some "250".
Proof. vm_compute. reflexivity. Qed.
Lemma session_head : (fun s => (sh_phase s, sh_nextIndex s, sh_version s, oh_amount (sh_head s))) <$> heads final !! hash "1d" =
  Some (ready, 1%nat, 1, "1250").
Proof. vm_compute. reflexivity. Qed.

Lemma one_time_key_exclusive_witness :
  exists x y, disclosures = [x; y] /\ gc_payerPublicKey (ds_claim x) = gc_payerPublicKey (ds_claim y).
Proof.
  pose proof session_keys as Hk. pose proof session_run as Hr.
  destruct disclosures as [|x [|y [|z l]]]; [discriminate Hk..| |discriminate Hk].
  exists x, y. split; [reflexivity|]. injection Hk as H1 H2.
  apply (one_time_key_exclusive None start session _ [x; y] x y issuer_start_new Hr); [left|right; left|congruence].
Defined.
Lemma disclosed_grant_opens_witness :
  exists x r, x ∈ disclosures /\ deliveries final !! (ds_headId x, dl_grantId (ds_delivery x)) = Some r /\
    hashChainBorrowGuard toy_sha256 (dl_nextGuard (ds_delivery x)) (dl_oneTimePublicKey (ds_delivery x)) = Ok (dr_headGuard r).
Proof.
  pose proof session_keys as Hk. pose proof session_run as Hr. 
  destruct disclosures as [|x l] eqn:E; [discriminate Hk|].
  destruct (disclosed_grant_opens None start session _ (x :: l) x issuer_start_new Hr ltac:(left)) as (r & b & H1 & H2 & _).
  exists x, r. split; [left|]. split; [exact H1|exact H2].
Defined.
Lemma accepted_payment_quoted_witness :
  exists p id r, payments final !! hash "b1" = Some p /\ deliveries final !! (id, pm_grantId p) = Some r /\
    dr_quotedAmount r = Some (pm_amount p).
Proof.
  pose proof session_paid as Hp. destruct (payments final !! hash "b1") as [p|] eqn:E; [|discriminate Hp].
  destruct (accepted_payment_quoted None start session _ _ _ p issuer_start_new session_run E) as [(id & r & H1 & _ & _ & _ & H2) _].
  exists p, id, r. split; [reflexivity|]. split; [exact H1|exact H2].
Defined.
Lemma storage_within_limits_witness : us_bytes (storageUsage final) <= lim_maxBytes (capacity final).
Proof. exact (proj2 (storage_within_limits None start session _ _ issuer_start_new session_run)). Defined.
Lemma issuer_refines_machine_witness : rtc db_step start final.
Proof. exact (proj1 (issuer_refines_machine session start final disclosures session_run)). Defined.
