(* ===== verification/TxV1.v ===== *)
(** * Version-1 transactions

    Models [protocol/packages/covenant/src/tx-v1.ts] up to its batch artifacts, and
    [storage-mass.ts]: normalization, the byte writer, transaction and signature hashes, ids of
    covenants, and contextual storage mass.  Keyed BLAKE2b and BLAKE3 are parameters.  The
    artifact builders are in TxV1Artifacts.v. *)

From S2P Require Import Prelude Amount Json Binary ChainTruth Template HashChain.

(** ** Normalization *)

Definition NATIVE_SUBNETWORK_ID : string := String.concat "" (repeat "00" 20).
Definition ZERO_HASH : string := String.concat "" (repeat "00" 32).
Definition U16_MAX : Z := 65535.
Definition I64_MAX : Z := 9223372036854775807.
Definition TX_V1_P2PK_COMPUTE_BUDGET : Z := 10.

Definition normalizeUint16 (value : Z) (label : string) : result Z :=
  _ ← throw_if ((value <? 0) || (U16_MAX <? value)) (label +:+ " must fit in uint16"); Ok value.
Definition normalizeUint32 (value : Z) (label : string) : result Z :=
  _ ← throw_if ((value <? 0) || (U32_MAX <? value)) (label +:+ " must fit in uint32"); Ok value.
Definition numberToUint64 (value : Z) (label : string) : result Z :=
  _ ← throw_if (negb (isSafeInteger value) || (value <? 0)) (label +:+ " must be a non-negative safe integer"); Ok value.
Definition stringToUint64 (value label : string) : result Z :=
  _ ← throw_if (negb (canonical_decimal value)) (label +:+ " must be a canonical uint64 decimal string"); Ok (dec_value value).
Definition normalizeUint64 (value : numeric) (label : string) : result Z :=
  normalized ← match value with
               | BigInt n => Ok n
               | Number n => numberToUint64 n label
               | Text s => stringToUint64 s label
               end;
  _ ← throw_if ((normalized <? 0) || (U64_MAX <? normalized)) (label +:+ " must fit in uint64");
  Ok normalized.
Definition normalizePositiveUint64 (value : numeric) (label : string) : result Z :=
  n ← normalizeUint64 value label; _ ← throw_if (n =? 0) (label +:+ " must be positive"); Ok n.
Definition normalizeNonNegativeInt64 (value : numeric) (label : string) : result Z :=
  n ← normalizeUint64 value label; _ ← throw_if (I64_MAX <? n) (label +:+ " must fit signed int64"); Ok n.
Definition normalizePositiveInt64 (value : numeric) (label : string) : result Z :=
  n ← normalizeNonNegativeInt64 value label; _ ← throw_if (n =? 0) (label +:+ " must be positive"); Ok n.
Definition sumUint64 (values : list Z) (label : string) : result Z :=
  let sum := foldl Z.add 0 values in
  _ ← throw_if (U64_MAX <? sum) (label +:+ " must fit in uint64"); Ok sum.

Definition normalizeHash32 (hex label : string) : result string :=
  b ← hexToBytes hex (Some 32) label; Ok (bytesToHex b).
Definition normalizeNonzeroHash32 (hex label : string) : result string :=
  h ← normalizeHash32 hex label; _ ← throw_if (h === ZERO_HASH) (label +:+ " must not be zero"); Ok h.
Definition normalizeHex (hex label : string) : result string :=
  b ← hexToBytes hex None label; Ok (bytesToHex b).
Definition normalizeNativeSubnetworkId (subnetworkId : option string) : result string :=
  b ← hexToBytes (default NATIVE_SUBNETWORK_ID subnetworkId) (Some 20) "subnetworkId";
  _ ← throw_if (bytesToHex b !== NATIVE_SUBNETWORK_ID) "transaction-v1 artifacts must use the native subnetwork";
  Ok (bytesToHex b).
Definition normalizeZeroGas (gas : option numeric) : result Z :=
  n ← normalizeUint64 (default (Text "0") gas) "gas";
  _ ← throw_if (n !== 0) "transaction-v1 artifacts must use zero gas"; Ok n.
Definition normalizeOutpoint (o : FundingOutpoint) : result FundingOutpoint :=
  t ← normalizeHash32 (txid o) "outpoint.txid";
  i ← normalizeUint32 (index o) "outpoint.index";
  Ok (Outpoint t i).

Definition parseSerializedScriptPublicKey (serialized label : string) : result ScriptPublicKey :=
  b ← hexToBytes serialized None label;
  match b with
  | hi :: lo :: script => Ok {| spk_version := Z.lor (Z.shiftl (code hi) 8) (code lo); spk_script := bytesToHex script |}
  | _ => Throw (Error (label +:+ " must contain a uint16 version and script bytes"))
  end.
Definition u16Be (value : Z) : result bytes :=
  n ← normalizeUint16 value "script public key version";
  Ok (bytes_of [Z.land (Z.shiftr n 8) 255; Z.land n 255]).
Definition normalizeSerializedScriptPublicKey (serialized label : string) : result string :=
  parsed ← parseSerializedScriptPublicKey serialized label;
  version ← u16Be (spk_version parsed);
  script ← hexToBytes (spk_script parsed) None (label +:+ ".script");
  Ok (bytesToHex (concatBytes [version; script])).
(** The key of a version-0 Schnorr P2PK script *)
Definition p2pkPublicKey (serialized label : string) : result string :=
  parsed ← parseSerializedScriptPublicKey serialized label;
  script ← hexToBytes (spk_script parsed) None (label +:+ ".script");
  _ ← throw_if ((spk_version parsed !== 0) || negb (length script =? 34)%nat || negb (script !! 0%nat === Some (byte_of 32))
                || negb (script !! 33%nat === Some (byte_of 172))) (label +:+ " must be a version-0 Schnorr P2PK script");
  Ok (bytesToHex (take 32 (drop 1 script))).

(** ** Transactions *)

Record TxV1CovenantBinding := { authorizingInput : Z; cb_covenantId : string }.
#[export] Instance binding_eq_dec : EqDecision TxV1CovenantBinding.
Proof. solve_decision. Defined.
Record TxV1OutputPlan := {
  op_amount : numeric;
  op_scriptPublicKey : string;
  op_covenant : option TxV1CovenantBinding
}.
Record TxV1ReferenceInput := {
  previousOutpoint : FundingOutpoint;
  in_signatureScript : string;
  sequence : string;
  computeBudget : Z;
  (** [utxo], whose DAA score and coinbase flag are constants *)
  utxo_amount : string;
  utxo_scriptPublicKey : string;
  utxo_covenantId : option string
}.
Record TxV1ReferenceOutput := {
  out_amount : string;
  out_scriptPublicKey : string;
  covenant : option TxV1CovenantBinding
}.
Record TxV1ReferenceTransaction := {
  version : Z;
  inputs : list TxV1ReferenceInput;
  outputs : list TxV1ReferenceOutput;
  lockTime : string;
  subnetworkId : string;
  gas : string;
  payload : string;
  mass : string;
  estimated : Z
}.

(** ** [ByteWriter] *)

Definition put_bytes (hex : string) : result bytes := hexToBytes hex None "bytes".
Definition put_u8 (value : Z) : result bytes :=
  _ ← throw_if ((value <? 0) || (255 <? value)) "value must fit uint8"; Ok (bytes_of [value]).
Definition put_u16 (value : Z) : result bytes :=
  n ← normalizeUint16 value "u16"; Ok (bytes_of [Z.land n 255; Z.land (Z.shiftr n 8) 255]).
Definition put_u32 (value : Z) : result bytes :=
  n ← normalizeUint32 value "u32";
  Ok (bytes_of [Z.land n 255; Z.land (Z.shiftr n 8) 255; Z.land (Z.shiftr n 16) 255; Z.land (Z.shiftr n 24) 255]).
Definition put_u64 (value : numeric) : result bytes :=
  n ← normalizeUint64 value "u64"; Ok (little_endian 8 n).
Definition put_len {A} (l : list A) : result bytes := put_u64 (BigInt (Z.of_nat (length l))).
Definition put_bool (b : bool) : result bytes := put_u8 (if b then 1 else 0).
Definition put_var (hex : string) : result bytes :=
  b ← hexToBytes hex None "varBytes"; n ← put_len b; Ok (n ++ b).
(** Successive writes *)
Fixpoint puts (parts : list (result bytes)) : result bytes :=
  match parts with
  | [] => Ok []
  | p :: parts => b ← p; rest ← puts parts; Ok (b ++ rest)
  end.

Definition writeOutpoint (o : FundingOutpoint) : result bytes := puts [put_bytes (txid o); put_u32 (index o)].
Definition writeScriptPublicKey (spk : ScriptPublicKey) : result bytes := puts [put_u16 (spk_version spk); put_var (spk_script spk)].
Definition writeCovenant (c : TxV1CovenantBinding) : result bytes :=
  puts [put_u16 (authorizingInput c); put_bytes (cb_covenantId c)].
Definition writeOutput (version : Z) (o : TxV1ReferenceOutput) : result bytes :=
  puts [put_u64 (Text (out_amount o));
        (spk ← parseSerializedScriptPublicKey (out_scriptPublicKey o) "outputScriptPublicKey"; writeScriptPublicKey spk);
        if 1 <=? version then
          puts [put_bool (isSome (covenant o)); match covenant o with Some c => writeCovenant c | None => Ok [] end]
        else Ok []].
Record WriteFlags := { f_signatureScript : bool; f_payload : bool; f_mass : bool; f_computeBudget : bool }.
Definition full : WriteFlags := {| f_signatureScript := true; f_payload := true; f_mass := true; f_computeBudget := true |}.
Definition skeleton : WriteFlags := {| f_signatureScript := false; f_payload := false; f_mass := false; f_computeBudget := false |}.
Definition writeInput (flags : WriteFlags) (i : TxV1ReferenceInput) : result bytes :=
  puts [writeOutpoint (previousOutpoint i); put_var (if f_signatureScript flags then in_signatureScript i else "");
        put_u64 (Text (sequence i)); if f_computeBudget flags then put_u16 (computeBudget i) else Ok []].
Definition writeTransaction (t : TxV1ReferenceTransaction) (flags : WriteFlags) : result bytes :=
  puts [put_u16 (version t); put_len (inputs t); puts (map (writeInput flags) (inputs t));
        put_len (outputs t); puts (map (writeOutput (version t)) (outputs t));
        put_u64 (Text (lockTime t)); put_bytes (subnetworkId t); put_u64 (Text (gas t));
        put_var (if f_payload flags then payload t else "");
        if f_mass flags then put_u64 (Text (mass t)) else Ok []].

(** [KASPA_SIGHASH_NAMES] *)
Definition sighash_name (t : Z) : string :=
  if t =? 1 then "all" else if t =? 2 then "none" else if t =? 4 then "single"
  else if t =? 129 then "all-anyonecanpay" else if t =? 130 then "none-anyonecanpay" else "single-anyonecanpay".
Record TxV1SighashDebug := { sg_inputIndex : nat; hashType : string; sg_preimage : string; sg_digest : string }.
Record TxV1SignatureEvidence := { ev_publicKey : string; ev_signature : string; ev_hashType : Z; ev_digest : string }.
Record TxV1IdDebug := { payloadDigest : string; restPreimage : string; restDigest : string; id_digest : string }.
Record DigestDebug := {
  dd_txid : TxV1IdDebug;
  hash_preimage : string;
  hash_digest : string;
  dd_sighashes : list TxV1SighashDebug
}.

Section Digests.
(** [blake2b(input, key, 32)] and [blake3(input, { key })] *)
Context (blake2b_keyed blake3_keyed : bytes -> bytes -> bytes).

Definition blake2bKeyed (domain : string) (input : bytes) : string := bytesToHex (blake2b_keyed (utf8Bytes domain) input).
Definition blake3Keyed (domain : string) (input : bytes) : string :=
  let key := utf8Bytes domain in bytesToHex (blake3_keyed (key ++ repeat (byte_of 0) (32 - length key)) input).
Definition signing_hash (input : bytes) : string := blake2bKeyed "TransactionSigningHash" input.

Definition hashPreviousOutputs (t : TxV1ReferenceTransaction) : result string :=
  b ← puts (map (fun i => writeOutpoint (previousOutpoint i)) (inputs t)); Ok (signing_hash b).
Definition hashSequences (t : TxV1ReferenceTransaction) : result string :=
  b ← puts (map (fun i => put_u64 (Text (sequence i))) (inputs t)); Ok (signing_hash b).
Definition hashSingleOutput (t : TxV1ReferenceTransaction) (o : TxV1ReferenceOutput) : result string :=
  b ← writeOutput (version t) o; Ok (signing_hash b).
Definition hashOutputs (t : TxV1ReferenceTransaction) : result string :=
  b ← puts (map (writeOutput (version t)) (outputs t)); Ok (signing_hash b).
Definition hashPayload (t : TxV1ReferenceTransaction) : result string :=
  if (subnetworkId t === NATIVE_SUBNETWORK_ID) && (payload t === "") then Ok ZERO_HASH
  else b ← put_var (payload t); Ok (signing_hash b).

Definition writeSighashPreimage (t : TxV1ReferenceTransaction) (inputIndex : nat) (hashType : Z) : result bytes :=
  match inputs t !! inputIndex with
  | None => Throw (Error "sighash input index is out of range")
  | Some input =>
      let baseType := Z.land hashType 7 in
      let anyoneCanPay := Z.land hashType 128 !== 0 in
      outputsHash ← if baseType =? 2 then Ok ZERO_HASH
                    else if baseType =? 4 then
                      match outputs t !! inputIndex with Some o => hashSingleOutput t o | None => Ok ZERO_HASH end
                    else hashOutputs t;
      puts [put_u16 (version t);
            (h ← if anyoneCanPay then Ok ZERO_HASH else hashPreviousOutputs t; put_bytes h);
            (h ← if anyoneCanPay || negb (baseType =? 1) then Ok ZERO_HASH else hashSequences t; put_bytes h);
            writeOutpoint (previousOutpoint input);
            (spk ← parseSerializedScriptPublicKey (utxo_scriptPublicKey input) "inputScriptPublicKey"; writeScriptPublicKey spk);
            put_u64 (Text (utxo_amount input)); put_u64 (Text (sequence input)); put_bytes outputsHash;
            put_u64 (Text (lockTime t)); put_bytes (subnetworkId t); put_u64 (Text (gas t));
            (h ← hashPayload t; put_bytes h); put_u8 hashType]
  end.
Definition transactionV1Sighash (t : TxV1ReferenceTransaction) (inputIndex : nat) (sighashType : Z) : result TxV1SighashDebug :=
  _ ← throw_if (isNone (inputs t !! inputIndex)) "sighash input index is out of range";
  hashType ← kaspaSighashType sighashType;
  preimage ← writeSighashPreimage t inputIndex hashType;
  Ok {| sg_inputIndex := inputIndex; hashType := sighash_name sighashType; sg_preimage := bytesToHex preimage;
        sg_digest := signing_hash preimage |}.

(** The flag of a witness that begins with a 65-byte signature push *)
Definition witness_flag (witness : bytes) : Z :=
  match witness !! 0%nat, witness !! 65%nat with
  | Some c, Some flag => if (c === byte_of 65) && existsb (fun t => code flag =? t) KASPA_SIGHASH_TYPES then code flag else 1
  | _, _ => 1
  end.
Fixpoint sighashes_from (t : TxV1ReferenceTransaction) (index : nat) (inputs : list TxV1ReferenceInput) :
    result (list TxV1SighashDebug) :=
  match inputs with
  | [] => Ok []
  | i :: inputs =>
      witness ← hexToBytes (in_signatureScript i) None "signatureScript";
      s ← transactionV1Sighash t index (witness_flag witness);
      rest ← sighashes_from t (S index) inputs;
      Ok (s :: rest)
  end.
Definition buildDigestDebug (t : TxV1ReferenceTransaction) : result DigestDebug :=
  payload ← hexToBytes (payload t) None "payload";
  let payloadDigest := blake3Keyed "PayloadDigest" payload in
  restPreimage ← writeTransaction t skeleton;
  let restDigest := blake3Keyed "TransactionRest" restPreimage in
  a ← hexToBytes payloadDigest (Some 32) "payloadDigest";
  b ← hexToBytes restDigest (Some 32) "restDigest";
  let txidDigest := blake3Keyed "TransactionV1Id" (concatBytes [a; b]) in
  hashPreimage ← writeTransaction t full;
  sighashes ← sighashes_from t 0 (inputs t);
  Ok {| dd_txid := {| payloadDigest := payloadDigest; restPreimage := bytesToHex restPreimage; restDigest := restDigest;
                      id_digest := txidDigest |};
        hash_preimage := bytesToHex hashPreimage; hash_digest := blake2bKeyed "TransactionHash" hashPreimage;
        dd_sighashes := sighashes |}.
Definition transactionV1Id (t : TxV1ReferenceTransaction) : result string :=
  debug ← buildDigestDebug t; Ok (id_digest (dd_txid debug)).

(** The signature a P2PK input carries, and what it signs *)
Definition transactionV1SchnorrSignatureEvidence (t : TxV1ReferenceTransaction) (inputIndex : nat) : result TxV1SignatureEvidence :=
  match inputs t !! inputIndex with
  | None => Throw (Error "sighash input index is out of range")
  | Some input =>
      signatureScript ← hexToBytes (in_signatureScript input) None "signatureScript";
      match (length signatureScript =? 66)%nat, signatureScript !! 0%nat === Some (byte_of 65), signatureScript !! 65%nat with
      | true, true, Some flag =>
          hashType ← kaspaSighashType (code flag);
          publicKey ← p2pkPublicKey (utxo_scriptPublicKey input) "inputScriptPublicKey";
          s ← transactionV1Sighash t inputIndex hashType;
          Ok {| ev_publicKey := publicKey; ev_signature := bytesToHex (take 64 (drop 1 signatureScript));
                ev_hashType := hashType; ev_digest := sg_digest s |}
      | _, _, _ => Throw (Error "transaction-v1 P2PK input must use a canonical 65-byte Schnorr push")
      end
  end.
Definition buildTxV1P2pkSignatureScript (signature : hex_or_bytes) (sighashType : option Z) : result string :=
  raw ← bytesFromHexOrBytes signature 64 "signature";
  flag ← kaspaSighashType (default 1 sighashType);
  Ok (bytesToHex (concatBytes [bytes_of [65]; raw; bytes_of [flag]])).

(** The loop over the authorized outputs; the state is the prior index and what is written. *)
Definition covenant_output (state : Z * bytes) (item : Z * (numeric * string)) : result (Z * bytes) :=
  let '(prior, written) := state in
  let '(i, (amount, scriptPublicKey)) := item in
  index ← normalizeUint32 i "authorized output index";
  _ ← throw_if (index <=? prior) "genesis covenant output indices must be strictly increasing";
  amount ← normalizeUint64 amount ("authorizedOutputs[" +:+ toString index +:+ "].amount");
  script ← parseSerializedScriptPublicKey scriptPublicKey ("authorizedOutputs[" +:+ toString index +:+ "].scriptPublicKey");
  b ← puts [put_u32 index; put_u64 (BigInt amount); put_u16 (spk_version script); put_var (spk_script script)];
  Ok (index, written ++ b).
Definition transactionV1CovenantId (genesisOutpoint : FundingOutpoint) (authorizedOutputs : list (Z * (numeric * string))) : result string :=
  _ ← throw_if (match authorizedOutputs with [] => true | _ => false end) "genesis covenant group must contain at least one output";
  outpoint ← normalizeOutpoint genesisOutpoint;
  head ← puts [put_bytes (txid outpoint); put_u32 (index outpoint); put_len authorizedOutputs];
  '(_, written) ← fold_result covenant_output authorizedOutputs (-1, head);
  let covenantId := blake2bKeyed "CovenantID" written in
  _ ← throw_if (covenantId === ZERO_HASH) "derived covenantId must not be zero";
  Ok covenantId.
End Digests.

(** ** Storage mass *)

Definition KASPA_STORAGE_MASS_PARAMETER : Z := 1000000000000.
Definition UTXO_CONST_STORAGE : Z := 63.
Definition UTXO_COVENANT_STORAGE : Z := 32.
Definition UTXO_UNIT_SIZE : Z := 100.
Record KaspaStorageCell := { sc_amount : numeric; sc_scriptPublicKey : string; hasCovenant : bool }.
Record UtxoCell := { cell_amount : Z; plurality : Z }.

Definition mass_uint64 (value : numeric) (label : string) : result Z :=
  normalized ← match value with
               | BigInt n => Ok n
               | Number n => _ ← throw_if (negb (isSafeInteger n) || (n <? 0)) (label +:+ " must be a safe unsigned integer"); Ok n
               | Text s => _ ← throw_if (negb (canonical_decimal s)) (label +:+ " must be canonical uint64"); Ok (dec_value s)
               end;
  _ ← throw_if ((normalized <? 0) || (U64_MAX <? normalized)) (label +:+ " must fit uint64");
  Ok normalized.
Definition divCeil (value divisor : Z) : Z := (value + divisor - 1) / divisor.
Definition toUtxoCell (input : KaspaStorageCell) : result UtxoCell :=
  amount ← mass_uint64 (sc_amount input) "storage cell amount";
  _ ← throw_if (amount =? 0) "storage mass cannot be calculated for zero-value UTXO cells";
  serialized ← hexToBytes (sc_scriptPublicKey input) None "storage cell scriptPublicKey";
  _ ← throw_if (length serialized <? 2)%nat "storage cell scriptPublicKey must include a uint16 version";
  let scriptLength := Z.of_nat (length serialized) - 2 in
  let covenantSize := if hasCovenant input then UTXO_COVENANT_STORAGE else 0 in
  Ok {| cell_amount := amount; plurality := divCeil (UTXO_CONST_STORAGE + scriptLength + covenantSize) UTXO_UNIT_SIZE |}.
Definition sum_of {A} (f : A -> Z) (l : list A) : Z := foldl (fun sum x => sum + f x) 0 l.
Definition harmonic (parameter : Z) (cell : UtxoCell) : Z := (parameter * plurality cell * plurality cell) / cell_amount cell.
Definition calculateKaspaStorageMass (inputs outputs : list KaspaStorageCell) (storageMassParameter : option Z) : result Z :=
  let parameter := default KASPA_STORAGE_MASS_PARAMETER storageMassParameter in
  _ ← throw_if ((parameter <? 0) || (U64_MAX <? parameter)) "storage mass parameter must fit uint64";
  outputCells ← map_result toUtxoCell outputs;
  inputCells ← map_result toUtxoCell inputs;
  _ ← throw_if ((length inputCells =? 0)%nat || (length outputCells =? 0)%nat) "storage mass requires input and output UTXO cells";
  let outsPlurality := sum_of plurality outputCells in
  let harmonicOuts := sum_of (harmonic parameter) outputCells in
  let insPlurality := sum_of plurality inputCells in
  let relaxedFormulaPath := (outsPlurality =? 1)
    || (length inputCells <=? 2)%nat && ((insPlurality =? 1) || (outsPlurality =? 2) && (insPlurality =? 2)) in
  if relaxedFormulaPath then
    let harmonicIns := sum_of (harmonic parameter) inputCells in
    Ok (if harmonicIns <? harmonicOuts then harmonicOuts - harmonicIns else 0)
  else
    let sumIns := sum_of cell_amount inputCells in
    let meanIns := Z.max (sumIns / insPlurality) 1 in
    let arithmeticIns := insPlurality * (parameter / meanIns) in
    Ok (if arithmeticIns <? harmonicOuts then harmonicOuts - arithmeticIns else 0).
