(* ===== verification/TxV1Artifacts.v ===== *)
(** * Batch transaction artifacts

    Models the builders of [protocol/packages/covenant/src/tx-v1.ts]: the genesis, claim,
    top-up and refund transactions of a batch channel, with their checks, topology, storage
    mass and digests, and shows what every artifact they return guarantees. *)

From S2P Require Import Prelude Amount BatchLane Json Binary ChainTruth Template HashChain TxV1.

(** ** Inputs *)

Record TxV1FundingInputPlan := {
  fi_previousOutpoint : FundingOutpoint;
  fi_amount : numeric;
  fi_scriptPublicKey : string;
  fi_signature : hex_or_bytes;
  fi_sighashType : option Z;
  fi_sequence : option numeric;
  fi_computeBudget : Z
}.
(** The optional fields the four inputs share *)
Record TxV1Options := {
  o_mass : option numeric;
  o_subnetworkId : option string;
  o_gas : option numeric;
  o_payload : option string
}.
Record BatchGenesisTxV1Input := {
  g_fundingInputs : list TxV1FundingInputPlan;
  g_escrowAmount : numeric;
  g_escrowScriptPublicKey : string;
  g_escrowRedeemScript : string;
  g_initialClaimedCumulativeAmount : numeric;
  g_changeOutputs : option (list TxV1OutputPlan);
  g_fee : numeric;
  g_lockTime : option numeric;
  g_options : TxV1Options
}.
Record BatchClaimTxV1Input := {
  c_network : string;
  c_activeOutpoint : FundingOutpoint;
  c_activeAmount : numeric;
  c_activeScriptPublicKey : string;
  c_activeRedeemScript : string;
  c_covenantId : string;
  c_claimedCumulativeAmount : numeric;
  c_authorizedCumulativeAmount : numeric;
  c_claimAmount : numeric;
  c_successorScriptPublicKey : string;
  c_successorRedeemScript : string;
  c_serverOutputScriptPublicKey : string;
  c_expectedPayoutScriptPublicKeyHash : string;
  c_fee : numeric;
  c_serverSignature : hex_or_bytes;
  c_voucherSignature : hex_or_bytes;
  c_computeBudget : Z;
  c_scriptUnitsEstimate : Z;
  c_sequence : option numeric;
  c_lockTime : option numeric;
  c_options : TxV1Options;
  c_outputs : option (list TxV1OutputPlan)
}.
Record BatchTopUpTxV1Input := {
  t_activeOutpoint : FundingOutpoint;
  t_activeAmount : numeric;
  t_activeScriptPublicKey : string;
  t_activeRedeemScript : string;
  t_covenantId : string;
  t_claimedCumulativeAmount : numeric;
  t_successorAmount : numeric;
  t_successorScriptPublicKey : string;
  t_successorRedeemScript : string;
  t_clientSignature : hex_or_bytes;
  t_providerSignature : hex_or_bytes;
  t_fundingInputs : list TxV1FundingInputPlan;
  t_changeOutputs : option (list TxV1OutputPlan);
  t_expectedRefundScriptPublicKeyHash : string;
  t_fee : numeric;
  t_computeBudget : Z;
  t_scriptUnitsEstimate : Z;
  t_sequence : option numeric;
  t_lockTime : option numeric;
  t_options : TxV1Options;
  t_outputs : option (list TxV1OutputPlan)
}.
Record BatchRefundTxV1Input := {
  r_activeOutpoint : FundingOutpoint;
  r_activeAmount : numeric;
  r_activeScriptPublicKey : string;
  r_activeRedeemScript : string;
  r_covenantId : string;
  r_refundOutputScriptPublicKey : string;
  r_expectedRefundScriptPublicKeyHash : string;
  r_fee : numeric;
  r_clientSignature : hex_or_bytes;
  r_timeoutDaa : numeric;
  r_lockTimeDaa : numeric;
  r_inputSequence : numeric;
  r_computeBudget : Z;
  r_scriptUnitsEstimate : Z;
  r_options : TxV1Options;
  r_outputs : option (list TxV1OutputPlan)
}.

(** ** Artifacts *)

Record TxV1ComputeEvidence := { ce_computeBudget : Z; scriptUnitsEstimate : Z; ce_scriptUnitAllowance : Z }.
(** [TxV1ArtifactBase]: the transaction with its digests *)
Record TxV1ArtifactBase := {
  transaction : TxV1ReferenceTransaction;
  serializedTransaction : string;
  transactionId : string;
  transactionHash : string;
  debug : DigestDebug
}.
(** The escrow or continuation output of an artifact *)
Record CovenantOutput := {
  co_outputIndex : Z;
  co_amount : string;
  co_scriptPublicKey : string;
  co_redeemScript : string;
  co_covenantId : string;
  co_claimedCumulativeAmount : string;
  co_outpoint : FundingOutpoint
}.
Record BatchGenesisTxV1Artifact := {
  ga_base : TxV1ArtifactBase;
  ga_covenantId : string;
  ga_fee : string;
  escrow : CovenantOutput
}.
Record BatchClaimTxV1Artifact := {
  cl_base : TxV1ArtifactBase;
  cl_signatureScript : string;
  cl_voucherDigest : string;
  cl_fee : string;
  fee_claimAmount : string;
  fee_authorizedCumulativeAmount : string;
  serverOutputAmount : string;
  continuationOutputAmount : string;
  cl_continuation : CovenantOutput;
  cl_compute : TxV1ComputeEvidence
}.
Record BatchTopUpTxV1Artifact := {
  ta_base : TxV1ArtifactBase;
  ta_signatureScript : string;
  ta_fee : string;
  ta_continuation : CovenantOutput;
  ta_compute : TxV1ComputeEvidence
}.
Record BatchRefundTxV1Artifact := {
  ra_base : TxV1ArtifactBase;
  ra_signatureScript : string;
  ra_covenantId : string;
  ra_fee : string;
  refundOutputAmount : string;
  ra_compute : TxV1ComputeEvidence
}.

(** ** Helpers of the builders *)

(** [list.map((item, index) => body)], where the body can throw *)
Fixpoint map_indexed {A B} (f : Z -> A -> result B) (index : Z) (l : list A) : result (list B) :=
  match l with
  | [] => Ok []
  | x :: l => y ← f index x; rest ← map_indexed f (index + 1) l; Ok (y :: rest)
  end.

Definition script_length (serialized : string) : result Z :=
  spk ← parseSerializedScriptPublicKey serialized "outputScriptPublicKey";
  script ← hexToBytes (spk_script spk) None "outputScriptPublicKey.script";
  Ok (Z.of_nat (length script)).
Definition estimatedSerializedSize (t : TxV1ReferenceTransaction) : result Z :=
  inputSize ← fold_result (fun sum i => b ← hexToBytes (in_signatureScript i) None "signatureScript";
                             Ok (sum + 32 + 4 + 8 + Z.of_nat (length b) + 8 + 2)) (inputs t) 0;
  outputSize ← fold_result (fun sum o => n ← script_length (out_scriptPublicKey o);
                              Ok (sum + 8 + 2 + 8 + n + (if covenant o then 2 + 32 else 0))) (outputs t) 0;
  payload ← hexToBytes (payload t) None "payload";
  Ok (2 + 8 + inputSize + 8 + outputSize + 8 + 20 + 8 + 32 + 8 + Z.of_nat (length payload)).

Definition buildTransaction (inputs : list TxV1ReferenceInput) (outputs : list TxV1ReferenceOutput) (lockTime : Z)
    (subnetworkId : string) (gas : Z) (payload : string) (mass : Z) : result TxV1ReferenceTransaction :=
  _ ← throw_if (match inputs with [] => true | _ => false end) "transaction-v1 requires at least one input";
  _ ← throw_if (match outputs with [] => true | _ => false end) "transaction-v1 requires at least one output";
  let make size := {| version := 1; inputs := inputs; outputs := outputs; lockTime := toString lockTime;
                      subnetworkId := subnetworkId; gas := toString gas; payload := payload; mass := toString mass;
                      estimated := size |} in
  size ← estimatedSerializedSize (make 0);
  Ok (make size).

Definition buildReferenceInput (previousOutpoint : FundingOutpoint) (amount : numeric) (scriptPublicKey signatureScript : string)
    (sequence : numeric) (computeBudget : Z) (covenantId : option string) : result TxV1ReferenceInput :=
  computeBudget ← normalizeUint16 computeBudget "computeBudget";
  previousOutpoint ← normalizeOutpoint previousOutpoint;
  signatureScript ← normalizeHex signatureScript "signatureScript";
  sequence ← normalizeUint64 sequence "sequence";
  amount ← normalizePositiveUint64 amount "input amount";
  scriptPublicKey ← normalizeSerializedScriptPublicKey scriptPublicKey "input scriptPublicKey";
  covenantId ← match covenantId with
               | None => Ok None
               | Some id => id ← normalizeNonzeroHash32 id "input covenantId"; Ok (Some id)
               end;
  Ok {| previousOutpoint := previousOutpoint; in_signatureScript := signatureScript; sequence := toString sequence;
        computeBudget := computeBudget; utxo_amount := toString amount; utxo_scriptPublicKey := scriptPublicKey;
        utxo_covenantId := covenantId |}.

Definition normalizeFundingInput (index : Z) (input : TxV1FundingInputPlan) : result TxV1ReferenceInput :=
  let label := "fundingInputs[" +:+ toString index +:+ "]" in
  scriptPublicKey ← normalizeSerializedScriptPublicKey (fi_scriptPublicKey input) (label +:+ ".scriptPublicKey");
  _ ← p2pkPublicKey scriptPublicKey (label +:+ ".scriptPublicKey");
  _ ← throw_if (fi_computeBudget input !== TX_V1_P2PK_COMPUTE_BUDGET)
        (label +:+ ".computeBudget must be " +:+ toString TX_V1_P2PK_COMPUTE_BUDGET);
  signatureScript ← buildTxV1P2pkSignatureScript (fi_signature input) (fi_sighashType input);
  buildReferenceInput (fi_previousOutpoint input) (fi_amount input) scriptPublicKey signatureScript
    (default (Text "0") (fi_sequence input)) TX_V1_P2PK_COMPUTE_BUDGET None.

Definition normalizeCovenant (covenant : option TxV1CovenantBinding) (label : string) : result (option TxV1CovenantBinding) :=
  match covenant with
  | None => Ok None
  | Some c =>
      i ← normalizeUint16 (authorizingInput c) (label +:+ ".authorizingInput");
      id ← normalizeNonzeroHash32 (cb_covenantId c) (label +:+ ".covenantId");
      Ok (Some {| authorizingInput := i; cb_covenantId := id |})
  end.
Definition normalizeOutputs : list TxV1OutputPlan -> result (list TxV1ReferenceOutput) :=
  map_indexed (fun index output =>
    let label := "outputs[" +:+ toString index +:+ "]" in
    amount ← normalizePositiveUint64 (op_amount output) (label +:+ ".amount");
    scriptPublicKey ← normalizeSerializedScriptPublicKey (op_scriptPublicKey output) (label +:+ ".scriptPublicKey");
    covenant ← normalizeCovenant (op_covenant output) (label +:+ ".covenant");
    Ok {| out_amount := toString amount; out_scriptPublicKey := scriptPublicKey; covenant := covenant |}) 0.
(** A reference output where an output plan is expected *)
Definition plan_of (o : TxV1ReferenceOutput) : TxV1OutputPlan :=
  {| op_amount := Text (out_amount o); op_scriptPublicKey := out_scriptPublicKey o; op_covenant := covenant o |}.

Fixpoint outputs_match (index : Z) (actual expected : list TxV1ReferenceOutput) (label : string) : result () :=
  match actual, expected with
  | l :: actual, r :: expected =>
      _ ← throw_if ((out_amount l !== out_amount r) || (out_scriptPublicKey l !== out_scriptPublicKey r)
                    || ((authorizingInput <$> covenant l) !== (authorizingInput <$> covenant r))
                    || ((cb_covenantId <$> covenant l) !== (cb_covenantId <$> covenant r))
                    || negb (Bool.eqb (isNone (covenant l)) (isNone (covenant r))))
            (label +:+ " output " +:+ toString index +:+ " does not match the canonical topology");
      outputs_match (index + 1) actual expected label
  | _, _ => Ok tt
  end.
Definition assertExactOutputs (actual expected : list TxV1ReferenceOutput) (label : string) : result () :=
  _ ← throw_if (negb (length actual =? length expected)%nat)
        (label +:+ " transaction must have exactly " +:+ toString (Z.of_nat (length expected)) +:+ " outputs");
  outputs_match 0 actual expected label.

Definition input_cell (i : TxV1ReferenceInput) : KaspaStorageCell :=
  {| sc_amount := Text (utxo_amount i); sc_scriptPublicKey := utxo_scriptPublicKey i; hasCovenant := isSome (utxo_covenantId i) |}.
Definition output_cell (o : TxV1ReferenceOutput) : KaspaStorageCell :=
  {| sc_amount := Text (out_amount o); sc_scriptPublicKey := out_scriptPublicKey o; hasCovenant := isSome (covenant o) |}.
Definition resolveStorageMass (providedMass : option numeric) (inputs : list TxV1ReferenceInput)
    (outputs : list TxV1ReferenceOutput) : result Z :=
  computedMass ← calculateKaspaStorageMass (map input_cell inputs) (map output_cell outputs) None;
  _ ← match providedMass with
      | None => Ok tt
      | Some m => m ← normalizeUint64 m "mass"; throw_if (m !== computedMass) "storage mass must match contextual storage mass"
      end;
  Ok computedMass.

Definition normalizeComputeEvidence (computeBudget scriptUnits : Z) (label : string) : result TxV1ComputeEvidence :=
  normalizedBudget ← normalizeUint16 computeBudget (label +:+ " compute budget");
  _ ← throw_if (negb (isSafeInteger scriptUnits) || (scriptUnits <? 0)) (label +:+ " script-unit estimate is required");
  expectedBudget ← computeBudgetForScriptUnits scriptUnits;
  _ ← throw_if (normalizedBudget !== expectedBudget)
        (label +:+ " compute budget must match its script-unit estimate (" +:+ toString expectedBudget +:+ ")");
  allowance ← scriptUnitAllowance normalizedBudget;
  Ok {| ce_computeBudget := normalizedBudget; scriptUnitsEstimate := scriptUnits; ce_scriptUnitAllowance := allowance |}.

Definition pushDataHex (hex : string) : result string :=
  b ← hexToBytes hex None "pushdata"; p ← pushData b; Ok (bytesToHex p).
(** [list.map((item) => BigInt(item.amount))] of canonical decimal texts *)
Definition input_amounts (l : list TxV1ReferenceInput) : list Z := map (fun i => dec_value (utxo_amount i)) l.
Definition output_amounts (l : list TxV1ReferenceOutput) : list Z := map (fun o => dec_value (out_amount o)) l.

Section Builders.
Context (sha256 blake2b : bytes -> bytes) (blake2b_keyed blake3_keyed : bytes -> bytes -> bytes).

Definition assertRedeemScriptPublicKey (redeemScript scriptPublicKey label : string) : result () :=
  spk ← payToScriptHashScript blake2b redeemScript;
  expected ← serializedScriptPublicKey spk;
  throw_if (expected !== scriptPublicKey) (label +:+ " redeem script does not match its script public key").
(** [escrowScriptPubKeyHash(parseSerializedScriptPublicKey(...)) !== normalizeHash32(...)] *)
Definition assert_script_hash (scriptPublicKey label expectedHash hashLabel message : string) : result () :=
  spk ← parseSerializedScriptPublicKey scriptPublicKey label;
  actual ← escrowScriptPubKeyHash sha256 blake2b (inr spk);
  expected ← normalizeHash32 expectedHash hashLabel;
  throw_if (actual !== expected) message.

(** The end of every builder: storage mass, transaction, digests *)
Definition finish (inputs : list TxV1ReferenceInput) (outputs : list TxV1ReferenceOutput) (lockTime : result Z)
    (options : TxV1Options) : result TxV1ArtifactBase :=
  mass ← resolveStorageMass (o_mass options) inputs outputs;
  lockTime ← lockTime;
  subnetworkId ← normalizeNativeSubnetworkId (o_subnetworkId options);
  gas ← normalizeZeroGas (o_gas options);
  payload ← normalizeHex (default "" (o_payload options)) "payload";
  transaction ← buildTransaction inputs outputs lockTime subnetworkId gas payload mass;
  debug ← buildDigestDebug blake2b_keyed blake3_keyed transaction;
  Ok {| transaction := transaction; serializedTransaction := hash_preimage debug; transactionId := id_digest (dd_txid debug);
        transactionHash := hash_digest debug; debug := debug |}.

Definition buildBatchGenesisTxV1Artifact (input : BatchGenesisTxV1Input) : result BatchGenesisTxV1Artifact :=
  _ ← throw_if (match g_fundingInputs input with [] => true | _ => false end) "batch genesis requires at least one funding input";
  initial ← normalizeNonNegativeInt64 (g_initialClaimedCumulativeAmount input) "initialClaimedCumulativeAmount";
  _ ← throw_if (initial !== 0) "batch genesis claimed cumulative amount must be 0";
  escrowAmount ← normalizePositiveInt64 (g_escrowAmount input) "escrowAmount";
  fee ← normalizeUint64 (g_fee input) "fee";
  escrowScriptPublicKey ← normalizeSerializedScriptPublicKey (g_escrowScriptPublicKey input) "escrowScriptPublicKey";
  escrowRedeemScript ← normalizeHex (g_escrowRedeemScript input) "escrowRedeemScript";
  _ ← assertRedeemScriptPublicKey escrowRedeemScript escrowScriptPublicKey "escrow";
  inputs ← map_indexed normalizeFundingInput 0 (g_fundingInputs input);
  changeOutputs ← normalizeOutputs (default [] (g_changeOutputs input));
  _ ← throw_if (match changeOutputs with [] => false | _ => true end)
        "batch genesis must have exactly one output; change outputs are not allowed";
  inputTotal ← sumUint64 (input_amounts inputs) "genesis input total";
  _ ← throw_if (inputTotal !== escrowAmount + fee) "batch genesis funding inputs must equal escrow plus fee";
  first ← match inputs with i :: _ => Ok (previousOutpoint i) | [] => Throw (Error "Cannot read properties of undefined") end;
  covenantId ← transactionV1CovenantId blake2b_keyed first [(0, (Text (toString escrowAmount), escrowScriptPublicKey))];
  let outputs := [{| out_amount := toString escrowAmount; out_scriptPublicKey := escrowScriptPublicKey;
                     covenant := Some {| authorizingInput := 0; cb_covenantId := covenantId |} |}] in
  base ← finish inputs outputs (normalizeUint64 (default (Text "0") (g_lockTime input)) "lockTime") (g_options input);
  Ok {| ga_base := base; ga_covenantId := covenantId; ga_fee := toString fee;
        escrow := {| co_outputIndex := 0; co_amount := toString escrowAmount; co_scriptPublicKey := escrowScriptPublicKey;
                     co_redeemScript := escrowRedeemScript; co_covenantId := covenantId; co_claimedCumulativeAmount := "0";
                     co_outpoint := Outpoint (transactionId base) 0 |} |}.

Definition buildBatchClaimTxV1Artifact (input : BatchClaimTxV1Input) : result BatchClaimTxV1Artifact :=
  compute ← normalizeComputeEvidence (c_computeBudget input) (c_scriptUnitsEstimate input) "claim";
  activeAmount ← normalizePositiveInt64 (c_activeAmount input) "activeAmount";
  claimed ← normalizeNonNegativeInt64 (c_claimedCumulativeAmount input) "claimedCumulativeAmount";
  authorized ← normalizeNonNegativeInt64 (c_authorizedCumulativeAmount input) "authorizedCumulativeAmount";
  claimAmount ← normalizeNonNegativeInt64 (c_claimAmount input) "claimAmount";
  fee ← normalizeUint64 (c_fee input) "fee";
  covenantId ← normalizeNonzeroHash32 (c_covenantId input) "covenantId";
  _ ← throw_if (authorized <=? claimed) "signed cumulative authorization must exceed the claimed cumulative amount";
  _ ← throw_if (claimAmount =? 0) "claim amount must be positive";
  _ ← throw_if (authorized - claimed <? claimAmount) "claim amount exceeds the remaining signed cumulative authorization";
  let successorClaimed := claimed + claimAmount in
  _ ← throw_if (I64_MAX <? successorClaimed) "successor claimed cumulative amount must fit signed int64";
  _ ← throw_if (activeAmount <=? claimAmount) "claim continuation output must be positive";
  _ ← throw_if (claimAmount <=? fee) "claim amount must exceed the transaction fee";
  activeScriptPublicKey ← normalizeSerializedScriptPublicKey (c_activeScriptPublicKey input) "activeScriptPublicKey";
  activeRedeemScript ← normalizeHex (c_activeRedeemScript input) "activeRedeemScript";
  successorScriptPublicKey ← normalizeSerializedScriptPublicKey (c_successorScriptPublicKey input) "successorScriptPublicKey";
  successorRedeemScript ← normalizeHex (c_successorRedeemScript input) "successorRedeemScript";
  serverScriptPublicKey ← normalizeSerializedScriptPublicKey (c_serverOutputScriptPublicKey input) "serverOutputScriptPublicKey";
  _ ← assertRedeemScriptPublicKey activeRedeemScript activeScriptPublicKey "active";
  _ ← assertRedeemScriptPublicKey successorRedeemScript successorScriptPublicKey "successor";
  _ ← assert_script_hash serverScriptPublicKey "serverOutputScriptPublicKey"
        (c_expectedPayoutScriptPublicKeyHash input) "expectedPayoutScriptPublicKeyHash"
        "claim output 0 script public key must match the configured payout hash";
  let serverOutputAmount := claimAmount - fee in
  let continuationOutputAmount := activeAmount - claimAmount in
  let expectedOutputs :=
    [{| out_amount := toString serverOutputAmount; out_scriptPublicKey := serverScriptPublicKey; covenant := None |};
     {| out_amount := toString continuationOutputAmount; out_scriptPublicKey := successorScriptPublicKey;
        covenant := Some {| authorizingInput := 0; cb_covenantId := covenantId |} |}] in
  outputs ← normalizeOutputs (default (map plan_of expectedOutputs) (c_outputs input));
  _ ← assertExactOutputs outputs expectedOutputs "claim";
  args ← buildClaimArgs {| serverSignature := c_serverSignature input; voucherSignature := c_voucherSignature input;
                           ca_authorizedCumulativeAmount := BigInt authorized; ca_claimAmount := BigInt claimAmount |};
  pushed ← pushDataHex activeRedeemScript;
  let signatureScript := args +:+ pushed in
  i ← buildReferenceInput (c_activeOutpoint input) (BigInt activeAmount) activeScriptPublicKey signatureScript
        (default (Text "0") (c_sequence input)) (c_computeBudget input) (Some covenantId);
  base ← finish [i] outputs (normalizeUint64 (default (Text "0") (c_lockTime input)) "lockTime") (c_options input);
  voucher ← voucherDigest sha256 {| vp_network := c_network input; vp_covenantId := covenantId;
                                    vp_authorizedCumulativeAmount := BigInt authorized |};
  Ok {| cl_base := base; cl_signatureScript := signatureScript; cl_voucherDigest := voucher; cl_fee := toString fee;
        fee_claimAmount := toString claimAmount; fee_authorizedCumulativeAmount := toString authorized;
        serverOutputAmount := toString serverOutputAmount; continuationOutputAmount := toString continuationOutputAmount;
        cl_continuation := {| co_outputIndex := 1; co_amount := toString continuationOutputAmount;
                              co_scriptPublicKey := successorScriptPublicKey; co_redeemScript := successorRedeemScript;
                              co_covenantId := covenantId; co_claimedCumulativeAmount := toString successorClaimed;
                              co_outpoint := Outpoint (transactionId base) 1 |};
        cl_compute := compute |}.

Definition buildBatchTopUpTxV1Artifact (input : BatchTopUpTxV1Input) : result BatchTopUpTxV1Artifact :=
  _ ← throw_if (match t_fundingInputs input with [] => true | _ => false end)
        "batch top-up requires at least one P2PK funding input";
  compute ← normalizeComputeEvidence (t_computeBudget input) (t_scriptUnitsEstimate input) "top-up";
  activeAmount ← normalizePositiveInt64 (t_activeAmount input) "activeAmount";
  successorAmount ← normalizePositiveInt64 (t_successorAmount input) "successorAmount";
  claimed ← normalizeNonNegativeInt64 (t_claimedCumulativeAmount input) "claimedCumulativeAmount";
  fee ← normalizeUint64 (t_fee input) "fee";
  covenantId ← normalizeNonzeroHash32 (t_covenantId input) "covenantId";
  _ ← throw_if (successorAmount <=? activeAmount) "top-up successor amount must exceed the active amount";
  activeScriptPublicKey ← normalizeSerializedScriptPublicKey (t_activeScriptPublicKey input) "activeScriptPublicKey";
  activeRedeemScript ← normalizeHex (t_activeRedeemScript input) "activeRedeemScript";
  successorScriptPublicKey ← normalizeSerializedScriptPublicKey (t_successorScriptPublicKey input) "successorScriptPublicKey";
  successorRedeemScript ← normalizeHex (t_successorRedeemScript input) "successorRedeemScript";
  _ ← assertRedeemScriptPublicKey activeRedeemScript activeScriptPublicKey "active";
  _ ← assertRedeemScriptPublicKey successorRedeemScript successorScriptPublicKey "successor";
  _ ← throw_if ((successorScriptPublicKey !== activeScriptPublicKey) || (successorRedeemScript !== activeRedeemScript))
        "top-up must preserve the current covenant state and script";
  changeOutputs ← normalizeOutputs (default [] (t_changeOutputs input));
  _ ← throw_if (1 <? length changeOutputs)%nat "top-up supports at most one client change output";
  _ ← throw_if (existsb (fun o => isSome (covenant o)) changeOutputs) "top-up change outputs must be unbound";
  _ ← match changeOutputs with
      | [] => Ok tt
      | change :: _ =>
          assert_script_hash (out_scriptPublicKey change) "topUpChangeScriptPublicKey"
            (t_expectedRefundScriptPublicKeyHash input) "expectedRefundScriptPublicKeyHash"
            "top-up change output must match the configured refund hash"
      end;
  let expectedOutputs :=
    {| out_amount := toString successorAmount; out_scriptPublicKey := successorScriptPublicKey;
       covenant := Some {| authorizingInput := 0; cb_covenantId := covenantId |} |} :: changeOutputs in
  outputs ← normalizeOutputs (default (map plan_of expectedOutputs) (t_outputs input));
  _ ← assertExactOutputs outputs expectedOutputs "top-up";
  args ← buildTopUpArgs {| tu_clientSignature := t_clientSignature input; providerSignature := t_providerSignature input |};
  pushed ← pushDataHex activeRedeemScript;
  let signatureScript := args +:+ pushed in
  i ← buildReferenceInput (t_activeOutpoint input) (BigInt activeAmount) activeScriptPublicKey signatureScript
        (default (Text "0") (t_sequence input)) (t_computeBudget input) (Some covenantId);
  funding ← map_indexed normalizeFundingInput 0 (t_fundingInputs input);
  let inputs := i :: funding in
  inputTotal ← sumUint64 (input_amounts inputs) "top-up input total";
  outputTotal ← sumUint64 (output_amounts outputs) "top-up output total";
  _ ← throw_if (inputTotal !== outputTotal + fee) "top-up inputs must equal outputs plus fee";
  base ← finish inputs outputs (normalizeUint64 (default (Text "0") (t_lockTime input)) "lockTime") (t_options input);
  Ok {| ta_base := base; ta_signatureScript := signatureScript; ta_fee := toString fee;
        ta_continuation := {| co_outputIndex := 0; co_amount := toString successorAmount;
                              co_scriptPublicKey := successorScriptPublicKey; co_redeemScript := successorRedeemScript;
                              co_covenantId := covenantId; co_claimedCumulativeAmount := toString claimed;
                              co_outpoint := Outpoint (transactionId base) 0 |};
        ta_compute := compute |}.

Definition buildBatchRefundTxV1Artifact (input : BatchRefundTxV1Input) : result BatchRefundTxV1Artifact :=
  compute ← normalizeComputeEvidence (r_computeBudget input) (r_scriptUnitsEstimate input) "refund";
  activeAmount ← normalizePositiveInt64 (r_activeAmount input) "activeAmount";
  fee ← normalizeUint64 (r_fee input) "fee";
  timeoutDaa ← normalizeUint64 (r_timeoutDaa input) "timeoutDaa";
  lockTimeDaa ← normalizeUint64 (r_lockTimeDaa input) "lockTimeDaa";
  inputSequence ← normalizeUint64 (r_inputSequence input) "inputSequence";
  covenantId ← normalizeNonzeroHash32 (r_covenantId input) "covenantId";
  _ ← throw_if ((KASPA_LOCK_TIME_THRESHOLD <=? timeoutDaa) || (KASPA_LOCK_TIME_THRESHOLD <=? lockTimeDaa))
        "refund DAA lock times must remain below the consensus timestamp boundary";
  _ ← throw_if (activeAmount <=? fee) "refund amount must exceed the transaction fee";
  _ ← throw_if (lockTimeDaa <? timeoutDaa) "refund lock time must be greater than or equal to timeoutDaa";
  _ ← throw_if (inputSequence !== 0) "refund input sequence must be 0";
  activeScriptPublicKey ← normalizeSerializedScriptPublicKey (r_activeScriptPublicKey input) "activeScriptPublicKey";
  activeRedeemScript ← normalizeHex (r_activeRedeemScript input) "activeRedeemScript";
  refundScriptPublicKey ← normalizeSerializedScriptPublicKey (r_refundOutputScriptPublicKey input) "refundOutputScriptPublicKey";
  _ ← assertRedeemScriptPublicKey activeRedeemScript activeScriptPublicKey "active";
  _ ← assert_script_hash refundScriptPublicKey "refundOutputScriptPublicKey"
        (r_expectedRefundScriptPublicKeyHash input) "expectedRefundScriptPublicKeyHash"
        "refund output script public key must match the configured refund hash";
  let refundOutputAmount := activeAmount - fee in
  let expectedOutputs :=
    [{| out_amount := toString refundOutputAmount; out_scriptPublicKey := refundScriptPublicKey; covenant := None |}] in
  outputs ← normalizeOutputs (default (map plan_of expectedOutputs) (r_outputs input));
  _ ← assertExactOutputs outputs expectedOutputs "refund";
  args ← buildRefundArgs (r_clientSignature input);
  pushed ← pushDataHex activeRedeemScript;
  let signatureScript := args +:+ pushed in
  i ← buildReferenceInput (r_activeOutpoint input) (BigInt activeAmount) activeScriptPublicKey signatureScript
        (BigInt inputSequence) (r_computeBudget input) (Some covenantId);
  base ← finish [i] outputs (Ok lockTimeDaa) (r_options input);
  Ok {| ra_base := base; ra_signatureScript := signatureScript; ra_covenantId := covenantId; ra_fee := toString fee;
        refundOutputAmount := toString refundOutputAmount; ra_compute := compute |}.
End Builders.

(** * Lemmas *)

Lemma tx_u64_ok v lbl n : normalizeUint64 v lbl = Ok n <-> numeric_value v n.
Proof.
  unfold normalizeUint64, numeric_value. rewrite bind_ok. setoid_rewrite bind_ok. setoid_rewrite throw_if_ok.
  destruct v as [z|z|s]; unfold numberToUint64, stringToUint64, isSafeInteger; split.
  - intros (m & [= <-] & [] & H & [= <-]). inv_bool. done.
  - intros [-> H]. eexists. split; [done|]. exists (). split; [lia|done].
  - intros (m & Hm & [] & H & [= <-]). inv_ok. subst. repeat split; lia.
  - intros [[-> Hz] H]. exists z. split; [|exists (); split; [lia|done]].
    replace (_ || _) with false; [done|]. unfold MAX_SAFE_INTEGER in *. lia.
  - intros (m & Hm & [] & H & [= <-]). inv_ok. split; [|done]. symmetry. by apply canonical_toString.
  - intros [-> H]. destruct (toString_spec n ltac:(lia)) as [Hc Hv]. exists n. rewrite Hc, Hv.
    split; [done|]. exists (). split; [lia|done].
Qed.
Lemma numeric_bounds v n : numeric_value v n -> 0 <= n <= U64_MAX.
Proof. by intros [_ ?]. Qed.
Lemma numeric_functional v n m : numeric_value v n -> numeric_value v m -> n = m.
Proof. rewrite <- !(tx_u64_ok v ""). congruence. Qed.
Lemma positive_u64_ok v lbl n : normalizePositiveUint64 v lbl = Ok n <-> numeric_value v n /\ 0 < n.
Proof.
  unfold normalizePositiveUint64. rewrite bind_ok. split.
  - intros (m & Hm%tx_u64_ok & H). inv_ok; subst. pose proof (numeric_bounds _ _ Hm). split; [done|lia].
  - intros [H ?]. exists n. rewrite tx_u64_ok. split; [done|]. by decide_guards.
Qed.
Lemma nonneg_int64_ok v lbl n : normalizeNonNegativeInt64 v lbl = Ok n <-> numeric_value v n /\ n <= I64_MAX.
Proof.
  unfold normalizeNonNegativeInt64. rewrite bind_ok. split.
  - intros (m & Hm%tx_u64_ok & H). by inv_ok.
  - intros [H ?]. exists n. rewrite tx_u64_ok. split; [done|]. by decide_guards.
Qed.
Lemma positive_int64_ok v lbl n : normalizePositiveInt64 v lbl = Ok n <-> numeric_value v n /\ 0 < n <= I64_MAX.
Proof.
  unfold normalizePositiveInt64. rewrite bind_ok. split.
  - intros (m & [Hm Hi]%nonneg_int64_ok & H). inv_ok. pose proof (numeric_bounds _ _ Hm). split; [done|lia].
  - intros [H ?]. exists n. rewrite nonneg_int64_ok. split; [split; [done|lia]|]. by decide_guards.
Qed.
Lemma dec_value_toString n : 0 <= n -> dec_value (toString n) = n.
Proof. intros H. by destruct (toString_spec n H). Qed.

(** Splits a run of a builder and reads the numbers its guards normalize. *)
Ltac inv_build := repeat (progress inv_ok || match goal with
  | H : normalizeUint64 _ _ = Ok _ |- _ => apply tx_u64_ok in H
  | H : normalizePositiveUint64 _ _ = Ok _ |- _ => apply positive_u64_ok in H as [? ?]
  | H : normalizeNonNegativeInt64 _ _ = Ok _ |- _ => apply nonneg_int64_ok in H as [? ?]
  | H : normalizePositiveInt64 _ _ = Ok _ |- _ => apply positive_int64_ok in H as [? ?]
  end).

Definition total (l : list Z) : Z := foldr Z.add 0 l.
Lemma foldl_total l n : foldl Z.add n l = n + total l.
Proof. revert n. unfold total in *. induction l as [|x l IH]; intros n; cbn; [lia|]. rewrite IH. lia. Qed.
Lemma sumUint64_ok l lbl n : sumUint64 l lbl = Ok n <-> n = total l /\ total l <= U64_MAX.
Proof.
  unfold sumUint64. rewrite foldl_total, Z.add_0_l, bind_ok. setoid_rewrite throw_if_ok. split.
  - intros ([] & H & [= <-]). inv_bool. done.
  - intros [-> H]. exists (). split; [lia|done].
Qed.

(** An amount text that holds a positive 64-bit number *)
Definition positive_text (s : string) : Prop := exists n, s = toString n /\ 0 < n <= U64_MAX.
Lemma positive_text_value n : 0 < n <= U64_MAX -> positive_text (toString n).
Proof. intros ?. by exists n. Qed.

Lemma map_indexed_forall {A B} (f : Z -> A -> result B) (P : B -> Prop) l : forall k l',
  (forall k x y, f k x = Ok y -> P y) -> map_indexed f k l = Ok l' -> Forall P l'.
Proof.
  induction l as [|x l IH]; intros k l' Hf H; cbn in H; [by simplify_eq|]. inv_ok.
  constructor; [by eapply Hf|]. by eapply IH.
Qed.

Lemma normalize_outputs_positive l l' : normalizeOutputs l = Ok l' -> Forall (fun o => positive_text (out_amount o)) l'.
Proof.
  intros H. unfold normalizeOutputs in H. eapply map_indexed_forall in H; [exact H|]. cbn. intros. inv_build.
  match goal with H : numeric_value _ _ |- _ => pose proof (numeric_bounds _ _ H) end. apply positive_text_value. lia.
Qed.

Lemma reference_input_ok o a spk script seq budget c i :
  buildReferenceInput o a spk script seq budget c = Ok i ->
  exists n, numeric_value a n /\ 0 < n /\ utxo_amount i = toString n /\
    match c with None => utxo_covenantId i = None
            | Some id => exists id', normalizeNonzeroHash32 id "input covenantId" = Ok id' /\ utxo_covenantId i = Some id' end /\
    exists m, numeric_value seq m /\ sequence i = toString m.
Proof.
  unfold buildReferenceInput. intros. inv_build. eexists. split; [done|]. split; [done|]. split; [done|].
  split; [|eauto]. destruct c; inv_ok; cbn; [eauto|congruence].
Qed.

Definition ordinary (i : TxV1ReferenceInput) : Prop := positive_text (utxo_amount i) /\ utxo_covenantId i = None.
Lemma funding_ok l k l' : map_indexed normalizeFundingInput k l = Ok l' -> Forall ordinary l'.
Proof.
  intros H. eapply map_indexed_forall; [|exact H]. clear. intros k x y H. unfold normalizeFundingInput in H. inv_ok.
  apply reference_input_ok in H as (n & Hn & Hpos & E & Ec & _). split; [|done].
  exists n. pose proof (numeric_bounds _ _ Hn). split; [done|lia].
Qed.

Lemma exact_outputs actual expected lbl u : assertExactOutputs actual expected lbl = Ok u -> actual = expected.
Proof.
  unfold assertExactOutputs. rewrite bind_ok. intros ([] & Hn & H). apply throw_if_ok, negb_false_iff, Nat.eqb_eq in Hn.
  revert expected Hn H. generalize 0. induction actual as [|l actual IH]; intros k [|r expected] Hn H; try done.
  cbn [outputs_match] in H. cbn in Hn. inv_ok.
  f_equal; [|eapply (IH (k + 1)); [lia|]; by repeat match goal with u : () |- _ => destruct u end].
  destruct l as [la ls lc], r as [ra rs rc]; cbn in *. subst. f_equal.
  destruct lc as [[]|], rc as [[]|]; cbn in *; try done. congruence.
Qed.

(** Reading back what [bytesToHex] wrote *)
Lemma hex_of_bytes b n lbl :
  match n with Some n => Z.of_nat (length b) = n | None => True end -> hexToBytes (bytesToHex b) n lbl = Ok b.
Proof.
  intros Hn. apply template_hex_ok. rewrite hex_decode_bytesToHex, bytesToHex_length, byte_hex_of.
  split; [done|]. split; [done|]. destruct n; [lia|done].
Qed.
Lemma hash32_ok h lbl h' : normalizeHash32 h lbl = Ok h' -> exists b, h' = bytesToHex b /\ length b = 32%nat.
Proof.
  unfold normalizeHash32. rewrite bind_ok. intros (b & (-> & Hp & Hl)%template_hex_ok & [= <-]).
  pose proof (hex_decode_length _ Hp). eexists. split; [done|]. lia.
Qed.
Lemma nonzero_hash_stable h lbl lbl' h' :
  normalizeNonzeroHash32 h lbl = Ok h' -> normalizeNonzeroHash32 h' lbl' = Ok h'.
Proof.
  unfold normalizeNonzeroHash32. rewrite bind_ok. intros (h0 & Hh & H). inv_ok.
  apply hash32_ok in Hh as (b & -> & Hb). unfold normalizeHash32. rewrite hex_of_bytes by lia.
  cbn. match goal with H : _ <> ZERO_HASH |- _ => by rewrite bool_decide_eq_false_2 end.
Qed.

Section Artifacts.
Context (sha256 blake2b : bytes -> bytes) (blake2b_keyed blake3_keyed : bytes -> bytes -> bytes).
Local Abbreviation finish := (finish blake2b_keyed blake3_keyed).
Local Abbreviation build_genesis := (buildBatchGenesisTxV1Artifact blake2b blake2b_keyed blake3_keyed).
Local Abbreviation build_claim := (buildBatchClaimTxV1Artifact sha256 blake2b blake2b_keyed blake3_keyed).
Local Abbreviation build_top_up := (buildBatchTopUpTxV1Artifact sha256 blake2b blake2b_keyed blake3_keyed).
Local Abbreviation build_refund := (buildBatchRefundTxV1Artifact sha256 blake2b blake2b_keyed blake3_keyed).

Lemma digest_ok t d : buildDigestDebug blake2b_keyed blake3_keyed t = Ok d ->
  transactionV1Id blake2b_keyed blake3_keyed t = Ok (id_digest (dd_txid d)) /\
  writeTransaction t full = Ok (hex_decode (hash_preimage d)) /\
  hash_digest d = blake2bKeyed blake2b_keyed "TransactionHash" (hex_decode (hash_preimage d)).
Proof.
  intros H. split; [unfold transactionV1Id; by rewrite H|]. unfold buildDigestDebug in H. inv_ok.
  cbn [hash_preimage hash_digest]. rewrite hex_decode_bytesToHex. done.
Qed.

(** What a transaction of an artifact satisfies beyond its inputs and outputs *)
Definition sound_transaction (base : TxV1ArtifactBase) : Prop :=
  let t := transaction base in
  version t = 1 /\ subnetworkId t = NATIVE_SUBNETWORK_ID /\ gas t = "0" /\
  (exists m, calculateKaspaStorageMass (map input_cell (inputs t)) (map output_cell (outputs t)) None = Ok m /\ mass t = toString m) /\
  estimatedSerializedSize t = Ok (estimated t) /\
  transactionV1Id blake2b_keyed blake3_keyed t = Ok (transactionId base) /\
  writeTransaction t full = Ok (hex_decode (serializedTransaction base)) /\
  transactionHash base = blake2bKeyed blake2b_keyed "TransactionHash" (hex_decode (serializedTransaction base)).

Lemma finish_ok ins outs lock options base :
  finish ins outs lock options = Ok base ->
  inputs (transaction base) = ins /\ outputs (transaction base) = outs /\
  (exists n, lock = Ok n /\ lockTime (transaction base) = toString n) /\ sound_transaction base.
Proof.
  unfold TxV1Artifacts.finish, resolveStorageMass, normalizeNativeSubnetworkId, normalizeZeroGas, buildTransaction, sound_transaction.
  intros H. inv_ok.
  match goal with H : buildDigestDebug _ _ _ = Ok _ |- _ => apply digest_ok in H as (Hid & Hw & Hh) end.
  cbn [transaction serializedTransaction transactionId transactionHash inputs outputs version lockTime subnetworkId gas mass estimated] in *.
  subst. repeat split; eauto.
Qed.

Ltac bound_numbers := repeat match goal with
  | H : numeric_value _ ?n |- _ =>
      lazymatch goal with _ : 0 <= n <= U64_MAX |- _ => fail | _ => pose proof (numeric_bounds _ _ H) end
  end.
Ltac inv_artifact := bound_numbers; repeat match goal with
  | H : assertExactOutputs _ _ _ = Ok _ |- _ => apply exact_outputs in H; subst
  | H : normalizeOutputs _ = Ok _ |- _ => apply normalize_outputs_positive in H
  | H : buildReferenceInput _ _ _ _ _ _ _ = Ok _ |- _ => apply reference_input_ok in H as (? & [-> ?] & ? & ? & ? & (? & ? & ?))
  | H : map_indexed normalizeFundingInput _ _ = Ok _ |- _ => apply funding_ok in H
  | H : finish _ _ _ _ = Ok _ |- _ => apply finish_ok in H as (? & ? & (? & ? & ?) & ?)
  | H : sumUint64 _ _ = Ok _ |- _ => apply sumUint64_ok in H as [? ?]
  | H : exists id', normalizeNonzeroHash32 _ _ = Ok id' /\ _ |- _ => destruct H as (? & ? & ?)
  | H : normalizeNonzeroHash32 ?x ?l = Ok ?y, H' : normalizeNonzeroHash32 ?z _ = Ok ?x |- _ =>
      rewrite (nonzero_hash_stable _ _ l _ H') in H; injection H as <-
  end.

(** ** Claims *)

(** What the numbers of a claim satisfy and what its outputs are *)
Definition bound_to (id : string) : option TxV1CovenantBinding := Some {| authorizingInput := 0; cb_covenantId := id |}.
Lemma claim_ok input art : build_claim input = Ok art ->
  exists active claimed authorized claim fee id,
    numeric_value (c_activeAmount input) active /\ numeric_value (c_claimedCumulativeAmount input) claimed /\
    numeric_value (c_authorizedCumulativeAmount input) authorized /\ numeric_value (c_claimAmount input) claim /\
    numeric_value (c_fee input) fee /\ normalizeNonzeroHash32 (c_covenantId input) "covenantId" = Ok id /\
    (0 <= claimed /\ 0 < claim /\ claimed + claim <= authorized <= I64_MAX /\ 0 <= fee < claim /\ claim < active <= I64_MAX) /\
    (exists i, inputs (transaction (cl_base art)) = [i] /\ utxo_amount i = toString active /\ utxo_covenantId i = Some id) /\
    (exists spk spk', outputs (transaction (cl_base art)) =
       [{| out_amount := toString (claim - fee); out_scriptPublicKey := spk; covenant := None |};
        {| out_amount := toString (active - claim); out_scriptPublicKey := spk'; covenant := bound_to id |}] /\
       co_scriptPublicKey (cl_continuation art) = spk' /\
       assert_script_hash sha256 blake2b spk "serverOutputScriptPublicKey" (c_expectedPayoutScriptPublicKeyHash input)
         "expectedPayoutScriptPublicKeyHash" "claim output 0 script public key must match the configured payout hash" = Ok ()) /\
    cl_fee art = toString fee /\ co_amount (cl_continuation art) = toString (active - claim) /\
    co_claimedCumulativeAmount (cl_continuation art) = toString (claimed + claim) /\
    co_outpoint (cl_continuation art) = Outpoint (transactionId (cl_base art)) 1 /\ sound_transaction (cl_base art).
Proof.
  unfold buildBatchClaimTxV1Artifact. intros H. inv_build; inv_artifact.
  do 6 eexists. repeat (split; [eassumption|]). cbn [cl_base cl_continuation co_scriptPublicKey]. split; [lia|].
  split; [eauto|]. split; [eauto 10|]. split_and!; try reflexivity; done.
Qed.

(** ** The four builders together *)

Inductive kind := Genesis | Claim | TopUp | Refund.
(** An artifact some builder returned, with its fee and the covenant it creates, continues or closes *)
Inductive built : kind -> TxV1ArtifactBase -> string -> string -> Prop :=
  | built_genesis input art : build_genesis input = Ok art -> built Genesis (ga_base art) (ga_fee art) (ga_covenantId art)
  | built_claim input art : build_claim input = Ok art ->
      built Claim (cl_base art) (cl_fee art) (co_covenantId (cl_continuation art))
  | built_top_up input art : build_top_up input = Ok art ->
      built TopUp (ta_base art) (ta_fee art) (co_covenantId (ta_continuation art))
  | built_refund input art : build_refund input = Ok art -> built Refund (ra_base art) (ra_fee art) (ra_covenantId art).

(** Inputs and outputs balance, nothing is worth zero, the covenant continues in exactly one
    output bound to input 0. *)
Definition balanced (k : kind) (t : TxV1ReferenceTransaction) (fee : Z) (id : string) : Prop :=
  0 <= fee /\ total (input_amounts (inputs t)) = total (output_amounts (outputs t)) + fee /\
  Forall (fun i => positive_text (utxo_amount i)) (inputs t) /\ Forall (fun o => positive_text (out_amount o)) (outputs t) /\
  omap covenant (outputs t) = match k with Refund => [] | _ => [{| authorizingInput := 0; cb_covenantId := id |}] end /\
  match k with
  | Genesis => Forall ordinary (inputs t)
  | _ => exists i rest, inputs t = i :: rest /\ utxo_covenantId i = Some id /\ Forall ordinary rest
  end.

Lemma ordinary_positive l : Forall ordinary l -> Forall (fun i => positive_text (utxo_amount i)) l.
Proof. intros H. eapply Forall_impl; [exact H|]. by intros i [? _]. Qed.

Lemma genesis_balanced input art : build_genesis input = Ok art ->
  exists fee, ga_fee art = toString fee /\ balanced Genesis (transaction (ga_base art)) fee (ga_covenantId art) /\
    sound_transaction (ga_base art).
Proof.
  unfold buildBatchGenesisTxV1Artifact, balanced. intros H. inv_build; inv_artifact.
  eexists. split; [reflexivity|]. cbn [ga_base ga_covenantId].
  repeat match goal with H : inputs _ = _ |- _ => rewrite H | H : outputs _ = _ |- _ => rewrite H end.
  split; [|done]. cbn [output_amounts map total foldr out_amount omap list_omap covenant]. rewrite dec_value_toString by lia.
  split_and!; try first [done|lia|by apply ordinary_positive].
  assert (I64_MAX <= U64_MAX) by done. constructor; [|done]. apply positive_text_value. lia.
Qed.
Lemma claim_balanced input art : build_claim input = Ok art ->
  exists fee, cl_fee art = toString fee /\ balanced Claim (transaction (cl_base art)) fee (co_covenantId (cl_continuation art)) /\
    sound_transaction (cl_base art).
Proof.
  unfold buildBatchClaimTxV1Artifact, balanced. intros H. inv_build; inv_artifact.
  eexists. split; [reflexivity|]. cbn [cl_base cl_continuation co_covenantId].
  repeat match goal with H : inputs _ = _ |- _ => rewrite H | H : outputs _ = _ |- _ => rewrite H end.
  split; [|done]. cbn [input_amounts output_amounts map total foldr out_amount omap list_omap covenant].
  repeat match goal with H : utxo_amount _ = _ |- _ => rewrite H end. rewrite !dec_value_toString; [|lia..].
  assert (I64_MAX <= U64_MAX) by done. split_and!; try first [done|lia|by eauto].
  repeat constructor. eexists; split; [eassumption|lia].
Qed.
Lemma unbound_outputs l : existsb (fun o => isSome (covenant o)) l = false -> omap covenant l = [].
Proof. induction l as [|[? ? []] l IH]; cbn; [done|done|exact IH]. Qed.
Lemma top_up_balanced input art : build_top_up input = Ok art ->
  exists fee, ta_fee art = toString fee /\ balanced TopUp (transaction (ta_base art)) fee (co_covenantId (ta_continuation art)) /\
    sound_transaction (ta_base art).
Proof.
  unfold buildBatchTopUpTxV1Artifact, balanced. intros H. inv_build; inv_artifact.
  eexists. split; [reflexivity|]. cbn [ta_base ta_continuation co_covenantId].
  repeat match goal with H : inputs _ = _ |- _ => rewrite H | H : outputs _ = _ |- _ => rewrite H end.
  assert (I64_MAX <= U64_MAX) by done. split; [|done]. split_and!; try first [done|lia|by eauto].
  - constructor; [|by apply ordinary_positive]. eexists; split; [eassumption|lia].
  - cbn [omap list_omap covenant]. f_equal. by apply unbound_outputs.
Qed.
Lemma refund_balanced input art : build_refund input = Ok art ->
  exists fee, ra_fee art = toString fee /\ balanced Refund (transaction (ra_base art)) fee (ra_covenantId art) /\
    sound_transaction (ra_base art).
Proof.
  unfold buildBatchRefundTxV1Artifact, balanced. intros H. inv_build; inv_artifact.
  eexists. split; [reflexivity|]. cbn [ra_base ra_covenantId].
  repeat match goal with H : inputs _ = _ |- _ => rewrite H | H : outputs _ = _ |- _ => rewrite H end.
  split; [|done]. cbn [input_amounts output_amounts map total foldr out_amount omap list_omap covenant].
  repeat match goal with H : utxo_amount _ = _ |- _ => rewrite H end. rewrite !dec_value_toString; [|lia..].
  assert (I64_MAX <= U64_MAX) by done. split_and!; try first [done|lia|by eauto].
  repeat constructor. eexists; split; [eassumption|lia].
Qed.
Lemma built_sound k base fee id : built k base fee id ->
  exists n, fee = toString n /\ balanced k (transaction base) n id /\ sound_transaction base.
Proof.
  intros [input art H|input art H|input art H|input art H].
  - by apply genesis_balanced in H. - by apply claim_balanced in H.
  - by apply top_up_balanced in H. - by apply refund_balanced in H.
Qed.

(** ** Properties *)

(** C35.  Every artifact a builder returns is funded exactly: the inputs are worth the
    outputs plus the stated fee, every input and output is worth something, the covenant
    continues in exactly one output bound to the first input (in none when it is refunded), and
    the only covenant input is the first one, carrying the id of that output; a genesis spends
    ordinary inputs only. *)
Theorem artifacts_conserve_value k base fee id : built k base fee id ->
  exists n, fee = toString n /\ balanced k (transaction base) n id.
Proof. intros (n & ? & ? & _)%built_sound. eauto. Qed.

(** Every artifact carries a transaction of version 1 in the native subnetwork with
    no gas, whose mass is the contextual storage mass of its own inputs and outputs, whose size
    is the estimate for it, whose id and hash recompute from it, and whose serialized form
    decodes to the full serialization. *)
Theorem artifact_transactions_sound k base fee id : built k base fee id -> sound_transaction base.
Proof. by intros (n & _ & _ & ?)%built_sound. Qed.

(** C36.  A claim artifact for a valid lane moves the covenant as lane accounting moves the
    lane: the continuation is worth the new funding and records the new claimed total.  The
    builder itself checks the claim against what the buyer signed, the accounting against what
    was charged: the accounting accepts the same claim exactly when it is within the charge. *)
Theorem claim_artifact_refines_lane l c input art :
  Lane.valid l ->
  numeric_value (c_activeAmount input) (Lane.funding l) -> numeric_value (c_claimedCumulativeAmount input) (Lane.claimed l) ->
  numeric_value (c_authorizedCumulativeAmount input) (Lane.signed l) -> numeric_value (c_claimAmount input) c ->
  build_claim input = Ok art ->
  let l' := Lane.encode (Lane.claim l c) in
  co_amount (cl_continuation art) = fundingAmount l' /\
  co_claimedCumulativeAmount (cl_continuation art) = BatchLane.claimedCumulativeAmount l' /\
  (applyBatchClaimAccounting (Lane.encode l) (toString c) = Ok l' <-> c <= Lane.charged l - Lane.claimed l).
Proof.
  intros Hl Ha Hc Hs Hn H. apply claim_ok in H
    as (a & cl & s & n & f & id & Ha' & Hc' & Hs' & Hn' & _ & _ & Hb & _ & _ & _ & E1 & E2 & _).
  apply (numeric_functional _ _ _ Ha) in Ha' as <-. apply (numeric_functional _ _ _ Hc) in Hc' as <-.
  apply (numeric_functional _ _ _ Hs) in Hs' as <-. apply (numeric_functional _ _ _ Hn) in Hn' as <-.
  split; [done|]. split; [done|].
  pose proof (apply_claim_encode l c Hl) as Hap. unfold Lane.claimable in Hap.
  change BATCH_SCRIPT_INT_MAX with I64_MAX in *. specialize (Hap ltac:(lia)).
  destruct (applyBatchClaimAccounting _ _); [destruct Hap as [? ->]; split; [lia|done]|].
  split; [done|lia].
Qed.

(** C37.  A refund is locked until the timeout: its lock time is at least the timeout and
    below the timestamp boundary, its only input has sequence 0, which keeps the lock time
    effective, and its only output returns the funds less the fee to the script of the
    configured refund hash. *)
Theorem refund_artifact_locked input art : build_refund input = Ok art ->
  exists timeout lock fee active,
    numeric_value (r_timeoutDaa input) timeout /\ numeric_value (r_lockTimeDaa input) lock /\ numeric_value (r_fee input) fee /\
    numeric_value (r_activeAmount input) active /\
    timeout <= lock < KASPA_LOCK_TIME_THRESHOLD /\ lockTime (transaction (ra_base art)) = toString lock /\
    map sequence (inputs (transaction (ra_base art))) = ["0"] /\
    exists spk, outputs (transaction (ra_base art)) =
      [{| out_amount := toString (active - fee); out_scriptPublicKey := spk; covenant := None |}] /\
    fee < active /\
    assert_script_hash sha256 blake2b spk "refundOutputScriptPublicKey" (r_expectedRefundScriptPublicKeyHash input)
      "expectedRefundScriptPublicKeyHash" "refund output script public key must match the configured refund hash" = Ok ().
Proof.
  unfold buildBatchRefundTxV1Artifact. intros H. inv_build; inv_artifact.
  do 4 eexists. repeat (split; [eassumption|]). cbn [ra_base]. split; [lia|].
  repeat match goal with H : inputs _ = _ |- _ => rewrite H | H : outputs _ = _ |- _ => rewrite H end.
  split_and!; [by simplify_eq| |eauto 10].
  cbn [map]. f_equal. match goal with H : numeric_value (BigInt 0) _, H' : sequence _ = _ |- _ => by destruct H as [-> _] end.
Qed.
End Artifacts.

(** ** A channel opened, charged, extended and refunded *)

Module SampleArtifacts.

Definition keyed (key input : bytes) : bytes := toy_sha256 (key ++ input).
Definition text_of (r : result string) : string := match r with Ok s => s | Throw _ => "" end.
Definition p2sh (redeem : string) : string :=
  text_of (spk ← payToScriptHashScript toy_sha256 redeem; serializedScriptPublicKey spk).
Definition p2pk (byte : string) : string := "000020" +:+ String.concat "" (repeat byte 32) +:+ "ac".
Definition hash_of_script (serialized : string) : string :=
  text_of (spk ← parseSerializedScriptPublicKey serialized ""; escrowScriptPubKeyHash toy_sha256 toy_sha256 (inr spk)).
Definition hash32 (byte : string) : string := String.concat "" (repeat byte 32).
Definition signature (n : nat) : hex_or_bytes := Raw (repeat (byte_of 7) n).
Definition no_options : TxV1Options := {| o_mass := None; o_subnetworkId := None; o_gas := None; o_payload := None |}.
Definition funding (amount : Z) : TxV1FundingInputPlan :=
  {| fi_previousOutpoint := Outpoint (hash32 "AB") 3; fi_amount := Text (toString amount); fi_scriptPublicKey := p2pk "01";
     fi_signature := signature 64; fi_sighashType := None; fi_sequence := None; fi_computeBudget := 10 |}.

Definition genesis_input : BatchGenesisTxV1Input :=
  {| g_fundingInputs := [funding 700000000; funding 300002000]; g_escrowAmount := Text "1000000000";
     g_escrowScriptPublicKey := p2sh "51"; g_escrowRedeemScript := "51"; g_initialClaimedCumulativeAmount := Number 0;
     g_changeOutputs := None; g_fee := Number 2000; g_lockTime := None; g_options := no_options |}.
Definition claim_input : BatchClaimTxV1Input :=
  {| c_network := "kaspa:testnet-10"; c_activeOutpoint := Outpoint (hash32 "01") 0; c_activeAmount := Text "1000000000";
     c_activeScriptPublicKey := p2sh "51"; c_activeRedeemScript := "51"; c_covenantId := hash32 "Ee";
     c_claimedCumulativeAmount := Text "100"; c_authorizedCumulativeAmount := Text "900000"; c_claimAmount := Number 500000;
     c_successorScriptPublicKey := p2sh "52"; c_successorRedeemScript := "52"; c_serverOutputScriptPublicKey := p2pk "02";
     c_expectedPayoutScriptPublicKeyHash := hash_of_script (p2pk "02"); c_fee := Number 2000;
     c_serverSignature := signature 65; c_voucherSignature := signature 64; c_computeBudget := 2; c_scriptUnitsEstimate := 20000;
     c_sequence := None; c_lockTime := None; c_options := no_options; c_outputs := None |}.
Definition top_up_input : BatchTopUpTxV1Input :=
  {| t_activeOutpoint := Outpoint (hash32 "01") 0; t_activeAmount := Text "1000000000";
     t_activeScriptPublicKey := p2sh "51"; t_activeRedeemScript := "51"; t_covenantId := hash32 "ee";
     t_claimedCumulativeAmount := Text "100"; t_successorAmount := Number 1500000000;
     t_successorScriptPublicKey := p2sh "51"; t_successorRedeemScript := "51";
     t_clientSignature := signature 65; t_providerSignature := signature 65; t_fundingInputs := [funding 800000000];
     t_changeOutputs := Some [{| op_amount := Number 299998000; op_scriptPublicKey := p2pk "01"; op_covenant := None |}];
     t_expectedRefundScriptPublicKeyHash := hash_of_script (p2pk "01"); t_fee := Number 2000;
     t_computeBudget := 0; t_scriptUnitsEstimate := 9999; t_sequence := None; t_lockTime := None; t_options := no_options;
     t_outputs := None |}.
Definition refund_input : BatchRefundTxV1Input :=
  {| r_activeOutpoint := Outpoint (hash32 "01") 0; r_activeAmount := Text "1000000000";
     r_activeScriptPublicKey := p2sh "51"; r_activeRedeemScript := "51"; r_covenantId := hash32 "ee";
     r_refundOutputScriptPublicKey := p2pk "01"; r_expectedRefundScriptPublicKeyHash := hash_of_script (p2pk "01");
     r_fee := Number 2000; r_clientSignature := signature 65; r_timeoutDaa := Text "1000"; r_lockTimeDaa := Number 1200;
     r_inputSequence := Number 0; r_computeBudget := 0; r_scriptUnitsEstimate := 0; r_options := no_options; r_outputs := None |}.
Definition genesis := buildBatchGenesisTxV1Artifact toy_sha256 keyed keyed genesis_input.
Definition claim := buildBatchClaimTxV1Artifact toy_sha256 toy_sha256 keyed keyed claim_input.
Definition top_up := buildBatchTopUpTxV1Artifact toy_sha256 toy_sha256 keyed keyed top_up_input.
Definition refund := buildBatchRefundTxV1Artifact toy_sha256 toy_sha256 keyed keyed refund_input.
Definition lane : Lane.t := Lane.Make 1000000000 600000 100 900000.

Lemma artifacts_conserve_value_witness :
  exists art, top_up = Ok art /\ exists n, ta_fee art = toString n /\
    balanced TopUp (transaction (ta_base art)) n (co_covenantId (ta_continuation art)).
Proof.
  destruct (is_ok_value top_up ltac:(vm_compute; reflexivity)) as [art E]. exists art. split; [exact E|].
  exact (artifacts_conserve_value toy_sha256 toy_sha256 keyed keyed _ _ _ _ (built_top_up _ _ _ _ _ _ E)).
Defined.
Lemma artifact_transactions_sound_witness :
  exists art, genesis = Ok art /\ sound_transaction keyed keyed (ga_base art).
Proof.
  destruct (is_ok_value genesis ltac:(vm_compute; reflexivity)) as [art E]. exists art. split; [exact E|].
  exact (artifact_transactions_sound toy_sha256 toy_sha256 keyed keyed _ _ _ _ (built_genesis _ _ _ _ _ _ E)).
Defined.
Lemma claim_artifact_refines_lane_witness :
  exists art, claim = Ok art /\ co_amount (cl_continuation art) = "999500000" /\
    co_claimedCumulativeAmount (cl_continuation art) = "500100".
Proof.
  destruct (is_ok_value claim ltac:(vm_compute; reflexivity)) as [art E]. exists art. split; [exact E|].
  destruct (claim_artifact_refines_lane toy_sha256 toy_sha256 keyed keyed lane 500000 claim_input art) as (H1 & H2 & _);
    [vm_compute; intuition congruence|split; vm_compute; intuition congruence..|exact E|].
  rewrite H1, H2. vm_compute. split; reflexivity.
Defined.
Lemma refund_artifact_locked_witness :
  exists art, refund = Ok art /\ exists lock, numeric_value (Number 1200) lock /\
    lockTime (transaction (ra_base art)) = toString lock.
Proof.
  destruct (is_ok_value refund ltac:(vm_compute; reflexivity)) as [art E]. exists art. split; [exact E|].
  destruct (refund_artifact_locked toy_sha256 toy_sha256 keyed keyed refund_input art E)
    as (t & l & f & a & _ & H & _ & _ & _ & H' & _). exists l. split; assumption.
Defined.

End SampleArtifacts.
