(* ===== verification/TxV1Commitments.v ===== *)
(** * What transaction hashes commit to

    The byte writers of [protocol/packages/covenant/src/tx-v1.ts] are prefix-free, so a
    serialization determines the transaction, an id determines what it hashes, and a signature
    hash determines what the signer agreed to, unless a keyed hash fails on the byte strings
    that the two transactions hash. *)

From S2P Require Import Prelude Amount BatchLane Json Binary ChainTruth Template HashChain TxV1 TxV1Artifacts.

(** ** Prefix-free writers *)

(** What a writer put in front of any rest can be read back as [view]. *)
Definition delimits {A V} (P : A -> Prop) (w : A -> result bytes) (view : A -> V) : Prop :=
  forall a a' b b' r r', P a -> P a' -> w a = Ok b -> w a' = Ok b' -> b ++ r = b' ++ r' -> view a = view a' /\ r = r'.

Lemma puts_cons p ps b : puts (p :: ps) = Ok b <-> exists b1 b2, p = Ok b1 /\ puts ps = Ok b2 /\ b = b1 ++ b2.
Proof.
  cbn [puts]. rewrite bind_ok. split.
  - intros (b1 & H1 & H). inv_ok. eauto.
  - intros (b1 & b2 & -> & -> & ->). by exists b1.
Qed.
Lemma puts_nil b : puts [] = Ok b <-> b = [].
Proof. cbn. naive_solver. Qed.

(** Writers one after the other *)
Lemma delimits_nil {A} (P : A -> Prop) : delimits P (fun _ => puts []) (fun _ => ()).
Proof. intros a a' b b' r r' _ _ [= <-] [= <-] E. done. Qed.
Lemma delimits_cons {A V W} (P : A -> Prop) (w : A -> result bytes) ws (view : A -> V) (views : A -> W) :
  delimits P w view -> delimits P (fun a => puts (ws a)) views ->
  delimits P (fun a => puts (w a :: ws a)) (fun a => (view a, views a)).
Proof.
  intros Hw Hs a a' b b' r r' Ha Ha' (b1 & b2 & H1 & H2 & ->)%puts_cons (b1' & b2' & H1' & H2' & ->)%puts_cons E.
  rewrite <- !app_assoc in E. destruct (Hw _ _ _ _ _ _ Ha Ha' H1 H1' E) as [-> E2].
  by destruct (Hs _ _ _ _ _ _ Ha Ha' H2 H2' E2) as [-> ->].
Qed.
(** A writer reads a part of its argument. *)
Lemma delimits_part {A B V} (Q : B -> Prop) (P : A -> Prop) (w : B -> result bytes) (f : A -> B) (view : B -> V) :
  delimits Q w view -> (forall a, P a -> Q (f a)) -> delimits P (fun a => w (f a)) (fun a => view (f a)).
Proof. intros Hw HP a a' b b' r r' Ha Ha'. apply Hw; auto. Qed.
Lemma delimits_view {A V W} (P : A -> Prop) (w : A -> result bytes) (view : A -> V) (view' : A -> W) :
  delimits P w view -> (forall a a', P a -> P a' -> view a = view a' -> view' a = view' a') -> delimits P w view'.
Proof. intros Hw Hv a a' b b' r r' Ha Ha' H H' E. destruct (Hw _ _ _ _ _ _ Ha Ha' H H' E). auto. Qed.
(** The same number of items, one after the other *)
Lemma delimits_map {A V} (P : A -> Prop) (w : A -> result bytes) (view : A -> V) : delimits P w view ->
  forall l l' b b' r r', length l = length l' -> Forall P l -> Forall P l' ->
  puts (map w l) = Ok b -> puts (map w l') = Ok b' -> b ++ r = b' ++ r' -> map view l = map view l' /\ r = r'.
Proof.
  intros Hw l. induction l as [|x l IH]; intros [|y l'] b b' r r' Hn Hl Hl' H H' E; try done.
  { cbn in H, H'. by simplify_eq. }
  cbn [map] in *. apply puts_cons in H as (b1 & b2 & H1 & H2 & ->). apply puts_cons in H' as (b1' & b2' & H1' & H2' & ->).
  apply Forall_cons in Hl as [? ?]. apply Forall_cons in Hl' as [? ?]. rewrite <- !app_assoc in E.
  destruct (Hw x y _ _ _ _ ltac:(done) ltac:(done) H1 H1' E) as [-> E2].
  destruct (IH l' _ _ _ _ ltac:(by injection Hn) ltac:(done) ltac:(done) H2 H2' E2) as [-> ->]. done.
Qed.

(** *** Integers *)

Definition any {A} (_ : A) : Prop := True.
Lemma fixed_width {A} (n : nat) (w : A -> result bytes) (value : A -> Z) :
  (forall a b, w a = Ok b -> b = little_endian n (value a) /\ 0 <= value a < 256 ^ Z.of_nat n) -> delimits any w value.
Proof.
  intros Hw a a' b b' r r' _ _ [-> Hb]%Hw [-> Hb']%Hw E. apply app_inj_1 in E as [E ->].
  - by apply little_endian_inj in E.
  - by rewrite !little_endian_length.
Qed.
Lemma put_u16_le n b : put_u16 n = Ok b -> b = little_endian 2 n /\ 0 <= n < 256 ^ Z.of_nat 2.
Proof.
  unfold put_u16, normalizeUint16. intros H. inv_ok. split; [|unfold U16_MAX in *; lia].
  unfold bytes_of. cbn [map little_endian]. change 255 with (Z.ones 8). rewrite !Z.land_ones, !Z.shiftr_div_pow2 by lia. done.
Qed.
Lemma put_u32_le n b : put_u32 n = Ok b -> b = little_endian 4 n /\ 0 <= n < 256 ^ Z.of_nat 4.
Proof.
  unfold put_u32, normalizeUint32. intros H. inv_ok. split; [|unfold U32_MAX in *; lia].
  unfold bytes_of. cbn [map little_endian]. change 255 with (Z.ones 8). rewrite !Z.land_ones, !Z.shiftr_div_pow2 by lia.
  by rewrite !Z.div_div by lia.
Qed.
Lemma put_u8_le n b : put_u8 n = Ok b -> b = little_endian 1 n /\ 0 <= n < 256 ^ Z.of_nat 1.
Proof.
  unfold put_u8. intros H. inv_ok. split; [|lia]. unfold bytes_of. cbn [map little_endian]. by rewrite Z.mod_small by lia.
Qed.
Lemma u16_delimits : delimits any put_u16 id.
Proof. apply (fixed_width 2). apply put_u16_le. Qed.
Lemma u32_delimits : delimits any put_u32 id.
Proof. apply (fixed_width 4). apply put_u32_le. Qed.
Lemma u8_delimits : delimits any put_u8 id.
Proof. apply (fixed_width 1). apply put_u8_le. Qed.
Lemma put_u64_le v b : put_u64 v = Ok b -> exists n, numeric_value v n /\ b = little_endian 8 n /\ 0 <= n < 256 ^ Z.of_nat 8.
Proof.
  unfold put_u64. intros (n & Hn%tx_u64_ok & H%Ok_inj)%bind_ok. exists n. split; [done|]. split; [done|].
  apply numeric_bounds in Hn. unfold U64_MAX in Hn. lia.
Qed.
Lemma text_delimits : delimits any (fun s => put_u64 (Text s)) id.
Proof.
  intros s s' b b' r r' _ _ (n & [-> _] & -> & ?)%put_u64_le (n' & [-> _] & -> & ?)%put_u64_le E.
  apply app_inj_1 in E as [E ->]; [|by rewrite !little_endian_length]. by apply little_endian_inj in E as ->.
Qed.
Lemma len_delimits {A} : delimits any (@put_len A) length.
Proof.
  intros l l' b b' r r' _ _ (n & [-> _] & -> & ?)%put_u64_le (n' & [-> _] & -> & ?)%put_u64_le E.
  apply app_inj_1 in E as [E ->]; [|by rewrite !little_endian_length]. apply little_endian_inj in E; [split; [lia|done]|done..].
Qed.

(** *** Hexadecimal text *)

(** Text as [bytesToHex] writes it, of any or of a fixed number of bytes *)
Definition canonical_hex (s : string) : Prop := exists b, s = bytesToHex b.
Definition sized (n : nat) (s : string) : Prop := exists b, s = bytesToHex b /\ length b = n.
Lemma sized_canonical n s : sized n s -> canonical_hex s.
Proof. intros (b & -> & _). by exists b. Qed.
Lemma bytes_delimits n : delimits (sized n) put_bytes id.
Proof.
  intros s s' b b' r r' (x & -> & Hx) (x' & -> & Hx') H H' E. unfold put_bytes in *.
  rewrite hex_of_bytes in H, H' by done. simplify_eq. by apply app_inj_1 in E as [-> ->]; [|congruence].
Qed.
Lemma var_delimits : delimits canonical_hex put_var id.
Proof.
  intros s s' b b' r r' (x & ->) (x' & ->) H H' E. unfold put_var in *. rewrite hex_of_bytes in H, H' by done.
  cbn [mbind result_bind] in *. inv_ok. rewrite <- !app_assoc in E.
  match goal with H : put_len x = Ok _, H' : put_len x' = Ok _ |- _ => destruct (len_delimits _ _ _ _ _ _ I I H H' E) as [Hl E2] end.
  by apply app_inj_1 in E2 as [-> ->].
Qed.

(** *** Inputs, outputs and transactions *)

Lemma delimits_ext {A V} (P : A -> Prop) (w w' : A -> result bytes) (view : A -> V) :
  (forall a, P a -> w a = w' a) -> delimits P w' view -> delimits P w view.
Proof. intros Hw H a a' b b' r r' Ha Ha'. rewrite !Hw by done. by apply H. Qed.
(** A write that is skipped *)
Lemma delimits_skip {A} (P : A -> Prop) : delimits P (fun _ => Ok []) (fun _ => ()).
Proof. apply delimits_nil. Qed.
(** A counted list in front of other writes *)
Lemma delimits_list {A B V W} (Q : B -> Prop) (P : A -> Prop) (w : B -> result bytes) (view : B -> V) (f : A -> list B) ws (views : A -> W) :
  delimits Q w view -> (forall a, P a -> Forall Q (f a)) -> delimits P (fun a => puts (ws a)) views ->
  delimits P (fun a => puts (put_len (f a) :: puts (map w (f a)) :: ws a)) (fun a => (map view (f a), views a)).
Proof.
  intros Hw HP Hs a a' b b' r r' Ha Ha' (n & b1 & H1 & (l & b2 & H2 & H3 & ->)%puts_cons & ->)%puts_cons
    (n' & b1' & H1' & (l' & b2' & H2' & H3' & ->)%puts_cons & ->)%puts_cons E.
  rewrite <- !app_assoc in E. destruct (len_delimits _ _ _ _ _ _ I I H1 H1' E) as [Hn E2].
  destruct (delimits_map _ _ _ Hw _ _ _ _ _ _ Hn (HP _ Ha) (HP _ Ha') H2 H2' E2) as [-> E3].
  by destruct (Hs _ _ _ _ _ _ Ha Ha' H3 H3' E3) as [-> ->].
Qed.

#[local] Hint Resolve text_delimits u16_delimits u32_delimits u8_delimits var_delimits bytes_delimits : delimits.
(** Splits a sequence of writes; each write is one of the known ones on a part of the argument. *)
Ltac delimit := repeat first
  [ apply delimits_nil
  | eapply delimits_cons
  | solve [eapply delimits_part; [eauto with delimits|unfold any; try naive_solver]] ].

Lemma outpoint_delimits : delimits (fun o => sized 32 (txid o)) writeOutpoint id.
Proof. eapply delimits_view; [unfold writeOutpoint; delimit|]. intros [] [] _ _ [=]. unfold id in *. by simplify_eq. Qed.
Lemma script_public_key_delimits : delimits (fun k => canonical_hex (spk_script k)) writeScriptPublicKey id.
Proof. eapply delimits_view; [unfold writeScriptPublicKey; delimit|]. intros [] [] _ _ [=]. unfold id in *. by simplify_eq. Qed.
Lemma covenant_delimits : delimits (fun c => sized 32 (cb_covenantId c)) writeCovenant id.
Proof. eapply delimits_view; [unfold writeCovenant; delimit|]. intros [] [] _ _ [=]. unfold id in *. by simplify_eq. Qed.

(** A serialized script public key is its big-endian version followed by its script. *)
Lemma parse_script_ok b lbl spk : parseSerializedScriptPublicKey (bytesToHex b) lbl = Ok spk ->
  exists hi lo script, b = hi :: lo :: script /\ spk = {| spk_version := code hi * 256 + code lo; spk_script := bytesToHex script |}.
Proof.
  unfold parseSerializedScriptPublicKey. rewrite hex_of_bytes by done. cbn [mbind result_bind].
  destruct b as [|hi [|lo script]]; [done|done|]. intros [= <-]. rewrite lor_shift by apply code_range. eauto 10.
Qed.
Lemma serialized_script_delimits lbl :
  delimits canonical_hex (fun s => spk ← parseSerializedScriptPublicKey s lbl; writeScriptPublicKey spk) id.
Proof.
  intros s s' b b' r r' (x & ->) (x' & ->) (k & Hk & H)%bind_ok (k' & Hk' & H')%bind_ok E.
  apply parse_script_ok in Hk as (hi & lo & script & -> & ->). apply parse_script_ok in Hk' as (hi' & lo' & script' & -> & ->).
  destruct (fun Ha Ha' => script_public_key_delimits _ _ _ _ _ _ Ha Ha' H H' E) as [Ek ->]; [by eexists..|].
  unfold id in *. injection Ek as Ev Es. apply bytesToHex_inj in Es as ->. split; [|done].
  pose proof (code_range hi). pose proof (code_range lo). pose proof (code_range hi'). pose proof (code_range lo').
  assert (hi = hi') as -> by (apply code_inj; lia). by assert (lo = lo') as -> by (apply code_inj; lia).
Qed.

(** Transactions as the builders write them: lower-case text, fixed-width ids, version 1 *)
Record canonical_input (i : TxV1ReferenceInput) : Prop := {
  ci_outpoint : sized 32 (txid (previousOutpoint i));
  ci_signatureScript : canonical_hex (in_signatureScript i);
  ci_scriptPublicKey : canonical_hex (utxo_scriptPublicKey i)
}.
Record canonical_output (o : TxV1ReferenceOutput) : Prop := {
  co_script : canonical_hex (out_scriptPublicKey o);
  co_covenant : forall c, covenant o = Some c -> sized 32 (cb_covenantId c)
}.
Record canonical_transaction (t : TxV1ReferenceTransaction) : Prop := {
  ct_version : version t = 1;
  ct_inputs : Forall canonical_input (inputs t);
  ct_outputs : Forall canonical_output (outputs t);
  ct_subnetworkId : sized 20 (subnetworkId t);
  ct_payload : canonical_hex (payload t)
}.
#[local] Hint Resolve ci_outpoint ci_signatureScript ci_scriptPublicKey co_script co_covenant ct_version ct_inputs ct_outputs
  ct_subnetworkId ct_payload outpoint_delimits serialized_script_delimits : delimits.

Lemma binding_delimits :
  delimits (fun o => forall c, o = Some c -> sized 32 (cb_covenantId c))
    (fun o => puts [put_bool (isSome o); match o with Some c => writeCovenant c | None => Ok [] end]) id.
Proof.
  intros o o' b b' r r' Ho Ho' (c & d & H1 & (e & f & H2 & Hf%puts_nil & ->)%puts_cons & ->)%puts_cons
    (c' & d' & H1' & (e' & f' & H2' & Hf'%puts_nil & ->)%puts_cons & ->)%puts_cons E.
  subst. rewrite !app_nil_r, <- !app_assoc in E.
  destruct (u8_delimits _ _ _ _ _ _ I I H1 H1' E) as [Es E2]. destruct o, o'; try discriminate Es.
  - destruct (covenant_delimits _ _ _ _ _ _ (Ho _ eq_refl) (Ho' _ eq_refl) H2 H2' E2) as [Ec ->]. unfold id in *. by subst.
  - by simplify_eq.
Qed.
Lemma output_delimits : delimits canonical_output (writeOutput 1) id.
Proof.
  eapply delimits_view; [unfold writeOutput; cbn [Z.leb Z.compare Pos.compare Pos.compare_cont]|].
  - eapply delimits_cons; [apply (delimits_part any _ _ out_amount _ text_delimits); done|].
    eapply delimits_cons; [apply (delimits_part _ _ _ out_scriptPublicKey _ (serialized_script_delimits _)), co_script|].
    eapply delimits_cons; [apply (delimits_part _ _ _ covenant _ binding_delimits), co_covenant|]. apply delimits_nil.
  - intros [] [] _ _ [=]. unfold id in *. by simplify_eq.
Qed.

(** What the flags leave of an input and of a transaction *)
Definition input_view (flags : WriteFlags) (i : TxV1ReferenceInput) :=
  (previousOutpoint i, if f_signatureScript flags then in_signatureScript i else "", sequence i,
   if f_computeBudget flags then computeBudget i else 0).
Definition transaction_view (flags : WriteFlags) (t : TxV1ReferenceTransaction) :=
  (map (input_view flags) (inputs t), outputs t, lockTime t, subnetworkId t, gas t,
   if f_payload flags then payload t else "", if f_mass flags then mass t else "").

Lemma var_if_delimits {A} (P : A -> Prop) (flag : bool) (f : A -> string) : (forall a, P a -> canonical_hex (f a)) ->
  delimits P (fun a => put_var (if flag then f a else "")) (fun a => if flag then f a else "").
Proof.
  intros HP. apply (delimits_part canonical_hex P put_var (fun a => if flag then f a else "") id var_delimits).
  intros a Ha. destruct flag; [auto|]. by exists [].
Qed.
Lemma input_delimits flags : delimits canonical_input (writeInput flags) (input_view flags).
Proof.
  eapply delimits_view; [unfold writeInput|].
  - eapply delimits_cons; [apply (delimits_part _ _ _ previousOutpoint _ outpoint_delimits), ci_outpoint|].
    eapply delimits_cons; [apply var_if_delimits, ci_signatureScript|].
    eapply delimits_cons; [apply (delimits_part any _ _ sequence _ text_delimits); done|].
    eapply delimits_cons with (view := fun i : TxV1ReferenceInput => if f_computeBudget flags then computeBudget i else 0); [|apply delimits_nil].
    destruct (f_computeBudget flags); [by apply (delimits_part any _ _ computeBudget _ u16_delimits)|].
    intros i i' b b' r r' _ _ [= <-] [= <-] E. done.
  - intros i i' _ _ [=]. unfold input_view, id in *. congruence.
Qed.
Lemma transaction_delimits flags :
  delimits canonical_transaction (fun t => writeTransaction t flags) (transaction_view flags).
Proof.
  eapply delimits_view; [eapply delimits_ext with (w' := fun t : TxV1ReferenceTransaction => puts _); [intros t Ht; unfold writeTransaction; rewrite (ct_version _ Ht); reflexivity|]|].
  - eapply delimits_cons; [apply (delimits_part any _ _ (fun _ => 1) _ u16_delimits); done|].
    eapply (delimits_list canonical_input _ _ _ inputs _ _ (input_delimits flags) ct_inputs).
    eapply (delimits_list canonical_output _ _ _ outputs _ _ output_delimits ct_outputs).
    eapply delimits_cons; [apply (delimits_part any _ _ lockTime _ text_delimits); done|].
    eapply delimits_cons; [apply (delimits_part _ _ _ subnetworkId _ (bytes_delimits 20)), ct_subnetworkId|].
    eapply delimits_cons; [apply (delimits_part any _ _ gas _ text_delimits); done|].
    eapply delimits_cons; [apply var_if_delimits, ct_payload|].
    eapply delimits_cons with (view := fun t : TxV1ReferenceTransaction => if f_mass flags then mass t else ""); [|apply delimits_nil].
    destruct (f_mass flags); [by apply (delimits_part any _ _ mass _ text_delimits)|].
    intros t t' b b' r r' _ _ [= <-] [= <-] E. done.
  - intros t t' _ _ [=]. unfold transaction_view, id in *. rewrite !map_id in *. congruence.
Qed.
Lemma transaction_bytes t t' flags b :
  canonical_transaction t -> canonical_transaction t' -> writeTransaction t flags = Ok b -> writeTransaction t' flags = Ok b ->
  transaction_view flags t = transaction_view flags t'.
Proof. intros Ht Ht' H H'. by destruct (transaction_delimits flags t t' b b [] [] Ht Ht' H H' eq_refl). Qed.

(** ** What the builders return is canonical *)

Lemma hex_ok h lbl h' : normalizeHex h lbl = Ok h' -> canonical_hex h'.
Proof. unfold normalizeHex. intros (b & _ & [= <-])%bind_ok. by exists b. Qed.
Lemma script_ok s lbl s' : normalizeSerializedScriptPublicKey s lbl = Ok s' -> canonical_hex s'.
Proof. unfold normalizeSerializedScriptPublicKey. intros H. inv_ok. eexists. done. Qed.
Lemma nonzero_hash_sized h lbl h' : normalizeNonzeroHash32 h lbl = Ok h' -> sized 32 h'.
Proof. unfold normalizeNonzeroHash32. intros H. inv_ok. eapply hash32_ok. eassumption. Qed.
Lemma reference_input_canonical o a spk script seq budget c i :
  buildReferenceInput o a spk script seq budget c = Ok i -> canonical_input i.
Proof.
  unfold buildReferenceInput, normalizeOutpoint. intros H. inv_ok.
  constructor; cbn [previousOutpoint txid in_signatureScript utxo_scriptPublicKey].
  - eapply hash32_ok. eassumption.
  - eapply hex_ok. eassumption.
  - eapply script_ok. eassumption.
Qed.
Lemma funding_canonical l k l' : map_indexed normalizeFundingInput k l = Ok l' -> Forall canonical_input l'.
Proof.
  intros H. eapply map_indexed_forall; [|exact H]. clear. intros k x y H. unfold normalizeFundingInput in H. inv_ok.
  eapply reference_input_canonical. eassumption.
Qed.
Lemma outputs_canonical l l' : normalizeOutputs l = Ok l' -> Forall canonical_output l'.
Proof.
  intros H. unfold normalizeOutputs in H. eapply map_indexed_forall; [|exact H]. clear. cbn. intros k x y H. inv_ok.
  constructor; cbn [out_scriptPublicKey covenant].
  - eapply script_ok. eassumption.
  - intros c ->. unfold normalizeCovenant in *. destruct (op_covenant x); inv_ok; simplify_eq; cbn.
    eapply nonzero_hash_sized. eassumption.
Qed.

Section Canonical.
Context (sha256 blake2b : bytes -> bytes) (blake2b_keyed blake3_keyed : bytes -> bytes -> bytes).
(** The output length asked of BLAKE2b *)
Hypothesis blake2b_length : forall key input, length (blake2b_keyed key input) = 32%nat.
Local Abbreviation built := (built sha256 blake2b blake2b_keyed blake3_keyed).

Lemma finish_canonical ins outs lock options base :
  finish blake2b_keyed blake3_keyed ins outs lock options = Ok base ->
  Forall canonical_input ins -> Forall canonical_output outs -> canonical_transaction (transaction base).
Proof.
  intros H Hi Ho. pose proof H as Hf. apply finish_ok in Hf as (Ei & Eo & _ & Ev & En & _).
  constructor; [done|by rewrite Ei|by rewrite Eo|rewrite En; exists (repeat (byte_of 0) 20); split; vm_compute; reflexivity|].
  clear Ei Eo En Ev Hi Ho. unfold finish, buildTransaction in H. inv_ok. subst. cbn. eapply hex_ok. eassumption.
Qed.
Lemma covenant_id_sized o l id : transactionV1CovenantId blake2b_keyed o l = Ok id -> sized 32 id.
Proof.
  unfold transactionV1CovenantId. intros H. inv_ok. repeat (case_match; inv_ok). all: eexists; split; [reflexivity|apply blake2b_length].
Qed.
Lemma built_canonical k base fee id : built k base fee id -> canonical_transaction (transaction base).
Proof.
  intros [input art H|input art H|input art H|input art H].
  - unfold buildBatchGenesisTxV1Artifact in H. inv_ok. eapply finish_canonical; [eassumption|by eapply funding_canonical|].
    constructor; [constructor; cbn; [by eapply script_ok|]|done]. intros c [= <-]. by eapply covenant_id_sized.
  - unfold buildBatchClaimTxV1Artifact in H. inv_ok. eapply finish_canonical; [eassumption| |by eapply outputs_canonical].
    constructor; [by eapply reference_input_canonical|done].
  - unfold buildBatchTopUpTxV1Artifact in H. inv_ok. eapply finish_canonical; [eassumption| |by eapply outputs_canonical].
    constructor; [by eapply reference_input_canonical|by eapply funding_canonical].
  - unfold buildBatchRefundTxV1Artifact in H. inv_ok. eapply finish_canonical; [eassumption| |by eapply outputs_canonical].
    constructor; [by eapply reference_input_canonical|done].
Qed.
End Canonical.

(** ** Commitments *)

(** A list of nonempty writes determines its items without a count. *)
Lemma delimits_all {A V} (P : A -> Prop) (w : A -> result bytes) (view : A -> V) : delimits P w view ->
  (forall a, w a <> Ok []) -> forall l l' b, Forall P l -> Forall P l' ->
  puts (map w l) = Ok b -> puts (map w l') = Ok b -> map view l = map view l'.
Proof.
  intros Hw Hn l. induction l as [|x l IH]; intros [|y l'] b Hl Hl' H H'; try done; cbn [map] in *.
  - apply puts_nil in H as ->. apply puts_cons in H' as (b1 & b2 & H1 & _ & E). symmetry in E.
    apply app_eq_nil in E as [-> _]. by destruct (Hn y).
  - apply puts_nil in H' as ->. apply puts_cons in H as (b1 & b2 & H1 & _ & E). symmetry in E.
    apply app_eq_nil in E as [-> _]. by destruct (Hn x).
  - apply puts_cons in H as (b1 & b2 & H1 & H2 & E). apply puts_cons in H' as (b1' & b2' & H1' & H2' & E'). subst.
    apply Forall_cons in Hl as [? ?]. apply Forall_cons in Hl' as [? ?]. symmetry in E'.
    destruct (Hw x y _ _ _ _ ltac:(done) ltac:(done) H1 H1' (eq_sym E')) as [-> ->]. f_equal. by eapply IH.
Qed.
Lemma put_u64_nonempty v : put_u64 v <> Ok [].
Proof. intros (n & _ & E & _)%put_u64_le. by apply (f_equal length) in E; rewrite little_endian_length in E. Qed.
Lemma outpoint_nonempty o : writeOutpoint o <> Ok [].
Proof.
  unfold writeOutpoint. intros (b1 & b2 & _ & (b3 & b4 & [H _]%put_u32_le & _ & ->)%puts_cons & E)%puts_cons.
  apply (f_equal length) in E. rewrite !length_app, H, little_endian_length in E. cbn in E. lia.
Qed.
Lemma output_nonempty v o : writeOutput v o <> Ok [].
Proof.
  unfold writeOutput. intros (b1 & b2 & H & _ & E)%puts_cons. symmetry in E. apply app_eq_nil in E as [-> _].
  by apply put_u64_nonempty in H.
Qed.

Section Commitments.
Context (sha256 blake2b : bytes -> bytes) (blake2b_keyed blake3_keyed : bytes -> bytes -> bytes).
Hypothesis blake2b_length : forall key input, length (blake2b_keyed key input) = 32%nat.
Local Abbreviation signing_hash := (signing_hash blake2b_keyed).

(** ** Failures of a hash on given inputs

    A hash into 32 bytes always has collisions somewhere; what is excluded here is that the
    byte strings two transactions hash in the same role collide. *)
Definition collide (p q : result bytes) : Prop :=
  exists x y, p = Ok x /\ q = Ok y /\ x <> y /\ signing_hash x = signing_hash y.
Definition hashes_to_zero (p : result bytes) : Prop := exists x, p = Ok x /\ signing_hash x = ZERO_HASH.
Lemma same_or_collide (p q : result bytes) h :
  (b ← p; Ok (signing_hash b)) = Ok h -> (b ← q; Ok (signing_hash b)) = Ok h ->
  (exists b, p = Ok b /\ q = Ok b) \/ collide p q.
Proof.
  intros (x & -> & E%Ok_inj)%bind_ok (y & -> & E'%Ok_inj)%bind_ok. destruct (decide (x = y)) as [->|]; [left; eauto|].
  right. exists x, y. split_and!; congruence.
Qed.

Lemma signing_hash_sized x : sized 32 (signing_hash x).
Proof. eexists. split; [reflexivity|]. apply blake2b_length. Qed.
Lemma zero_sized : sized 32 ZERO_HASH.
Proof. exists (repeat (byte_of 0) 32). split; vm_compute; reflexivity. Qed.

(** The byte strings behind the four hashes in a preimage *)
Definition previous_outputs_bytes (t : TxV1ReferenceTransaction) : result bytes :=
  puts (map (fun i => writeOutpoint (previousOutpoint i)) (inputs t)).
Definition sequences_bytes (t : TxV1ReferenceTransaction) : result bytes :=
  puts (map (fun i => put_u64 (Text (sequence i))) (inputs t)).
Definition outputs_bytes (t : TxV1ReferenceTransaction) : result bytes :=
  puts (map (writeOutput (version t)) (outputs t)).

Lemma previous_outputs_commit t t' h : canonical_transaction t -> canonical_transaction t' ->
  hashPreviousOutputs blake2b_keyed t = Ok h -> hashPreviousOutputs blake2b_keyed t' = Ok h ->
  map previousOutpoint (inputs t) = map previousOutpoint (inputs t') \/
  collide (previous_outputs_bytes t) (previous_outputs_bytes t').
Proof.
  intros [_ Ht _ _ _] [_ Ht' _ _ _] H H'. destruct (same_or_collide _ _ _ H H') as [(b & Hb & Hb')|]; [left|by right].
  eapply (delimits_all canonical_input (fun i => writeOutpoint (previousOutpoint i)) previousOutpoint); try eassumption.
  - apply (delimits_part _ _ _ previousOutpoint _ outpoint_delimits), ci_outpoint.
  - intros a. apply outpoint_nonempty.
Qed.
Lemma sequences_commit t t' h :
  hashSequences blake2b_keyed t = Ok h -> hashSequences blake2b_keyed t' = Ok h ->
  map sequence (inputs t) = map sequence (inputs t') \/ collide (sequences_bytes t) (sequences_bytes t').
Proof.
  intros H H'. destruct (same_or_collide _ _ _ H H') as [(b & Hb & Hb')|]; [left|by right].
  eapply (delimits_all any (fun i => put_u64 (Text (sequence i))) sequence); try eassumption; try by apply Forall_true.
  - by apply (delimits_part any any _ sequence _ text_delimits).
  - intros a. apply put_u64_nonempty.
Qed.
Lemma outputs_commit t t' h : canonical_transaction t -> canonical_transaction t' ->
  hashOutputs blake2b_keyed t = Ok h -> hashOutputs blake2b_keyed t' = Ok h ->
  outputs t = outputs t' \/ collide (outputs_bytes t) (outputs_bytes t').
Proof.
  intros [Hv _ Ht _ _] [Hv' _ Ht' _ _] H H'. destruct (same_or_collide _ _ _ H H') as [(b & Hb & Hb')|]; [left|by right].
  rewrite Hv in Hb. rewrite Hv' in Hb'. rewrite <- (map_id (outputs t)), <- (map_id (outputs t')).
  eapply (delimits_all canonical_output (writeOutput 1) id output_delimits); try eassumption. apply output_nonempty.
Qed.
Lemma single_output_commit t t' o o' h : canonical_transaction t -> canonical_transaction t' ->
  o ∈ outputs t -> o' ∈ outputs t' ->
  hashSingleOutput blake2b_keyed t o = Ok h -> hashSingleOutput blake2b_keyed t' o' = Ok h ->
  o = o' \/ collide (writeOutput (version t) o) (writeOutput (version t') o').
Proof.
  intros [Hv _ Ht _ _] [Hv' _ Ht' _ _] Ho Ho' H H'. destruct (same_or_collide _ _ _ H H') as [(b & Hb & Hb')|]; [left|by right].
  rewrite Hv in Hb. rewrite Hv' in Hb'.
  rewrite Forall_forall in Ht, Ht'. by destruct (output_delimits o o' b b [] [] (Ht _ Ho) (Ht' _ Ho') Hb Hb' eq_refl).
Qed.
Lemma payload_commit t t' h : canonical_transaction t -> canonical_transaction t' -> subnetworkId t = subnetworkId t' ->
  hashPayload blake2b_keyed t = Ok h -> hashPayload blake2b_keyed t' = Ok h ->
  payload t = payload t' \/ collide (put_var (payload t)) (put_var (payload t')) \/
  hashes_to_zero (put_var (payload t)) \/ hashes_to_zero (put_var (payload t')).
Proof.
  unfold hashPayload. intros [_ _ _ _ Ht] [_ _ _ _ Ht'] ->.
  destruct (_ && (payload t === "")) eqn:E, (_ && (payload t' === "")) eqn:E'; intros H H'.
  - inv_bool. left. congruence.
  - apply Ok_inj in H as <-. apply bind_ok in H' as (x & Hx & Hz%Ok_inj). right. right. right. by exists x.
  - apply Ok_inj in H' as <-. apply bind_ok in H as (x & Hx & Hz%Ok_inj). right. right. left. by exists x.
  - destruct (same_or_collide _ _ _ H H') as [(b & Hb & Hb')|]; [left|by right; left].
    by destruct (var_delimits _ _ _ _ [] [] Ht Ht' Hb Hb' eq_refl).
Qed.

(** *** Signature hashes *)

(** The thirteen writes of a preimage, the four hashes in it already computed *)
Record preimage_parts := {
  pp_transaction : TxV1ReferenceTransaction;
  pp_input : TxV1ReferenceInput;
  pp_previous : string;
  pp_sequences : string;
  pp_outputs : string;
  pp_payload : string;
  pp_type : Z
}.
Definition write_parts (p : preimage_parts) : result bytes :=
  let t := pp_transaction p in let i := pp_input p in
  puts [put_u16 (version t); put_bytes (pp_previous p); put_bytes (pp_sequences p); writeOutpoint (previousOutpoint i);
        (spk ← parseSerializedScriptPublicKey (utxo_scriptPublicKey i) "inputScriptPublicKey"; writeScriptPublicKey spk);
        put_u64 (Text (utxo_amount i)); put_u64 (Text (sequence i)); put_bytes (pp_outputs p); put_u64 (Text (lockTime t));
        put_bytes (subnetworkId t); put_u64 (Text (gas t)); put_bytes (pp_payload p); put_u8 (pp_type p)].
Record canonical_parts (p : preimage_parts) : Prop := {
  cp_transaction : canonical_transaction (pp_transaction p);
  cp_input : canonical_input (pp_input p);
  cp_previous : sized 32 (pp_previous p);
  cp_sequences : sized 32 (pp_sequences p);
  cp_outputs : sized 32 (pp_outputs p);
  cp_payload : sized 32 (pp_payload p)
}.
Definition parts_view (p : preimage_parts) :=
  let t := pp_transaction p in let i := pp_input p in
  (pp_type p, (previousOutpoint i, utxo_scriptPublicKey i, utxo_amount i, sequence i), (lockTime t, subnetworkId t, gas t),
   (pp_previous p, pp_sequences p, pp_outputs p, pp_payload p)).
Lemma parts_delimits : delimits canonical_parts write_parts parts_view.
Proof.
  eapply delimits_view; [unfold write_parts|].
  - eapply delimits_cons; [by apply (delimits_part any _ _ (fun p => version (pp_transaction p)) _ u16_delimits)|].
    eapply delimits_cons; [apply (delimits_part _ _ _ pp_previous _ (bytes_delimits 32)), cp_previous|].
    eapply delimits_cons; [apply (delimits_part _ _ _ pp_sequences _ (bytes_delimits 32)), cp_sequences|].
    eapply delimits_cons; [apply (delimits_part _ _ _ (fun p => previousOutpoint (pp_input p)) _ outpoint_delimits); intros p H; apply ci_outpoint, H|].
    eapply delimits_cons; [apply (delimits_part _ _ _ (fun p => utxo_scriptPublicKey (pp_input p)) _ (serialized_script_delimits _)); intros p H; apply ci_scriptPublicKey, H|].
    eapply delimits_cons; [by apply (delimits_part any _ _ (fun p => utxo_amount (pp_input p)) _ text_delimits)|].
    eapply delimits_cons; [by apply (delimits_part any _ _ (fun p => sequence (pp_input p)) _ text_delimits)|].
    eapply delimits_cons; [apply (delimits_part _ _ _ pp_outputs _ (bytes_delimits 32)), cp_outputs|].
    eapply delimits_cons; [by apply (delimits_part any _ _ (fun p => lockTime (pp_transaction p)) _ text_delimits)|].
    eapply delimits_cons; [apply (delimits_part _ _ _ (fun p => subnetworkId (pp_transaction p)) _ (bytes_delimits 20)); intros p H; apply ct_subnetworkId, H|].
    eapply delimits_cons; [by apply (delimits_part any _ _ (fun p => gas (pp_transaction p)) _ text_delimits)|].
    eapply delimits_cons; [apply (delimits_part _ _ _ pp_payload _ (bytes_delimits 32)), cp_payload|].
    eapply delimits_cons; [by apply (delimits_part any _ _ pp_type _ u8_delimits)|]. apply delimits_nil.
  - intros p q _ _ [=]. unfold parts_view, id in *. congruence.
Qed.

(** Where the four hashes come from *)
Definition anyone_can_pay (hashType : Z) : bool := Z.land hashType 128 !== 0.
Definition output_part (t : TxV1ReferenceTransaction) (i : nat) (hashType : Z) : result string :=
  if Z.land hashType 7 =? 2 then Ok ZERO_HASH
  else if Z.land hashType 7 =? 4 then
    match outputs t !! i with Some o => hashSingleOutput blake2b_keyed t o | None => Ok ZERO_HASH end
  else hashOutputs blake2b_keyed t.
Lemma preimage_ok t i hashType b : writeSighashPreimage blake2b_keyed t i hashType = Ok b ->
  exists p, write_parts p = Ok b /\ pp_transaction p = t /\ inputs t !! i = Some (pp_input p) /\ pp_type p = hashType /\
    output_part t i hashType = Ok (pp_outputs p) /\ hashPayload blake2b_keyed t = Ok (pp_payload p) /\
    (if anyone_can_pay hashType then Ok ZERO_HASH else hashPreviousOutputs blake2b_keyed t) = Ok (pp_previous p) /\
    (if anyone_can_pay hashType || negb (Z.land hashType 7 =? 1) then Ok ZERO_HASH else hashSequences blake2b_keyed t)
      = Ok (pp_sequences p).
Proof.
  unfold writeSighashPreimage. destruct (inputs t !! i) as [input|] eqn:Ei; [|done].
  fold (anyone_can_pay hashType). fold (output_part t i hashType). intros (oh & Ho & H)%bind_ok. pose proof H as G.
  apply puts_cons in G as (? & ? & _ & (? & ? & (ph & Hp & _)%bind_ok & (? & ? & (sh & Hs & _)%bind_ok & G & _)%puts_cons & _)%puts_cons & _).
  do 8 apply puts_cons in G as (? & ? & _ & G & _). apply puts_cons in G as (? & ? & (yh & Hy & _)%bind_ok & _).
  rewrite Hp, Hs, Hy in H. cbn [mbind result_bind] in H.
  by exists {| pp_transaction := t; pp_input := input; pp_previous := ph; pp_sequences := sh; pp_outputs := oh; pp_payload := yh; pp_type := hashType |}.
Qed.
Lemma hash_or_zero (m : result bytes) h : (b ← m; Ok (signing_hash b)) = Ok h -> sized 32 h.
Proof. intros (b & _ & [= <-])%bind_ok. apply signing_hash_sized. Qed.
Lemma preimage_canonical t i p b :
  canonical_transaction t -> inputs t !! i = Some (pp_input p) -> pp_transaction p = t ->
  output_part t i b = Ok (pp_outputs p) -> hashPayload blake2b_keyed t = Ok (pp_payload p) ->
  (if anyone_can_pay b then Ok ZERO_HASH else hashPreviousOutputs blake2b_keyed t) = Ok (pp_previous p) ->
  (if anyone_can_pay b || negb (Z.land b 7 =? 1) then Ok ZERO_HASH else hashSequences blake2b_keyed t) = Ok (pp_sequences p) ->
  canonical_parts p.
Proof.
  intros Ht Hi Hp Ho Hy Hs Hq. constructor.
  - by rewrite Hp.
  - pose proof (ct_inputs _ Ht) as H. rewrite Forall_lookup in H. by eapply H.
  - destruct (anyone_can_pay b); [injection Hs as <-; apply zero_sized|by eapply hash_or_zero].
  - destruct (_ || _); [injection Hq as <-; apply zero_sized|by eapply hash_or_zero].
  - unfold output_part in Ho. repeat case_match; try (injection Ho as <-; apply zero_sized); by eapply hash_or_zero.
  - unfold hashPayload in Hy. destruct (_ && _); [injection Hy as <-; apply zero_sized|by eapply hash_or_zero].
Qed.

(** The byte strings BLAKE2b hashes for the signature of one input, by their role *)
Inductive hashed := Preimage | PreviousOutputs | Sequences | Outputs | Payload.
Definition hashed_bytes (t : TxV1ReferenceTransaction) (i : nat) (hashType : Z) (role : hashed) : result bytes :=
  match role with
  | Preimage => writeSighashPreimage blake2b_keyed t i hashType
  | PreviousOutputs => previous_outputs_bytes t
  | Sequences => sequences_bytes t
  | Outputs =>
      if Z.land hashType 7 =? 4 then
        match outputs t !! i with Some o => writeOutput (version t) o | None => Throw (Error "no output to sign") end
      else outputs_bytes t
  | Payload => put_var (payload t)
  end.
(** BLAKE2b fails these two signatures: it gives different bytes in the same role the same hash,
    or hashes outputs or a payload of one of them to the placeholder of 64 zeros. *)
Definition hash_failure (t t' : TxV1ReferenceTransaction) (i i' : nat) (ty ty' : Z) : Prop :=
  (exists role, collide (hashed_bytes t i ty role) (hashed_bytes t' i' ty' role)) \/
  (exists role, (role = Outputs \/ role = Payload) /\
     (hashes_to_zero (hashed_bytes t i ty role) \/ hashes_to_zero (hashed_bytes t' i' ty' role))).
Lemma role_collides role t t' i i' ty ty' :
  collide (hashed_bytes t i ty role) (hashed_bytes t' i' ty' role) -> hash_failure t t' i i' ty ty'.
Proof. left. by exists role. Qed.

Lemma output_part_commit t t' i i' ty h : canonical_transaction t -> canonical_transaction t' ->
  output_part t i ty = Ok h -> output_part t' i' ty = Ok h ->
  hash_failure t t' i i' ty ty \/
  (Z.land ty 7 <> 2 -> Z.land ty 7 <> 4 -> outputs t = outputs t') /\ (Z.land ty 7 = 4 -> outputs t !! i = outputs t' !! i').
Proof.
  intros Ht Ht' H H'. unfold output_part in *.
  destruct (Z.eqb_spec (Z.land ty 7) 2); [right; split; lia|]. destruct (Z.eqb_spec (Z.land ty 7) 4) as [E4|].
  - assert (forall u j o, outputs u !! j = Some o -> hashed_bytes u j ty Outputs = writeOutput (version u) o) as Hb.
    { intros u j o Hu. unfold hashed_bytes. by rewrite E4, Hu. }
    destruct (outputs t !! i) as [o|] eqn:Eo, (outputs t' !! i') as [o'|] eqn:Eo'.
    + destruct (single_output_commit t t' o o' h) as [->|]; try done; [by eapply list_elem_of_lookup_2..|right; split; [lia|done]|].
      left. apply (role_collides Outputs). by rewrite (Hb _ _ _ Eo), (Hb _ _ _ Eo').
    + apply bind_ok in H as (b & Hw & E%Ok_inj). apply Ok_inj in H'. left. right. exists Outputs. split; [by left|left].
      exists b. rewrite (Hb _ _ _ Eo). split; [done|congruence].
    + apply bind_ok in H' as (b & Hw & E%Ok_inj). apply Ok_inj in H. left. right. exists Outputs. split; [by left|right].
      exists b. rewrite (Hb _ _ _ Eo'). split; [done|congruence].
    + right. split; [lia|done].
  - destruct (outputs_commit t t' h) as [->|]; try done; [right; split; [done|lia]|left].
    apply (role_collides Outputs). unfold hashed_bytes. by replace (Z.land ty 7 =? 4) with false by lia.
Qed.

(** What a signature hash of one input commits to *)
Record same_signed_part (t t' : TxV1ReferenceTransaction) (i i' : nat) (hashType : Z) : Prop := {
  ss_input : (fun a => (previousOutpoint a, utxo_scriptPublicKey a, utxo_amount a, sequence a)) <$> inputs t !! i =
             (fun a => (previousOutpoint a, utxo_scriptPublicKey a, utxo_amount a, sequence a)) <$> inputs t' !! i';
  ss_lockTime : lockTime t = lockTime t';
  ss_subnetworkId : subnetworkId t = subnetworkId t';
  ss_gas : gas t = gas t';
  ss_payload : payload t = payload t';
  ss_previous : anyone_can_pay hashType = false -> map previousOutpoint (inputs t) = map previousOutpoint (inputs t');
  ss_sequences : hashType = 1 -> map sequence (inputs t) = map sequence (inputs t');
  ss_outputs : Z.land hashType 7 = 1 -> outputs t = outputs t';
  ss_output : Z.land hashType 7 = 4 -> outputs t !! i = outputs t' !! i'
}.
Lemma preimage_commit t t' i i' ty ty' b : canonical_transaction t -> canonical_transaction t' ->
  writeSighashPreimage blake2b_keyed t i ty = Ok b -> writeSighashPreimage blake2b_keyed t' i' ty' = Ok b ->
  hash_failure t t' i i' ty ty' \/ ty = ty' /\ same_signed_part t t' i i' ty.
Proof.
  intros Ht Ht' (p & Hw & Ep & Ei & <- & Ho & Hy & Hs & Hq)%preimage_ok (p' & Hw' & Ep' & Ei' & <- & Ho' & Hy' & Hs' & Hq')%preimage_ok.
  pose proof (preimage_canonical _ _ _ _ Ht Ei Ep Ho Hy Hs Hq) as Hc. pose proof (preimage_canonical _ _ _ _ Ht' Ei' Ep' Ho' Hy' Hs' Hq') as Hc'.
  destruct (parts_delimits p p' b b [] [] Hc Hc' Hw Hw' eq_refl) as [Hv _]. clear Hc Hc' Hw Hw'.
  unfold parts_view in Hv. injection Hv as Ety E1 E2 E3 E4 E5 E6 E6' E7 E8 E9 E10.
  rewrite Ep, Ep' in *. rewrite <- Ety, <- ?E7, <- ?E8, <- ?E9, <- ?E10 in *.
  destruct (output_part_commit _ _ _ _ _ _ Ht Ht' Ho Ho') as [|[Hout Hone]]; [by left|].
  destruct (payload_commit _ _ _ Ht Ht' E6 Hy Hy') as [Epay|[|]]; [|by left; apply (role_collides Payload)|];
    [|left; right; exists Payload; split; [by right|done]].
  assert (hash_failure t t' i i' (pp_type p) (pp_type p) \/ (anyone_can_pay (pp_type p) = false -> map previousOutpoint (inputs t) = map previousOutpoint (inputs t'))) as [|Hprev];
    [|by left|].
  { destruct (anyone_can_pay _); [by right|]. destruct (previous_outputs_commit t t' _ Ht Ht' Hs Hs'); [by right|by left; apply (role_collides PreviousOutputs)]. }
  assert (hash_failure t t' i i' (pp_type p) (pp_type p) \/ (pp_type p = 1 -> map sequence (inputs t) = map sequence (inputs t'))) as [|Hseq]; [|by left|].
  { destruct (Z.eqb_spec (pp_type p) 1) as [E|]; [|by right]. rewrite E in Hq, Hq'.
    destruct (sequences_commit t t' _ Hq Hq'); [by right|by left; apply (role_collides Sequences)]. }
  right. split; [done|]. constructor; try done.
  - rewrite Ei, Ei'. cbn. congruence.
  - intros E. apply Hout; rewrite E; lia.
Qed.
Lemma sighash_type_ok ty h : kaspaSighashType ty = Ok h -> h = ty.
Proof. unfold kaspaSighashType. intros H. by inv_ok. Qed.

(** The two digests under a transaction id *)
Lemma digest_bytes x n lbl b : hexToBytes (bytesToHex x) (Some n) lbl = Ok b -> b = x /\ Z.of_nat (length x) = n.
Proof.
  rewrite template_hex_ok, hex_decode_bytesToHex, bytesToHex_length. intros (-> & _ & ?). split; [done|lia].
Qed.
Definition id_key (domain : string) : bytes := utf8Bytes domain ++ repeat (byte_of 0) (32 - length (utf8Bytes domain)).
Lemma id_ok t id : canonical_transaction t -> transactionV1Id blake2b_keyed blake3_keyed t = Ok id ->
  exists p r, payload t = bytesToHex p /\ writeTransaction t skeleton = Ok r /\
    length (blake3_keyed (id_key "PayloadDigest") p) = 32%nat /\ length (blake3_keyed (id_key "TransactionRest") r) = 32%nat /\
    id = bytesToHex (blake3_keyed (id_key "TransactionV1Id")
           (blake3_keyed (id_key "PayloadDigest") p ++ blake3_keyed (id_key "TransactionRest") r)).
Proof.
  intros [_ _ _ _ [p Ep]] H. unfold transactionV1Id, buildDigestDebug in H. rewrite Ep, hex_of_bytes in H by done.
  cbn [mbind result_bind] in H. apply bind_ok in H as (d & H & Hid%Ok_inj). apply bind_ok in H as (r & Hr & H).
  apply bind_ok in H as (a & [-> Ha]%digest_bytes & H). apply bind_ok in H as (c & [-> Hc]%digest_bytes & H).
  apply bind_ok in H as (hp & _ & H). apply bind_ok in H as (sg & _ & H%Ok_inj). subst d id.
  exists p, r. split; [done|]. split; [done|]. unfold id_key. split; [lia|]. split; [lia|].
  cbn [id_digest dd_txid]. unfold blake3Keyed, concatBytes. cbn [concat]. by rewrite app_nil_r.
Qed.

(** ** Properties *)

(** The serialized form determines the transaction: two artifacts, whatever builders
    made them, with the same serialized transaction spend the same outpoints with the same
    witnesses, sequences and budgets, and agree on outputs, covenants, lock time, subnetwork,
    gas, payload and mass.  BLAKE2b's output length is a hypothesis. *)
Theorem serialization_determines_transaction k k' base base' fee fee' id id' :
  built sha256 blake2b blake2b_keyed blake3_keyed k base fee id ->
  built sha256 blake2b blake2b_keyed blake3_keyed k' base' fee' id' ->
  serializedTransaction base = serializedTransaction base' ->
  transaction_view full (transaction base) = transaction_view full (transaction base').
Proof.
  intros H H' E. pose proof (built_canonical _ _ _ _ blake2b_length _ _ _ _ H) as Hc.
  pose proof (built_canonical _ _ _ _ blake2b_length _ _ _ _ H') as Hc'.
  apply built_sound in H as (_ & _ & _ & _ & _ & _ & _ & _ & _ & Hw & _).
  apply built_sound in H' as (_ & _ & _ & _ & _ & _ & _ & _ & _ & Hw' & _).
  rewrite <- E in Hw'. by apply (transaction_bytes _ _ _ _ Hc Hc' Hw).
Qed.

(** The byte strings BLAKE3 hashes for a transaction id, under the key of their role *)
Definition id_hashed (t : TxV1ReferenceTransaction) (domain : string) (x : bytes) : Prop :=
  (domain = "PayloadDigest" /\ payload t = bytesToHex x) \/
  (domain = "TransactionRest" /\ writeTransaction t skeleton = Ok x) \/
  (domain = "TransactionV1Id" /\ exists p r, payload t = bytesToHex p /\ writeTransaction t skeleton = Ok r /\
     x = blake3_keyed (id_key "PayloadDigest") p ++ blake3_keyed (id_key "TransactionRest") r).

(** A transaction id commits to everything but the witnesses, compute budgets and mass:
    two canonical transactions with the same id agree on outpoints, sequences, outputs, lock
    time, subnetwork, gas and payload, or BLAKE3 collides on two byte strings that their ids
    hash in the same role. *)
Theorem transaction_id_commits t t' id : canonical_transaction t -> canonical_transaction t' ->
  transactionV1Id blake2b_keyed blake3_keyed t = Ok id -> transactionV1Id blake2b_keyed blake3_keyed t' = Ok id ->
  transaction_view skeleton t = transaction_view skeleton t' /\ payload t = payload t' \/
  exists domain x y, id_hashed t domain x /\ id_hashed t' domain y /\ x <> y /\
    blake3_keyed (id_key domain) x = blake3_keyed (id_key domain) y.
Proof.
  intros Ht Ht' (p & r & Hp & Hr & Lp & Lr & ->)%id_ok (p' & r' & Hp' & Hr' & Lp' & Lr' & E%bytesToHex_inj)%id_ok; [|done..].
  destruct (decide (p = p')) as [->|Hne]; [destruct (decide (r = r')) as [->|Hne]|].
  - left. split; [by apply (transaction_bytes _ _ _ r')|congruence].
  - right. destruct (decide (blake3_keyed (id_key "TransactionRest") r = blake3_keyed (id_key "TransactionRest") r')) as [Er|Er].
    + exists "TransactionRest", r, r'. unfold id_hashed. split_and!; try done; by right; left.
    + eexists "TransactionV1Id", _, _. unfold id_hashed. split; [right; right; split; [done|by exists p', r]|].
      split; [right; right; split; [done|by exists p', r']|]. split; [|exact E]. intros Ea%app_inv_head. done.
  - right. destruct (decide (blake3_keyed (id_key "PayloadDigest") p = blake3_keyed (id_key "PayloadDigest") p')) as [Ep|Ep].
    + exists "PayloadDigest", p, p'. unfold id_hashed. split_and!; try done; by left.
    + eexists "TransactionV1Id", _, _. unfold id_hashed. split; [right; right; split; [done|by exists p, r]|].
      split; [right; right; split; [done|by exists p', r']|]. split; [|exact E].
      intros [Ea _]%app_inj_1; [done|congruence].
Qed.

(** C38.  Equal signature hashes mean the same signature type and the same signed part: the
    spent outpoint, its script, amount and sequence, lock time, gas and payload always; all
    outpoints unless anyone can pay; all sequences under ALL; all outputs, or the output at the
    signed index, as the type says.  The only way out is a failure of BLAKE2b on the byte
    strings these two signatures hash: two different strings in the same role (the preimage, the
    outpoints, the sequences, the outputs or the payload) with one hash, or outputs or a payload
    whose hash is the 64 zeros that stand for a part left out. *)
Theorem signature_hash_commits t t' i i' ty ty' s s' : canonical_transaction t -> canonical_transaction t' ->
  transactionV1Sighash blake2b_keyed t i ty = Ok s -> transactionV1Sighash blake2b_keyed t' i' ty' = Ok s' ->
  sg_digest s = sg_digest s' ->
  ty = ty' /\ same_signed_part t t' i i' ty \/ hash_failure t t' i i' ty ty'.
Proof.
  unfold transactionV1Sighash. intros Ht Ht' H H' E. inv_ok.
  repeat match goal with H : kaspaSighashType _ = Ok _ |- _ => apply sighash_type_ok in H; subst end.
  cbn [sg_digest] in E.
  match goal with H : writeSighashPreimage _ t _ _ = Ok ?x, H' : writeSighashPreimage _ t' _ _ = Ok ?y |- _ =>
    destruct (decide (x = y)) as [->|Hne];
      [destruct (preimage_commit _ _ _ _ _ _ _ Ht Ht' H H'); auto|right; apply (role_collides Preimage); by exists x, y] end.
Qed.
End Commitments.

(** ** Signature scripts *)

Section Evidence.
Context (blake2b_keyed : bytes -> bytes -> bytes).

Lemma signature_bytes signature lbl raw : bytesFromHexOrBytes signature 64 lbl = Ok raw ->
  length raw = 64%nat /\ bytesToHex raw = match signature with Hex s => toLowerCase s | Raw b => bytesToHex b end.
Proof.
  unfold bytesFromHexOrBytes. intros (b & Hb & H)%bind_ok. inv_ok. split; [lia|]. destruct signature; inv_ok; [|done].
  apply template_hex_ok in Hb as (-> & Hp & _). by apply bytesToHex_hex_decode.
Qed.
Lemma push_lookup raw flag : length raw = 64%nat ->
  concatBytes [bytes_of [65]; raw; bytes_of [flag]] !! 0%nat = Some (byte_of 65) /\
  concatBytes [bytes_of [65]; raw; bytes_of [flag]] !! 65%nat = Some (byte_of flag) /\
  take 64 (drop 1 (concatBytes [bytes_of [65]; raw; bytes_of [flag]])) = raw /\
  length (concatBytes [bytes_of [65]; raw; bytes_of [flag]]) = 66%nat.
Proof.
  intros H. unfold concatBytes, bytes_of. cbn [map List.concat app]. split; [done|]. split.
  { transitivity ((raw ++ [byte_of flag]) !! 64%nat); [reflexivity|]. rewrite lookup_app_r by lia. by rewrite H. }
  split; [|cbn [length]; rewrite length_app; cbn [length]; lia]. change (take 64 (raw ++ [byte_of flag]) = raw). by rewrite take_app_length'.
Qed.
Lemma sighash_types ty h : kaspaSighashType ty = Ok h -> ty = 1 \/ ty = 2 \/ ty = 4 \/ ty = 129 \/ ty = 130 \/ ty = 132.
Proof. unfold kaspaSighashType, KASPA_SIGHASH_TYPES. intros H. inv_ok. cbn in *. lia. Qed.

Lemma hex_app a b : bytesToHex (a ++ b) = bytesToHex a +:+ bytesToHex b.
Proof. induction a as [|c a IH]; [done|]. cbn [app bytesToHex]. rewrite IH. reflexivity. Qed.
Lemma p2pk_key pk lbl : length pk = 32%nat -> p2pkPublicKey ("000020" +:+ bytesToHex pk +:+ "ac") lbl = Ok (bytesToHex pk).
Proof.
  intros Hpk. unfold p2pkPublicKey.
  assert ("000020" +:+ bytesToHex pk +:+ "ac" = bytesToHex (byte_of 0 :: byte_of 0 :: byte_of 32 :: pk ++ [byte_of 172])) as ->.
  { change (byte_of 0 :: byte_of 0 :: byte_of 32 :: pk ++ [byte_of 172]) with ([byte_of 0; byte_of 0; byte_of 32] ++ pk ++ [byte_of 172]).
    by rewrite !hex_app. }
  unfold parseSerializedScriptPublicKey. rewrite hex_of_bytes by done. cbn [mbind result_bind spk_version spk_script].
  rewrite hex_of_bytes by done. cbn [mbind result_bind].
  assert ((byte_of 32 :: pk ++ [byte_of 172]) !! 33%nat = Some (byte_of 172)) as ->.
  { transitivity ((pk ++ [byte_of 172]) !! 32%nat); [reflexivity|]. rewrite lookup_app_r by lia. by rewrite Hpk. }
  cbn [length]. rewrite length_app, Hpk. cbn [length Nat.add].
  change (take 32 (drop 1 (byte_of 32 :: pk ++ [byte_of 172]))) with (take 32 (pk ++ [byte_of 172])).
  by rewrite take_app_length'.
Qed.
(** A witness built from a Schnorr signature reads back: for an input that spends
    the version-0 P2PK script of a key, the evidence is that key, the signature, its type and
    the signature hash of that type, and the digests recorded for the transaction use the same
    type. *)
Theorem p2pk_evidence_roundtrip t i input signature ty script publicKey s :
  inputs t !! i = Some input -> sized 32 publicKey ->
  utxo_scriptPublicKey input = "000020" +:+ publicKey +:+ "ac" ->
  buildTxV1P2pkSignatureScript signature ty = Ok script -> in_signatureScript input = script ->
  transactionV1Sighash blake2b_keyed t i (default 1 ty) = Ok s ->
  transactionV1SchnorrSignatureEvidence blake2b_keyed t i =
    Ok {| ev_publicKey := publicKey;
          ev_signature := match signature with Hex h => toLowerCase h | Raw b => bytesToHex b end;
          ev_hashType := default 1 ty; ev_digest := sg_digest s |} /\
  witness_flag (hex_decode script) = default 1 ty.
Proof.
  intros Hi [pk [-> Hpk]] Hu Hs <- Hg. unfold buildTxV1P2pkSignatureScript in Hs.
  apply bind_ok in Hs as (raw & [Hraw Hsig]%signature_bytes & (flag & Hflag & Hs%Ok_inj)%bind_ok).
  pose proof (sighash_type_ok _ _ Hflag) as ->. pose proof (push_lookup raw (default 1 ty) Hraw) as (L0 & L65 & Lt & Ln).
  assert (code (byte_of (default 1 ty)) = default 1 ty) as Hcode.
  { rewrite code_byte_of; [done|]. apply sighash_types in Hflag. lia. }
  unfold transactionV1SchnorrSignatureEvidence. rewrite Hi, <- Hs, hex_of_bytes by done. cbn [mbind result_bind].
  rewrite Ln, L0, L65, hex_decode_bytesToHex. split.
  - rewrite Nat.eqb_refl, bool_decide_eq_true_2 by done. rewrite Hcode, Hflag. cbn [mbind result_bind].
    rewrite Hu, p2pk_key by done. cbn [mbind result_bind]. rewrite Hg. cbn [mbind result_bind]. by rewrite Lt, Hsig.
  - unfold witness_flag. rewrite L0, L65, Hcode, bool_decide_eq_true_2 by done.
    unfold kaspaSighashType in Hflag. inv_ok. cbn [andb].
    match goal with H : existsb _ _ = true |- _ => by rewrite H end.
Qed.
End Evidence.

Module SampleCommitments.
Import SampleArtifacts.

Lemma keyed_length key input : length (keyed key input) = 32%nat.
Proof. apply toy_sha256_length. Qed.
(** The claim with its covenant id in the other case *)
Definition claim_again :=
  buildBatchClaimTxV1Artifact toy_sha256 toy_sha256 keyed keyed
    {| c_network := c_network claim_input; c_activeOutpoint := c_activeOutpoint claim_input; c_activeAmount := Number 1000000000;
       c_activeScriptPublicKey := c_activeScriptPublicKey claim_input; c_activeRedeemScript := "51"; c_covenantId := hash32 "eE";
       c_claimedCumulativeAmount := Text "100"; c_authorizedCumulativeAmount := Text "900000"; c_claimAmount := Number 500000;
       c_successorScriptPublicKey := p2sh "52"; c_successorRedeemScript := "52"; c_serverOutputScriptPublicKey := p2pk "02";
       c_expectedPayoutScriptPublicKeyHash := hash_of_script (p2pk "02"); c_fee := Number 2000;
       c_serverSignature := signature 65; c_voucherSignature := signature 64; c_computeBudget := 2; c_scriptUnitsEstimate := 20000;
       c_sequence := None; c_lockTime := None; c_options := no_options; c_outputs := None |}.
(** The top-up with a higher fee and less change *)
Definition top_up_again :=
  buildBatchTopUpTxV1Artifact toy_sha256 toy_sha256 keyed keyed
    {| t_activeOutpoint := Outpoint (hash32 "01") 0; t_activeAmount := Text "1000000000";
       t_activeScriptPublicKey := p2sh "51"; t_activeRedeemScript := "51"; t_covenantId := hash32 "ee";
       t_claimedCumulativeAmount := Text "100"; t_successorAmount := Number 1500000000;
       t_successorScriptPublicKey := p2sh "51"; t_successorRedeemScript := "51";
       t_clientSignature := signature 65; t_providerSignature := signature 65; t_fundingInputs := [funding 800000000];
       t_changeOutputs := Some [{| op_amount := Number 299990000; op_scriptPublicKey := p2pk "01"; op_covenant := None |}];
       t_expectedRefundScriptPublicKeyHash := hash_of_script (p2pk "01"); t_fee := Number 10000;
       t_computeBudget := 0; t_scriptUnitsEstimate := 9999; t_sequence := None; t_lockTime := None; t_options := no_options;
       t_outputs := None |}.
Definition sighash (r : result BatchTopUpTxV1Artifact) (i : nat) (ty : Z) : result TxV1SighashDebug :=
  art ← r; transactionV1Sighash keyed (transaction (ta_base art)) i ty.

Lemma serialization_determines_transaction_witness :
  exists a b, claim = Ok a /\ claim_again = Ok b /\
    transaction_view full (transaction (cl_base a)) = transaction_view full (transaction (cl_base b)).
Proof.
  destruct (is_ok_value claim ltac:(vm_compute; reflexivity)) as [a Ea].
  destruct (is_ok_value claim_again ltac:(vm_compute; reflexivity)) as [b Eb].
  assert ((fun a => serializedTransaction (cl_base a)) <$> claim = (fun a => serializedTransaction (cl_base a)) <$> claim_again)
    as E by (vm_compute; reflexivity).
  exists a, b. split; [exact Ea|]. split; [exact Eb|]. rewrite Ea, Eb in E. injection E as E.
  exact (serialization_determines_transaction toy_sha256 toy_sha256 keyed keyed keyed_length _ _ _ _ _ _ _ _
           (built_claim _ _ _ _ _ _ Ea) (built_claim _ _ _ _ _ _ Eb) E).
Defined.
Lemma transaction_id_commits_witness :
  exists a b, claim = Ok a /\ claim_again = Ok b /\
    (transaction_view skeleton (transaction (cl_base a)) = transaction_view skeleton (transaction (cl_base b)) /\
     payload (transaction (cl_base a)) = payload (transaction (cl_base b)) \/
     exists domain x y, id_hashed keyed (transaction (cl_base a)) domain x /\
       id_hashed keyed (transaction (cl_base b)) domain y /\ x <> y /\
       keyed (id_key domain) x = keyed (id_key domain) y).
Proof.
  destruct (is_ok_value claim ltac:(vm_compute; reflexivity)) as [a Ea].
  destruct (is_ok_value claim_again ltac:(vm_compute; reflexivity)) as [b Eb].
  assert ((fun a => transactionId (cl_base a)) <$> claim = (fun a => transactionId (cl_base a)) <$> claim_again)
    as E by (vm_compute; reflexivity).
  exists a, b. split; [exact Ea|]. split; [exact Eb|]. rewrite Ea, Eb in E. injection E as E.
  pose proof (built_claim _ _ _ _ _ _ Ea) as Ba. pose proof (built_claim _ _ _ _ _ _ Eb) as Bb.
  destruct (built_sound _ _ _ _ _ _ _ _ Ba) as (_ & _ & _ & _ & _ & _ & _ & _ & Ia & _).
  destruct (built_sound _ _ _ _ _ _ _ _ Bb) as (_ & _ & _ & _ & _ & _ & _ & _ & Ib & _). rewrite <- E in Ib.
  exact (transaction_id_commits keyed keyed _ _ _ (built_canonical _ _ _ _ keyed_length _ _ _ _ Ba)
           (built_canonical _ _ _ _ keyed_length _ _ _ _ Bb) Ia Ib).
Defined.
Definition nonzero (p : result bytes) : bool := match p with Ok x => signing_hash keyed x !== ZERO_HASH | Throw _ => true end.
Lemma nonzero_sound p : nonzero p = true -> ~ hashes_to_zero keyed p.
Proof. intros H (x & -> & E). unfold nonzero in H. rewrite E in H. by rewrite bool_decide_eq_true_2 in H. Qed.
(** BLAKE2b does not fail the two signatures, decided by computing. *)
Definition no_failure (t t' : TxV1ReferenceTransaction) (i i' : nat) (ty ty' : Z) : bool :=
  forallb (fun role => match hashed_bytes keyed t i ty role, hashed_bytes keyed t' i' ty' role with
    | Ok x, Ok y => (x === y) || (signing_hash keyed x !== signing_hash keyed y)
    | _, _ => true
    end) [Preimage; PreviousOutputs; Sequences; Outputs; Payload] &&
  forallb (fun role => nonzero (hashed_bytes keyed t i ty role) && nonzero (hashed_bytes keyed t' i' ty' role)) [Outputs; Payload].
Lemma no_failure_sound t t' i i' ty ty' : no_failure t t' i i' ty ty' = true -> ~ hash_failure keyed t t' i i' ty ty'.
Proof.
  unfold no_failure. intros [Hc Hz]%andb_true_iff [(role & x & y & Hx & Hy & Hne & E)|(role & Hr & H)].
  - assert (role ∈ [Preimage; PreviousOutputs; Sequences; Outputs; Payload]) as Hin by (destruct role; rewrite !elem_of_cons; tauto).
    rewrite forallb_elem in Hc. specialize (Hc role Hin). rewrite Hx, Hy, E in Hc.
    rewrite (bool_decide_eq_false_2 (x = y)), (bool_decide_eq_true_2 (_ = _)) in Hc by done. done.
  - rewrite forallb_elem in Hz. assert (role ∈ [Outputs; Payload]) as Hin by (rewrite !elem_of_cons; tauto).
    specialize (Hz role Hin). apply andb_true_iff in Hz as [H1%nonzero_sound H2%nonzero_sound]. tauto.
Qed.

(** A signature of no outputs survives a change of the outputs, and of nothing it commits to. *)
Lemma signature_hash_commits_witness :
  exists a b, top_up = Ok a /\ top_up_again = Ok b /\
    map out_amount (outputs (transaction (ta_base a))) <> map out_amount (outputs (transaction (ta_base b))) /\
    same_signed_part (transaction (ta_base a)) (transaction (ta_base b)) 1 1 130.
Proof.
  destruct (is_ok_value top_up ltac:(vm_compute; reflexivity)) as [a Ea].
  destruct (is_ok_value top_up_again ltac:(vm_compute; reflexivity)) as [b Eb].
  destruct (is_ok_value (sighash top_up 1 130) ltac:(vm_compute; reflexivity)) as [s Es].
  destruct (is_ok_value (sighash top_up_again 1 130) ltac:(vm_compute; reflexivity)) as [s' Es'].
  assert (sg_digest <$> sighash top_up 1 130 = sg_digest <$> sighash top_up_again 1 130) as E by (vm_compute; reflexivity).
  assert (match top_up, top_up_again with
    | Ok a, Ok b => no_failure (transaction (ta_base a)) (transaction (ta_base b)) 1 1 130 130 &&
        bool_decide (map out_amount (outputs (transaction (ta_base a))) <> map out_amount (outputs (transaction (ta_base b))))
    | _, _ => false end = true) as Hd by (vm_compute; reflexivity).
  rewrite Ea, Eb in Hd. apply andb_true_iff in Hd as [Hf Hd].
  exists a, b. split; [exact Ea|]. split; [exact Eb|]. split; [exact (bool_decide_eq_true_1 _ Hd)|].
  rewrite Es, Es' in E. injection E as E.
  unfold sighash in Es, Es'. rewrite Ea in Es. rewrite Eb in Es'. cbn [mbind result_bind] in Es, Es'.
  destruct (signature_hash_commits keyed keyed_length _ _ _ _ _ _ _ _
           (built_canonical _ _ _ _ keyed_length _ _ _ _ (built_top_up _ _ _ _ _ _ Ea))
           (built_canonical _ _ _ _ keyed_length _ _ _ _ (built_top_up _ _ _ _ _ _ Eb)) Es Es' E) as [[_ H]|H]; [exact H|].
  destruct (no_failure_sound _ _ _ _ _ _ Hf H).
Defined.
Lemma p2pk_evidence_roundtrip_witness :
  exists t s, (fun a => transaction (ta_base a)) <$> top_up = Ok t /\ sighash top_up 1 1 = Ok s /\
    transactionV1SchnorrSignatureEvidence keyed t 1 =
      Ok {| ev_publicKey := hash32 "01"; ev_signature := bytesToHex (repeat (byte_of 7) 64); ev_hashType := 1; ev_digest := sg_digest s |}.
Proof.
  destruct (is_ok_value top_up ltac:(vm_compute; reflexivity)) as [a Ea].
  destruct (is_ok_value (sighash top_up 1 1) ltac:(vm_compute; reflexivity)) as [s Es].
  assert ((fun a => (fun i => (in_signatureScript i, utxo_scriptPublicKey i)) <$> inputs (transaction (ta_base a)) !! 1%nat) <$> top_up
          = Ok (Some (text_of (buildTxV1P2pkSignatureScript (signature 64) None), p2pk "01"))) as E by (vm_compute; reflexivity).
  exists (transaction (ta_base a)), s. rewrite Ea in E. split; [rewrite Ea; reflexivity|]. split; [exact Es|].
  injection E as E. destruct (inputs (transaction (ta_base a)) !! 1%nat) as [i|] eqn:Ei; [|discriminate E].
  injection E as E1 E2. unfold sighash in Es. rewrite Ea in Es.
  refine (proj1 (p2pk_evidence_roundtrip keyed _ _ i (signature 64) None (in_signatureScript i) (hash32 "01") s Ei _ _ _ eq_refl Es)).
  - exists (repeat (byte_of 1) 32). vm_compute. split; reflexivity.
  - rewrite E2. vm_compute. reflexivity.
  - rewrite E1. vm_compute. reflexivity.
Defined.
End SampleCommitments.
