(* ===== verification/JsonText.v ===== *)
(** * [JSON.parse] and conversions of the host

    The host's [JSON.parse] on texts in UTF-8, [String(value)] and [Number(value)] on what it
    returns, and [Buffer.from(text, "hex")], as
    [protocol/packages/server/src/hash-chain-verifier.ts] uses them.  A number
    is one of the safe integers or given by its text; how a numeral that is not a canonical
    safe integer is rounded to a double is a parameter.  The theorems show that the fuel of
    the parser suffices for every text, and that parsing inverts [JSON.stringify]. *)

From S2P Require Import Prelude Amount Json Binary.

(** A number: a safe integer ([-0] reads as 0), or any other by the text [String] gives it *)
Inductive jsnumber :=
  | Safe (n : Z)
  | Unsafe (text : string).
Inductive value :=
  | VNull
  | VBool (b : bool)
  | VNumber (n : jsnumber)
  | VString (s : string)
  | VArray (items : list value)
  | VObject (fields : list (string * value)).

(** ** Tokens *)

Definition is_space (c : ascii) : bool := (code c =? 32) || (code c =? 9) || (code c =? 10) || (code c =? 13).
Fixpoint skip_space (s : string) : string :=
  match s with
  | String c rest => if is_space c then skip_space rest else s
  | EmptyString => s
  end.
(** The longest prefix of characters of a class, and the rest *)
Fixpoint span (p : ascii -> bool) (s : string) : string * string :=
  match s with
  | String c rest => if p c then let '(a, b) := span p rest in (String c a, b) else (EmptyString, s)
  | EmptyString => (EmptyString, EmptyString)
  end.

(** UTF-8 of a code point *)
Definition utf8 (n : Z) : string :=
  string_of_list_ascii (map byte_of
    (if n <? 128 then [n]
     else if n <? 2048 then [192 + n / 64; 128 + n mod 64]
     else if n <? 65536 then [224 + n / 4096; 128 + n / 64 mod 64; 128 + n mod 64]
     else [240 + n / 262144; 128 + n / 4096 mod 64; 128 + n / 64 mod 64; 128 + n mod 64])).
Definition prepend (a : string) (o : option (string * string)) : option (string * string) :=
  match o with Some (s, rest) => Some (a +:+ s, rest) | None => None end.
(** [\b \f \n \r \t] and the characters that stand for themselves *)
Definition simple_escape (d : ascii) : option ascii :=
  let n := code d in
  if n =? 98 then Some (chr 8) else if n =? 102 then Some (chr 12) else if n =? 110 then Some (chr 10)
  else if n =? 114 then Some (chr 13) else if n =? 116 then Some (chr 9)
  else if (n =? 34) || (n =? 92) || (n =? 47) then Some d else None.
(** The rest of a string literal; [pending] is a high surrogate waiting for its low one. *)
Fixpoint string_body (pending : option Z) (s : string) : option (string * string) :=
  let flush := match pending with Some h => utf8 h | None => "" end in
  match s with
  | EmptyString => None
  | String c rest =>
      if code c =? 34 then Some (flush, rest)
      else if code c =? 92 then
        match rest with
        | EmptyString => None
        | String d rest =>
            if code d =? 117 then
              match rest with
              | String x (String y (String z (String w rest))) =>
                  if is_hex x && is_hex y && is_hex z && is_hex w then
                    let u := ((hex_value x * 16 + hex_value y) * 16 + hex_value z) * 16 + hex_value w in
                    if (55296 <=? u) && (u <? 56320) then prepend flush (string_body (Some u) rest)
                    else match pending with
                         | Some h =>
                             if (56320 <=? u) && (u <? 57344)
                             then prepend (utf8 (65536 + (h - 55296) * 1024 + (u - 56320))) (string_body None rest)
                             else prepend (flush +:+ utf8 u) (string_body None rest)
                         | None => prepend (utf8 u) (string_body None rest)
                         end
                  else None
              | _ => None
              end
            else match simple_escape d with
                 | Some e => prepend (flush +:+ String e "") (string_body None rest)
                 | None => None
                 end
        end
      else if code c <? 32 then None
      else prepend (flush +:+ String c "") (string_body None rest)
  end.

(** The grammar of numerals: a sign, digits without a leading zero, a fraction, an exponent *)
Definition digits1 (s : string) : option string :=
  let '(d, rest) := span is_digit s in if d === "" then None else Some rest.
Definition numeral (s : string) : bool :=
  let s := match s with String c rest => if code c =? 45 then rest else s | EmptyString => s end in
  let after_integer := match s with String c rest => if code c =? 48 then Some rest else digits1 s | EmptyString => None end in
  let after_fraction :=
    match after_integer with
    | Some (String c rest) => if code c =? 46 then digits1 rest else after_integer
    | o => o
    end in
  let after_exponent :=
    match after_fraction with
    | Some (String c rest) =>
        if (code c =? 101) || (code c =? 69) then
          match rest with
          | String d rest' => if (code d =? 43) || (code d =? 45) then digits1 rest' else digits1 rest
          | EmptyString => None
          end
        else after_fraction
    | o => o
    end in
  after_exponent === Some "".
Definition numeral_char (c : ascii) : bool :=
  is_digit c || (code c =? 45) || (code c =? 43) || (code c =? 46) || (code c =? 101) || (code c =? 69).

Section Parse.
(** The numbers of numerals that are not canonical safe integers *)
Context (other_numbers : string -> jsnumber).

Definition number_of_text (s : string) : jsnumber :=
  if canonical_decimal s && (dec_value s <=? MAX_SAFE_INTEGER) then Safe (dec_value s) else other_numbers s.

(** ** Values: an array or object goes on after its opening character or a comma. *)

Fixpoint parse_value (fuel : nat) (s : string) {struct fuel} : option (value * string) :=
  match fuel with
  | O => None
  | S fuel =>
      let s := skip_space s in
      match s with
      | EmptyString => None
      | String c rest =>
          if code c =? 34 then '(t, rest) ← string_body None rest; Some (VString t, rest)
          else if code c =? 91 then
            match skip_space rest with
            | String d rest' =>
                if code d =? 93 then Some (VArray [], rest')
                else '(items, rest) ← parse_items fuel rest; Some (VArray items, rest)
            | EmptyString => None
            end
          else if code c =? 123 then
            match skip_space rest with
            | String d rest' =>
                if code d =? 125 then Some (VObject [], rest')
                else '(fields, rest) ← parse_members fuel rest;
                     (* a repeated name keeps its place and takes the last value *)
                     Some (VObject (foldl (fun m kv => map_set kv.1 kv.2 m) [] fields), rest)
            | EmptyString => None
            end
          else if numeral_char c then
            let '(t, rest) := span numeral_char s in
            if numeral t then Some (VNumber (number_of_text t), rest) else None
          else match strip "true" s, strip "false" s, strip "null" s with
               | Some rest, _, _ => Some (VBool true, rest)
               | _, Some rest, _ => Some (VBool false, rest)
               | _, _, Some rest => Some (VNull, rest)
               | _, _, _ => None
               end
      end
  end
with parse_items (fuel : nat) (s : string) {struct fuel} : option (list value * string) :=
  match fuel with
  | O => None
  | S fuel =>
      '(v, rest) ← parse_value fuel s;
      match skip_space rest with
      | String d rest =>
          if code d =? 44 then '(l, rest) ← parse_items fuel rest; Some (v :: l, rest)
          else if code d =? 93 then Some ([v], rest) else None
      | EmptyString => None
      end
  end
with parse_members (fuel : nat) (s : string) {struct fuel} : option (list (string * value) * string) :=
  match fuel with
  | O => None
  | S fuel =>
      match skip_space s with
      | String q rest =>
          if code q =? 34 then
            '(k, rest) ← string_body None rest;
            match skip_space rest with
            | String d rest =>
                if code d =? 58 then
                  '(v, rest) ← parse_value fuel rest;
                  match skip_space rest with
                  | String d rest =>
                      if code d =? 44 then '(l, rest) ← parse_members fuel rest; Some ((k, v) :: l, rest)
                      else if code d =? 125 then Some ([(k, v)], rest) else None
                  | EmptyString => None
                  end
                else None
            | EmptyString => None
            end
          else None
      | EmptyString => None
      end
  end.
Definition parse_fuel (s : string) : nat := S (S (2 * String.length s)).
Definition JSON_parse (text : string) : result value :=
  match parse_value (parse_fuel text) text with
  | Some (v, rest) => if skip_space rest === "" then Ok v else Throw (Error "SyntaxError")
  | None => Throw (Error "SyntaxError")
  end.

(** ** Conversions *)

(** [array.join(",")], where null reads as the empty text *)
Fixpoint join_texts (l : list (result string)) : result string :=
  match l with
  | [] => Ok ""
  | [t] => t
  | t :: l => a ← t; b ← join_texts l; Ok (a +:+ "," +:+ b)
  end.
(** [String(value)]; a property of the object shadows the method that would convert it. *)
Fixpoint js_String (v : value) : result string :=
  match v with
  | VNull => Ok "null"
  | VBool b => Ok (if b then "true" else "false")
  | VNumber (Safe n) => Ok (toString n)
  | VNumber (Unsafe t) => Ok t
  | VString s => Ok s
  | VArray items => join_texts (map (fun i => match i with VNull => Ok "" | _ => js_String i end) items)
  | VObject fields =>
      _ ← throw_if (map_has "toString" fields) "Cannot convert object to primitive value"; Ok "[object Object]"
  end.
(** [Number(value)]: [Some n] when it is the safe integer [n] *)
Definition safe_integer (n : jsnumber) : option Z := match n with Safe n => Some n | Unsafe _ => None end.
Definition js_Number (v : value) : result (option Z) :=
  match v with
  | VNull => Ok (Some 0)
  | VBool b => Ok (Some (if b then 1 else 0))
  | VNumber n => Ok (safe_integer n)
  | VString s => Ok (safe_integer (number_of_text s))
  | VArray _ => s ← js_String v; Ok (safe_integer (number_of_text s))
  | VObject _ => _ ← js_String v; Ok None
  end.
End Parse.

(** ** Bytes of hexadecimal text *)

(** [Buffer.from(text, "hex")]: up to the first pair that is not hexadecimal *)
Fixpoint Buffer_from_hex (s : string) : bytes :=
  match s with
  | String a (String b rest) => if is_hex a && is_hex b then byte_of (hex_value a * 16 + hex_value b) :: Buffer_from_hex rest else []
  | _ => []
  end.

(** * Theorems *)

Abbreviation len := String.length.

Lemma skip_space_length s : (len (skip_space s) <= len s)%nat.
Proof. induction s as [|c s IH]; cbn [skip_space]; [done|]. destruct (is_space c); cbn [String.length]; lia. Qed.
Lemma span_length p s a b : span p s = (a, b) -> len s = (len a + len b)%nat.
Proof.
  revert a b. induction s as [|c s IH]; intros a b; cbn [span]; [by intros [= <- <-]|].
  destruct (p c); [|by intros [= <- <-]]. destruct (span p s) as [a' b'] eqn:E. intros [= <- <-]. cbn [String.length].
  by rewrite (IH _ _ eq_refl).
Qed.
Lemma prepend_some a o t r : prepend a o = Some (t, r) <-> exists t', o = Some (t', r) /\ t = a +:+ t'.
Proof. destruct o as [[]|]; cbn; naive_solver. Qed.
Lemma string_body_length s : forall pending t r, string_body pending s = Some (t, r) -> (len r < len s)%nat.
Proof.
  induction s as [s IH] using (induction_ltof1 _ len). unfold ltof in IH. intros pending t r. destruct s as [|c s]; cbn [string_body]; [done|].
  assert (forall u pending a t, (len u < S (len s))%nat -> prepend a (string_body pending u) = Some (t, r) -> (len r < len u)%nat) as Hrec.
  { intros u p a t' Hu (t2 & H & _)%prepend_some. by eapply IH, H. }
  destruct (code c =? 34); [intros [= _ <-]; cbn [String.length]; lia|].
  destruct (code c =? 92).
  - destruct s as [|d s]; [done|]. destruct (code d =? 117).
    + destruct s as [|x [|y [|z [|w s]]]]; try done. cbn [String.length] in *. destruct (_ && is_hex w); [|done].
      destruct (_ && _); [intros H; apply Hrec in H; lia|]. destruct pending; [|intros H; apply Hrec in H; lia].
      destruct (_ && _); intros H; apply Hrec in H; lia.
    + destruct (simple_escape d); [|done]. intros H; apply Hrec in H; cbn [String.length] in *; lia.
  - destruct (_ <? _); [done|]. intros H; apply Hrec in H; cbn [String.length] in *; lia.
Qed.
Lemma strip_length p s r : strip p s = Some r -> (len r + len p = len s)%nat.
Proof.
  revert s. induction p as [|c p IH]; intros s; cbn [strip]; [intros [= ->]; cbn; lia|].
  destruct s as [|d s]; [done|]. destruct (Ascii.eqb c d); [|done]. intros H%IH. cbn [String.length]. lia.
Qed.

Section ParserLength.
Context (other_numbers : string -> jsnumber).
Abbreviation parse_value := (parse_value other_numbers).
Abbreviation parse_items := (parse_items other_numbers).
Abbreviation parse_members := (parse_members other_numbers).

Ltac parser_step :=
  repeat match goal with
  | H : mbind _ _ = Some _ |- _ => apply bind_Some in H as ([? ?] & ? & H)
  | H : Some _ = Some _ |- _ => injection H as H; subst
  | H : None = Some _ |- _ => discriminate H
  | H : context [match skip_space ?s with _ => _ end] |- _ => destruct (skip_space s) eqn:?
  | H : context [if ?b then _ else _] |- _ => destruct b eqn:?
  end.
(** The lengths of what the parts of a parser leave *)
Ltac lengths :=
  repeat match goal with
  | H : skip_space ?s = _ |- _ => let L := fresh "L" in pose proof (skip_space_length s) as L; rewrite H in L; clear H
  | H : string_body _ _ = Some _ |- _ => apply string_body_length in H
  end; cbn [String.length] in *.

Lemma parse_shorter n s :
  (forall v r, parse_value n s = Some (v, r) -> (len r < len s)%nat) /\
  (forall l r, parse_items n s = Some (l, r) -> (len r < len s)%nat) /\
  (forall l r, parse_members n s = Some (l, r) -> (len r < len s)%nat).
Proof using.
  revert s. induction n as [|n IH]; intros s; [done|].
  assert (forall s v r, parse_value n s = Some (v, r) -> (len r < len s)%nat) as Hv by apply IH.
  assert (forall s l r, parse_items n s = Some (l, r) -> (len r < len s)%nat) as Hi by apply IH.
  assert (forall s l r, parse_members n s = Some (l, r) -> (len r < len s)%nat) as Hm by apply IH.
  clear IH. cbn [JsonText.parse_value JsonText.parse_items JsonText.parse_members]. cbv zeta. split_and!.
  - intros v r H. destruct (skip_space s) as [|c rest] eqn:Es; [done|]. pose proof (skip_space_length s) as L0. rewrite Es in L0.
    cbn [String.length] in L0. destruct (code c =? 34); [parser_step; lengths; lia|].
    destruct (code c =? 91); [parser_step; lengths; repeat match goal with H : parse_items _ _ = Some _ |- _ => apply Hi in H end; lia|].
    destruct (code c =? 123); [parser_step; lengths; repeat match goal with H : parse_members _ _ = Some _ |- _ => apply Hm in H end; lia|].
    destruct (numeral_char c) eqn:Ec.
    + destruct (span _ _) as [t u] eqn:Et. parser_step. pose proof (span_length _ _ _ _ Et) as L. cbn [span] in Et.
      rewrite Ec in Et. destruct (span numeral_char rest) in Et. injection Et as <- <-. cbn [String.length] in L. lia.
    + destruct (strip "true" _) as [u|] eqn:E1; [apply strip_length in E1; parser_step; cbn [String.length] in E1; lia|].
      destruct (strip "false" _) as [u|] eqn:E2; [apply strip_length in E2; parser_step; cbn [String.length] in E2; lia|].
      destruct (strip "null" _) as [u|] eqn:E3; [apply strip_length in E3; parser_step; cbn [String.length] in E3; lia|done].
  - intros l r H. parser_step; lengths;
      repeat match goal with H : parse_items _ _ = Some _ |- _ => apply Hi in H | H : parse_value _ _ = Some _ |- _ => apply Hv in H end; lia.
  - intros l r H. parser_step; lengths;
      repeat match goal with H : parse_members _ _ = Some _ |- _ => apply Hm in H | H : parse_value _ _ = Some _ |- _ => apply Hv in H end; lia.
Qed.
End ParserLength.

Section ParserFuel.
Context (other_numbers : string -> jsnumber).
Abbreviation parse_value := (parse_value other_numbers).
Abbreviation parse_items := (parse_items other_numbers).
Abbreviation parse_members := (parse_members other_numbers).

Lemma option_bind_ext {A B} (o : option A) (f g : A -> option B) :
  (forall x, o = Some x -> f x = g x) -> o ≫= f = o ≫= g.
Proof using. destruct o; cbn; auto. Qed.
(** Unfolds the parser once on both sides. *)
Ltac unfold_parser f :=
  match goal with |- _ (S ?m) _ = _ =>
    let k := fresh in let L := fresh in remember m as k; cbn [f]; cbv zeta;
    match goal with |- ?l = _ => set (L := l) end; subst k; cbn [f]; cbv zeta; subst L
  end.
Lemma parse_fuel_step n s :
  ((2 * len s < n)%nat -> parse_value (S n) s = parse_value n s) /\
  ((S (2 * len s) < n)%nat -> parse_items (S n) s = parse_items n s) /\
  ((S (2 * len s) < n)%nat -> parse_members (S n) s = parse_members n s).
Proof using.
  revert s. induction n as [|n IH]; intros s; [split_and!; lia|].
  assert (forall s, (2 * len s < n)%nat -> parse_value (S n) s = parse_value n s) as Hv by apply IH.
  assert (forall s, (S (2 * len s) < n)%nat -> parse_items (S n) s = parse_items n s) as Hi by apply IH.
  assert (forall s, (S (2 * len s) < n)%nat -> parse_members (S n) s = parse_members n s) as Hm by apply IH.
  clear IH. split_and!; intros Hn.
  - unfold_parser JsonText.parse_value.
    pose proof (skip_space_length s) as L0. destruct (skip_space s) as [|c rest]; [done|]. cbn [String.length] in L0.
    rewrite Hi, Hm by lia. done.
  - unfold_parser JsonText.parse_items. rewrite Hv by lia.
    apply option_bind_ext. intros [v r] Hr. cbv beta iota. apply (parse_shorter _ n s) in Hr. pose proof (skip_space_length r).
    destruct (skip_space r) as [|d u]; [done|]. cbn [String.length] in *. rewrite Hi by lia. done.
  - unfold_parser JsonText.parse_members.
    pose proof (skip_space_length s). destruct (skip_space s) as [|q rest]; [done|]. cbn [String.length] in *.
    destruct (_ =? 34); [|done]. apply option_bind_ext. intros [k r] Hk%string_body_length. cbv beta iota. pose proof (skip_space_length r).
    destruct (skip_space r) as [|d u]; [done|]. cbn [String.length] in *. destruct (_ =? 58); [|done]. rewrite Hv by lia.
    apply option_bind_ext. intros [v r'] Hr. cbv beta iota. apply (parse_shorter _ n u) in Hr. pose proof (skip_space_length r').
    destruct (skip_space r') as [|e w]; [done|]. cbn [String.length] in *. rewrite Hm by lia. done.
Qed.
(** The fuel of [JSON_parse] is enough: more makes no difference. *)
Lemma parse_fuel_enough s n : (parse_fuel s <= n)%nat -> parse_value n s = parse_value (parse_fuel s) s.
Proof using.
  induction 1 as [|n Hn IH]; [done|]. rewrite <- IH. apply parse_fuel_step. unfold parse_fuel in Hn. lia.
Qed.
End ParserFuel.

(** ** Parsing inverts [JSON.stringify] *)

(** The value a tree stands for *)
Fixpoint value_of (j : json) : value :=
  match j with
  | JUndefined | JNull => VNull
  | JBool b => VBool b
  | JNumber z => VNumber (Safe z)
  | JString s => VString s
  | JArray items => VArray (map value_of items)
  | JObject fields => VObject (map (fun kv => (kv.1, value_of kv.2)) fields)
  end.
(** Trees without [undefined], with natural safe integers and distinct names *)
Fixpoint readable (j : json) : bool :=
  match j with
  | JUndefined => false
  | JNumber z => (0 <=? z) && (z <=? MAX_SAFE_INTEGER)
  | JArray items => forallb readable items
  | JObject fields => bool_decide (NoDup (map fst fields)) && forallb (fun kv => readable kv.2) fields
  | _ => true
  end.

Lemma forallb_Forall {A} (p : A -> bool) l : forallb p l = true -> Forall (fun x => p x = true) l.
Proof. rewrite forallb_elem. by rewrite Forall_forall. Qed.
Lemma readable_dense j : readable j = true -> dense j = true.
Proof.
  induction j as [| |b|z|s|items IH|fields IH] using json_tree_ind; cbn [readable dense]; try done; rewrite Forall_forall in IH.
  - rewrite !forallb_elem. intros H x Hx. rewrite IH by auto. specialize (H x Hx). by destruct x.
  - intros [_ H]%andb_true_iff. rewrite forallb_elem in *. auto.
Qed.
Lemma string_body_char c u : string_body None (escape_char c +:+ u) = prepend (String c "") (string_body None u).
Proof. destruct c as [[] [] [] [] [] [] [] []]; reflexivity. Qed.
Lemma string_body_escape s r : string_body None (escape s +:+ dquote +:+ r) = Some (s, r).
Proof.
  induction s as [|c s IH]; [reflexivity|]. cbn [escape]. by rewrite append_assoc, string_body_char, IH.
Qed.
Lemma span_all p a b : string_forall p a = true -> match b with String c _ => p c = false | EmptyString => True end -> span p (a +:+ b) = (a, b).
Proof.
  intros Ha Hb. induction a as [|c a IH].
  - rewrite append_nil. destruct b as [|c b]; [done|]. cbn [span]. by rewrite Hb.
  - cbn [string_forall] in Ha. apply andb_true_iff in Ha as [Hc Ha]. rewrite append_cons. cbn [span]. by rewrite Hc, IH.
Qed.
Lemma digits1_all s : string_forall is_digit s = true -> s <> "" -> digits1 s = Some "".
Proof.
  intros Hs Hn. unfold digits1. rewrite <- (append_nil_r s) at 1. rewrite span_all by done. by rewrite bool_decide_eq_false_2.
Qed.
Lemma canonical_numeral s : canonical_decimal s = true -> numeral s = true.
Proof.
  destruct s as [|c s]; [done|]. intros H. pose proof (canonical_digits _ H) as Hd. unfold canonical_decimal in H.
  apply andb_true_iff in H as [_ H]. pose proof Hd as Hd'. cbn [string_forall] in Hd'. apply andb_true_iff in Hd' as [Hc Hs].
  unfold is_digit, in_range in Hc. unfold numeral. replace (code c =? 45) with false by lia. cbv zeta.
  destruct (code c =? 48) eqn:Ec.
  - rewrite byte_length_cons, orb_false_r in H. assert (s = "") as -> by (destruct s; [done|rewrite byte_length_cons in H; pose proof (byte_length_nonneg s); lia]).
    done.
  - rewrite digits1_all by done. done.
Qed.
Lemma render_skip j r : readable j = true -> skip_space (render j +:+ r) = render j +:+ r.
Proof.
  destruct j as [| |[]|z|s|l|l]; intros H; try done; cbn [readable render] in *; inv_bool.
  destruct (toString_spec z ltac:(lia)) as [Hc _]. destruct (toString z) as [|c t]; [done|].
  apply canonical_digits in Hc. rewrite append_cons. cbn [skip_space string_forall] in *. apply andb_true_iff in Hc as [Hc _].
  unfold is_space, is_digit, in_range in *. by replace (_ || _) with false by lia.
Qed.
Lemma delimited_skip r : delimited r = true -> skip_space r = r.
Proof. destruct r as [|c r]; [done|]. cbn. unfold delimiter, is_space. intros H. by replace (_ || _) with false by lia. Qed.

Section RoundTrip.
Context (other_numbers : string -> jsnumber).
Abbreviation parse_value := (parse_value other_numbers).
Abbreviation parse_items := (parse_items other_numbers).
Abbreviation parse_members := (parse_members other_numbers).
(** The text of [j] is read back, whatever follows. *)
Definition reads (j : json) : Prop :=
  forall n r, delimited r = true -> (2 * len (render j +:+ r) < n)%nat -> parse_value n (render j +:+ r) = Some (value_of j, r).

Ltac text_lengths := repeat (rewrite ?length_append in *; cbn [String.length] in *); lia.
Lemma join_cons {A} (f : A -> string) x l t :
  join "," (map f (x :: l)) +:+ t = f x +:+ match l with [] => t | _ => "," +:+ join "," (map f l) +:+ t end.
Proof using. destruct l; cbn [map join]; [done|]. by rewrite !append_assoc. Qed.
Lemma parse_items_render l r n :
  l <> [] -> Forall reads l -> Forall (fun j => readable j = true) l ->
  (S (2 * len (join "," (map render l) +:+ "]" +:+ r)) < n)%nat ->
  parse_items n (join "," (map render l) +:+ "]" +:+ r) = Some (map value_of l, r).
Proof using.
  revert n. induction l as [|x l IH]; intros n Hne Hl Hr Hn; [done|]. apply Forall_cons in Hl as [Hx Hl], Hr as [Hrx Hr].
  rewrite join_cons in *. destruct n as [|n]; [lia|]. cbn [JsonText.parse_items].
  destruct l as [|y l].
  - rewrite Hx by (done || lia). done.
  - rewrite Hx by (done || lia). cbn [mbind option_bind]. rewrite delimited_skip by done.
    change ("," +:+ ?t) with (String "," t). cbn [map]. change (code ",") with 44. cbn [Z.eqb Pos.eqb].
    rewrite IH; [done|done|done|done|]. text_lengths.
Qed.
Lemma member_text (kv : string * json) t : (quote kv.1 +:+ ":" +:+ render kv.2) +:+ t =
  String (ascii_of_nat 34) (escape kv.1 +:+ dquote +:+ String ":" (render kv.2 +:+ t)).
Proof using. unfold quote. by rewrite !append_assoc. Qed.
Lemma parse_members_render l r n :
  l <> [] -> Forall (fun kv : string * json => reads kv.2) l -> Forall (fun kv : string * json => readable kv.2 = true) l ->
  (S (2 * len (join "," (map (fun kv => quote kv.1 +:+ ":" +:+ render kv.2) l) +:+ "}" +:+ r)) < n)%nat ->
  parse_members n (join "," (map (fun kv => quote kv.1 +:+ ":" +:+ render kv.2) l) +:+ "}" +:+ r)
    = Some (map (fun kv => (kv.1, value_of kv.2)) l, r).
Proof using.
  revert n. induction l as [|[k j] l IH]; intros n Hne Hl Hr Hn; [done|]. apply Forall_cons in Hl as [Hx Hl], Hr as [Hrx Hr].
  cbn [snd] in Hx, Hrx. rewrite join_cons, member_text in *. cbn [fst snd] in *. destruct n as [|n]; [lia|]. cbn [JsonText.parse_members].
  change (skip_space (String (ascii_of_nat 34) ?t)) with (String (ascii_of_nat 34) t).
  change (code (ascii_of_nat 34) =? 34) with true. cbv beta iota. rewrite string_body_escape. cbn [mbind option_bind].
  change (skip_space (String ":" ?t)) with (String ":" t). change (code ":" =? 58) with true. cbv beta iota.
  destruct l as [|y l].
  - rewrite Hx by (done || text_lengths). done.
  - rewrite Hx by (done || text_lengths). cbn [mbind option_bind]. rewrite delimited_skip by done.
    change ("," +:+ ?t) with (String "," t). cbn [map]. change (code "," =? 44) with true. cbv beta iota.
    rewrite IH; [done|done|done|done|]. text_lengths.
Qed.
Lemma items_head x l t : readable x = true ->
  exists c u, skip_space (join "," (map render (x :: l)) +:+ t) = String c u /\ delimiter c = false.
Proof using.
  intros Hx. rewrite join_cons, render_skip by done. destruct (render_head x ltac:(by intros ->)) as (c & u & -> & Hc).
  rewrite append_cons. eauto.
Qed.
Lemma map_set_all {V} (l m : list (string * V)) :
  NoDup (map fst l) -> (forall k, k ∈ map fst l -> k ∉ map fst m) -> foldl (fun m kv => map_set kv.1 kv.2 m) m l = m ++ l.
Proof using.
  revert m. induction l as [|[k v] l IH]; intros m Hn Hm; cbn [foldl map fst]; [by rewrite app_nil_r|].
  cbn [map fst] in Hn. apply NoDup_cons in Hn as [Hk Hn]. cbn [snd]. rewrite map_set_fresh by (apply Hm; by left).
  rewrite IH; [by rewrite <- app_assoc|done|]. intros k' Hk'. rewrite map_app, elem_of_app. cbn [map fst].
  intros [H|H%list_elem_of_singleton]; [|by subst]. apply (Hm k'); [by right|done].
Qed.
Lemma parse_render j : readable j = true -> reads j.
Proof using.
  induction j as [| |[]|z|s|items IH|fields IH] using json_tree_ind; intros Hj n r Hr Hn; (destruct n as [|n]; [lia|]);
    cbn [JsonText.parse_value]; cbv zeta; rewrite render_skip by done; try done.
  - cbn [readable] in Hj. inv_bool. destruct (toString_spec z ltac:(lia)) as [Hc Hv]. cbn [render].
    pose proof (canonical_digits _ Hc) as Hd. pose proof (canonical_numeral _ Hc) as Hnum.
    assert (span numeral_char (toString z +:+ r) = (toString z, r)) as Hs.
    { apply span_all; [|destruct r as [|c r]; [done|]; cbn in Hr; unfold delimiter, numeral_char, is_digit, in_range in *; lia].
      clear -Hd. induction (toString z) as [|c s IH]; [done|]. cbn [string_forall] in *. apply andb_true_iff in Hd as [Hc Hs].
      rewrite IH by done. unfold numeral_char. by rewrite Hc. }
    rewrite Hs. destruct (toString z) as [|c t] eqn:Et; [done|]. rewrite append_cons. cbn [string_forall] in Hd.
    apply andb_true_iff in Hd as [Hcd _]. unfold is_digit, in_range in Hcd. decide_guards.
    replace (numeral_char c) with true by (unfold numeral_char, is_digit, in_range; lia).
    rewrite Hnum. unfold number_of_text. rewrite Hc, Hv. by replace (z <=? MAX_SAFE_INTEGER) with true by lia.
  - cbn [render]. unfold quote. rewrite !append_assoc. change (dquote +:+ ?t) with (String (ascii_of_nat 34) t).
    change (code (ascii_of_nat 34) =? 34) with true. cbv beta iota. change (String (ascii_of_nat 34) r) with (dquote +:+ r).
    by rewrite string_body_escape.
  - pose proof (readable_dense _ Hj) as Hd. cbn [dense readable] in Hd, Hj. rewrite render_array, !append_assoc in * by done.
    change ("[" +:+ ?t) with (String "[" t) in *. cbn [String.length] in Hn. cbv beta iota. match goal with |- (if _ then _ else if _ then ?c else _) = ?v => change (c = v) end.
    destruct items as [|x items]; [done|]. apply forallb_Forall in Hj.
    destruct (items_head x items ("]" +:+ r)) as (c & t & Hc & Hcd); [by apply Forall_cons in Hj as [? _]|].
    rewrite Hc at 1. replace (code c =? 93) with false by (unfold delimiter in Hcd; lia).
    rewrite parse_items_render; [done|done| |done|lia]. apply Forall_forall. intros y Hy. rewrite Forall_forall in IH, Hj. auto.
  - cbn [readable render] in *. inv_bool. rewrite !append_assoc in *. change ("{" +:+ ?t) with (String "{" t) in *.
    cbn [String.length] in Hn. cbv beta iota. match goal with |- (if _ then _ else if _ then _ else if _ then ?c else _) = ?v => change (c = v) end.
    destruct fields as [|x fields]; [done|]. apply forallb_Forall in H0.
    assert (skip_space (join "," (map (fun kv => quote kv.1 +:+ ":" +:+ render kv.2) (x :: fields)) +:+ "}" +:+ r)
      = join "," (map (fun kv => quote kv.1 +:+ ":" +:+ render kv.2) (x :: fields)) +:+ "}" +:+ r) as Hs.
    { rewrite join_cons, member_text. done. }
    rewrite Hs. rewrite join_cons, member_text at 1. change (code (ascii_of_nat 34) =? 125) with false. cbv beta iota.
    rewrite parse_members_render; [|done| |done|lia].
    + cbn [mbind option_bind value_of]. rewrite map_set_all; [done| |set_solver]. rewrite map_map. done.
    + apply Forall_forall. intros y Hy. rewrite Forall_forall in IH, H0. auto.
Qed.
(** [JSON.parse(JSON.stringify(j))] is [j]. *)
Lemma JSON_roundtrip j : readable j = true -> JSON_parse other_numbers (render j) = Ok (value_of j).
Proof using.
  intros Hj. unfold JSON_parse. rewrite <- (append_nil_r (render j)) at 2.
  rewrite (parse_render j Hj) by (done || (rewrite append_nil_r; unfold parse_fuel; lia)). done.
Qed.
End RoundTrip.

(** ** Concrete texts *)

Definition no_numbers (s : string) : jsnumber := Unsafe s.
Definition quotes (s : string) : string :=
  string_of_list_ascii (map (fun c => if (c =? "'")%char then ascii_of_nat 34 else c) (list_ascii_of_string s)).
Example parse_nested : JSON_parse no_numbers (quotes " {'a' : [1, -2, {}, null],'b':true, 'a':'x\u00e9\ud83d\ude00\n' } ")
  = Ok (VObject [("a", VString ("x" +:+ utf8 233 +:+ utf8 128512 +:+ String (ascii_of_nat 10) "")); ("b", VBool true)]).
Proof. vm_compute. reflexivity. Qed.
Example parse_numbers : JSON_parse no_numbers "[0,12,1.5e+3,9007199254740992]"
  = Ok (VArray [VNumber (Safe 0); VNumber (Safe 12); VNumber (Unsafe "1.5e+3"); VNumber (Unsafe "9007199254740992")]).
Proof. vm_compute. reflexivity. Qed.
Example parse_errors : Forall (fun s => is_ok (JSON_parse no_numbers (quotes s)) = false)
  ["[1,]"; "01"; "1."; "[1"; "{'a'}"; "{a:1}"; "'\x'"; "[] []"; ""; "tru"; "+1"; "[,1]"].
Proof. repeat constructor. Qed.
