(* ===== verification/Authorization.v ===== *)
(** * Payment authorizations

    Models what the payer signs beside the chain transaction:
    [protocol/packages/core/src/exact-authorization.ts] (exact requests and their deadlines),
    [batch-presentation.ts] (presentations of a voucher) and [batch-authorization.ts] (batch
    payment intents and the payer's caps).  [nowMs] is an argument; [Date.parse] is that of
    Dates.v. *)

From S2P Require Import Prelude Amount BatchLane Json Binary ResourceBudget Commitment Dates.

(** ** Exact requests *)

Definition EXACT_REQUEST_AUTHORIZATION_VERSION : string := "kaspa-x402-exact-request-authorization-v2".
Record ExactRequestAuthorization := {
  xa_version : string;
  xa_inputIndex : Z;
  xa_expiresAt : string;
  xa_digest : string;
  xa_signature : string
}.
Record ExactRequestAuthorizationDigestInput := {
  xi_network : string;
  xi_profile : string;
  xi_transactionId : string;
  xi_paymentOutputIndex : Z;
  xi_amount : string;
  xi_payTo : string;
  xi_payToScriptPublicKey : string;
  xi_paymentRequirementsHash : string;
  xi_requestHash : string;
  xi_paymentIdentifier : string;
  xi_challengeId : option string;
  xi_inputIndex : Z;
  xi_expiresAt : string
}.
(** [text ?? null] *)
Definition jnullable (o : option string) : json := match o with Some s => JString s | None => JNull end.
Definition exact_authorization_json (input : ExactRequestAuthorizationDigestInput) : json :=
  JObject [("scope", JString EXACT_REQUEST_AUTHORIZATION_VERSION); ("network", JString (xi_network input));
           ("profile", JString (xi_profile input)); ("transactionId", JString (toLowerCase (xi_transactionId input)));
           ("paymentOutputIndex", JNumber (xi_paymentOutputIndex input)); ("amount", JString (xi_amount input));
           ("payTo", JString (xi_payTo input));
           ("payToScriptPublicKey", JString (toLowerCase (xi_payToScriptPublicKey input)));
           ("paymentRequirementsHash", JString (toLowerCase (xi_paymentRequirementsHash input)));
           ("requestHash", JString (toLowerCase (xi_requestHash input)));
           ("paymentIdentifier", JString (xi_paymentIdentifier input));
           ("challengeId", jnullable (toLowerCase <$> xi_challengeId input)); ("inputIndex", JNumber (xi_inputIndex input));
           ("expiresAt", JString (xi_expiresAt input))].
Definition exactRequestAuthorizationPreimage (input : ExactRequestAuthorizationDigestInput) : result string :=
  stableStringify (exact_authorization_json input).

Inductive ExactAuthorizationExpiryError :=
  | invalid_max_timeout
  | invalid_authorization_expiry
  | expired_authorization
  | authorization_exceeds_max_timeout
  | invalid_challenge_expiry
  | expired_challenge
  | authorization_exceeds_challenge.
#[export] Instance exact_expiry_eq_dec : EqDecision ExactAuthorizationExpiryError.
Proof. solve_decision. Defined.
Record ExactAuthorizationExpiryInput := {
  xe_maxTimeoutSeconds : Z;
  xe_authorizationExpiresAt : string;
  xe_challengeExpiresAt : option string;
  xe_nowMs : Z
}.

Section Deadlines.
Context (other_dates : string -> option Z).
Notation Date_parse := (Date_parse other_dates).

Definition exactAuthorizationExpiresAt (maxTimeoutSeconds : Z) (challengeExpiresAt : option string) (nowMs : Z) : result string :=
  _ ← throw_if (maxTimeoutSeconds <=? 0) "maxTimeoutSeconds must be a positive integer";
  let timeoutExpiresAt := nowMs + maxTimeoutSeconds * 1000 in
  match challengeExpiresAt with
  | None => toISOString timeoutExpiresAt
  | Some text =>
      let message := "challengeExpiresAt must be a future timestamp" in
      match Date_parse text with
      | None => Throw (Error message)
      | Some challenge => _ ← throw_if (challenge <=? nowMs) message; toISOString (Z.min timeoutExpiresAt challenge)
      end
  end.

(** [Some] error, or [undefined] *)
Definition exactAuthorizationExpiryError (input : ExactAuthorizationExpiryInput) : option ExactAuthorizationExpiryError :=
  let nowMs := xe_nowMs input in
  if xe_maxTimeoutSeconds input <=? 0 then Some invalid_max_timeout else
  match Date_parse (xe_authorizationExpiresAt input) with
  | None => Some invalid_authorization_expiry
  | Some authorization =>
      if authorization <=? nowMs then Some expired_authorization else
      if nowMs + xe_maxTimeoutSeconds input * 1000 <? authorization then Some authorization_exceeds_max_timeout else
      match xe_challengeExpiresAt input with
      | None => None
      | Some text =>
          match Date_parse text with
          | None => Some invalid_challenge_expiry
          | Some challenge =>
              if challenge <=? nowMs then Some expired_challenge else
              if challenge <? authorization then Some authorization_exceeds_challenge else None
          end
      end
  end.
End Deadlines.

(** ** Presentations *)

Definition BATCH_PRESENTATION_VERSION : string := "kaspa-x402-batch-presentation-v1".
Definition BATCH_PRESENTATION_SCOPE : string := "kaspa:x402:batch-presentation:v1".
Record BatchPresentationDigestInput := {
  pi_requestFingerprint : string;
  pi_acceptedRequirementsHash : string;
  pi_securityContextHash : string;
  pi_channelId : string;
  pi_covenantId : string;
  pi_voucherDigest : string;
  pi_paymentIdentifier : option string;
  pi_nonce : string;
  pi_expiresAt : string
}.
Record BatchPresentationAuthorization := {
  pa_version : string;
  pa_input : BatchPresentationDigestInput;
  pa_digest : string;
  pa_signature : string
}.
Definition batchPresentationDigestInput (authorization : BatchPresentationAuthorization) : BatchPresentationDigestInput :=
  pa_input authorization.

Definition hash32 (value label : string) : result string :=
  _ ← hexToBytes (Some 32) "invalid_kaspa_hex" label value; Ok (toLowerCase value).
Definition nonZeroHash32 (value label : string) : result string :=
  bytes ← hexToBytes (Some 32) "invalid_kaspa_hex" label value;
  _ ← throw_code_if (forallb (fun byte => code byte =? 0) bytes) "invalid_kaspa_x402_binding" (label +:+ " must not be zero");
  Ok (toLowerCase value).

(** [/^[0-9]{4}-[0-9]{2}-[0-9]{2}T[0-9]{2}:[0-9]{2}:[0-9]{2}(?:\.[0-9]{3})?Z$/]: [0] in a shape
    stands for a digit *)
Fixpoint shaped (shape text : list ascii) : bool :=
  match shape, text with
  | [], [] => true
  | p :: shape, c :: text => (if p =? "0" then is_digit c else p =? c)%char && shaped shape text
  | _, _ => false
  end.
Definition timestamp_pattern (value : string) : bool :=
  existsb (fun shape => shaped (list_ascii_of_string shape) (list_ascii_of_string value))
    ["0000-00-00T00:00:00Z"; "0000-00-00T00:00:00.000Z"].

Section Presentations.
Context (other_dates : string -> option Z).

Definition validTimestamp (value : string) : bool := timestamp_pattern value && isSome (Date_parse other_dates value).
Definition presentation_json (requestFingerprint acceptedRequirementsHash securityContextHash channelId covenantId voucherDigest : string)
    (paymentIdentifier : option string) (nonce expiresAt : string) : json :=
  JObject [("scope", JString BATCH_PRESENTATION_SCOPE); ("requestFingerprint", JString requestFingerprint);
           ("acceptedRequirementsHash", JString acceptedRequirementsHash);
           ("securityContextHash", JString securityContextHash); ("channelId", JString channelId);
           ("covenantId", JString covenantId); ("voucherDigest", JString voucherDigest);
           ("paymentIdentifier", jnullable paymentIdentifier); ("nonce", JString nonce); ("expiresAt", JString expiresAt)].
Definition batchPresentationPreimage (input : BatchPresentationDigestInput) : result string :=
  requestFingerprint ← hash32 (pi_requestFingerprint input) "requestFingerprint";
  acceptedRequirementsHash ← hash32 (pi_acceptedRequirementsHash input) "acceptedRequirementsHash";
  securityContextHash ← hash32 (pi_securityContextHash input) "securityContextHash";
  channelId ← hash32 (pi_channelId input) "channelId";
  covenantId ← nonZeroHash32 (pi_covenantId input) "covenantId";
  voucherDigest ← hash32 (pi_voucherDigest input) "voucherDigest";
  nonce ← hash32 (pi_nonce input) "nonce";
  _ ← throw_code_if (pi_paymentIdentifier input === Some "") "invalid_kaspa_x402_payload"
        "paymentIdentifier must be a non-empty string or null";
  _ ← throw_code_if (negb (validTimestamp (pi_expiresAt input))) "invalid_kaspa_x402_payload"
        "presentation expiresAt must be an ISO-8601 timestamp";
  stableStringify (presentation_json requestFingerprint acceptedRequirementsHash securityContextHash channelId covenantId
    voucherDigest (pi_paymentIdentifier input) nonce (pi_expiresAt input)).

Inductive BatchPresentationExpiryError :=
  | presentation_invalid_max_timeout
  | invalid_presentation_expiry
  | expired_presentation
  | presentation_exceeds_max_timeout.
Definition batchPresentationExpiryError (maxTimeoutSeconds : Z) (expiresAt : string) (nowMs : Z) : option BatchPresentationExpiryError :=
  if maxTimeoutSeconds <=? 0 then Some presentation_invalid_max_timeout else
  match Date_parse other_dates expiresAt with
  | None => Some invalid_presentation_expiry
  | Some expiresAt =>
      if expiresAt <=? nowMs then Some expired_presentation else
      if nowMs + maxTimeoutSeconds * 1000 <? expiresAt then Some presentation_exceeds_max_timeout else None
  end.
End Presentations.

(** ** Batch payment intents *)

Definition BATCH_PAYMENT_INTENT_SCOPE : string := "kaspa:x402:batch-payment-intent:v1".
Record BatchPaymentAuthorizationIntent := {
  bi_scope : string;
  bi_operation : string;
  bi_origin : string;
  bi_resource : string;
  bi_network : string;
  bi_asset : string;
  bi_payTo : string;
  bi_serverPublicKey : string;
  bi_clientPublicKey : option string;
  bi_requestFingerprint : string;
  bi_acceptedRequirementsHash : string;
  bi_securityContextHash : string;
  bi_fixedChargeSompi : string;
  bi_mcpErrorChargeSompi : option string;
  bi_authorizedCumulativeBefore : string;
  bi_authorizedCumulativeAfter : string;
  bi_claimedCumulativeAmount : string;
  bi_initialDepositSompi : string;
  bi_currentFundingSompi : string;
  bi_topUpSompi : string;
  bi_resultingFundingSompi : string;
  bi_resultingExposureSompi : string;
  bi_claimReserveSompi : string;
  bi_refundTimeoutDaa : string;
  bi_authoritativeCurrentDaa : string;
  bi_refundDistanceDaa : string;
  bi_fundingSource : string;
  bi_channelId : option string;
  bi_covenantId : option string;
  bi_paymentIdentifier : option string
}.
Record BatchPaymentAuthorizationPolicy := {
  bp_maximumBatchChargeSompi : string;
  bp_maximumInitialDepositSompi : string;
  bp_maximumTopUpSompi : string;
  bp_maximumCumulativeAuthorizationSompi : string;
  bp_maximumTotalExposureSompi : string;
  bp_minimumRefundLeadDaa : string;
  bp_maximumRefundHorizonDaa : string;
  bp_allowedOrigins : list string;
  bp_allowedResources : list string;
  bp_allowedPayTo : list string;
  bp_allowedServerPublicKeys : list string;
  bp_allowedFundingSources : list string
}.
Record ParsedIntentEconomics := {
  fixedCharge : Z;
  before : Z;
  after : Z;
  claimed : Z;
  initialDeposit : Z;
  currentFunding : Z;
  topUp : Z;
  resultingFunding : Z;
  resultingExposure : Z;
  reserve : Z;
  timeout : Z;
  currentDaa : Z;
  distance : Z;
  errorCharge : option Z
}.

(** [{scope: BATCH_PAYMENT_INTENT_SCOPE, ...}] with hexadecimal fields in lower case *)
Definition normalizedIntent (intent : BatchPaymentAuthorizationIntent) : json :=
  JObject [("scope", JString BATCH_PAYMENT_INTENT_SCOPE); ("operation", JString (bi_operation intent));
           ("origin", JString (bi_origin intent)); ("resource", JString (bi_resource intent));
           ("network", JString (bi_network intent)); ("asset", JString (bi_asset intent)); ("payTo", JString (bi_payTo intent));
           ("serverPublicKey", JString (toLowerCase (bi_serverPublicKey intent)));
           ("clientPublicKey", jnullable (toLowerCase <$> bi_clientPublicKey intent));
           ("requestFingerprint", JString (toLowerCase (bi_requestFingerprint intent)));
           ("acceptedRequirementsHash", JString (toLowerCase (bi_acceptedRequirementsHash intent)));
           ("securityContextHash", JString (toLowerCase (bi_securityContextHash intent)));
           ("fixedChargeSompi", JString (bi_fixedChargeSompi intent));
           ("mcpErrorChargeSompi", jnullable (bi_mcpErrorChargeSompi intent));
           ("authorizedCumulativeBefore", JString (bi_authorizedCumulativeBefore intent));
           ("authorizedCumulativeAfter", JString (bi_authorizedCumulativeAfter intent));
           ("claimedCumulativeAmount", JString (bi_claimedCumulativeAmount intent));
           ("initialDepositSompi", JString (bi_initialDepositSompi intent));
           ("currentFundingSompi", JString (bi_currentFundingSompi intent)); ("topUpSompi", JString (bi_topUpSompi intent));
           ("resultingFundingSompi", JString (bi_resultingFundingSompi intent));
           ("resultingExposureSompi", JString (bi_resultingExposureSompi intent));
           ("claimReserveSompi", JString (bi_claimReserveSompi intent));
           ("refundTimeoutDaa", JString (bi_refundTimeoutDaa intent));
           ("authoritativeCurrentDaa", JString (bi_authoritativeCurrentDaa intent));
           ("refundDistanceDaa", JString (bi_refundDistanceDaa intent)); ("fundingSource", JString (bi_fundingSource intent));
           ("channelId", jnullable (toLowerCase <$> bi_channelId intent));
           ("covenantId", jnullable (toLowerCase <$> bi_covenantId intent));
           ("paymentIdentifier", jnullable (bi_paymentIdentifier intent))].

Definition requireExistingLane (intent : BatchPaymentAuthorizationIntent) : result () :=
  throw_code_if (isNone (bi_channelId intent) || isNone (bi_covenantId intent) || isNone (bi_clientPublicKey intent))
    "invalid_kaspa_x402_payload" "existing-lane intent requires channel, covenant, and client public key".
(** [if (text !== null) check(text, label)] *)
Definition when_given {A} (check : string -> string -> result A) (text : option string) (label : string) : result () :=
  match text with Some s => _ ← check s label; Ok tt | None => Ok tt end.
Definition validateIntentShape (intent : BatchPaymentAuthorizationIntent) : result () :=
  _ ← throw_code_if (bi_scope intent !== BATCH_PAYMENT_INTENT_SCOPE) "invalid_kaspa_x402_binding" "unsupported batch payment intent scope";
  _ ← throw_code_if (negb (existsb (String.eqb (bi_operation intent)) ["open"; "charge"; "top-up"]))
        "invalid_kaspa_x402_payload" "unsupported batch payment operation";
  _ ← throw_code_if (negb (existsb (String.eqb (bi_network intent)) ["kaspa:testnet-10"; "kaspa:mainnet"]) || (bi_asset intent !== "KAS"))
        "invalid_kaspa_x402_binding" "batch payment intent must target supported native KAS";
  _ ← for_each (fun lv => throw_code_if (lv.2 === "") "invalid_kaspa_x402_payload" (lv.1 +:+ " must be non-empty"))
        [("origin", bi_origin intent); ("resource", bi_resource intent); ("payTo", bi_payTo intent);
         ("fundingSource", bi_fundingSource intent)];
  _ ← hash32 (bi_serverPublicKey intent) "serverPublicKey";
  _ ← when_given hash32 (bi_clientPublicKey intent) "clientPublicKey";
  _ ← hash32 (bi_requestFingerprint intent) "requestFingerprint";
  _ ← hash32 (bi_acceptedRequirementsHash intent) "acceptedRequirementsHash";
  _ ← hash32 (bi_securityContextHash intent) "securityContextHash";
  _ ← when_given hash32 (bi_channelId intent) "channelId";
  _ ← when_given nonZeroHash32 (bi_covenantId intent) "covenantId";
  _ ← (if bi_operation intent !== "open" then requireExistingLane intent else Ok tt);
  throw_code_if (bi_paymentIdentifier intent === Some "") "invalid_kaspa_x402_payload"
    "paymentIdentifier must be a non-empty string or null".
Definition validateIntentForDigest (intent : BatchPaymentAuthorizationIntent) : result ParsedIntentEconomics :=
  _ ← validateIntentShape intent;
  fixedCharge ← parseBatchLaneAmount (bi_fixedChargeSompi intent) "fixed charge";
  before ← parseBatchLaneAmount (bi_authorizedCumulativeBefore intent) "authorized cumulative before";
  after ← parseBatchLaneAmount (bi_authorizedCumulativeAfter intent) "authorized cumulative after";
  claimed ← parseBatchLaneAmount (bi_claimedCumulativeAmount intent) "claimed cumulative amount";
  initialDeposit ← parseBatchLaneAmount (bi_initialDepositSompi intent) "initial deposit";
  currentFunding ← parseBatchLaneAmount (bi_currentFundingSompi intent) "current funding";
  topUp ← parseBatchLaneAmount (bi_topUpSompi intent) "top-up";
  resultingFunding ← parseBatchLaneAmount (bi_resultingFundingSompi intent) "resulting funding";
  resultingExposure ← parseBatchLaneAmount (bi_resultingExposureSompi intent) "resulting exposure";
  reserve ← parseBatchLaneAmount (bi_claimReserveSompi intent) "claim reserve";
  timeout ← parseBatchLaneAmount (bi_refundTimeoutDaa intent) "refund timeout DAA";
  currentDaa ← parseBatchLaneAmount (bi_authoritativeCurrentDaa intent) "authoritative current DAA";
  distance ← parseBatchLaneAmount (bi_refundDistanceDaa intent) "refund distance DAA";
  errorCharge ← match bi_mcpErrorChargeSompi intent with
                | None => Ok None
                | Some s => Some <$> parseBatchLaneAmount s "MCP error charge"
                end;
  _ ← amountError_if (KASPA_LOCK_TIME_THRESHOLD <=? timeout) "refund timeout DAA must remain below the consensus timestamp boundary";
  Ok {| fixedCharge := fixedCharge; before := before; after := after; claimed := claimed; initialDeposit := initialDeposit;
        currentFunding := currentFunding; topUp := topUp; resultingFunding := resultingFunding;
        resultingExposure := resultingExposure; reserve := reserve; timeout := timeout; currentDaa := currentDaa;
        distance := distance; errorCharge := errorCharge |}.
Definition batchPaymentAuthorizationIntentPreimage (intent : BatchPaymentAuthorizationIntent) : result string :=
  _ ← validateIntentForDigest intent; stableStringify (normalizedIntent intent).

Definition failPolicy_if (b : bool) (message : string) : result () := throw_code_if b "invalid_kaspa_x402_payload" message.
Definition requireAllowed (allowed : list string) (value label : string) : result () :=
  failPolicy_if (negb (existsb (String.eqb value) allowed)) (label +:+ " is not payer-approved").
(** The accounting of the intent by itself *)
Definition intent_accounting (operation : string) (e : ParsedIntentEconomics) : result () :=
  _ ← amountError_if (fixedCharge e =? 0) "fixed charge must be positive";
  _ ← amountError_if (negb (before e + fixedCharge e =? after e)) "authorized cumulative after must equal before plus fixed charge";
  _ ← amountError_if (before e <? claimed e) "claimed cumulative amount cannot exceed prior authorization";
  _ ← amountError_if (negb (claimed e + resultingFunding e =? resultingExposure e))
        "resulting exposure must equal claimed cumulative amount plus resulting funding";
  _ ← amountError_if (resultingFunding e <? after e - claimed e + reserve e)
        "resulting funding must cover remaining authorization plus claim reserve";
  _ ← amountError_if ((timeout e <=? currentDaa e) || negb (timeout e - currentDaa e =? distance e))
        "refund distance must equal a future timeout minus authoritative current DAA";
  _ ← amountError_if (match errorCharge e with Some c => negb (c =? fixedCharge e) | None => false end)
        "MCP error charge must equal the fixed charge";
  if operation === "open" then
    amountError_if ((initialDeposit e =? 0) || negb (currentFunding e =? 0) || negb (topUp e =? 0)
                    || negb (resultingFunding e =? initialDeposit e) || negb (before e =? 0) || negb (claimed e =? 0))
      "open intent has inconsistent genesis funding or accounting"
  else if operation === "charge" then
    amountError_if (negb (initialDeposit e =? 0) || negb (topUp e =? 0) || negb (resultingFunding e =? currentFunding e))
      "charge intent must preserve existing lane funding"
  else
    amountError_if (negb (initialDeposit e =? 0) || (topUp e =? 0) || negb (currentFunding e + topUp e =? resultingFunding e))
      "top-up intent has inconsistent funding delta".
(** The payer's caps *)
Definition within_caps (policy : BatchPaymentAuthorizationPolicy) (e : ParsedIntentEconomics) : result () :=
  maximumCharge ← parseBatchLaneAmount (bp_maximumBatchChargeSompi policy) "maximum batch charge";
  maximumInitialDeposit ← parseBatchLaneAmount (bp_maximumInitialDepositSompi policy) "maximum initial deposit";
  maximumTopUp ← parseBatchLaneAmount (bp_maximumTopUpSompi policy) "maximum top-up";
  maximumCumulative ← parseBatchLaneAmount (bp_maximumCumulativeAuthorizationSompi policy) "maximum cumulative authorization";
  maximumExposure ← parseBatchLaneAmount (bp_maximumTotalExposureSompi policy) "maximum total exposure";
  minimumLead ← parseBatchLaneAmount (bp_minimumRefundLeadDaa policy) "minimum refund lead DAA";
  maximumHorizon ← parseBatchLaneAmount (bp_maximumRefundHorizonDaa policy) "maximum refund horizon DAA";
  _ ← failPolicy_if (maximumCharge <? fixedCharge e) "fixed charge exceeds payer cap";
  _ ← failPolicy_if (maximumInitialDeposit <? initialDeposit e) "initial deposit exceeds payer cap";
  _ ← failPolicy_if (maximumTopUp <? topUp e) "top-up exceeds payer cap";
  _ ← failPolicy_if (maximumCumulative <? after e) "cumulative authorization exceeds payer cap";
  _ ← failPolicy_if (maximumExposure <? resultingExposure e) "total exposure exceeds payer cap";
  _ ← failPolicy_if (distance e <? minimumLead) "refund timeout is below the payer minimum lead";
  failPolicy_if ((maximumHorizon =? 0) || (maximumHorizon <=? distance e)) "refund timeout reaches or exceeds the payer maximum horizon".
Definition validateBatchPaymentAuthorization (intent : BatchPaymentAuthorizationIntent) (policy : BatchPaymentAuthorizationPolicy)
    : result bool :=
  e ← validateIntentForDigest intent;
  _ ← intent_accounting (bi_operation intent) e;
  _ ← within_caps policy e;
  _ ← requireAllowed (bp_allowedOrigins policy) (bi_origin intent) "origin";
  _ ← requireAllowed (bp_allowedResources policy) (bi_resource intent) "resource";
  _ ← requireAllowed (bp_allowedPayTo policy) (bi_payTo intent) "payee";
  _ ← requireAllowed (map toLowerCase (bp_allowedServerPublicKeys policy)) (toLowerCase (bi_serverPublicKey intent)) "server key";
  _ ← requireAllowed (bp_allowedFundingSources policy) (bi_fundingSource intent) "funding source";
  Ok true.

(** ** Digests *)

Section Digests.
Context (sha256 : bytes -> bytes) (other_dates : string -> option Z).

Definition exactRequestAuthorizationDigest (input : ExactRequestAuthorizationDigestInput) : result string :=
  sha256Hex sha256 <$> exactRequestAuthorizationPreimage input.
Definition exactRequestAuthorizationId (authorization : ExactRequestAuthorization) : result string :=
  sha256Hex sha256 <$> stableStringify (JObject
    [("scope", JString "kaspa:x402:exact-request-authorization-id:v1"); ("version", JString (xa_version authorization));
     ("digest", JString (toLowerCase (xa_digest authorization))); ("inputIndex", JNumber (xa_inputIndex authorization));
     ("expiresAt", JString (xa_expiresAt authorization)); ("signature", JString (toLowerCase (xa_signature authorization)))]).
Definition batchPresentationDigest (input : BatchPresentationDigestInput) : result string :=
  sha256Hex sha256 <$> batchPresentationPreimage other_dates input.
Definition batchPresentationId (authorization : BatchPresentationAuthorization) : result string :=
  _ ← throw_code_if (pa_version authorization !== BATCH_PRESENTATION_VERSION) "invalid_kaspa_x402_payload"
        "unsupported batch presentation version";
  _ ← hash32 (pa_digest authorization) "presentation digest";
  _ ← hexToBytes (Some 64) "invalid_kaspa_hex" "presentation signature" (pa_signature authorization);
  sha256Hex sha256 <$> stableStringify (JObject
    [("scope", JString "kaspa:x402:batch-presentation-id:v1"); ("version", JString (pa_version authorization));
     ("digest", JString (toLowerCase (pa_digest authorization))); ("signature", JString (toLowerCase (pa_signature authorization)))]).
Definition batchPaymentAuthorizationIntentDigest (intent : BatchPaymentAuthorizationIntent) : result string :=
  sha256Hex sha256 <$> batchPaymentAuthorizationIntentPreimage intent.
End Digests.
