(* ===== verification/AuthorizationProperties.v ===== *)
(** * What payment authorizations guarantee

    The deadline a payer signs is one the verifier accepts; a signed text determines every
    field it covers; an approved batch intent is one step of the lane, and a payer who only
    signs approved intents never puts more than the caps at risk, whatever the server claims. *)

From S2P Require Import Prelude Amount BatchLane Json Binary ResourceBudget Commitment Dates DateText Authorization.

(** ** Deadlines *)

Section Deadlines.
Context (other_dates : string -> option Z).
Notation Date_parse := (Date_parse other_dates).

Lemma expiry_none input :
  exactAuthorizationExpiryError other_dates input = None <->
  0 < xe_maxTimeoutSeconds input /\ exists t, Date_parse (xe_authorizationExpiresAt input) = Some t /\
    xe_nowMs input < t <= xe_nowMs input + xe_maxTimeoutSeconds input * 1000 /\
    (forall text, xe_challengeExpiresAt input = Some text -> exists c, Date_parse text = Some c /\ xe_nowMs input < c /\ t <= c).
Proof.
  unfold exactAuthorizationExpiryError. cbv zeta. split.
  - intros H. destruct (_ <=? 0) eqn:Em; [done|]. destruct (Date_parse (xe_authorizationExpiresAt input)) as [t|] eqn:Et; [|done].
    destruct (t <=? _) eqn:E1; [done|]. destruct (_ <? t) eqn:E2; [done|]. inv_bool. split; [lia|]. exists t. split; [done|].
    split; [lia|]. intros text Hc. rewrite Hc in H. destruct (Date_parse text) as [c|]; [|done].
    destruct (c <=? _) eqn:E3; [done|]. destruct (c <? t) eqn:E4; [done|]. inv_bool. exists c. split; [done|lia].
  - intros (Hm & t & Ht & Hb & Hc). rewrite Ht. decide_guards. destruct (xe_challengeExpiresAt input) as [text|]; [|done].
    destruct (Hc text eq_refl) as (c & -> & ? & ?). decide_guards. done.
Qed.

(** C34. The deadline a payer chooses is accepted until it passes.
    When [exactAuthorizationExpiresAt] returns a text at time [nowMs] (of the years 0 to 9999,
    as is the deadline), then at every time from [nowMs] until the deadline
    [exactAuthorizationExpiryError] accepts it for the same timeout and challenge, from the
    deadline on it rejects it as expired, and the deadline is the earlier of the timeout and
    the challenge. *)
Theorem issued_deadline_accepted maxTimeoutSeconds challenge nowMs text :
  exactAuthorizationExpiresAt other_dates maxTimeoutSeconds challenge nowMs = Ok text ->
  -62167219200000 <= nowMs -> nowMs + maxTimeoutSeconds * 1000 <= 253402300799999 ->
  exists deadline, Date_parse text = Some deadline /\ nowMs < deadline <= nowMs + maxTimeoutSeconds * 1000 /\
    (forall c, challenge = Some c -> exists t, Date_parse c = Some t /\ deadline = Z.min (nowMs + maxTimeoutSeconds * 1000) t) /\
    forall now, nowMs <= now ->
      let verdict := exactAuthorizationExpiryError other_dates
        {| xe_maxTimeoutSeconds := maxTimeoutSeconds; xe_authorizationExpiresAt := text; xe_challengeExpiresAt := challenge;
           xe_nowMs := now |} in
      if now <? deadline then verdict = None else verdict = Some expired_authorization.
Proof.
  unfold exactAuthorizationExpiresAt. cbv zeta. intros H Hlo Hhi. inv_ok.
  assert (exists deadline, toISOString deadline = Ok text /\ nowMs < deadline <= nowMs + maxTimeoutSeconds * 1000 /\
    (forall c, challenge = Some c -> exists t, Date_parse c = Some t /\ deadline = Z.min (nowMs + maxTimeoutSeconds * 1000) t))
    as (deadline & Hd & Hb & Hc).
  { destruct challenge as [c|]; [|exists (nowMs + maxTimeoutSeconds * 1000); split_and!; [done|lia..|done]].
    destruct (Date_parse c) as [t|] eqn:Et; [|done]. inv_ok. exists (Z.min (nowMs + maxTimeoutSeconds * 1000) t).
    split_and!; [done|lia..|]. intros ? [= <-]. eauto. }
  destruct (date_roundtrip deadline ltac:(lia)) as (text' & Ht & Hr). rewrite Hd in Ht. injection Ht as <-.
  assert (Date_parse text = Some deadline) as Hp by (unfold Dates.Date_parse; by rewrite Hr).
  exists deadline. split_and!; try done; try lia. intros now Hnow. destruct (now <? deadline) eqn:E; inv_bool.
  - apply expiry_none. cbn. split; [lia|]. exists deadline. split_and!; [done|lia..|]. intros c Hch.
    destruct (Hc c Hch) as (t & Ht & Hmin). exists t. split_and!; [done|lia..].
  - unfold exactAuthorizationExpiryError. cbn. rewrite Hp. decide_guards. done.
Qed.
End Deadlines.

(** ** Signed texts *)

(** Objects with the same keys in the same order, whose values are not nested *)
Definition flat (j : json) : bool := match j with JString _ | JNumber _ | JNull => true | _ => false end.
Lemma flat_sorted j : flat j = true -> sorted_keys j = j.
Proof. by destruct j. Qed.
Lemma flat_fields_inj (l l' : list (string * json)) :
  map fst l = map fst l' -> NoDup (map fst l) -> forallb (fun kv => flat kv.2) l = true -> forallb (fun kv => flat kv.2) l' = true ->
  (forall k v, (k, v) ∈ l -> exists v', (k, v') ∈ l' /\ sorted_keys v = sorted_keys v') -> l = l'.
Proof.
  revert l'. induction l as [|[k v] l IH]; intros [|[k' v'] l'] Hk Hn Hf Hf' H; try done.
  injection Hk as <- Hk. cbn in Hn, Hf, Hf'. inv_bool. apply NoDup_cons in Hn as [Hnk Hn].
  assert (forall w, (k, w) ∈ l' -> False) as Hfresh.
  { intros w Hw. apply Hnk. rewrite Hk. apply list_elem_of_fmap. by exists (k, w). }
  f_equal.
  - destruct (H k v ltac:(by left)) as (w & [Hw|Hw]%elem_of_cons & E); [|by apply Hfresh in Hw]. injection Hw as ->.
    rewrite !flat_sorted in E by done. by rewrite E.
  - apply IH; try done. intros k2 v2 Hin. destruct (H k2 v2 ltac:(by right)) as (w & [Hw|Hw]%elem_of_cons & E); [|eauto].
    injection Hw as -> ->. exfalso. apply Hnk, list_elem_of_fmap. by exists (k, v2).
Qed.
Lemma flat_object_inj (l l' : list (string * json)) s :
  map fst l = map fst l' -> NoDup (map fst l) -> forallb (fun kv => flat kv.2) l = true -> forallb (fun kv => flat kv.2) l' = true ->
  stableStringify (JObject l) = Ok s -> stableStringify (JObject l') = Ok s -> l = l'.
Proof.
  intros Hk Hn Hf Hf' H H'. apply flat_fields_inj; try done. intros k v. apply sorted_object_fields. by eapply stableStringify_inj.
Qed.
Lemma jnullable_inj a b : jnullable a = jnullable b -> a = b.
Proof. destruct a, b; cbn; congruence. Qed.
Lemma jnullable_flat o : flat (jnullable o) = true.
Proof. by destruct o. Qed.

(** Reads the equality of two objects field by field. *)
Ltac object_fields H H' :=
  let E := fresh "E" in
  eapply flat_object_inj in H as E; [| | | | |exact H'];
  [injection E as E; repeat match goal with He : jnullable _ = jnullable _ |- _ => apply jnullable_inj in He end
  |reflexivity|apply (bool_decide_unpack _); vm_compute; exact I|cbn; rewrite ?jnullable_flat; reflexivity
  |cbn; rewrite ?jnullable_flat; reflexivity].

(** Equal up to the case of hexadecimal fields *)
Record same_exact_authorization (a b : ExactRequestAuthorizationDigestInput) : Prop := {
  sx_network : xi_network a = xi_network b;
  sx_profile : xi_profile a = xi_profile b;
  sx_transactionId : toLowerCase (xi_transactionId a) = toLowerCase (xi_transactionId b);
  sx_paymentOutputIndex : xi_paymentOutputIndex a = xi_paymentOutputIndex b;
  sx_amount : xi_amount a = xi_amount b;
  sx_payTo : xi_payTo a = xi_payTo b;
  sx_payToScriptPublicKey : toLowerCase (xi_payToScriptPublicKey a) = toLowerCase (xi_payToScriptPublicKey b);
  sx_paymentRequirementsHash : toLowerCase (xi_paymentRequirementsHash a) = toLowerCase (xi_paymentRequirementsHash b);
  sx_requestHash : toLowerCase (xi_requestHash a) = toLowerCase (xi_requestHash b);
  sx_paymentIdentifier : xi_paymentIdentifier a = xi_paymentIdentifier b;
  sx_challengeId : toLowerCase <$> xi_challengeId a = toLowerCase <$> xi_challengeId b;
  sx_inputIndex : xi_inputIndex a = xi_inputIndex b;
  sx_expiresAt : xi_expiresAt a = xi_expiresAt b
}.
Lemma exact_preimage_binds a b s :
  exactRequestAuthorizationPreimage a = Ok s -> exactRequestAuthorizationPreimage b = Ok s -> same_exact_authorization a b.
Proof.
  unfold exactRequestAuthorizationPreimage, exact_authorization_json. intros H H'. object_fields H H'.
  split; congruence.
Qed.
Record same_presentation (a b : BatchPresentationDigestInput) : Prop := {
  sp_requestFingerprint : toLowerCase (pi_requestFingerprint a) = toLowerCase (pi_requestFingerprint b);
  sp_acceptedRequirementsHash : toLowerCase (pi_acceptedRequirementsHash a) = toLowerCase (pi_acceptedRequirementsHash b);
  sp_securityContextHash : toLowerCase (pi_securityContextHash a) = toLowerCase (pi_securityContextHash b);
  sp_channelId : toLowerCase (pi_channelId a) = toLowerCase (pi_channelId b);
  sp_covenantId : toLowerCase (pi_covenantId a) = toLowerCase (pi_covenantId b);
  sp_voucherDigest : toLowerCase (pi_voucherDigest a) = toLowerCase (pi_voucherDigest b);
  sp_paymentIdentifier : pi_paymentIdentifier a = pi_paymentIdentifier b;
  sp_nonce : toLowerCase (pi_nonce a) = toLowerCase (pi_nonce b);
  sp_expiresAt : pi_expiresAt a = pi_expiresAt b
}.
Lemma hash32_text v label h : hash32 v label = Ok h -> h = toLowerCase v.
Proof. unfold hash32. intros H. by inv_ok. Qed.
Lemma nonZeroHash32_text v label h : nonZeroHash32 v label = Ok h -> h = toLowerCase v.
Proof. unfold nonZeroHash32. intros H. by inv_ok. Qed.
(** The text that a presentation signs, when it signs one *)
Definition presentation_text (a : BatchPresentationDigestInput) : json :=
  presentation_json (toLowerCase (pi_requestFingerprint a)) (toLowerCase (pi_acceptedRequirementsHash a))
    (toLowerCase (pi_securityContextHash a)) (toLowerCase (pi_channelId a)) (toLowerCase (pi_covenantId a))
    (toLowerCase (pi_voucherDigest a)) (pi_paymentIdentifier a) (toLowerCase (pi_nonce a)) (pi_expiresAt a).
Lemma presentation_preimage other_dates a s :
  batchPresentationPreimage other_dates a = Ok s -> stableStringify (presentation_text a) = Ok s.
Proof.
  unfold batchPresentationPreimage, presentation_text. intros H. inv_ok.
  repeat match goal with
  | Hh : hash32 _ _ = Ok _ |- _ => apply hash32_text in Hh; subst
  | Hh : nonZeroHash32 _ _ = Ok _ |- _ => apply nonZeroHash32_text in Hh; subst
  end. done.
Qed.
Lemma presentation_preimage_binds other_dates a b s :
  batchPresentationPreimage other_dates a = Ok s -> batchPresentationPreimage other_dates b = Ok s -> same_presentation a b.
Proof.
  intros H%presentation_preimage H'%presentation_preimage. unfold presentation_text, presentation_json in *. object_fields H H'.
  split; congruence.
Qed.
Lemma intent_preimage intent s : batchPaymentAuthorizationIntentPreimage intent = Ok s -> stableStringify (normalizedIntent intent) = Ok s.
Proof. unfold batchPaymentAuthorizationIntentPreimage. intros H. by inv_ok. Qed.
(** All thirty fields of a batch intent *)
Record same_intent (a b : BatchPaymentAuthorizationIntent) : Prop := {
  si_scope : bi_scope a = bi_scope b;
  si_operation : bi_operation a = bi_operation b;
  si_origin : bi_origin a = bi_origin b;
  si_resource : bi_resource a = bi_resource b;
  si_network : bi_network a = bi_network b;
  si_asset : bi_asset a = bi_asset b;
  si_payTo : bi_payTo a = bi_payTo b;
  si_serverPublicKey : toLowerCase (bi_serverPublicKey a) = toLowerCase (bi_serverPublicKey b);
  si_clientPublicKey : toLowerCase <$> bi_clientPublicKey a = toLowerCase <$> bi_clientPublicKey b;
  si_requestFingerprint : toLowerCase (bi_requestFingerprint a) = toLowerCase (bi_requestFingerprint b);
  si_acceptedRequirementsHash : toLowerCase (bi_acceptedRequirementsHash a) = toLowerCase (bi_acceptedRequirementsHash b);
  si_securityContextHash : toLowerCase (bi_securityContextHash a) = toLowerCase (bi_securityContextHash b);
  si_fixedChargeSompi : bi_fixedChargeSompi a = bi_fixedChargeSompi b;
  si_mcpErrorChargeSompi : bi_mcpErrorChargeSompi a = bi_mcpErrorChargeSompi b;
  si_authorizedCumulativeBefore : bi_authorizedCumulativeBefore a = bi_authorizedCumulativeBefore b;
  si_authorizedCumulativeAfter : bi_authorizedCumulativeAfter a = bi_authorizedCumulativeAfter b;
  si_claimedCumulativeAmount : bi_claimedCumulativeAmount a = bi_claimedCumulativeAmount b;
  si_initialDepositSompi : bi_initialDepositSompi a = bi_initialDepositSompi b;
  si_currentFundingSompi : bi_currentFundingSompi a = bi_currentFundingSompi b;
  si_topUpSompi : bi_topUpSompi a = bi_topUpSompi b;
  si_resultingFundingSompi : bi_resultingFundingSompi a = bi_resultingFundingSompi b;
  si_resultingExposureSompi : bi_resultingExposureSompi a = bi_resultingExposureSompi b;
  si_claimReserveSompi : bi_claimReserveSompi a = bi_claimReserveSompi b;
  si_refundTimeoutDaa : bi_refundTimeoutDaa a = bi_refundTimeoutDaa b;
  si_authoritativeCurrentDaa : bi_authoritativeCurrentDaa a = bi_authoritativeCurrentDaa b;
  si_refundDistanceDaa : bi_refundDistanceDaa a = bi_refundDistanceDaa b;
  si_fundingSource : bi_fundingSource a = bi_fundingSource b;
  si_channelId : toLowerCase <$> bi_channelId a = toLowerCase <$> bi_channelId b;
  si_covenantId : toLowerCase <$> bi_covenantId a = toLowerCase <$> bi_covenantId b;
  si_paymentIdentifier : bi_paymentIdentifier a = bi_paymentIdentifier b
}.
Lemma intent_preimage_scope intent s :
  batchPaymentAuthorizationIntentPreimage intent = Ok s -> bi_scope intent = BATCH_PAYMENT_INTENT_SCOPE.
Proof.
  unfold batchPaymentAuthorizationIntentPreimage, validateIntentForDigest, validateIntentShape. intros (e & He & _)%bind_ok.
  apply bind_ok in He as ([] & He & _). apply bind_ok in He as ([] & Hs%throw_code_if_ok & _).
  by apply negb_false_iff, bool_decide_eq_true in Hs.
Qed.
Lemma intent_preimage_binds a b s :
  batchPaymentAuthorizationIntentPreimage a = Ok s -> batchPaymentAuthorizationIntentPreimage b = Ok s -> same_intent a b.
Proof.
  intros H H'. pose proof (intent_preimage_scope _ _ H) as Hs. rewrite <- (intent_preimage_scope _ _ H') in Hs.
  apply intent_preimage in H, H'. unfold normalizedIntent in *. object_fields H H'. split; congruence.
Qed.

(** Texts of different kinds differ in their scope. *)
Lemma scopes_differ l l' s t u :
  stableStringify (JObject (("scope", JString s) :: l)) = Ok u -> stableStringify (JObject (("scope", JString t) :: l')) = Ok u ->
  Forall (fun kv => kv.1 <> "scope") l' -> s = t.
Proof.
  intros H H' Hl. pose proof (stableStringify_inj _ _ _ H H') as E.
  destruct (sorted_object_fields _ _ "scope" (JString s) E ltac:(by left)) as (v & [Hv|Hv]%elem_of_cons & Hs).
  - injection Hv as ->. by injection Hs.
  - by apply (proj1 (Forall_forall _ _) Hl) in Hv.
Qed.

Lemma presentation_scope other_dates a s :
  batchPresentationPreimage other_dates a = Ok s ->
  exists l, stableStringify (JObject (("scope", JString BATCH_PRESENTATION_SCOPE) :: l)) = Ok s /\ Forall (fun kv => kv.1 <> "scope") l.
Proof. intros H%presentation_preimage. eexists. split; [exact H|]. repeat constructor; done. Qed.
Lemma exact_scope a s :
  exactRequestAuthorizationPreimage a = Ok s ->
  exists l, stableStringify (JObject (("scope", JString EXACT_REQUEST_AUTHORIZATION_VERSION) :: l)) = Ok s /\
    Forall (fun kv => kv.1 <> "scope") l.
Proof. intros H. eexists. split; [exact H|]. repeat constructor; done. Qed.
Lemma intent_scope a s :
  batchPaymentAuthorizationIntentPreimage a = Ok s ->
  exists l, stableStringify (JObject (("scope", JString BATCH_PAYMENT_INTENT_SCOPE) :: l)) = Ok s /\ Forall (fun kv => kv.1 <> "scope") l.
Proof. intros H%intent_preimage. eexists. split; [exact H|]. repeat constructor; done. Qed.

(** SHA-256 maps the two texts that were digested to the same bytes although they differ. *)
Definition texts_collide (sha256 : bytes -> bytes) (p q : result string) : Prop :=
  exists s t, p = Ok s /\ q = Ok t /\ s <> t /\ sha256 (utf8Bytes s) = sha256 (utf8Bytes t).
Lemma equal_digests sha256 p q d :
  sha256Hex sha256 <$> p = Ok d -> sha256Hex sha256 <$> q = Ok d ->
  (exists s, p = Ok s /\ q = Ok s) \/ texts_collide sha256 p q.
Proof.
  intros (s & -> & Es)%fmap_ok (t & -> & Et)%fmap_ok. rewrite Es in Et. apply bytesToHex_inj in Et as E. destruct (decide (s = t)) as [->|Hne]; [left; eauto|].
  right. exists s, t. split_and!; [done..|]. exact E.
Qed.

(** C33. A signed authorization determines what was authorized.
    Two exact-request authorizations, two presentations or two batch intents with the same
    digest agree on every field (hexadecimal fields up to case), and authorizations of
    different kinds never have the same digest, unless the very texts that were digested are a
    collision of SHA-256. *)
Theorem authorizations_bind sha256 other_dates d :
  let exact a := exactRequestAuthorizationPreimage a in
  let presentation a := batchPresentationPreimage other_dates a in
  let intent a := batchPaymentAuthorizationIntentPreimage a in
  (forall a b, exactRequestAuthorizationDigest sha256 a = Ok d -> exactRequestAuthorizationDigest sha256 b = Ok d ->
     same_exact_authorization a b \/ texts_collide sha256 (exact a) (exact b)) /\
  (forall a b, batchPresentationDigest sha256 other_dates a = Ok d -> batchPresentationDigest sha256 other_dates b = Ok d ->
     same_presentation a b \/ texts_collide sha256 (presentation a) (presentation b)) /\
  (forall a b, batchPaymentAuthorizationIntentDigest sha256 a = Ok d -> batchPaymentAuthorizationIntentDigest sha256 b = Ok d ->
     same_intent a b \/ texts_collide sha256 (intent a) (intent b)) /\
  (forall a b, exactRequestAuthorizationDigest sha256 a = Ok d -> batchPresentationDigest sha256 other_dates b = Ok d ->
     texts_collide sha256 (exact a) (presentation b)) /\
  (forall a b, exactRequestAuthorizationDigest sha256 a = Ok d -> batchPaymentAuthorizationIntentDigest sha256 b = Ok d ->
     texts_collide sha256 (exact a) (intent b)) /\
  (forall a b, batchPresentationDigest sha256 other_dates a = Ok d -> batchPaymentAuthorizationIntentDigest sha256 b = Ok d ->
     texts_collide sha256 (presentation a) (intent b)).
Proof.
  cbv zeta. split_and!; intros a b H H'; destruct (equal_digests _ _ _ _ H H') as [(s & E & E')|Hc]; try (exact Hc || (right; exact Hc)).
  - left. by eapply exact_preimage_binds.
  - left. by eapply presentation_preimage_binds.
  - left. by eapply intent_preimage_binds.
  - apply exact_scope in E as (l & E & _). apply presentation_scope in E' as (l' & E' & Hl). by pose proof (scopes_differ _ _ _ _ _ E E' Hl).
  - apply exact_scope in E as (l & E & _). apply intent_scope in E' as (l' & E' & Hl). by pose proof (scopes_differ _ _ _ _ _ E E' Hl).
  - apply presentation_scope in E as (l & E & _). apply intent_scope in E' as (l' & E' & Hl).
    by pose proof (scopes_differ _ _ _ _ _ E E' Hl).
Qed.

(** ** Approved batch payments *)

Ltac inv_policy := repeat (progress inv_lane ||
  match goal with H : failPolicy_if _ _ = Ok _ |- _ => apply throw_code_if_ok in H end).

(** The decimal texts of an intent are those of its parsed economics. *)
Record economics_of (intent : BatchPaymentAuthorizationIntent) (e : ParsedIntentEconomics) : Prop := {
  eo_fixedCharge : parseBatchLaneAmount (bi_fixedChargeSompi intent) "fixed charge" = Ok (fixedCharge e);
  eo_before : parseBatchLaneAmount (bi_authorizedCumulativeBefore intent) "authorized cumulative before" = Ok (before e);
  eo_after : parseBatchLaneAmount (bi_authorizedCumulativeAfter intent) "authorized cumulative after" = Ok (after e);
  eo_claimed : parseBatchLaneAmount (bi_claimedCumulativeAmount intent) "claimed cumulative amount" = Ok (claimed e);
  eo_initialDeposit : parseBatchLaneAmount (bi_initialDepositSompi intent) "initial deposit" = Ok (initialDeposit e);
  eo_currentFunding : parseBatchLaneAmount (bi_currentFundingSompi intent) "current funding" = Ok (currentFunding e);
  eo_topUp : parseBatchLaneAmount (bi_topUpSompi intent) "top-up" = Ok (topUp e);
  eo_resultingFunding : parseBatchLaneAmount (bi_resultingFundingSompi intent) "resulting funding" = Ok (resultingFunding e);
  eo_resultingExposure : parseBatchLaneAmount (bi_resultingExposureSompi intent) "resulting exposure" = Ok (resultingExposure e);
  eo_reserve : parseBatchLaneAmount (bi_claimReserveSompi intent) "claim reserve" = Ok (reserve e);
  eo_timeout : timeout e < KASPA_LOCK_TIME_THRESHOLD
}.
Lemma economics_exact intent e : validateIntentForDigest intent = Ok e -> economics_of intent e.
Proof.
  unfold validateIntentForDigest. intros H. inv_lane. split; cbn; try done; by inv_lane.
Qed.

(** What the accounting of an approved intent says in integers *)
Record intent_balanced (operation : string) (e : ParsedIntentEconomics) : Prop := {
  ib_positive : 0 < fixedCharge e;
  ib_after : after e = before e + fixedCharge e;
  ib_claimed : 0 <= claimed e <= before e;
  ib_exposure : resultingExposure e = claimed e + resultingFunding e;
  ib_covered : after e - claimed e + reserve e <= resultingFunding e;
  ib_reserve : 0 <= reserve e;
  ib_timeout : currentDaa e < timeout e /\ distance e = timeout e - currentDaa e;
  ib_funding : resultingFunding e = currentFunding e + initialDeposit e + topUp e;
  ib_range : resultingFunding e <= BATCH_SCRIPT_INT_MAX /\ after e <= BATCH_SCRIPT_INT_MAX /\ 0 <= initialDeposit e /\ 0 <= topUp e;
  ib_open : initialDeposit e <> 0 -> operation = "open" /\ currentFunding e = 0 /\ before e = 0 /\ claimed e = 0;
  ib_top_up : topUp e <> 0 -> operation <> "open" /\ operation <> "charge"
}.
Lemma approved_balanced intent policy :
  validateBatchPaymentAuthorization intent policy = Ok true ->
  exists e, validateIntentForDigest intent = Ok e /\ intent_balanced (bi_operation intent) e /\ within_caps policy e = Ok tt.
Proof.
  unfold validateBatchPaymentAuthorization. intros H. inv_policy. eexists. split; [done|]. split; [|done].
  match goal with He : validateIntentForDigest _ = Ok ?e |- _ => rename e into e'; destruct (economics_exact _ _ He) end.
  repeat match goal with Hp : parseBatchLaneAmount _ _ = Ok _ |- _ => apply parse_lane_ok in Hp as [_ Hp] end.
  match goal with Ha : intent_accounting _ _ = Ok _ |- _ => unfold intent_accounting in Ha end. inv_policy.
  destruct (bool_decide (bi_operation intent = "open")) eqn:Eo; [|destruct (bool_decide (bi_operation intent = "charge")) eqn:Ec];
    inv_policy; split; try lia; intros; try done; lia.
Qed.

Lemma caps_bound policy e cumulative exposure :
  within_caps policy e = Ok tt ->
  parseSompiString (bp_maximumCumulativeAuthorizationSompi policy) = Ok cumulative ->
  parseSompiString (bp_maximumTotalExposureSompi policy) = Ok exposure ->
  after e <= cumulative /\ resultingExposure e <= exposure.
Proof.
  unfold within_caps, parseBatchLaneAmount. intros H Hc He. rewrite Hc, He in H. inv_policy. lia.
Qed.

(** The lane an intent is for, once its deposit is in, and the lane it leaves *)
Definition lane_before (e : ParsedIntentEconomics) : Lane.t := Lane.Make (resultingFunding e) (before e) (claimed e) (before e).
Definition lane_after (e : ParsedIntentEconomics) : Lane.t := Lane.Make (resultingFunding e) (after e) (claimed e) (after e).

Lemma balanced_valid operation e :
  intent_balanced operation e ->
  Lane.valid (lane_before e) /\ Lane.chargeable (lane_before e) (fixedCharge e) /\
  lane_after e = Lane.charge (lane_before e) (fixedCharge e) /\ Lane.valid (lane_after e).
Proof.
  intros []. unfold lane_after, lane_before, Lane.charge, Lane.valid, Lane.chargeable. cbn. split_and!; try lia.
  f_equal; lia.
Qed.

(** C32. An approved batch intent is one charge of the lane it is for.
    If [validateBatchPaymentAuthorization] approves an intent, the lane with the intent's
    resulting funding and prior authorization is a valid lane; the voucher that lane
    accounting requires for the fixed charge is exactly the "authorized cumulative after" that
    the payer signs; the lane after the payment is valid, and it covers everything authorized
    and unclaimed plus the claim reserve. *)
Theorem approved_intent_charges_lane intent policy :
  validateBatchPaymentAuthorization intent policy = Ok true ->
  exists e, economics_of intent e /\
    Lane.valid (lane_before e) /\ Lane.chargeable (lane_before e) (fixedCharge e) /\
    lane_after e = Lane.charge (lane_before e) (fixedCharge e) /\ Lane.valid (lane_after e) /\
    requiredBatchVoucherAmount (Lane.encode (lane_before e)) (bi_fixedChargeSompi intent) = Ok (bi_authorizedCumulativeAfter intent) /\
    assertBatchVoucherReserve (Lane.encode (lane_after e)) (bi_claimReserveSompi intent) = Ok tt.
Proof.
  intros (e & He & Hb & _)%approved_balanced. exists e. pose proof (economics_exact _ _ He) as Hec.
  destruct (balanced_valid _ _ Hb) as (Hv & Hc & Ha & Hv'). split_and!; try done.
  - destruct Hb.
    pose proof (eo_fixedCharge _ _ Hec) as [Hf _]%parse_lane_ok. pose proof (eo_after _ _ Hec) as [-> _]%parse_lane_ok.
    unfold requiredBatchVoucherAmount. rewrite (accounting_encode _ Hv). rewrite Hf. cbn.
    rewrite parse_lane_toString by lia. cbn. unfold lane_before, amountError_if. cbn. 
    rewrite ?Z.eqb_refl. decide_guards. cbn. repeat f_equal. lia.
  - pose proof (eo_reserve _ _ Hec) as [Hr Hrr]%parse_lane_ok. destruct Hb.
    unfold assertBatchVoucherReserve. rewrite (accounting_encode _ Hv'), Hr. cbn. rewrite parse_lane_toString by lia. cbn.
    unfold amountError_if. decide_guards. done.
Qed.

(** ** A payer's exposure *)

(** A lane as the payer sees it, with everything ever paid into it *)
Record payer_lane := PayerLane { pl_lane : Lane.t; pl_deposited : Z }.
Definition no_lane : payer_lane := PayerLane (Lane.Make 0 0 0 0) 0.
(** The payer signs approved intents that continue the lane it knows; the server claims, at any
    time, any amount the lane lets it claim. *)
Inductive payer_step (policy : BatchPaymentAuthorizationPolicy) : payer_lane -> payer_lane -> Prop :=
  | step_authorize l d intent e :
      validateBatchPaymentAuthorization intent policy = Ok true -> validateIntentForDigest intent = Ok e ->
      before e = Lane.charged l -> claimed e = Lane.claimed l -> currentFunding e = Lane.funding l ->
      payer_step policy (PayerLane l d) (PayerLane (lane_after e) (d + initialDeposit e + topUp e))
  | step_claim l d c : Lane.claimable l c -> payer_step policy (PayerLane l d) (PayerLane (Lane.claim l c) d).

Lemma payer_step_bounded policy cumulative exposure p q :
  parseSompiString (bp_maximumCumulativeAuthorizationSompi policy) = Ok cumulative ->
  parseSompiString (bp_maximumTotalExposureSompi policy) = Ok exposure ->
  payer_step policy p q ->
  let ok p := Lane.valid (pl_lane p) /\ pl_deposited p = Lane.funding (pl_lane p) + Lane.claimed (pl_lane p) /\
              Lane.signed (pl_lane p) = Lane.charged (pl_lane p) /\
              pl_deposited p <= exposure /\ Lane.signed (pl_lane p) <= cumulative in
  ok p -> ok q.
Proof.
  intros Hc He Hst ok (Hv & Hd & Hs & Hx & Ha).
  destruct Hst as [l d intent e Hi Hval Hbf Hcl Hf|l d c Hcm]; unfold ok; cbn in *.
  - destruct (approved_balanced _ _ Hi) as (e' & Hval' & Hb & Hcaps). rewrite Hval in Hval'. injection Hval' as <-.
    destruct (balanced_valid _ _ Hb) as (_ & _ & _ & Hv'). destruct (caps_bound _ _ _ _ Hcaps Hc He), Hb. split_and!; try done; lia.
  - split; [by apply claim_valid|]. unfold Lane.claimable in Hcm. lia.
Qed.

(** C31. Whatever the server does, a payer risks no more than the caps.
    Starting without a lane, over any sequence of approved intents that continue the lane and
    of claims by the server: what the payer ever deposited is what is still in the covenant
    plus what was claimed, it never exceeds the maximum total exposure, what was signed and
    therefore what can ever be claimed never exceeds the maximum cumulative authorization, and
    the lane stays valid. *)
Theorem payer_exposure_bounded policy cumulative exposure p :
  parseSompiString (bp_maximumCumulativeAuthorizationSompi policy) = Ok cumulative ->
  parseSompiString (bp_maximumTotalExposureSompi policy) = Ok exposure ->
  rtc (payer_step policy) no_lane p ->
  Lane.valid (pl_lane p) /\ pl_deposited p = Lane.funding (pl_lane p) + Lane.claimed (pl_lane p) /\
  pl_deposited p <= exposure /\ Lane.claimed (pl_lane p) <= Lane.signed (pl_lane p) <= cumulative.
Proof.
  intros Hc He Hrun.
  assert (0 <= cumulative /\ 0 <= exposure) as [Hc0 He0] by (apply parse_ok in Hc as [_ ?], He as [_ ?]; lia).
  assert (forall q, rtc (payer_step policy) q p -> Lane.valid (pl_lane q) /\
    pl_deposited q = Lane.funding (pl_lane q) + Lane.claimed (pl_lane q) /\ Lane.signed (pl_lane q) = Lane.charged (pl_lane q) /\
    pl_deposited q <= exposure /\ Lane.signed (pl_lane q) <= cumulative ->
    Lane.valid (pl_lane p) /\ pl_deposited p = Lane.funding (pl_lane p) + Lane.claimed (pl_lane p) /\
    Lane.signed (pl_lane p) = Lane.charged (pl_lane p) /\ pl_deposited p <= exposure /\ Lane.signed (pl_lane p) <= cumulative) as H.
  { induction 1 as [|x y z Hst _ IH]; [done|]. intros Hx. by eapply IH, payer_step_bounded. }
  destruct (H no_lane Hrun) as (Hv & Hd & Hs & Hx & Ha).
  - unfold no_lane, Lane.valid, BATCH_SCRIPT_INT_MAX. cbn. lia.
  - unfold Lane.valid in *. lia.
Qed.

(** ** Concrete authorizations *)

Module SampleAuthorization.
Definition policy : BatchPaymentAuthorizationPolicy := {|
  bp_maximumBatchChargeSompi := "100"; bp_maximumInitialDepositSompi := "1000"; bp_maximumTopUpSompi := "500";
  bp_maximumCumulativeAuthorizationSompi := "600"; bp_maximumTotalExposureSompi := "1200"; bp_minimumRefundLeadDaa := "100";
  bp_maximumRefundHorizonDaa := "10000"; bp_allowedOrigins := ["https://shop.example"];
  bp_allowedResources := ["https://shop.example/a"]; bp_allowedPayTo := ["kaspatest:payee"];
  bp_allowedServerPublicKeys := [hex64 "Ab"]; bp_allowedFundingSources := ["wallet"] |}.
Definition intent (operation before after deposit current resulting exposure : string) (lane : option string) : BatchPaymentAuthorizationIntent := {|
  bi_scope := BATCH_PAYMENT_INTENT_SCOPE; bi_operation := operation; bi_origin := "https://shop.example";
  bi_resource := "https://shop.example/a"; bi_network := "kaspa:testnet-10"; bi_asset := "KAS"; bi_payTo := "kaspatest:payee";
  bi_serverPublicKey := hex64 "aB"; bi_clientPublicKey := lane; bi_requestFingerprint := hex64 "01";
  bi_acceptedRequirementsHash := hex64 "02"; bi_securityContextHash := hex64 "03"; bi_fixedChargeSompi := "100";
  bi_mcpErrorChargeSompi := None; bi_authorizedCumulativeBefore := before; bi_authorizedCumulativeAfter := after;
  bi_claimedCumulativeAmount := "0"; bi_initialDepositSompi := deposit; bi_currentFundingSompi := current; bi_topUpSompi := "0";
  bi_resultingFundingSompi := resulting; bi_resultingExposureSompi := exposure; bi_claimReserveSompi := "50";
  bi_refundTimeoutDaa := "5000"; bi_authoritativeCurrentDaa := "1000"; bi_refundDistanceDaa := "4000"; bi_fundingSource := "wallet";
  bi_channelId := lane; bi_covenantId := lane; bi_paymentIdentifier := None |}.
Definition opening : BatchPaymentAuthorizationIntent := intent "open" "0" "100" "1000" "0" "1000" "1000" None.
Definition second : BatchPaymentAuthorizationIntent := intent "charge" "100" "200" "0" "1000" "1000" "1000" (Some (hex64 "cD")).

Definition exact_input (challenge : string) : ExactRequestAuthorizationDigestInput := {|
  xi_network := "kaspa:testnet-10"; xi_profile := "standard"; xi_transactionId := hex64 "0A"; xi_paymentOutputIndex := 0;
  xi_amount := "1500"; xi_payTo := "kaspatest:payee"; xi_payToScriptPublicKey := "51"; xi_paymentRequirementsHash := hex64 "02";
  xi_requestHash := hex64 "01"; xi_paymentIdentifier := "order-1"; xi_challengeId := Some challenge; xi_inputIndex := 0;
  xi_expiresAt := "2024-02-29T23:59:59.999Z" |}.
End SampleAuthorization.
Import SampleAuthorization.

Example opening_approved : validateBatchPaymentAuthorization opening policy = Ok true.
Proof. vm_compute. reflexivity. Qed.
Example second_approved : validateBatchPaymentAuthorization second policy = Ok true.
Proof. vm_compute. reflexivity. Qed.
(** The same charge against a lane with too little left for the reserve *)
Example reserve_kept :
  validateBatchPaymentAuthorization (intent "charge" "100" "200" "0" "240" "240" "240" (Some (hex64 "cD"))) policy
    = Throw (KaspaX402Error "invalid_kaspa_x402_amount" "resulting funding must cover remaining authorization plus claim reserve").
Proof. vm_compute. reflexivity. Qed.

Lemma approved_intent_charges_lane_witness :
  exists e, economics_of second e /\ Lane.valid (lane_before e) /\ Lane.signed (lane_after e) = 200.
Proof.
  destruct (approved_intent_charges_lane second policy second_approved) as (e & He & Hv & _ & Ha & _).
  exists e. split; [exact He|]. split; [exact Hv|]. rewrite Ha.
  assert (Ok 100 = Ok (before e)) as Hb by exact (eo_before _ _ He). injection Hb as Hb.
  assert (Ok 100 = Ok (fixedCharge e)) as Hf by exact (eo_fixedCharge _ _ He). injection Hf as Hf.
  unfold Lane.charge, lane_before. cbn. rewrite <- Hb, <- Hf. reflexivity.
Defined.

(** The payer opens a lane, the server claims 60, the payer pays again: 1000 were deposited. *)
Definition sample_run : payer_lane := PayerLane (Lane.claim (Lane.Make 1000 200 0 200) 60) 1000.
Lemma authorize_step l d intent e :
  validateBatchPaymentAuthorization intent policy = Ok true -> validateIntentForDigest intent = Ok e ->
  (before e, claimed e, currentFunding e) = (Lane.charged l, Lane.claimed l, Lane.funding l) ->
  payer_step policy (PayerLane l d) (PayerLane (lane_after e) (d + initialDeposit e + topUp e)).
Proof. intros H He [= Hb Hc Hf]. by apply (step_authorize policy l d intent e). Qed.
Lemma sample_runs : rtc (payer_step policy) no_lane sample_run.
Proof.
  eapply rtc_l; [eapply (authorize_step (Lane.Make 0 0 0 0) 0 opening); [exact opening_approved|vm_compute; reflexivity|reflexivity]|].
  eapply rtc_l; [eapply (authorize_step (Lane.Make 1000 100 0 100) 1000 second); [exact second_approved|vm_compute; reflexivity|reflexivity]|].
  eapply rtc_l; [|apply rtc_refl]. apply (step_claim policy (Lane.Make 1000 200 0 200) 1000 60). unfold Lane.claimable. cbn. lia.
Qed.
Lemma payer_exposure_bounded_witness :
  pl_deposited sample_run = 1000 /\ 1000 <= 1200 /\ Lane.claimed (pl_lane sample_run) = 60 /\ 60 <= 600.
Proof.
  destruct (payer_exposure_bounded policy 600 1200 sample_run eq_refl eq_refl sample_runs) as (_ & _ & Hx & Hc1 & Hc2).
  split; [reflexivity|]. split; [exact Hx|]. split; [reflexivity|exact (Z.le_trans _ _ _ Hc1 Hc2)].
Defined.

(** The same exact authorization and the same charge, written in different cases *)
Lemma authorizations_bind_witness :
  let third := intent "charge" "100" "200" "0" "1000" "1000" "1000" (Some (hex64 "Cd")) in
  (exists d, exactRequestAuthorizationDigest toy_sha256 (exact_input (hex64 "aB")) = Ok d /\
             exactRequestAuthorizationDigest toy_sha256 (exact_input (hex64 "Ab")) = Ok d) /\
  (exists d, batchPaymentAuthorizationIntentDigest toy_sha256 second = Ok d /\
             batchPaymentAuthorizationIntentDigest toy_sha256 third = Ok d) /\
  same_exact_authorization (exact_input (hex64 "aB")) (exact_input (hex64 "Ab")) /\ same_intent second third.
Proof.
  cbv zeta. set (third := intent _ _ _ _ _ _ _ _).
  destruct (is_ok_value (exactRequestAuthorizationDigest toy_sha256 (exact_input (hex64 "aB")))) as [d E]; [vm_compute; reflexivity|].
  assert (exactRequestAuthorizationDigest toy_sha256 (exact_input (hex64 "Ab")) = Ok d) as E' by (rewrite <- E; vm_compute; reflexivity).
  destruct (is_ok_value (batchPaymentAuthorizationIntentDigest toy_sha256 second)) as [i F]; [vm_compute; reflexivity|].
  assert (batchPaymentAuthorizationIntentDigest toy_sha256 third = Ok i) as F' by (rewrite <- F; vm_compute; reflexivity).
  split; [exists d; split; [exact E|exact E']|]. split; [exists i; split; [exact F|exact F']|]. split.
  - destruct (proj1 (authorizations_bind toy_sha256 (fun _ => None) d) _ _ E E') as [H|(s & t & Hs & Ht & Hne & _)]; [exact H|].
    exfalso. apply Hne. assert (Ok s = Ok t) as Hst by (rewrite <- Hs, <- Ht; vm_compute; reflexivity).
    injection Hst as Hst. exact Hst.
  - destruct (proj1 (proj2 (proj2 (authorizations_bind toy_sha256 (fun _ => None) i))) _ _ F F')
      as [H|(s & t & Hs & Ht & Hne & _)]; [exact H|].
    exfalso. apply Hne. assert (Ok s = Ok t) as Hst by (rewrite <- Hs, <- Ht; vm_compute; reflexivity).
    injection Hst as Hst. exact Hst.
Defined.

(** A challenge that ends before the timeout of one hour *)
Lemma issued_deadline_accepted_witness :
  exactAuthorizationExpiryError (fun _ => None) {| xe_maxTimeoutSeconds := 3600;
    xe_authorizationExpiresAt := "2024-02-29T23:59:59.999Z"; xe_challengeExpiresAt := Some "2024-02-29T23:59:59.999Z";
    xe_nowMs := 1709251199998 |} = None.
Proof.
  destruct (issued_deadline_accepted (fun _ => None) 3600 (Some "2024-02-29T23:59:59.999Z") 1709250000000 "2024-02-29T23:59:59.999Z"
    eq_refl ltac:(lia) ltac:(lia)) as (deadline & Hd & _ & _ & H).
  injection Hd as <-. exact (H 1709251199998 ltac:(lia)).
Defined.
