(* ===== verification/HashChainVerifier.v ===== *)
(** * The hash-chain verifier

    Models [protocol/packages/server/src/hash-chain-verifier.ts] and the request types of
    [server/src/types.ts]: parsing of a signed transaction from its JSON text, its local
    validation, the cache of validations, and the verification against the outputs that the
    selected chain reports.  The chain view, the Schnorr verification and the hashes are
    parameters; [JSON.parse] is that of JsonText.v.  Requests are values: [signal] and the
    additive [head], which this module does not read, are left out. *)

From S2P Require Import Prelude Amount Json Binary ResourceBudget ChainTruth Dates Template HashChain TxV1 JsonText Authorization.

(** ** Requests *)

Record HashChainHeadChallenge := {
  hc_headId : string;
  hc_headVersion : string;
  hc_covenantId : string;
  hc_expectedHeadOutpoint : FundingOutpoint;
  hc_headAmount : string;
  hc_headScriptPublicKey : string;
  hc_headRedeemScript : string;
  hc_currentGuard : string;
  hc_nextGuard : string;
  hc_oneTimePublicKey : string;
  hc_grantId : string;
  hc_challengeId : string;
  hc_challengeIssuedAt : string;
  hc_challengeExpiresAt : string;
  hc_grantExpiresAt : prop string
}.
Record ExactTransactionVerificationRequest := {
  vr_network : string;
  vr_profile : string;
  vr_transaction : string;
  vr_transactionEncoding : string;
  vr_paymentOutputIndex : Z;
  vr_amount : string;
  vr_payTo : string;
  vr_payToScriptPublicKey : string;
  vr_requiredFinality : string;
  vr_requestHash : string;
  vr_paymentIdentifier : string;
  vr_paymentRequirementsHash : string;
  vr_authorization : ExactRequestAuthorization;
  vr_hashChainHead : option HashChainHeadChallenge
}.
Definition hash_chain_head_json (h : HashChainHeadChallenge) : json :=
  JObject ([("headId", JString (hc_headId h)); ("headVersion", JString (hc_headVersion h));
            ("covenantId", JString (hc_covenantId h)); ("expectedHeadOutpoint", outpoint_json (hc_expectedHeadOutpoint h));
            ("headAmount", JString (hc_headAmount h)); ("headScriptPublicKey", JString (hc_headScriptPublicKey h));
            ("headRedeemScript", JString (hc_headRedeemScript h)); ("currentGuard", JString (hc_currentGuard h));
            ("nextGuard", JString (hc_nextGuard h)); ("oneTimePublicKey", JString (hc_oneTimePublicKey h));
            ("grantId", JString (hc_grantId h)); ("challengeId", JString (hc_challengeId h));
            ("challengeIssuedAt", JString (hc_challengeIssuedAt h)); ("challengeExpiresAt", JString (hc_challengeExpiresAt h))]
           ++ jprop "grantExpiresAt" JString (hc_grantExpiresAt h)).
Definition request_authorization_json (a : ExactRequestAuthorization) : json :=
  JObject [("version", JString (xa_version a)); ("inputIndex", JNumber (xa_inputIndex a)); ("expiresAt", JString (xa_expiresAt a));
           ("digest", JString (xa_digest a)); ("signature", JString (xa_signature a))].
Definition localValidationFingerprint (request : ExactTransactionVerificationRequest) : result string :=
  stableStringify (JObject
    [("network", JString (vr_network request)); ("profile", JString (vr_profile request));
     ("transaction", JString (vr_transaction request)); ("transactionEncoding", JString (vr_transactionEncoding request));
     ("paymentOutputIndex", JNumber (vr_paymentOutputIndex request)); ("amount", JString (vr_amount request));
     ("payTo", JString (vr_payTo request)); ("payToScriptPublicKey", JString (vr_payToScriptPublicKey request));
     ("requestHash", JString (vr_requestHash request)); ("paymentIdentifier", JString (vr_paymentIdentifier request));
     ("paymentRequirementsHash", JString (vr_paymentRequirementsHash request));
     ("authorization", request_authorization_json (vr_authorization request));
     ("hashChainHead", match vr_hashChainHead request with Some h => hash_chain_head_json h | None => JUndefined end)]).

(** ** Parsed transactions *)

Definition NATIVE_SUBNETWORK : string := String.concat "" (repeat "00" 20).
Record ParsedInput := {
  pin_previousOutpoint : FundingOutpoint;
  pin_signatureScript : string;
  pin_sequence : string;
  pin_computeBudget : Z;
  hintedAmount : string;
  hintedScript : string
}.
(** [ParsedOutput], the shape of a reference output *)
Abbreviation ParsedOutput := TxV1ReferenceOutput.
Record ParsedArtifact := {
  art_id : string;
  art_version : Z;
  art_inputs : list ParsedInput;
  art_outputs : list ParsedOutput;
  art_lockTime : string;
  art_subnetworkId : string;
  art_gas : string;
  art_payload : string;
  art_storageMass : string
}.

(** [a ?? b] on properties: [None] is a missing one *)
Definition nullish (a b : option value) : option value := match a with None | Some VNull => b | _ => a end.
Definition js_record (v : option value) (label : string) : result (list (string * value)) :=
  match v with Some (VObject fields) => Ok fields | _ => Throw (Error (label +:+ " must be an object")) end.
Definition js_array (v : option value) (label : string) : result (list value) :=
  match v with Some (VArray items) => Ok items | _ => Throw (Error (label +:+ " must be an array")) end.
Definition decimal (v : option value) (label : string) : result string :=
  normalized ← match v with Some v => js_String v | None => Ok "undefined" end;
  _ ← throw_if (negb (canonical_decimal normalized) || (U64_MAX <? dec_value normalized)
                || match v with Some (VNumber (Unsafe _)) => true | _ => false end) (label +:+ " must be canonical uint64");
  Ok normalized.
Definition hex (v : option value) (label : string) : result string :=
  match v with
  | Some (VString s) => _ ← throw_if (negb (HEX_BYTE_PATTERN s)) (label +:+ " must be byte hex"); Ok (toLowerCase s)
  | _ => Throw (Error (label +:+ " must be byte hex"))
  end.
Definition hash (v : option value) (label : string) : result string :=
  normalized ← hex v label; _ ← throw_if (negb (byte_length normalized =? 64)) (label +:+ " must be 32-byte hex"); Ok normalized.
Definition script (v : option value) (label : string) : result string :=
  normalized ← hex v label;
  _ ← throw_if (isNone (strip "0000" normalized) || (byte_length normalized <? 6)) (label +:+ " must be a version-0 serialized script");
  Ok normalized.

Section Parsing.
Context (other_numbers : string -> jsnumber).

Definition smallInteger (v : option value) (label : string) : result Z :=
  normalized ← match v with Some v => js_Number other_numbers v | None => Ok None end;
  match normalized with
  | Some n => _ ← throw_if ((n <? 0) || (U32_MAX <? n)) (label +:+ " must be uint32"); Ok n
  | None => Throw (Error (label +:+ " must be uint32"))
  end.
Definition parse_input (item : Z * value) : result ParsedInput :=
  let '(i, v) := item in
  input ← js_record (Some v) ("input " +:+ toString i);
  outpoint ← js_record (nullish (map_get "previousOutpoint" input) (Some v)) "previous outpoint";
  utxo ← js_record (map_get "utxo" input) "input UTXO hint";
  sigOpCount ← js_Number other_numbers (default (VNumber (Safe 0)) (nullish (map_get "sigOpCount" input) None));
  _ ← throw_if (sigOpCount !== Some 0) "hash-chain input sigOpCount must be zero";
  id ← hash (nullish (map_get "transactionId" outpoint) (map_get "txid" outpoint)) "input transaction ID";
  ix ← smallInteger (map_get "index" outpoint) "input index";
  signatureScript ← hex (map_get "signatureScript" input) "input witness";
  sequence ← decimal (map_get "sequence" input) "input sequence";
  computeBudget ← smallInteger (map_get "computeBudget" input) "input compute budget";
  amount ← decimal (map_get "amount" utxo) "input amount";
  spk ← script (map_get "scriptPublicKey" utxo) "input script";
  Ok {| pin_previousOutpoint := Outpoint id ix; pin_signatureScript := signatureScript; pin_sequence := sequence;
        pin_computeBudget := computeBudget; hintedAmount := amount; hintedScript := spk |}.
(** The loop over [seen] *)
Definition see_outpoint (seen : list string) (input : ParsedInput) : result (list string) :=
  let o := pin_previousOutpoint input in
  let key := txid o +:+ ":" +:+ toString (index o) in
  _ ← throw_if (bool_decide (key ∈ seen)) "hash-chain transaction duplicates an input outpoint"; Ok (key :: seen).
Definition parse_output (item : Z * value) : result ParsedOutput :=
  let '(i, v) := item in
  output ← js_record (Some v) ("output " +:+ toString i);
  binding ← match nullish (map_get "covenant" output) None with
            | None => Ok None
            | c => Some <$> js_record c "output covenant"
            end;
  amount ← decimal (nullish (map_get "value" output) (map_get "amount" output)) "output value";
  spk ← script (map_get "scriptPublicKey" output) "output script";
  covenant ← match binding with
             | None => Ok None
             | Some binding =>
                 a ← smallInteger (map_get "authorizingInput" binding) "covenant authorizing input";
                 c ← hash (map_get "covenantId" binding) "output covenant ID";
                 Ok (Some {| authorizingInput := a; cb_covenantId := c |})
             end;
  Ok {| out_amount := amount; out_scriptPublicKey := spk; covenant := covenant |}.
Definition indexed {A} (l : list A) : list (Z * A) := imap (fun i x => (Z.of_nat i, x)) l.
Definition parseArtifact (serialized : string) : result ParsedArtifact :=
  _ ← throw_if (131072 <? js_length serialized) "hash-chain transaction artifact exceeds 128 KiB";
  raw ← JSON_parse other_numbers serialized;
  tx ← js_record (Some raw) "transaction";
  inputs ← js_array (map_get "inputs" tx) "inputs";
  outputs ← js_array (map_get "outputs" tx) "outputs";
  _ ← throw_if ((length inputs <? 2)%nat || (64 <? length inputs)%nat || (length outputs <? 1)%nat || (2 <? length outputs)%nat)
        "hash-chain transaction input or output count is invalid";
  parsedInputs ← map_result parse_input (indexed inputs);
  _ ← fold_result see_outpoint parsedInputs [];
  parsedOutputs ← map_result parse_output (indexed outputs);
  id ← hash (map_get "id" tx) "transaction ID";
  version ← smallInteger (map_get "version" tx) "transaction version";
  lockTime ← decimal (nullish (map_get "lockTime" tx) (Some (VString "0"))) "lockTime";
  subnetworkId ← hex (nullish (map_get "subnetworkId" tx) (Some (VString NATIVE_SUBNETWORK))) "subnetwork";
  gas ← decimal (nullish (map_get "gas" tx) (Some (VString "0"))) "gas";
  payload ← hex (nullish (map_get "payload" tx) (Some (VString ""))) "payload";
  storageMass ← decimal (map_get "storageMass" tx) "storageMass";
  Ok {| art_id := id; art_version := version; art_inputs := parsedInputs; art_outputs := parsedOutputs; art_lockTime := lockTime;
        art_subnetworkId := subnetworkId; art_gas := gas; art_payload := payload; art_storageMass := storageMass |}.
End Parsing.

(** ** Local validation *)

Record LocallyValidatedHashChainPayment := {
  lv_head : HashChainHeadChallenge;
  lv_artifact : ParsedArtifact;
  lv_reference : TxV1ReferenceTransaction;
  lv_transactionId : string;
  lv_output : ParsedOutput;
  lv_payerScripts : list string;
  lv_authorization : ExactRequestAuthorization;
  lv_publicKey : string;
  lv_digest : string
}.
Definition reference_input (head : HashChainHeadChallenge) (i : nat) (input : ParsedInput) : TxV1ReferenceInput := {|
  previousOutpoint := pin_previousOutpoint input; in_signatureScript := pin_signatureScript input;
  sequence := pin_sequence input; computeBudget := pin_computeBudget input; utxo_amount := hintedAmount input;
  utxo_scriptPublicKey := hintedScript input; utxo_covenantId := if (i =? 0)%nat then Some (hc_covenantId head) else None |}.
Definition reference_transaction (head : HashChainHeadChallenge) (artifact : ParsedArtifact) : TxV1ReferenceTransaction := {|
  version := 1; inputs := imap (reference_input head) (art_inputs artifact); outputs := art_outputs artifact;
  lockTime := art_lockTime artifact; subnetworkId := art_subnetworkId artifact; gas := art_gas artifact;
  payload := art_payload artifact; mass := art_storageMass artifact; estimated := 0 |}.

Section Validation.
Context (sha256 blake3 blake2b : bytes -> bytes) (blake2b_keyed blake3_keyed : bytes -> bytes -> bytes).
Context (lift_x : bytes -> result ()).
(** [schnorr.verify(signature, message, publicKey)] *)
Context (schnorr_verify : bytes -> bytes -> bytes -> result bool).
(** [BigInt(text)] on texts that are not canonical decimals *)
Context (other_bigints : string -> result Z).
Context (other_numbers : string -> jsnumber) (other_dates : string -> option Z).

Definition BigInt_of (s : string) : result Z := if canonical_decimal s then Ok (dec_value s) else other_bigints s.
(** [!schnorr.verify(...)] on hexadecimal texts *)
Definition signature_fails (signature digest publicKey : string) : result bool :=
  negb <$> schnorr_verify (Buffer_from_hex signature) (Buffer_from_hex digest) (Buffer_from_hex publicKey).

Definition check_profile (request : ExactTransactionVerificationRequest) : result HashChainHeadChallenge :=
  let message := "hash-chain verifier requires a supported upfront profile and head challenge" in
  match vr_hashChainHead request with
  | Some head =>
      _ ← throw_if (negb (existsb (String.eqb (vr_network request)) ["kaspa:testnet-10"; "kaspa:mainnet"])
                    || (vr_profile request !== "hash-chain-additive") || negb (vr_paymentOutputIndex request =? 0)
                    || (vr_transactionEncoding request !== "kaspa-sdk-safe-json-v2.0.0")) message;
      Ok head
  | None => Throw (Error message)
  end.
(** The head's grant and scripts; the successor's script *)
Definition check_head (request : ExactTransactionVerificationRequest) (head : HashChainHeadChallenge) : result string :=
  bad ← or_else (Ok (negb (is_lower_hash32 (hc_covenantId head)) || is_zero64 (hc_covenantId head)
                     || negb (index (hc_expectedHeadOutpoint head) =? 0)))
                (guard ← hashChainBorrowGuard blake3 (hc_nextGuard head) (hc_oneTimePublicKey head);
                 Ok (guard !== hc_currentGuard head));
  _ ← throw_if bad "hash-chain grant or covenant identity is invalid";
  parsedHead ← parseHashChainHeadRedeemScript lift_x (hc_headRedeemScript head);
  successorScript ← hashChainHeadScriptPublicKey blake2b lift_x
                      {| hp_ownerPublicKey := hp_ownerPublicKey parsedHead; hp_guard := hc_nextGuard head |};
  bad ← or_else (Ok (hp_guard parsedHead !== hc_currentGuard head))
                (spk ← hashChainHeadScriptPublicKey blake2b lift_x parsedHead;
                 Ok ((spk !== hc_headScriptPublicKey head) || (successorScript !== toLowerCase (vr_payToScriptPublicKey request))));
  _ ← throw_if bad "hash-chain head or successor script is inconsistent";
  Ok successorScript.
(** The envelope of the transaction, its inputs and its outputs; the head input and the successor *)
Definition check_artifact (request : ExactTransactionVerificationRequest) (head : HashChainHeadChallenge) (successorScript : string)
    (artifact : ParsedArtifact) (maxInputs : Z) : result (ParsedInput * ParsedOutput) :=
  _ ← throw_if (maxInputs <? Z.of_nat (length (art_inputs artifact))) "hash-chain transaction exceeds the per-payment input budget";
  let envelope := "hash-chain transaction topology or native envelope is invalid" in
  _ ← throw_if (negb (art_version artifact =? 1) || (art_lockTime artifact !== "0") || (art_subnetworkId artifact !== NATIVE_SUBNETWORK)
                || (art_gas artifact !== "0") || (art_payload artifact !== "") || (length (art_inputs artifact) <? 2)%nat
                || (length (art_outputs artifact) <? 1)%nat || (2 <? length (art_outputs artifact))%nat) envelope;
  match art_inputs artifact, art_outputs artifact with
  | headInput :: payerInputs, output :: _ =>
      _ ← throw_if ((txid (pin_previousOutpoint headInput) !== txid (hc_expectedHeadOutpoint head))
                    || negb (index (pin_previousOutpoint headInput) =? 0) || (pin_sequence headInput !== "0")
                    || (pin_computeBudget headInput <? 1) || (65535 <? pin_computeBudget headInput)
                    || (hintedAmount headInput !== hc_headAmount head) || (hintedScript headInput !== hc_headScriptPublicKey head))
            "hash-chain transaction does not spend the advertised head";
      _ ← for_each (fun input => throw_if (negb (pin_computeBudget input =? 10) || (pin_sequence input !== "0"))
                                   "hash-chain payer input budget or sequence is invalid") payerInputs;
      headAmount ← BigInt_of (hc_headAmount head);
      amount ← BigInt_of (vr_amount request);
      let expectedAmount := headAmount + amount in
      _ ← throw_if ((U64_MAX <? expectedAmount) || (out_amount output !== toString expectedAmount)
                    || (out_scriptPublicKey output !== successorScript)
                    || (covenant output !== Some {| authorizingInput := 0; cb_covenantId := hc_covenantId head |})
                    || match art_outputs artifact !! 1%nat with Some change => isSome (covenant change) | None => false end)
            "hash-chain successor is not the exact quoted same-ID increase";
      Ok (headInput, output)
  | _, _ => Throw (Error envelope)
  end.
(** The witness of the head input and its one-time signature *)
Definition check_head_witness (head : HashChainHeadChallenge) (reference : TxV1ReferenceTransaction) (headInput : ParsedInput) : result () :=
  let headWitness := hex_decode (pin_signatureScript headInput) in
  _ ← throw_if (negb (headWitness !! 66%nat === Some (byte_of 65))) "hash-chain head witness lacks a canonical Schnorr signature";
  headSighashType ← match headWitness !! 131%nat with
                    | Some flag => kaspaSighashType (code flag)
                    | None => Throw (Error "invalid Kaspa sighash type")
                    end;
  let headSignature := bytesToHex (take 64 (drop 67 headWitness)) in
  bad ← or_else (witness ← buildHashChainBorrowSignatureScript lift_x
                   {| bw_revealedGuard := hc_nextGuard head; bw_oneTimePublicKey := hc_oneTimePublicKey head;
                      bw_signature := headSignature; bw_sighashType := Some headSighashType; bw_redeemScript := hc_headRedeemScript head |};
                 Ok (witness !== pin_signatureScript headInput))
                (sighash ← transactionV1Sighash blake2b_keyed reference 0 headSighashType;
                 signature_fails headSignature (sg_digest sighash) (hc_oneTimePublicKey head));
  throw_if bad "hash-chain one-time signature or borrow witness is invalid".
(** The loop over the payer's inputs; the state is [fundingKeys] *)
Definition check_payer_input (reference : TxV1ReferenceTransaction) (fundingKeys : list (Z * string)) (i : nat) :
    result (list (Z * string)) :=
  evidence ← transactionV1SchnorrSignatureEvidence blake2b_keyed reference i;
  bad ← signature_fails (ev_signature evidence) (ev_digest evidence) (ev_publicKey evidence);
  _ ← throw_if bad "hash-chain payer funding signature is invalid";
  Ok (map_set (Z.of_nat i) (ev_publicKey evidence) fundingKeys).
Definition request_digest_input (request : ExactTransactionVerificationRequest) (head : HashChainHeadChallenge) (transactionId : string)
    : ExactRequestAuthorizationDigestInput := {|
  xi_network := vr_network request; xi_profile := vr_profile request; xi_transactionId := transactionId; xi_paymentOutputIndex := 0;
  xi_amount := vr_amount request; xi_payTo := vr_payTo request; xi_payToScriptPublicKey := vr_payToScriptPublicKey request;
  xi_paymentRequirementsHash := vr_paymentRequirementsHash request; xi_requestHash := vr_requestHash request;
  xi_paymentIdentifier := vr_paymentIdentifier request; xi_challengeId := Some (hc_challengeId head);
  xi_inputIndex := xa_inputIndex (vr_authorization request); xi_expiresAt := xa_expiresAt (vr_authorization request) |}.
(** The payer's authorization of the request: the key and the digest it signs *)
Definition check_authorization (request : ExactTransactionVerificationRequest) (head : HashChainHeadChallenge) (transactionId : string)
    (fundingKeys : list (Z * string)) : result (string * string) :=
  let authorization := vr_authorization request in
  let message := "hash-chain request authorization is missing or not signed by a payer input" in
  match map_get (xa_inputIndex authorization) fundingKeys with
  | None => Throw (Error message)
  | Some publicKey =>
      _ ← throw_if ((publicKey === "") || (xa_version authorization !== "kaspa-x402-exact-request-authorization-v2")
                    || isNone (Date_parse other_dates (xa_expiresAt authorization))) message;
      digest ← exactRequestAuthorizationDigest sha256 (request_digest_input request head transactionId);
      bad ← or_else (Ok (digest !== toLowerCase (xa_digest authorization)))
                    (signature_fails (xa_signature authorization) digest publicKey);
      _ ← throw_if bad "hash-chain payer request authorization signature is invalid";
      Ok (publicKey, digest)
  end.
Definition locallyValidateHashChainPayment (request : ExactTransactionVerificationRequest) (maxInputs : Z) :
    result LocallyValidatedHashChainPayment :=
  head ← check_profile request;
  successorScript ← check_head request head;
  artifact ← parseArtifact other_numbers (vr_transaction request);
  '(headInput, output) ← check_artifact request head successorScript artifact maxInputs;
  let reference := reference_transaction head artifact in
  transactionId ← transactionV1Id blake2b_keyed blake3_keyed reference;
  _ ← throw_if (transactionId !== art_id artifact) "hash-chain transaction ID is not canonical";
  _ ← check_head_witness head reference headInput;
  fundingKeys ← fold_result (check_payer_input reference) (seq 1 (length (inputs reference) - 1)) [];
  '(publicKey, digest) ← check_authorization request head transactionId fundingKeys;
  Ok {| lv_head := head; lv_artifact := artifact; lv_reference := reference; lv_transactionId := transactionId; lv_output := output;
        lv_payerScripts := map hintedScript (tail (art_inputs artifact)); lv_authorization := vr_authorization request;
        lv_publicKey := publicKey; lv_digest := digest |}.

(** ** The cache of validations

    [localValidationCache] is keyed by the identity of the request object, here a number. *)

Record CachedValidation := { cached_fingerprint : string; cached_validated : LocallyValidatedHashChainPayment }.
Abbreviation LocalValidationCache := (gmap N CachedValidation).
(** The transaction id and the payer's key, with the cache afterwards *)
Definition authenticateHashChainPaymentLocally (cache : LocalValidationCache) (object : N) (request : ExactTransactionVerificationRequest) :
    result (string * string) * LocalValidationCache :=
  match (validated ← locallyValidateHashChainPayment request 8;
         fingerprint ← localValidationFingerprint request; Ok (validated, fingerprint)) with
  | Ok (validated, fingerprint) =>
      (Ok (lv_transactionId validated, lv_publicKey validated),
       <[object := {| cached_fingerprint := fingerprint; cached_validated := validated |}]> cache)
  | Throw e => (Throw e, cache)
  end.

(** ** Verification against the selected chain *)

Record HashChainTrustedOrigin := { to_amount : string; to_scriptPublicKey : string; to_covenantId : option string }.
Record HashChainSelectedTransaction := {
  st_transactionId : string;
  st_finality : string;
  st_spentHead : FundingOutpoint;
  st_amount : string;
  st_scriptPublicKey : string;
  st_covenantId : string;
  st_authorizingInput : Z
}.
(** [HashChainChainView]: what the adapter answers to the one batch of outpoints and to the id *)
Record HashChainChainView := {
  view_network : option string;
  getAcceptedOrigins : list FundingOutpoint -> result (list (option HashChainTrustedOrigin));
  getSelectedTransaction : string -> result (option HashChainSelectedTransaction)
}.
Record HashChainExactTransactionVerifier := {
  hv_chain : HashChainChainView;
  hv_maxFeeSompi : Z;
  hv_maxInputs : Z;
  hv_network : string
}.
Definition new_HashChainExactTransactionVerifier (chain : HashChainChainView) (maxFeeSompi maxInputs : Z) (network : option string)
    (allowMainnet : bool) : result HashChainExactTransactionVerifier :=
  network ← parseKaspaNetwork (default (default "kaspa:testnet-10" (view_network chain)) network);
  _ ← assertMainnetAllowed network allowMainnet "HashChainExactTransactionVerifier";
  _ ← throw_if ((isSome (view_network chain) && (view_network chain !== Some network))
                || ((network === "kaspa:mainnet") && (view_network chain !== Some network)))
        "hash-chain view network mismatch or missing identity";
  _ ← throw_if ((maxFeeSompi <? 0) || (U64_MAX <? maxFeeSompi)) "invalid hash-chain fee ceiling";
  _ ← throw_if (negb (isSafeInteger maxInputs) || (maxInputs <? 2) || (8 <? maxInputs))
        "hash-chain input budget must be an integer from 2 to 8";
  Ok {| hv_chain := chain; hv_maxFeeSompi := maxFeeSompi; hv_maxInputs := maxInputs; hv_network := network |}.

Record ExactTransactionVerification := {
  xv_transactionId : string;
  (** [paymentOutput] *)
  xv_amount : string;
  xv_scriptPublicKey : string;
  xv_address : string;
  (** [continuation] *)
  xv_outpoint : FundingOutpoint;
  xv_continuationAmount : string;
  xv_continuationScriptPublicKey : string;
  (** [requestAuthorization] *)
  xv_authorizationId : string;
  xv_digest : string;
  xv_inputIndex : Z;
  xv_publicKey : string;
  xv_finality : option string
}.
Fixpoint check_origins (inputs : list ParsedInput) (observed : list (option HashChainTrustedOrigin)) : result (list HashChainTrustedOrigin) :=
  match inputs, observed with
  | [], _ => Ok []
  | input :: inputs, Some origin :: observed =>
      _ ← throw_if ((to_amount origin !== hintedAmount input) || (toLowerCase (to_scriptPublicKey origin) !== hintedScript input))
            "hash-chain input does not match an accepted origin output";
      rest ← check_origins inputs observed;
      Ok ({| to_amount := to_amount origin; to_scriptPublicKey := toLowerCase (to_scriptPublicKey origin);
             to_covenantId := toLowerCase <$> to_covenantId origin |} :: rest)
  | _ :: _, _ => Throw (Error "hash-chain input does not match an accepted origin output")
  end.
Definition add_amount (sum : Z) (amount : string) : result Z := n ← BigInt_of amount; Ok (sum + n).
(** The origins of the inputs, their sums against the outputs, and the storage mass *)
Definition check_value (verifier : HashChainExactTransactionVerifier) (validated : LocallyValidatedHashChainPayment)
    (origins : list HashChainTrustedOrigin) : result () :=
  let artifact := lv_artifact validated in
  _ ← throw_if (negb ((to_covenantId <$> origins !! 0%nat) === Some (Some (hc_covenantId (lv_head validated))))
                || existsb (fun o => isSome (to_covenantId o)) (tail origins)) "hash-chain input covenant lineage is invalid";
  _ ← throw_if (match art_outputs artifact !! 1%nat with
                | Some change => negb (existsb (String.eqb (out_scriptPublicKey change)) (lv_payerScripts validated))
                | None => false
                end) "hash-chain change is not controlled by a verified payer input";
  inputAmount ← fold_result add_amount (map to_amount origins) 0;
  outputAmount ← fold_result add_amount (map out_amount (art_outputs artifact)) 0;
  _ ← throw_if ((inputAmount <? outputAmount) || (hv_maxFeeSompi verifier <? inputAmount - outputAmount))
        "hash-chain payer fee is invalid or excessive";
  mass ← calculateKaspaStorageMass
    (map (fun o => {| sc_amount := Text (to_amount o); sc_scriptPublicKey := to_scriptPublicKey o; hasCovenant := isSome (to_covenantId o) |}) origins)
    (map (fun o => {| sc_amount := Text (out_amount o); sc_scriptPublicKey := out_scriptPublicKey o; hasCovenant := isSome (covenant o) |})
       (art_outputs artifact)) None;
  storageMass ← BigInt_of (art_storageMass artifact);
  throw_if (negb (mass =? storageMass)) "hash-chain contextual storage mass is invalid".
Definition check_selected (request : ExactTransactionVerificationRequest) (validated : LocallyValidatedHashChainPayment)
    (selected : option HashChainSelectedTransaction) : result () :=
  let head := lv_head validated in let output := lv_output validated in
  throw_if (match selected with
            | None => false
            | Some s =>
                (toLowerCase (st_transactionId s) !== lv_transactionId validated)
                || (toLowerCase (txid (st_spentHead s)) !== txid (hc_expectedHeadOutpoint head)) || negb (index (st_spentHead s) =? 0)
                || (st_amount s !== out_amount output) || (toLowerCase (st_scriptPublicKey s) !== out_scriptPublicKey output)
                || (toLowerCase (st_covenantId s) !== hc_covenantId head) || negb (st_authorizingInput s =? 0)
                || ((vr_requiredFinality request === "confirmed") && (st_finality s !== "confirmed"))
            end) "selected-chain hash-chain successor or finality does not match proof".
(** The validation that is used: the cached one for an unchanged request, or a new one *)
Definition validation_for (verifier : HashChainExactTransactionVerifier) (cache : LocalValidationCache) (object : N)
    (request : ExactTransactionVerificationRequest) : result LocallyValidatedHashChainPayment :=
  fingerprint ← localValidationFingerprint request;
  match cache !! object with
  | Some cached =>
      if (cached_fingerprint cached === fingerprint)
         && (Z.of_nat (length (art_inputs (lv_artifact (cached_validated cached)))) <=? hv_maxInputs verifier)
      then Ok (cached_validated cached)
      else locallyValidateHashChainPayment request (hv_maxInputs verifier)
  | None => locallyValidateHashChainPayment request (hv_maxInputs verifier)
  end.
Definition verifyExactPayment (verifier : HashChainExactTransactionVerifier) (cache : LocalValidationCache) (object : N)
    (request : ExactTransactionVerificationRequest) : result ExactTransactionVerification :=
  _ ← throw_if (vr_network request !== hv_network verifier) "hash-chain verification network does not match chain view";
  validated ← validation_for verifier cache object request;
  let artifact := lv_artifact validated in
  observedOrigins ← getAcceptedOrigins (hv_chain verifier) (map pin_previousOutpoint (art_inputs artifact));
  _ ← throw_if (negb (length observedOrigins =? length (art_inputs artifact))%nat) "hash-chain origin observer returned an incomplete batch";
  origins ← check_origins (art_inputs artifact) observedOrigins;
  _ ← check_value verifier validated origins;
  selected ← getSelectedTransaction (hv_chain verifier) (lv_transactionId validated);
  _ ← check_selected request validated selected;
  authorizationId ← exactRequestAuthorizationId sha256 (lv_authorization validated);
  let output := lv_output validated in
  Ok {| xv_transactionId := lv_transactionId validated; xv_amount := vr_amount request; xv_scriptPublicKey := out_scriptPublicKey output;
        xv_address := vr_payTo request; xv_outpoint := Outpoint (lv_transactionId validated) 0;
        xv_continuationAmount := out_amount output; xv_continuationScriptPublicKey := out_scriptPublicKey output;
        xv_authorizationId := authorizationId; xv_digest := lv_digest validated;
        xv_inputIndex := xa_inputIndex (lv_authorization validated); xv_publicKey := lv_publicKey validated;
        xv_finality := st_finality <$> selected |}.
End Validation.
