(* ===== verification/HashChainSigner.v ===== *)
(** * The hash-chain signer

    Models [protocol/packages/client/src/hash-chain-signer.ts] with the request types of
    [client/src/types.ts] it reads: the client builds a borrow of the advertised head, signs
    it with the delivered one-time key and with the payer's key, and authorizes the request.
    Schnorr signing and the hashes are parameters. *)

From S2P Require Import Prelude Amount Json Binary ChainTruth Template HashChain TxV1 JsonText Authorization.

(** ** Requests *)

(** [ExactPaymentRequest.hashChainHead] *)
Record ClientHashChainHead := {
  ch_headId : string;
  ch_headVersion : string;
  ch_covenantId : string;
  ch_expectedHeadOutpoint : FundingOutpoint;
  ch_headAmount : string;
  ch_headScriptPublicKey : string;
  ch_headRedeemScript : string;
  ch_currentGuard : string;
  ch_nextGuard : string;
  ch_oneTimePublicKey : string;
  ch_grantId : string;
  ch_grantClaimUrl : string;
  ch_challengeId : string;
  ch_challengeExpiresAt : string
}.
(** [headVersion] is a safe integer. *)
Record HashChainGrantDelivery := {
  gd_grantId : string;
  gd_headVersion : Z;
  gd_nextGuard : string;
  gd_oneTimePublicKey : string;
  gd_oneTimePrivateKey : string;
  gd_expiresAt : string
}.
(** The fields of [ExactTransactionPaymentRequest & { grant }] that the signer reads *)
Record HashChainPaymentRequest := {
  pr_network : string;
  pr_profile : string;
  pr_amount : string;
  pr_payTo : string;
  pr_payToScriptPublicKey : string;
  pr_paymentOutputIndex : option Z;
  pr_requestHash : string;
  pr_paymentRequirementsHash : string;
  pr_paymentIdentifier : string;
  pr_authorizationExpiresAt : string;
  pr_hashChainHead : option ClientHashChainHead;
  pr_grant : HashChainGrantDelivery
}.
Record HashChainPayerFundingInput := {
  fi_outpoint : FundingOutpoint;
  fi_amount : string;
  fi_scriptPublicKey : string;
  fi_privateKey : string;
  fi_payerAddress : string
}.
Record ExactTransactionPaymentResult := {
  er_transaction : string;
  er_transactionEncoding : string;
  er_transactionId : string;
  er_paymentOutputIndex : Z;
  er_inputOutpoints : list FundingOutpoint;
  er_authorization : ExactRequestAuthorization;
  er_payerAddress : string;
  er_fundingSource : string
}.

(** ** Amounts *)

Definition signer_subnetwork : string := String.concat "" (repeat "00" 20).
Definition MAX_FEE : Z := 10000000.
Definition MAX_STORAGE_MASS : Z := 500000.
Definition canonicalPositive (value label : string) : result Z :=
  _ ← throw_if (negb (canonical_decimal value) || (value === "0")) (label +:+ " must be canonical positive sompi");
  let amount := dec_value value in
  _ ← throw_if (U64_MAX <? amount) (label +:+ " exceeds uint64"); Ok amount.

(** ** The transaction *)

Definition signer_inputs (head : ClientHashChainHead) (funding : HashChainPayerFundingInput) (headWitness payerWitness : string) :
    list TxV1ReferenceInput :=
  [{| previousOutpoint := ch_expectedHeadOutpoint head; in_signatureScript := headWitness; sequence := "0"; computeBudget := 10;
      utxo_amount := ch_headAmount head; utxo_scriptPublicKey := ch_headScriptPublicKey head;
      utxo_covenantId := Some (ch_covenantId head) |};
   {| previousOutpoint := fi_outpoint funding; in_signatureScript := payerWitness; sequence := "0"; computeBudget := 10;
      utxo_amount := fi_amount funding; utxo_scriptPublicKey := fi_scriptPublicKey funding; utxo_covenantId := None |}].
Definition successor_output (request : HashChainPaymentRequest) (head : ClientHashChainHead) (amount : Z) : TxV1ReferenceOutput := {|
  out_amount := toString amount; out_scriptPublicKey := pr_payToScriptPublicKey request;
  covenant := Some {| authorizingInput := 0; cb_covenantId := ch_covenantId head |} |}.
Definition change_output (funding : HashChainPayerFundingInput) (change : Z) : TxV1ReferenceOutput := {|
  out_amount := toString change; out_scriptPublicKey := fi_scriptPublicKey funding; covenant := None |}.
Definition storageMass (inputs : list TxV1ReferenceInput) (outputs : list TxV1ReferenceOutput) : result Z :=
  calculateKaspaStorageMass
    (map (fun i => {| sc_amount := Text (utxo_amount i); sc_scriptPublicKey := utxo_scriptPublicKey i; hasCovenant := isSome (utxo_covenantId i) |}) inputs)
    (map (fun o => {| sc_amount := Text (out_amount o); sc_scriptPublicKey := out_scriptPublicKey o; hasCovenant := isSome (covenant o) |}) outputs)
    None.
Definition signer_transaction (inputs : list TxV1ReferenceInput) (outputs : list TxV1ReferenceOutput) (mass : Z) : TxV1ReferenceTransaction := {|
  version := 1; inputs := inputs; outputs := outputs; lockTime := "0"; subnetworkId := signer_subnetwork; gas := "0"; payload := "";
  mass := toString mass; estimated := 0 |}.

(** [safe], the text form of the signed transaction *)
Definition safe_input (item : TxV1ReferenceInput) : json :=
  JObject [("transactionId", JString (txid (previousOutpoint item))); ("index", JNumber (index (previousOutpoint item)));
           ("sequence", JString (sequence item)); ("sigOpCount", JNumber 0); ("computeBudget", JNumber (computeBudget item));
           ("signatureScript", JString (in_signatureScript item));
           ("utxo", JObject [("address", JNull); ("amount", JString (utxo_amount item));
                             ("scriptPublicKey", JString (utxo_scriptPublicKey item)); ("blockDaaScore", JString "0");
                             ("isCoinbase", JBool false); ("covenantId", jnullable (utxo_covenantId item))])].
Definition safe_output (item : TxV1ReferenceOutput) : json :=
  JObject [("value", JString (out_amount item)); ("scriptPublicKey", JString (out_scriptPublicKey item));
           ("covenant", match covenant item with
                        | Some c => JObject [("authorizingInput", JNumber (authorizingInput c)); ("covenantId", JString (cb_covenantId c))]
                        | None => JNull
                        end)].
Definition safe_transaction (transactionId : string) (signed : TxV1ReferenceTransaction) : json :=
  JObject [("id", JString transactionId); ("version", JNumber 1); ("inputs", JArray (map safe_input (inputs signed)));
           ("outputs", JArray (map safe_output (outputs signed))); ("subnetworkId", JString (subnetworkId signed));
           ("lockTime", JString (lockTime signed)); ("gas", JString (gas signed)); ("storageMass", JString (mass signed));
           ("payload", JString (payload signed))].

Section Signing.
Context (sha256 blake3 blake2b : bytes -> bytes) (blake2b_keyed blake3_keyed : bytes -> bytes -> bytes).
Context (getPublicKey : bytes -> result bytes) (lift_x : bytes -> result ()).
(** [schnorr.sign(message, privateKey, auxRand)] *)
Context (schnorr_sign : bytes -> bytes -> option bytes -> result bytes).
Context (other_numbers : string -> jsnumber).

Definition check_request (request : HashChainPaymentRequest) : result ClientHashChainHead :=
  let message := "hash-chain signer requires a supported head challenge" in
  match pr_hashChainHead request with
  | Some head =>
      _ ← throw_if (negb (existsb (String.eqb (pr_network request)) ["kaspa:testnet-10"; "kaspa:mainnet"])
                    || (pr_profile request !== "hash-chain-additive") || (pr_paymentOutputIndex request !== Some 0)) message;
      Ok head
  | None => Throw (Error message)
  end.
Definition check_grant (grant : HashChainGrantDelivery) (head : ClientHashChainHead) : result () :=
  bad ← or_else (Ok ((gd_grantId grant !== ch_grantId head)
                     || (Some (gd_headVersion grant) !== safe_integer (number_of_text other_numbers (ch_headVersion head)))
                     || (gd_nextGuard grant !== ch_nextGuard head) || (gd_oneTimePublicKey grant !== ch_oneTimePublicKey head)))
        (or_else (key ← hashChainOneTimePublicKey getPublicKey (gd_oneTimePrivateKey grant); Ok (key !== ch_oneTimePublicKey head))
                 (guard ← hashChainBorrowGuard blake3 (ch_nextGuard head) (ch_oneTimePublicKey head);
                  Ok (guard !== ch_currentGuard head)));
  throw_if bad "delivered one-time grant does not match the advertised head".
Definition check_scripts (request : HashChainPaymentRequest) (head : ClientHashChainHead) : result () :=
  parsed ← parseHashChainHeadRedeemScript lift_x (ch_headRedeemScript head);
  bad ← or_else (Ok (hp_guard parsed !== ch_currentGuard head))
        (or_else (spk ← hashChainHeadScriptPublicKey blake2b lift_x parsed; Ok (spk !== ch_headScriptPublicKey head))
                 (spk ← hashChainHeadScriptPublicKey blake2b lift_x
                          {| hp_ownerPublicKey := hp_ownerPublicKey parsed; hp_guard := ch_nextGuard head |};
                  Ok (spk !== pr_payToScriptPublicKey request)));
  throw_if bad "hash-chain current and successor scripts do not match the pinned covenant".
(** The payer's key, when it controls the funding input *)
Definition check_funding (funding : HashChainPayerFundingInput) : result bytes :=
  let payerKey := Buffer_from_hex (fi_privateKey funding) in
  bad ← or_else (Ok (negb (is_lower_hash32 (fi_privateKey funding)) || negb (length payerKey =? 32)%nat))
        (key ← getPublicKey payerKey; Ok (fi_scriptPublicKey funding !== "000020" +:+ bytesToHex key +:+ "ac"));
  _ ← throw_if bad "funding input is not controlled by the payer signing key"; Ok payerKey.
(** The outputs and their mass: change that is too small for the mass limit goes to the fee. *)
Definition choose_outputs (inputs : list TxV1ReferenceInput) (successor : TxV1ReferenceOutput) (funding : HashChainPayerFundingInput)
    (change targetFee : Z) : result (list TxV1ReferenceOutput * Z) :=
  let outputs := if 0 <? change then [successor; change_output funding change] else [successor] in
  mass ← storageMass inputs outputs;
  '(outputs, mass) ← if (MAX_STORAGE_MASS <=? mass) && (0 <? change) && (targetFee + change <=? MAX_FEE)
                     then mass ← storageMass inputs [successor]; Ok ([successor], mass)
                     else Ok (outputs, mass);
  _ ← throw_if (MAX_STORAGE_MASS <=? mass) "hash-chain funding produces excessive transaction mass"; Ok (outputs, mass).
(** The Schnorr signature, in hexadecimal, of a digest in hexadecimal *)
Definition sign_hex (digest : string) (key : bytes) (aux : option bytes) : result string :=
  signature ← schnorr_sign (Buffer_from_hex digest) key aux; Ok (bytesToHex signature).
Definition sign_transaction (head : ClientHashChainHead) (grant : HashChainGrantDelivery) (funding : HashChainPayerFundingInput)
    (payerKey : bytes) (outputs : list TxV1ReferenceOutput) (mass : Z) (aux : option bytes) : result TxV1ReferenceTransaction :=
  let unsigned := signer_transaction (signer_inputs head funding "" "") outputs mass in
  headDigest ← transactionV1Sighash blake2b_keyed unsigned 0 1;
  headSignature ← sign_hex (sg_digest headDigest) (Buffer_from_hex (gd_oneTimePrivateKey grant)) aux;
  payerDigest ← transactionV1Sighash blake2b_keyed unsigned 1 1;
  payerSignature ← sign_hex (sg_digest payerDigest) payerKey aux;
  headWitness ← buildHashChainBorrowSignatureScript lift_x
    {| bw_revealedGuard := ch_nextGuard head; bw_oneTimePublicKey := ch_oneTimePublicKey head; bw_signature := headSignature;
       bw_sighashType := None; bw_redeemScript := ch_headRedeemScript head |};
  payerWitness ← buildTxV1P2pkSignatureScript (Hex payerSignature) None;
  Ok (signer_transaction (signer_inputs head funding headWitness payerWitness) outputs mass).
Definition signer_digest_input (request : HashChainPaymentRequest) (head : ClientHashChainHead) (transactionId : string) :
    ExactRequestAuthorizationDigestInput := {|
  xi_network := pr_network request; xi_profile := pr_profile request; xi_transactionId := transactionId; xi_paymentOutputIndex := 0;
  xi_amount := pr_amount request; xi_payTo := pr_payTo request; xi_payToScriptPublicKey := pr_payToScriptPublicKey request;
  xi_paymentRequirementsHash := pr_paymentRequirementsHash request; xi_requestHash := pr_requestHash request;
  xi_paymentIdentifier := pr_paymentIdentifier request; xi_challengeId := Some (ch_challengeId head); xi_inputIndex := 1;
  xi_expiresAt := pr_authorizationExpiresAt request |}.
Definition signHashChainExactTransaction (request : HashChainPaymentRequest) (funding : HashChainPayerFundingInput) (feeSompi : string)
    (schnorrAuxRand : option bytes) : result ExactTransactionPaymentResult :=
  _ ← throw_if (match schnorrAuxRand with Some b => negb (length b =? 32)%nat | None => false end) "Schnorr auxiliary data must be 32 bytes";
  head ← check_request request;
  _ ← check_grant (pr_grant request) head;
  _ ← check_scripts request head;
  payerKey ← check_funding funding;
  amount ← canonicalPositive (pr_amount request) "quoted amount";
  headAmount ← canonicalPositive (ch_headAmount head) "head amount";
  fundingAmount ← canonicalPositive (fi_amount funding) "funding amount";
  targetFee ← canonicalPositive feeSompi "fee";
  _ ← throw_if ((MAX_FEE <? targetFee) || (U64_MAX <? headAmount + amount) || (fundingAmount <? amount + targetFee))
        "funding cannot cover the exact increase and bounded fee";
  _ ← throw_if ((txid (fi_outpoint funding) === txid (ch_expectedHeadOutpoint head))
                && (index (fi_outpoint funding) =? index (ch_expectedHeadOutpoint head))) "head and funding outpoints must differ";
  '(outputs, mass) ← choose_outputs (signer_inputs head funding "" "") (successor_output request head (headAmount + amount)) funding
                       (fundingAmount - amount - targetFee) targetFee;
  signed ← sign_transaction head (pr_grant request) funding payerKey outputs mass schnorrAuxRand;
  transactionId ← transactionV1Id blake2b_keyed blake3_keyed signed;
  digest ← exactRequestAuthorizationDigest sha256 (signer_digest_input request head transactionId);
  signature ← sign_hex digest payerKey schnorrAuxRand;
  Ok {| er_transaction := JSON_stringify (safe_transaction transactionId signed);
        er_transactionEncoding := "kaspa-sdk-safe-json-v2.0.0"; er_transactionId := transactionId; er_paymentOutputIndex := 0;
        er_inputOutpoints := [ch_expectedHeadOutpoint head; fi_outpoint funding];
        er_authorization := {| xa_version := "kaspa-x402-exact-request-authorization-v2"; xa_inputIndex := 1;
                               xa_expiresAt := pr_authorizationExpiresAt request; xa_digest := digest; xa_signature := signature |};
        er_payerAddress := fi_payerAddress funding; er_fundingSource := "hot-wallet" |}.
End Signing.
