(* ===== verification/HashChainPayment.v ===== *)
(** * Hash-chain payments between the signer and the verifier

    The client's signer (HashChainSigner) and the server's verifier (HashChainVerifier): the
    verifier's parser reads back what the signer writes, an accepted payment increases the
    head by exactly the quoted amount at the payer's expense and was signed and authorized,
    and the cache of local validations changes no outcome.  HashChainExchange composes the
    two sides. *)

From S2P Require Import Prelude Amount Json Binary ResourceBudget ChainTruth Dates Template HashChain TxV1 TxV1Artifacts TxV1Commitments JsonText Authorization HashChainVerifier HashChainSigner.

(** ** Reading fields *)

Lemma map_get_here {V} (k : string) (v : V) m : map_get k ((k, v) :: m) = Some v.
Proof. cbn [map_get]. by rewrite decide_True. Qed.
Lemma map_get_there {V} (k k' : string) (v : V) m : k <> k' -> map_get k ((k', v) :: m) = map_get k m.
Proof. intros H. cbn [map_get]. by rewrite decide_False. Qed.
(** Looks properties up in literal objects, and follows the steps that succeed. *)
Ltac read_fields := repeat first [rewrite map_get_here | rewrite map_get_there by discriminate].
Lemma bind_step {A B} (m : result A) (k : A -> result B) a r : m = Ok a -> k a = r -> m ≫= k = r.
Proof. by intros -> <-. Qed.
Ltac steps := cbn [mbind result_bind fmap result_fmap].

Lemma decimal_text s label : canonical_decimal s = true -> dec_value s <= U64_MAX -> decimal (Some (VString s)) label = Ok s.
Proof. intros Hs Hv. unfold decimal. cbn [js_String]. steps. rewrite Hs. by decide_guards. Qed.
Lemma decimal_ok v label s : decimal v label = Ok s -> canonical_decimal s = true /\ dec_value s <= U64_MAX.
Proof. unfold decimal. intros H. inv_ok. done. Qed.
Lemma hex_text s label : HEX_BYTE_PATTERN s = true -> toLowerCase s = s -> hex (Some (VString s)) label = Ok s.
Proof. intros Hs Hl. unfold hex. rewrite Hs. steps. cbn. by rewrite Hl. Qed.
Lemma canonical_hex_text s label : canonical_hex s -> hex (Some (VString s)) label = Ok s.
Proof. intros [b ->]. apply hex_text; [apply byte_hex_of|apply toLowerCase_hex]. Qed.
Lemma hash_text s label : sized 32 s -> hash (Some (VString s)) label = Ok s.
Proof.
  intros (b & -> & Hb). unfold hash. rewrite canonical_hex_text by (by exists b). steps.
  by rewrite bytesToHex_length, Hb.
Qed.
Definition script_text (s : string) : Prop := exists b, s = "0000" +:+ bytesToHex b /\ b <> [].
Lemma script_text_ok s label : script_text s -> script (Some (VString s)) label = Ok s.
Proof.
  intros (b & -> & Hb). unfold script.
  assert ("0000" +:+ bytesToHex b = bytesToHex (byte_of 0 :: byte_of 0 :: b)) as E by reflexivity.
  rewrite canonical_hex_text by (exists (byte_of 0 :: byte_of 0 :: b); exact E). steps. rewrite E at 2. rewrite bytesToHex_length.
  destruct b as [|c b]; [done|]. replace (_ <? 6) with false by (symmetry; apply Z.ltb_ge; cbn [length]; lia). done.
Qed.
Lemma small_text other_numbers n label : 0 <= n <= U32_MAX -> smallInteger other_numbers (Some (VNumber (Safe n))) label = Ok n.
Proof. intros Hn. unfold smallInteger. cbn. decide_guards. done. Qed.

(** ** The parser reads back what the signer writes *)

Record wf_input (i : TxV1ReferenceInput) : Prop := {
  wi_txid : sized 32 (txid (previousOutpoint i));
  wi_index : 0 <= index (previousOutpoint i) <= U32_MAX;
  wi_signatureScript : canonical_hex (in_signatureScript i);
  wi_sequence : canonical_decimal (sequence i) = true /\ dec_value (sequence i) <= U64_MAX;
  wi_computeBudget : 0 <= computeBudget i <= U32_MAX;
  wi_amount : canonical_decimal (utxo_amount i) = true /\ dec_value (utxo_amount i) <= U64_MAX;
  wi_script : script_text (utxo_scriptPublicKey i)
}.
Record wf_output (o : TxV1ReferenceOutput) : Prop := {
  wo_amount : canonical_decimal (out_amount o) = true /\ dec_value (out_amount o) <= U64_MAX;
  wo_script : script_text (out_scriptPublicKey o);
  wo_covenant : forall c, covenant o = Some c -> 0 <= authorizingInput c <= U32_MAX /\ sized 32 (cb_covenantId c)
}.
Record wf_signed (id : string) (t : TxV1ReferenceTransaction) : Prop := {
  ws_id : sized 32 id;
  ws_inputs : Forall wf_input (inputs t) /\ (2 <= length (inputs t) <= 64)%nat;
  ws_distinct : NoDup (map previousOutpoint (inputs t));
  ws_outputs : Forall wf_output (outputs t) /\ (1 <= length (outputs t) <= 2)%nat;
  ws_lockTime : canonical_decimal (lockTime t) = true /\ dec_value (lockTime t) <= U64_MAX;
  ws_subnetworkId : canonical_hex (subnetworkId t);
  ws_gas : canonical_decimal (gas t) = true /\ dec_value (gas t) <= U64_MAX;
  ws_payload : canonical_hex (payload t);
  ws_mass : canonical_decimal (mass t) = true /\ dec_value (mass t) <= U64_MAX
}.
Definition parsed_input (i : TxV1ReferenceInput) : ParsedInput := {|
  pin_previousOutpoint := previousOutpoint i; pin_signatureScript := in_signatureScript i; pin_sequence := sequence i;
  pin_computeBudget := computeBudget i; hintedAmount := utxo_amount i; hintedScript := utxo_scriptPublicKey i |}.
Definition parsed_artifact (id : string) (t : TxV1ReferenceTransaction) : ParsedArtifact := {|
  art_id := id; art_version := 1; art_inputs := map parsed_input (inputs t); art_outputs := outputs t; art_lockTime := lockTime t;
  art_subnetworkId := subnetworkId t; art_gas := gas t; art_payload := payload t; art_storageMass := mass t |}.

Lemma map_result_indexed {A B C} (f : Z * B -> result C) (g : A -> B) (h : A -> C) l :
  (forall i x, x ∈ l -> f (i, g x) = Ok (h x)) -> map_result f (indexed (map g l)) = Ok (map h l).
Proof.
  intros H. unfold indexed. generalize Z.of_nat. intros F. revert F. induction l as [|x l IH]; intros F; [done|].
  cbn [map map_result]. rewrite imap_cons. cbn [map_result]. rewrite H by (by left). steps.
  specialize (IH ltac:(intros; apply H; by right) (fun i => F (S i))). unfold compose. rewrite IH. done.
Qed.
(** One step of a parser on a literal object *)
Ltac parse_step :=
  eapply bind_step; [read_fields; cbn [nullish js_record];
    first [reflexivity|apply hash_text; eassumption|apply canonical_hex_text; eassumption|apply script_text_ok; eassumption
          |apply decimal_text; naive_solver|apply small_text; lia]|cbv beta].
Section ReadBack.
Context (other_numbers : string -> jsnumber).

Lemma parse_safe_input n i : wf_input i -> parse_input other_numbers (n, value_of (safe_input i)) = Ok (parsed_input i).
Proof using.
  intros []. unfold parse_input, safe_input. cbn [value_of map fst snd]. do 12 parse_step. destruct i as [[? ?]]. reflexivity.
Qed.
Lemma parse_safe_output n o : wf_output o -> parse_output other_numbers (n, value_of (safe_output o)) = Ok o.
Proof using.
  intros []. unfold parse_output, safe_output. cbn [value_of map fst snd]. destruct o as [amount spk [[ai ci]|]];
    cbn [out_amount out_scriptPublicKey covenant] in *; cbn [value_of map fst snd authorizingInput cb_covenantId].
  - destruct (wo_covenant0 _ eq_refl) as [Ha Hc]. cbn in Ha, Hc. do 4 parse_step. eapply bind_step; [|reflexivity]. do 2 parse_step. reflexivity.
  - do 4 parse_step. parse_step. reflexivity.
Qed.
End ReadBack.

(** A tree without [undefined] is stringified as it is. *)
Lemma serializable_readable j : readable j = true -> serializable j = j.
Proof.
  induction j as [| |b|z|s|items IH|fields IH] using json_tree_ind; cbn [readable serializable]; try done; rewrite Forall_forall in IH.
  - intros H%forallb_Forall. rewrite Forall_forall in H. f_equal. rewrite <- (map_id items) at 2. apply map_ext_in.
    intros x Hx%list_elem_of_In. specialize (H x Hx). rewrite IH by done. by destruct x.
  - intros [_ H%forallb_Forall]%andb_true_iff. rewrite Forall_forall in H. f_equal.
    induction fields as [|[k x] fields IHf]; [done|]. cbn [map List.concat snd fst].
    assert (readable x = true) as Hx by (apply (H (k, x)); by left).
    rewrite IHf; [|intros; apply IH; [by right|done]|intros; apply H; by right]. pose proof (IH (k, x) ltac:(by left) Hx) as E. cbn [snd] in E.
    destruct x; try done; cbn [is_undefined app] in *; by rewrite E.
Qed.
Lemma stringify_parses other_numbers j : readable j = true -> JSON_parse other_numbers (JSON_stringify j) = Ok (value_of j).
Proof. intros Hj. unfold JSON_stringify. by rewrite serializable_readable, JSON_roundtrip. Qed.

Lemma readable_list {A} (f : A -> json) l : Forall (fun x => readable (f x) = true) l -> forallb readable (map f l) = true.
Proof. intros H. apply forallb_elem. intros x Hx. apply list_elem_of_fmap in Hx as (y & -> & Hy). by rewrite Forall_forall in H; apply H. Qed.
Lemma safe_input_readable i : wf_input i -> readable (safe_input i) = true.
Proof.
  intros []. unfold safe_input. cbn. assert (U32_MAX <= MAX_SAFE_INTEGER) by done. decide_guards. by destruct (utxo_covenantId i).
Qed.
Lemma safe_output_readable o : wf_output o -> readable (safe_output o) = true.
Proof.
  intros []. unfold safe_output. cbn. destruct (covenant o) as [c|]; [|done]. destruct (wo_covenant0 c eq_refl) as [? _]. cbn.
  assert (U32_MAX <= MAX_SAFE_INTEGER) by done. by decide_guards.
Qed.
Lemma safe_transaction_readable id t : wf_signed id t -> readable (safe_transaction id t) = true.
Proof.
  intros []. unfold safe_transaction. cbn [readable map fst snd forallb].
  rewrite !readable_list; [done|eapply Forall_impl; [apply ws_outputs0|exact safe_output_readable]
    |eapply Forall_impl; [apply ws_inputs0|exact safe_input_readable]].
Qed.

(** Outpoints are told apart by their text. *)
Definition outpoint_key (o : FundingOutpoint) : string := txid o +:+ ":" +:+ toString (index o).
Lemma append_same_length a b x y : byte_length a = byte_length b -> a +:+ x = b +:+ y -> a = b /\ x = y.
Proof.
  revert b. induction a as [|c a IH]; intros [|d b]; rewrite ?byte_length_cons; change (byte_length "") with 0;
    try (pose proof (byte_length_nonneg a)); try (pose proof (byte_length_nonneg b)); try lia; [done|].
  intros Hl. rewrite !append_cons. intros [= -> E]. destruct (IH b ltac:(lia) E) as [-> ->]. done.
Qed.
Lemma outpoint_key_inj o o' : sized 32 (txid o) -> sized 32 (txid o') -> outpoint_key o = outpoint_key o' -> o = o'.
Proof.
  intros (b & Hb & Lb) (b' & Hb' & Lb') E. unfold outpoint_key in E.
  apply append_same_length in E as [Et E]; [|by rewrite Hb, Hb', !bytesToHex_length, Lb, Lb'].
  injection E as E. apply toString_inj_all in E. destruct o, o'. cbn in *. congruence.
Qed.
Lemma see_outpoints l seen :
  NoDup (map outpoint_key (map pin_previousOutpoint l)) ->
  (forall k, k ∈ map outpoint_key (map pin_previousOutpoint l) -> k ∉ seen) -> is_ok (fold_result see_outpoint l seen) = true.
Proof.
  revert seen. induction l as [|i l IH]; intros seen Hn Hs; [done|]. cbn [map fold_result] in *. apply NoDup_cons in Hn as [Hi Hn].
  assert (see_outpoint seen i = Ok (outpoint_key (pin_previousOutpoint i) :: seen)) as ->.
  { unfold see_outpoint, outpoint_key in *. cbv zeta. rewrite bool_decide_eq_false_2 by (apply Hs; by left). done. }
  apply IH; [done|].
  intros k Hk [->|Hin]%elem_of_cons; [done|]. by apply (Hs k); [right|].
Qed.
Lemma NoDup_keys l : Forall wf_input l -> NoDup (map previousOutpoint l) -> NoDup (map outpoint_key (map previousOutpoint l)).
Proof.
  induction l as [|i l IH]; cbn [map]; intros Hw Hn; [constructor|]. apply Forall_cons in Hw as [Hi Hw]. apply NoDup_cons in Hn as [Hni Hn].
  apply NoDup_cons. split; [|auto]. intros (o & E & Ho)%list_elem_of_fmap. apply list_elem_of_fmap in Ho as (j & -> & Hj).
  apply Hni. rewrite Forall_forall in Hw. apply outpoint_key_inj in E as ->; [|by destruct Hi|by destruct (Hw j Hj)].
  apply list_elem_of_fmap. by exists j.
Qed.

(** The verifier's parser reads back what the signer writes.  For every well-formed
    transaction, the text the signer gives it (when it is within
    128 KiB) is accepted by [parseArtifact], which returns exactly its id, its inputs with
    their hints, its outputs with their covenant bindings, and its other fields. *)
Lemma signed_text_read_back other_numbers id t :
  wf_signed id t -> js_length (JSON_stringify (safe_transaction id t)) <= 131072 ->
  parseArtifact other_numbers (JSON_stringify (safe_transaction id t)) = Ok (parsed_artifact id t).
Proof.
  intros Hw Hlen. pose proof (safe_transaction_readable _ _ Hw) as Hr. destruct Hw. destruct ws_inputs0 as [Hi Li], ws_outputs0 as [Ho Lo].
  unfold parseArtifact. rewrite stringify_parses by done. decide_guards. cbn [throw_if]. unfold safe_transaction.
  cbn [value_of map fst snd]. rewrite !map_map. do 5 parse_step.
  eapply bind_step; [apply (throw_if_ok _ _ tt); rewrite !length_map; destruct Li, Lo; repeat (apply orb_false_iff; split); apply Nat.ltb_ge; lia|].
  eapply bind_step.
  { apply map_result_indexed with (h := parsed_input). intros n i Hin. rewrite Forall_forall in Hi. by apply parse_safe_input, Hi. }
  destruct (is_ok_value (fold_result see_outpoint (map parsed_input (inputs t)) [])) as [seen Hseen].
  { pose proof (NoDup_keys _ Hi ws_distinct0) as Hn. apply see_outpoints; [|by intros ? _ ?%elem_of_nil].
    by rewrite !map_map in *. }
  cbv beta. eapply bind_step; [exact Hseen|]. eapply bind_step.
  { apply map_result_indexed with (h := fun o => o). intros n o Hin. rewrite Forall_forall in Ho. by apply parse_safe_output, Ho. }
  do 7 parse_step. by rewrite map_id.
Qed.

(** ** The length of a signed text *)

(** A bound on the length of a tree's text: an escaped character has at most six. *)
Fixpoint text_bound (j : json) : Z :=
  match j with
  | JUndefined => 9 | JNull => 4 | JBool _ => 5
  | JNumber z => js_length (toString z)
  | JString s => 2 + 6 * js_length s
  | JArray items => 2 + foldr (fun i n => text_bound i + 1 + n) 0 items
  | JObject fields => 2 + foldr (fun kv n => 4 + 6 * js_length kv.1 + text_bound kv.2 + n) 0 fields
  end.
Lemma js_length_app a b : js_length (a +:+ b) = js_length a + js_length b.
Proof. induction a as [|c a IH]; [done|]. rewrite append_cons. cbn [js_length]. rewrite IH. lia. Qed.
Lemma js_length_nonneg s : 0 <= js_length s.
Proof. induction s as [|c s IH]; cbn [js_length]; [lia|]. destruct (in_range _ _ _); [lia|]. destruct (_ <=? _); lia. Qed.
Lemma escape_char_length c : js_length (escape_char c) <= 6 * js_length (String c "").
Proof. destruct c as [[] [] [] [] [] [] [] []]; vm_compute; congruence. Qed.
Lemma escape_length s : js_length (escape s) <= 6 * js_length s.
Proof.
  induction s as [|c s IH]; [done|]. change (escape (String c s)) with (escape_char c +:+ escape s).
  change (String c s) with (String c "" +:+ s). rewrite !js_length_app. pose proof (escape_char_length c). lia.
Qed.
Lemma quote_length s : js_length (quote s) <= 2 + 6 * js_length s.
Proof. unfold quote. rewrite !js_length_app. change (js_length dquote) with 1. pose proof (escape_length s). lia. Qed.
Lemma join_length {A} (f : A -> string) (g : A -> Z) l : Forall (fun x => js_length (f x) <= g x) l ->
  js_length (join "," (map f l)) <= foldr (fun x n => g x + 1 + n) 0 l.
Proof.
  induction 1 as [|x l Hx Hl IH]; [done|]. cbn [foldr]. destruct l as [|y l]; [cbn [map join foldr] in *; lia|].
  change (join "," (map f (x :: y :: l))) with (f x +:+ "," +:+ join "," (map f (y :: l))). rewrite !js_length_app.
  change (js_length ",") with 1. lia.
Qed.
Lemma render_length j : js_length (render j) <= text_bound j.
Proof.
  induction j as [| |[]|z|s|items IH|fields IH] using json_tree_ind; cbn [render text_bound]; try done; [apply quote_length|..];
    rewrite !js_length_app.
  - change (js_length "[") with 1. change (js_length "]") with 1.
    pose proof (join_length (fun i => if is_undefined i then "" else render i) text_bound items) as H. 
    enough (js_length (join "," (map (fun i => if is_undefined i then "" else render i) items))
      <= foldr (fun i n => text_bound i + 1 + n) 0 items) by lia. apply H. eapply Forall_impl; [exact IH|]. cbv beta.
    intros x Hx. destruct x; done.
  - change (js_length "{") with 1. change (js_length "}") with 1.
    pose proof (join_length (fun kv => quote kv.1 +:+ ":" +:+ render kv.2) (fun kv => 3 + 6 * js_length kv.1 + text_bound kv.2) fields) as H.
    assert (forall l : list (string * json), foldr (fun kv n => 3 + 6 * js_length kv.1 + text_bound kv.2 + 1 + n) 0 l
      = foldr (fun kv n => 4 + 6 * js_length kv.1 + text_bound kv.2 + n) 0 l) as E.
    { intros l. induction l as [|x l IHl]; [done|]. cbn [foldr]. rewrite IHl. lia. }
    rewrite E in H. enough (js_length (join "," (map (fun kv => quote kv.1 +:+ ":" +:+ render kv.2) fields))
      <= foldr (fun kv n => 4 + 6 * js_length kv.1 + text_bound kv.2 + n) 0 fields) by lia. apply H.
    eapply Forall_impl; [exact IH|]. cbv beta. intros [k x] Hx. cbn [fst snd] in *. rewrite !js_length_app.
    change (js_length ":") with 1. pose proof (quote_length k). lia.
Qed.

(** ** The cache of local validations *)

Lemma jprop_key {A} k k' (f : A -> json) p v : (k, v) ∈ jprop k' f p -> k = k'.
Proof. destruct p; cbn [jprop]; [by intros ?%elem_of_nil|by intros [= -> ->]%list_elem_of_singleton..]. Qed.
(** The value of a property of both of two objects with the same key-sorted text *)
Ltac same_field E k :=
  match type of E with sorted_keys (JObject ?l) = sorted_keys (JObject ?l') =>
    let w := fresh in evar (w : json); let w' := eval unfold w in w in clear w;
    let v := fresh "v" in let Hv := fresh "Hv" in let Ev := fresh "Ev" in
    destruct (sorted_object_fields l l' k w' E) as (v & Hv & Ev);
    [repeat first [apply list_elem_of_here|apply list_elem_of_further]
    |inv_field Hv; try (by apply jprop_key in Hv); cbn [sorted_keys] in Ev; try (injection Ev as Ev)]
  end.
Lemma outpoint_json_inj o o' : sorted_keys (outpoint_json o) = sorted_keys (outpoint_json o') -> o = o'.
Proof. intros E. unfold outpoint_json in E. same_field E "txid". same_field E "index". destruct o, o'. cbn in *. congruence. Qed.
Lemma optional_field (l l' : list (string * json)) k (p p' : prop string) :
  sorted_keys (JObject (l ++ jprop k JString p)) = sorted_keys (JObject (l' ++ jprop k JString p')) ->
  k ∉ map fst l -> k ∉ map fst l' -> p = p'.
Proof.
  intros E Hl Hl'.
  assert (forall (l l' : list (string * json)) (p p' : prop string), sorted_keys (JObject (l ++ jprop k JString p)) = sorted_keys (JObject (l' ++ jprop k JString p')) ->
    k ∉ map fst l' -> forall v, (k, v) ∈ jprop k JString p -> exists v', (k, v') ∈ jprop k JString p' /\ sorted_keys v = sorted_keys v') as H.
  { clear. intros l l' p p' E Hl' v Hv. destruct (sorted_object_fields _ _ k v E) as (v' & Hv' & Ev); [by apply elem_of_app; right|].
    apply elem_of_app in Hv' as [Hv'|Hv']; [|eauto]. exfalso. apply Hl', list_elem_of_fmap. by exists (k, v'). }
  pose proof (H _ _ _ _ E Hl') as H1. pose proof (H _ _ _ _ (eq_sym E) Hl) as H2. clear H E Hl Hl'.
  destruct p as [| |s], p' as [| |s']; try done; cbn [jprop] in *;
    first [destruct (H1 _ (list_elem_of_here _ _)) as (v & Hv & Ev) | destruct (H2 _ (list_elem_of_here _ _)) as (v & Hv & Ev)];
    inv_field Hv; cbn in Ev; congruence.
Qed.
Lemma head_json_inj h h' : sorted_keys (hash_chain_head_json h) = sorted_keys (hash_chain_head_json h') -> h = h'.
Proof.
  intros E. unfold hash_chain_head_json in E. pose proof E as Ep. apply optional_field in Ep; [|by apply (bool_decide_unpack _); vm_compute..].
  cbn [app] in E. same_field E "headId". same_field E "headVersion". same_field E "covenantId".
  same_field E "headAmount". same_field E "headScriptPublicKey". same_field E "headRedeemScript". same_field E "currentGuard".
  same_field E "nextGuard". same_field E "oneTimePublicKey". same_field E "grantId". same_field E "challengeId".
  same_field E "challengeIssuedAt". same_field E "challengeExpiresAt". same_field E "expectedHeadOutpoint".
  destruct h as [? ? ? [] ? ? ? ? ? ? ? ? ? ? ?], h' as [? ? ? [] ? ? ? ? ? ? ? ? ? ? ?]. clear E. cbn in *. subst. reflexivity.
Qed.
Definition same_but_finality (r r' : ExactTransactionVerificationRequest) : Prop :=
  exists finality, r = {| vr_network := vr_network r'; vr_profile := vr_profile r'; vr_transaction := vr_transaction r';
    vr_transactionEncoding := vr_transactionEncoding r'; vr_paymentOutputIndex := vr_paymentOutputIndex r'; vr_amount := vr_amount r';
    vr_payTo := vr_payTo r'; vr_payToScriptPublicKey := vr_payToScriptPublicKey r'; vr_requiredFinality := finality;
    vr_requestHash := vr_requestHash r'; vr_paymentIdentifier := vr_paymentIdentifier r';
    vr_paymentRequirementsHash := vr_paymentRequirementsHash r'; vr_authorization := vr_authorization r';
    vr_hashChainHead := vr_hashChainHead r' |}.
Lemma fingerprint_inj r r' f : localValidationFingerprint r = Ok f -> localValidationFingerprint r' = Ok f -> same_but_finality r r'.
Proof.
  unfold localValidationFingerprint. intros H H'. pose proof (stableStringify_inj _ _ _ H H') as E. clear H H'.
  same_field E "network". same_field E "profile". same_field E "transaction". same_field E "transactionEncoding".
  same_field E "paymentOutputIndex". same_field E "amount". same_field E "payTo". same_field E "payToScriptPublicKey".
  same_field E "requestHash". same_field E "paymentIdentifier". same_field E "paymentRequirementsHash".
  assert (vr_authorization r = vr_authorization r') as Ea.
  { clear -E. destruct (sorted_object_fields _ _ "authorization" (request_authorization_json (vr_authorization r)) E) as (v & Hv & Ev);
      [repeat first [apply list_elem_of_here|apply list_elem_of_further]|].
    inv_field Hv. unfold request_authorization_json in Ev. same_field Ev "version". same_field Ev "inputIndex". same_field Ev "expiresAt".
    same_field Ev "digest". same_field Ev "signature". destruct (vr_authorization r), (vr_authorization r'). cbn in *. congruence. }
  assert (vr_hashChainHead r = vr_hashChainHead r') as Eh.
  { clear -E. destruct (sorted_object_fields _ _ "hashChainHead" (match vr_hashChainHead r with Some h => hash_chain_head_json h | None => JUndefined end) E)
      as (v & Hv & Ev); [repeat first [apply list_elem_of_here|apply list_elem_of_further]|].
    inv_field Hv. destruct (vr_hashChainHead r), (vr_hashChainHead r'); try done. f_equal. by apply head_json_inj. }
  exists (vr_requiredFinality r). clear E. destruct r, r'. cbn in *. subst. reflexivity.
Qed.

Section Cache.
Context (sha256 blake3 blake2b : bytes -> bytes) (blake2b_keyed blake3_keyed : bytes -> bytes -> bytes).
Context (lift_x : bytes -> result ()) (schnorr_verify : bytes -> bytes -> bytes -> result bool).
Context (other_bigints : string -> result Z) (other_numbers : string -> jsnumber) (other_dates : string -> option Z).
#[local] Abbreviation validate :=
  (locallyValidateHashChainPayment sha256 blake3 blake2b blake2b_keyed blake3_keyed lift_x schnorr_verify other_bigints other_numbers other_dates).
#[local] Abbreviation authenticate :=
  (authenticateHashChainPaymentLocally sha256 blake3 blake2b blake2b_keyed blake3_keyed lift_x schnorr_verify other_bigints other_numbers other_dates).
#[local] Abbreviation verify :=
  (verifyExactPayment sha256 blake3 blake2b blake2b_keyed blake3_keyed lift_x schnorr_verify other_bigints other_numbers other_dates).

Lemma validate_finality r r' n : same_but_finality r r' -> validate r n = validate r' n.
Proof using. intros [finality ->]. reflexivity. Qed.
Lemma check_artifact_limit r h s a n m x :
  check_artifact other_bigints r h s a n = Ok x -> Z.of_nat (length (art_inputs a)) <= m -> check_artifact other_bigints r h s a m = Ok x.
Proof using.
  unfold check_artifact. cbv zeta. intros ([] & _ & H)%bind_ok Hm. eapply bind_step; [|exact H]. apply (throw_if_ok _ _ tt). lia.
Qed.
Lemma validate_limit r n m v :
  validate r n = Ok v -> Z.of_nat (length (art_inputs (lv_artifact v))) <= m -> validate r m = Ok v.
Proof using.
  unfold locallyValidateHashChainPayment. cbv zeta. intros H Hm.
  apply bind_ok in H as (head & E1 & H). apply bind_ok in H as (successor & E2 & H). apply bind_ok in H as (artifact & E3 & H).
  apply bind_ok in H as ([headInput output] & E4 & H).
  assert (artifact = lv_artifact v) as ->.
  { do 4 apply bind_ok in H as (? & _ & H). apply bind_ok in H as ([? ?] & _ & H). injection H as <-. done. }
  rewrite E1. steps. rewrite E2. steps. rewrite E3. steps. rewrite (check_artifact_limit _ _ _ _ _ _ _ E4 Hm). exact H.
Qed.

(** What the cache may hold: validations that succeeded, under the text of their request *)
Definition authentic (cache : gmap N CachedValidation) : Prop :=
  forall object c, cache !! object = Some c ->
    exists r, validate r 8 = Ok (cached_validated c) /\ localValidationFingerprint r = Ok (cached_fingerprint c).
Definition authenticate_all (calls : list (N * ExactTransactionVerificationRequest)) (cache : gmap N CachedValidation) : gmap N CachedValidation :=
  foldl (fun cache call => (authenticate cache call.1 call.2).2) cache calls.
Lemma authenticate_authentic cache object r : authentic cache -> authentic (authenticate cache object r).2.
Proof using.
  intros Hc. unfold authenticateHashChainPaymentLocally.
  match goal with |- context [match ?m with Ok _ => _ | Throw _ => _ end] => destruct m as [[v f]|e] eqn:E end; [|exact Hc].
  apply bind_ok in E as (v' & Hv & E). apply bind_ok in E as (f' & Hf & [= -> ->]). cbn [snd].
  intros o c. destruct (decide (o = object)) as [->|Hne].
  - rewrite lookup_insert_eq. intros [= <-]. exists r. by split; [exact Hv|exact Hf].
  - rewrite lookup_insert_ne by done. apply Hc.
Qed.
Lemma authenticate_all_authentic calls cache : authentic cache -> authentic (authenticate_all calls cache).
Proof using. revert cache. induction calls as [|c calls IH]; intros cache Hc; [done|]. apply IH, authenticate_authentic, Hc. Qed.
Lemma validation_authentic verifier cache object r : authentic cache ->
  validation_for sha256 blake3 blake2b blake2b_keyed blake3_keyed lift_x schnorr_verify other_bigints other_numbers other_dates verifier cache object r
  = (_ ← localValidationFingerprint r; validate r (hv_maxInputs verifier)).
Proof using.
  intros Hc. unfold validation_for. destruct (localValidationFingerprint r) as [f|e] eqn:Ef; [|done]. steps.
  destruct (cache !! object) as [c|] eqn:E; [|done]. destruct (_ && _) eqn:Eb; [|done]. inv_bool.
  destruct (Hc _ _ E) as (r' & Hv & Hf). subst f. rewrite (validate_finality r r' _ (fingerprint_inj _ _ _ Ef Hf)).
  symmetry. by eapply validate_limit.
Qed.

(** C22. The cache of local validations changes no outcome.
    After any authentications of any requests, in any order and under any object identities,
    also when an object was changed in between, [verifyExactPayment] returns or throws exactly
    what it does without a cache. *)
Theorem cached_validation_transparent calls verifier object request :
  verify verifier (authenticate_all calls ∅) object request = verify verifier ∅ object request.
Proof using.
  unfold verifyExactPayment. rewrite !validation_authentic; [done|by intros ? ?|].
  by apply authenticate_all_authentic.
Qed.
End Cache.

(** ** What an accepted payment is *)

Definition amount_text (s : string) : Prop := canonical_decimal s = true /\ dec_value s <= U64_MAX.
Lemma map_result_forall {A B} (f : A -> result B) (P : B -> Prop) l l' :
  (forall x y, f x = Ok y -> P y) -> map_result f l = Ok l' -> Forall P l'.
Proof.
  intros Hf. revert l'. induction l as [|x l IH]; intros l' H; cbn [map_result] in H; [injection H as <-; constructor|].
  apply bind_ok in H as (y & Hy & (ys & Hys & [= <-])%bind_ok). constructor; [by eapply Hf|by apply IH].
Qed.
Lemma parsed_amounts other_numbers text a : parseArtifact other_numbers text = Ok a ->
  Forall (fun i => amount_text (hintedAmount i)) (art_inputs a) /\ Forall (fun o => amount_text (out_amount o)) (art_outputs a).
Proof.
  unfold parseArtifact. intros H.
  assert (exists l l', map_result (parse_input other_numbers) l = Ok (art_inputs a) /\ map_result (parse_output other_numbers) l' = Ok (art_outputs a))
    as (l & l' & Hi & Ho).
  { do 6 apply bind_ok in H as (? & _ & H). apply bind_ok in H as (ins & Hi & H). apply bind_ok in H as (? & _ & H).
    apply bind_ok in H as (outs & Ho & H). do 7 apply bind_ok in H as (? & _ & H). injection H as <-. eauto. }
  split; (eapply map_result_forall; [|eassumption]); intros [n v] y Hy.
  - unfold parse_input in Hy. do 10 apply bind_ok in Hy as (? & _ & Hy).
    apply bind_ok in Hy as (amount & Ha & Hy). apply bind_ok in Hy as (? & _ & [= <-]). by eapply decimal_ok.
  - unfold parse_output in Hy. do 2 apply bind_ok in Hy as (? & _ & Hy).
    apply bind_ok in Hy as (amount & Ha & Hy). do 2 apply bind_ok in Hy as (? & _ & Hy). injection Hy as <-. by eapply decimal_ok.
Qed.
Definition amounts (l : list string) : Z := foldr (fun s n => dec_value s + n) 0 l.
Lemma add_amounts other_bigints l n m : Forall amount_text l -> fold_result (add_amount other_bigints) l n = Ok m -> m = n + amounts l.
Proof.
  intros Hl. revert n. induction Hl as [|s l [Hs _] Hl IH]; intros n H; cbn [fold_result amounts foldr] in *; [injection H as ->; lia|].
  apply bind_ok in H as (n' & Hn & H). unfold add_amount, BigInt_of in Hn. rewrite Hs in Hn. injection Hn as <-.
  apply IH in H. unfold amounts in *. lia.
Qed.
(** The trusted outputs agree with the hints. *)
Definition agrees (i : ParsedInput) (o : HashChainTrustedOrigin) : Prop :=
  to_amount o = hintedAmount i /\ toLowerCase (to_scriptPublicKey o) = hintedScript i.
Definition lowered (o : HashChainTrustedOrigin) : HashChainTrustedOrigin := {|
  to_amount := to_amount o; to_scriptPublicKey := toLowerCase (to_scriptPublicKey o); to_covenantId := toLowerCase <$> to_covenantId o |}.
Lemma check_origins_ok l observed origins : check_origins l observed = Ok origins -> length observed = length l ->
  exists trusted, observed = map Some trusted /\ origins = map lowered trusted /\ Forall2 agrees l trusted.
Proof.
  revert observed origins. induction l as [|i l IH]; intros [|[o|] observed] origins H Hl; cbn [check_origins] in H; try discriminate.
  - injection H as <-. exists []. done.
  - apply bind_ok in H as ([] & Hb%throw_if_ok & H). apply bind_ok in H as (rest & Hr & [= <-]). inv_bool.
    destruct (IH _ _ Hr) as (trusted & -> & -> & Ht); [by injection Hl|]. exists (o :: trusted). split; [done|]. split; [done|].
    by constructor.
Qed.

Section Sound.
Context (sha256 blake3 blake2b : bytes -> bytes) (blake2b_keyed blake3_keyed : bytes -> bytes -> bytes).
Context (lift_x : bytes -> result ()) (schnorr_verify : bytes -> bytes -> bytes -> result bool).
Context (other_bigints : string -> result Z) (other_numbers : string -> jsnumber) (other_dates : string -> option Z).
#[local] Abbreviation validate :=
  (locallyValidateHashChainPayment sha256 blake3 blake2b blake2b_keyed blake3_keyed lift_x schnorr_verify other_bigints other_numbers other_dates).
#[local] Abbreviation verify :=
  (verifyExactPayment sha256 blake3 blake2b blake2b_keyed blake3_keyed lift_x schnorr_verify other_bigints other_numbers other_dates).
#[local] Abbreviation script_of := (hashChainHeadScriptPublicKey blake2b lift_x).

(** The key that signs a digest, both in hexadecimal *)
Definition signs (key digest signature : string) : Prop :=
  schnorr_verify (Buffer_from_hex signature) (Buffer_from_hex digest) (Buffer_from_hex key) = Ok true.
Lemma signature_fails_false s d k : signature_fails schnorr_verify s d k = Ok false -> signs k d s.
Proof using. unfold signature_fails, signs. intros (b & Hb & E)%fmap_ok. by destruct b. Qed.

(** The head input's signature by the one-time key *)
Definition head_signed (head : HashChainHeadChallenge) (t : TxV1ReferenceTransaction) : Prop :=
  exists witness input signature ty s, inputs t !! 0%nat = Some input /\ in_signatureScript input = witness /\
    buildHashChainBorrowSignatureScript lift_x {| bw_revealedGuard := hc_nextGuard head; bw_oneTimePublicKey := hc_oneTimePublicKey head;
      bw_signature := signature; bw_sighashType := Some ty; bw_redeemScript := hc_headRedeemScript head |} = Ok witness /\
    transactionV1Sighash blake2b_keyed t 0 ty = Ok s /\ signs (hc_oneTimePublicKey head) (sg_digest s) signature.
(** A payer input's signature by the key of the script it spends *)
Definition payer_signed (t : TxV1ReferenceTransaction) (i : nat) (key : string) : Prop :=
  exists evidence, transactionV1SchnorrSignatureEvidence blake2b_keyed t i = Ok evidence /\ ev_publicKey evidence = key /\
    signs key (ev_digest evidence) (ev_signature evidence).
Record locally_valid (request : ExactTransactionVerificationRequest) (v : LocallyValidatedHashChainPayment) : Prop := {
  lo_head : vr_hashChainHead request = Some (lv_head v);
  lo_parsed : parseArtifact other_numbers (vr_transaction request) = Ok (lv_artifact v);
  lo_reference : lv_reference v = reference_transaction (lv_head v) (lv_artifact v);
  lo_id : transactionV1Id blake2b_keyed blake3_keyed (lv_reference v) = Ok (lv_transactionId v);
  lo_guard : hashChainBorrowGuard blake3 (hc_nextGuard (lv_head v)) (hc_oneTimePublicKey (lv_head v)) = Ok (hc_currentGuard (lv_head v));
  lo_scripts : exists owner, script_of {| hp_ownerPublicKey := owner; hp_guard := hc_currentGuard (lv_head v) |} = Ok (hc_headScriptPublicKey (lv_head v)) /\
    script_of {| hp_ownerPublicKey := owner; hp_guard := hc_nextGuard (lv_head v) |} = Ok (out_scriptPublicKey (lv_output v)) /\
    out_scriptPublicKey (lv_output v) = toLowerCase (vr_payToScriptPublicKey request);
  lo_inputs : exists headInput payerInput payerInputs, art_inputs (lv_artifact v) = headInput :: payerInput :: payerInputs /\
    pin_previousOutpoint headInput = Outpoint (txid (hc_expectedHeadOutpoint (lv_head v))) 0 /\
    hintedAmount headInput = hc_headAmount (lv_head v) /\ hintedScript headInput = hc_headScriptPublicKey (lv_head v);
  lo_outputs : exists amount change, BigInt_of other_bigints (vr_amount request) = Ok amount /\
    art_outputs (lv_artifact v) = lv_output v :: change /\ (length change <= 1)%nat /\ Forall (fun o => covenant o = None) change /\
    out_amount (lv_output v) = toString (dec_value (hc_headAmount (lv_head v)) + amount) /\
    covenant (lv_output v) = Some {| authorizingInput := 0; cb_covenantId := hc_covenantId (lv_head v) |};
  lo_head_signed : head_signed (lv_head v) (lv_reference v);
  lo_payers : lv_payerScripts v = map hintedScript (tail (art_inputs (lv_artifact v)));
  lo_payer_signed : forall i, (0 < i < length (art_inputs (lv_artifact v)))%nat -> exists key, payer_signed (lv_reference v) i key;
  lo_authorization : lv_authorization v = vr_authorization request;
  lo_authorized : exists i, xa_inputIndex (vr_authorization request) = Z.of_nat i /\ (0 < i < length (art_inputs (lv_artifact v)))%nat /\
    payer_signed (lv_reference v) i (lv_publicKey v);
  lo_digest : exactRequestAuthorizationDigest sha256 (request_digest_input request (lv_head v) (lv_transactionId v)) = Ok (lv_digest v) /\
    signs (lv_publicKey v) (lv_digest v) (xa_signature (vr_authorization request))
}.

Lemma payers_signed t l keys keys' : fold_result (check_payer_input blake2b_keyed schnorr_verify t) l keys = Ok keys' ->
  (forall i, i ∈ l -> exists key, payer_signed t i key) /\
  (forall n key, map_get n keys' = Some key -> map_get n keys = Some key \/ exists i, n = Z.of_nat i /\ i ∈ l /\ payer_signed t i key).
Proof using.
  revert keys. induction l as [|i l IH]; intros keys H; cbn [fold_result] in H.
  - injection H as <-. split; [by intros ? ?%elem_of_nil|by left].
  - apply bind_ok in H as (k1 & Hi & H). destruct (IH _ H) as [Hl Hk]. unfold check_payer_input in Hi.
    apply bind_ok in Hi as (evidence & He & Hi). apply bind_ok in Hi as (bad & Hb & Hi). apply bind_ok in Hi as ([] & ->%throw_if_ok & [= <-]).
    apply signature_fails_false in Hb. assert (payer_signed t i (ev_publicKey evidence)) as Hp by (exists evidence; done).
    split; [intros j [->|Hj]%elem_of_cons; [eauto|auto]|]. intros n key Hn. destruct (Hk n key Hn) as [Hg|(j & -> & Hj & Hs)].
    + rewrite map_set_get in Hg. destruct (decide _) as [->|]; [|by left]. injection Hg as <-. right. exists i. split; [done|]. split; [by left|done].
    + right. exists j. split; [done|]. split; [by right|done].
Qed.
Lemma BigInt_canonical s n : canonical_decimal s = true -> BigInt_of other_bigints s = Ok n -> n = dec_value s.
Proof using. unfold BigInt_of. intros ->. by intros [= ->]. Qed.
Lemma check_head_ok request head successor : check_head blake3 blake2b lift_x request head = Ok successor ->
  index (hc_expectedHeadOutpoint head) = 0 /\
  hashChainBorrowGuard blake3 (hc_nextGuard head) (hc_oneTimePublicKey head) = Ok (hc_currentGuard head) /\
  exists owner, script_of {| hp_ownerPublicKey := owner; hp_guard := hc_currentGuard head |} = Ok (hc_headScriptPublicKey head) /\
    script_of {| hp_ownerPublicKey := owner; hp_guard := hc_nextGuard head |} = Ok successor /\
    successor = toLowerCase (vr_payToScriptPublicKey request).
Proof using.
  unfold check_head. intros H. apply bind_ok in H as (bad & Hb & H). apply bind_ok in H as ([] & ->%throw_if_ok & H).
  apply or_else_false in Hb as [Hb Hg]. apply bind_ok in Hg as (guard & Hg & Eg). apply Ok_inj in Hb, Eg. inv_bool. subst guard.
  apply bind_ok in H as ([owner guard] & Hp & H). apply bind_ok in H as (s & Hs & H). apply bind_ok in H as (bad & Hb & H).
  apply bind_ok in H as ([] & ->%throw_if_ok & [= <-]). apply or_else_false in Hb as [Hb Hx]. apply Ok_inj in Hb.
  apply bind_ok in Hx as (spk & Hspk & Ex). apply Ok_inj in Ex. inv_bool. cbn [hp_ownerPublicKey hp_guard] in *. subst guard spk.
  split; [done|]. split; [done|]. by exists owner.
Qed.
Lemma check_artifact_ok request head successor a n headInput output :
  Forall (fun i => amount_text (hintedAmount i)) (art_inputs a) ->
  check_artifact other_bigints request head successor a n = Ok (headInput, output) ->
  exists payerInput payerInputs amount change, art_inputs a = headInput :: payerInput :: payerInputs /\
    pin_previousOutpoint headInput = Outpoint (txid (hc_expectedHeadOutpoint head)) 0 /\
    hintedAmount headInput = hc_headAmount head /\ hintedScript headInput = hc_headScriptPublicKey head /\
    BigInt_of other_bigints (vr_amount request) = Ok amount /\ art_outputs a = output :: change /\ (length change <= 1)%nat /\
    Forall (fun o => covenant o = None) change /\ out_amount output = toString (dec_value (hc_headAmount head) + amount) /\
    out_scriptPublicKey output = successor /\ covenant output = Some {| authorizingInput := 0; cb_covenantId := hc_covenantId head |}.
Proof using.
  intros Hin. unfold check_artifact. cbv zeta. intros H. apply bind_ok in H as ([] & _ & H). apply bind_ok in H as ([] & He%throw_if_ok & H).
  destruct (art_inputs a) as [|i1 [|i2 l]]; [done|inv_bool; done|]. destruct (art_outputs a) as [|o change]; [done|].
  apply bind_ok in H as ([] & Hh%throw_if_ok & H). apply bind_ok in H as ([] & _ & H). apply bind_ok in H as (ha & Hha & H).
  apply bind_ok in H as (amount & Ha & H). apply bind_ok in H as ([] & Ho%throw_if_ok & [= -> ->]). inv_bool.
  apply Forall_cons in Hin as [[Hc _] _]. exists i2, l, amount, change.
  match goal with E : hintedAmount headInput = _ |- _ => rewrite E in Hc end. apply BigInt_canonical in Hha as ->; [|done].
  destruct headInput as [[? ?] ? ? ? ? ?]. cbn in *. subst. split_and!; try done.
  - destruct change as [|? [|? ?]]; cbn [length] in *; [lia..|]. repeat match goal with H : (_ <? _)%nat = false |- _ => apply Nat.ltb_ge in H end.
    cbn [length] in *. lia.
  - destruct change as [|c [|d ?]]; [constructor| |].
    + constructor; [|constructor]. cbn in *. by destruct (covenant c).
    + repeat match goal with H : (_ <? _)%nat = false |- _ => apply Nat.ltb_ge in H end. cbn [length] in *. lia.
Qed.
Lemma check_head_witness_ok head t headInput : (forall i, inputs t !! 0%nat = Some i -> in_signatureScript i = pin_signatureScript headInput) ->
  is_Some (inputs t !! 0%nat) -> check_head_witness blake2b_keyed lift_x schnorr_verify head t headInput = Ok tt -> head_signed head t.
Proof using.
  intros Hw [i Hi] H. unfold check_head_witness in H. cbv zeta in H. apply bind_ok in H as ([] & _ & H).
  apply bind_ok in H as (ty & _ & H). apply bind_ok in H as (bad & Hb & ->%throw_if_ok). apply or_else_false in Hb as [Hb Hs].
  apply bind_ok in Hb as (w & Hb & Ew). apply Ok_inj in Ew. inv_bool. subst w. apply bind_ok in Hs as (s & Hs & Hv).
  apply signature_fails_false in Hv. eexists _, i, _, ty, s. split_and!; [done|by apply Hw|exact Hb|done|done].
Qed.
Lemma validate_sound request n v : validate request n = Ok v -> locally_valid request v.
Proof using.
  unfold locallyValidateHashChainPayment. cbv zeta. intros H.
  apply bind_ok in H as (head & E1 & H). apply bind_ok in H as (successor & E2 & H). apply bind_ok in H as (artifact & E3 & H).
  apply bind_ok in H as ([headInput output] & E4 & H). apply bind_ok in H as (id & E5 & H). apply bind_ok in H as ([] & Eid%throw_if_ok & H).
  apply bind_ok in H as ([] & E6 & H). apply bind_ok in H as (keys & E7 & H). apply bind_ok in H as ([key digest] & E8 & [= <-]). inv_bool.
  assert (vr_hashChainHead request = Some head) as Eh.
  { unfold check_profile in E1. cbv zeta in E1. destruct (vr_hashChainHead request); [|done]. by apply bind_ok in E1 as (? & _ & [= ->]). }
  destruct (check_head_ok _ _ _ E2) as (_ & Hguard & owner & Ho1 & Ho2 & Hpay).
  destruct (parsed_amounts _ _ _ E3) as [Hin _]. destruct (check_artifact_ok _ _ _ _ _ _ _ Hin E4)
    as (payerInput & payerInputs & amount & change & Hi & Hp & Hha & Hhs & Ha & Hout & Hlen & Hcov & Hoa & Hos & Hoc).
  assert (length (inputs (reference_transaction head artifact)) = length (art_inputs artifact)) as Hl by (cbn; by rewrite length_imap).
  rewrite Hl in E7. apply payers_signed in E7 as [Hpay1 Hpay2].
  assert (check_head_witness blake2b_keyed lift_x schnorr_verify head (reference_transaction head artifact) headInput = Ok tt -> head_signed head (reference_transaction head artifact)) as Hw.
  { apply check_head_witness_ok; cbn; rewrite Hi; [by intros i [= <-]|by eexists]. }
  unfold check_authorization in E8. cbv zeta in E8. destruct (map_get _ keys) as [k|] eqn:Ek; [|done].
  apply bind_ok in E8 as ([] & Hv%throw_if_ok & E8). apply bind_ok in E8 as (d & Hd & E8). apply bind_ok in E8 as (bad & Hb & E8).
  apply bind_ok in E8 as ([] & ->%throw_if_ok & [= -> ->]). apply or_else_false in Hb as [Hb Hs]. apply signature_fails_false in Hs.
  split; cbn [lv_head lv_artifact lv_reference lv_transactionId lv_output lv_payerScripts lv_authorization lv_publicKey lv_digest].
  - exact Eh.
  - exact E3.
  - reflexivity.
  - exact E5.
  - exact Hguard.
  - exists owner. subst successor. rewrite Hos. split; [exact Ho1|]. split; [exact Ho2|reflexivity].
  - exists headInput, payerInput, payerInputs. split; [exact Hi|]. split; [exact Hp|]. split; [exact Hha|exact Hhs].
  - exists amount, change. split; [exact Ha|]. split; [exact Hout|]. split; [exact Hlen|]. split; [exact Hcov|]. split; [exact Hoa|exact Hoc].
  - exact (Hw E6).
  - reflexivity.
  - intros i Hin'. apply Hpay1, elem_of_seq. lia.
  - reflexivity.
  - apply Hpay2 in Ek as [Ek|(i & Ei & Hin' & Hsig)]; [discriminate Ek|]. exists i. split; [exact Ei|].
    split; [apply elem_of_seq in Hin'; lia|exact Hsig].
  - split; [exact Hd|exact Hs].
Qed.

Lemma verify_sound verifier cache object request result :
  authentic sha256 blake3 blake2b blake2b_keyed blake3_keyed lift_x schnorr_verify other_bigints other_numbers other_dates cache ->
  verify verifier cache object request = Ok result ->
  exists v trusted selected, validate request (hv_maxInputs verifier) = Ok v /\
    getAcceptedOrigins (hv_chain verifier) (map pin_previousOutpoint (art_inputs (lv_artifact v))) = Ok (map Some trusted) /\
    Forall2 agrees (art_inputs (lv_artifact v)) trusted /\ check_value other_bigints verifier v (map lowered trusted) = Ok tt /\
    getSelectedTransaction (hv_chain verifier) (lv_transactionId v) = Ok selected /\ check_selected request v selected = Ok tt /\
    exactRequestAuthorizationId sha256 (lv_authorization v) = Ok (xv_authorizationId result) /\
    xv_transactionId result = lv_transactionId v /\ xv_digest result = lv_digest v /\ xv_publicKey result = lv_publicKey v /\
    xv_inputIndex result = xa_inputIndex (lv_authorization v) /\ xv_amount result = vr_amount request /\
    xv_continuationAmount result = out_amount (lv_output v) /\ xv_continuationScriptPublicKey result = out_scriptPublicKey (lv_output v).
Proof using.
  intros Hc. unfold verifyExactPayment. intros H. apply bind_ok in H as ([] & _ & H).
  rewrite validation_authentic in H by exact Hc. apply bind_ok in H as (v & Hv & H). apply bind_ok in Hv as (f & _ & Hv).
  apply bind_ok in H as (observed & Hobs & H). apply bind_ok in H as ([] & Hl%throw_if_ok & H). apply bind_ok in H as (origins & Ho & H).
  apply bind_ok in H as ([] & Hval & H). apply bind_ok in H as (selected & Hsel & H). apply bind_ok in H as ([] & Hcs & H).
  apply bind_ok in H as (aid & Haid & [= <-]). apply negb_false_iff, Nat.eqb_eq in Hl.
  destruct (check_origins_ok _ _ _ Ho Hl) as (trusted & -> & -> & Ht). exists v, trusted, selected.
  split; [exact Hv|]. split; [exact Hobs|]. split; [exact Ht|]. split; [exact Hval|]. split; [exact Hsel|]. split; [exact Hcs|].
  split; [exact Haid|]. repeat split.
Qed.
Lemma canonical_nonneg n : canonical_decimal (toString n) = true -> 0 <= n.
Proof using.
  intros H. destruct (Z.ltb_spec n 0) as [Hn|]; [|done]. unfold toString in H. replace (n <? 0) with true in H by lia.
  by apply canonical_digits in H.
Qed.
Lemma check_value_ok verifier v o trusted head :
  Forall (fun i => amount_text (hintedAmount i)) (art_inputs (lv_artifact v)) ->
  Forall (fun o => amount_text (out_amount o)) (art_outputs (lv_artifact v)) ->
  Forall2 agrees (art_inputs (lv_artifact v)) (o :: trusted) -> lv_head v = head ->
  check_value other_bigints verifier v (map lowered (o :: trusted)) = Ok tt ->
  toLowerCase <$> to_covenantId o = Some (hc_covenantId head) /\ Forall (fun o => to_covenantId o = None) trusted /\
  (forall change, art_outputs (lv_artifact v) !! 1%nat = Some change -> out_scriptPublicKey change ∈ lv_payerScripts v) /\
  0 <= amounts (map to_amount (o :: trusted)) - amounts (map out_amount (art_outputs (lv_artifact v))) <= hv_maxFeeSompi verifier.
Proof using.
  intros Hin Hout Hag <- H. unfold check_value in H. cbv zeta in H. apply bind_ok in H as ([] & Hc%throw_if_ok & H).
  apply bind_ok in H as ([] & Hp%throw_if_ok & H). apply bind_ok in H as (i & Hi & H). apply bind_ok in H as (n & Ho & H).
  apply bind_ok in H as ([] & Hf%throw_if_ok & _). inv_bool.
  apply add_amounts in Hi; [|].
  2: { rewrite map_map. cbn [lowered to_amount]. rewrite Forall_map. clear -Hin Hag. revert Hin. induction Hag as [|? ? ? ? [E _] ? IH]; intros Hin; [constructor|].
       apply Forall_cons in Hin as [? ?]. constructor; [by rewrite E|auto]. }
  apply add_amounts in Ho; [|by rewrite Forall_map]. rewrite map_map in Hi. change (fun x => to_amount (lowered x)) with to_amount in Hi. subst i n.
  cbn [map lookup list_lookup fmap option_fmap option_map tail lowered to_covenantId] in *.
  split_and!.
  - match goal with E : _ = Some (Some _) |- _ => injection E as E; exact E end.
  - apply Forall_forall. intros t Ht. destruct (to_covenantId t) as [c|] eqn:Et; [|done]. exfalso.
    match goal with E : existsb _ _ = false |- _ => apply not_true_iff_false in E; apply E end.
    apply existsb_exists. exists (lowered t). split; [apply list_elem_of_In, list_elem_of_fmap; by exists t|]. cbn. by rewrite Et.
  - intros change Hch. rewrite Hch in Hp. inv_bool. apply existsb_exists in Hp as (s & Hs & ->%String.eqb_eq). by apply list_elem_of_In.
  - lia.
  - lia.
Qed.

(** What the chain holds for the inputs, and how the transaction redistributes it *)
Record head_increase (verifier : HashChainExactTransactionVerifier) (request : ExactTransactionVerificationRequest)
    (result : ExactTransactionVerification) (head : HashChainHeadChallenge) (artifact : ParsedArtifact)
    (headOrigin : HashChainTrustedOrigin) (payerOrigins : list HashChainTrustedOrigin) (amount : Z)
    (successor : ParsedOutput) (change : list ParsedOutput) : Prop := {
  hi_head : vr_hashChainHead request = Some head;
  hi_artifact : parseArtifact other_numbers (vr_transaction request) = Ok artifact;
  hi_id : transactionV1Id blake2b_keyed blake3_keyed (reference_transaction head artifact) = Ok (xv_transactionId result);
  (** the head and the payer's outputs are what the transaction spends *)
  hi_origins : getAcceptedOrigins (hv_chain verifier) (map pin_previousOutpoint (art_inputs artifact)) = Ok (Some headOrigin :: map Some payerOrigins);
  hi_spends_head : pin_previousOutpoint <$> art_inputs artifact !! 0%nat = Some (Outpoint (txid (hc_expectedHeadOutpoint head)) 0);
  hi_payers : payerOrigins <> [] /\ Forall (fun o => to_covenantId o = None) payerOrigins;
  (** the covenant continues with one successor, under the next guard of the same owner *)
  hi_covenant : toLowerCase <$> to_covenantId headOrigin = Some (hc_covenantId head) /\
    covenant successor = Some {| authorizingInput := 0; cb_covenantId := hc_covenantId head |};
  hi_guard : hashChainBorrowGuard blake3 (hc_nextGuard head) (hc_oneTimePublicKey head) = Ok (hc_currentGuard head);
  hi_scripts : exists owner,
    script_of {| hp_ownerPublicKey := owner; hp_guard := hc_currentGuard head |} = Ok (toLowerCase (to_scriptPublicKey headOrigin)) /\
    script_of {| hp_ownerPublicKey := owner; hp_guard := hc_nextGuard head |} = Ok (out_scriptPublicKey successor) /\
    out_scriptPublicKey successor = toLowerCase (vr_payToScriptPublicKey request);
  (** the successor holds the head and the quoted amount; the rest returns to the payer, less a bounded fee *)
  hi_amount : BigInt_of other_bigints (vr_amount request) = Ok amount /\ xv_amount result = vr_amount request;
  hi_outputs : art_outputs artifact = successor :: change /\ (length change <= 1)%nat;
  hi_successor : dec_value (out_amount successor) = dec_value (to_amount headOrigin) + amount /\
    xv_continuationAmount result = out_amount successor;
  hi_change : Forall (fun o => covenant o = None /\ exists payer, payer ∈ payerOrigins /\
    toLowerCase (to_scriptPublicKey payer) = out_scriptPublicKey o) change;
  hi_fee : 0 <= amounts (map to_amount payerOrigins) - amounts (map out_amount change) - amount <= hv_maxFeeSompi verifier
}.
(** C19. An accepted payment increases the head by the quoted amount, at the payer's
    expense.  Whenever [verifyExactPayment] accepts, after any authentications: the signed
    transaction spends the advertised head and further outputs that the selected chain reports
    without a covenant; it continues the head's covenant in exactly one output, whose script
    is the head's with the guard that the current guard commits to, and which holds the head's
    amount plus the amount of the request; what the other inputs held and neither the
    successor gained nor the fee (at most the configured maximum) took returns to the script
    of one of those inputs. *)
Theorem accepted_payment_increases_head verifier calls object request result :
  let cache := authenticate_all sha256 blake3 blake2b blake2b_keyed blake3_keyed lift_x schnorr_verify other_bigints other_numbers other_dates calls ∅ in
  verify verifier cache object request = Ok result ->
  exists head artifact headOrigin payerOrigins amount successor change,
    head_increase verifier request result head artifact headOrigin payerOrigins amount successor change.
Proof using.
  intros cache H. apply verify_sound in H as (v & trusted & selected & Hv & Hobs & Hag & Hval & _ & _ & _ & Hid & _ & _ & _ & Ham & Hca & _);
    [|by apply authenticate_all_authentic; intros ? ?].
  apply validate_sound in Hv. destruct Hv. destruct lo_inputs0 as (headInput & payerInput & payerInputs & Ei & Hp & Hha & Hhs).
  destruct lo_outputs0 as (amount & change & Hb & Eo & Hl & Hcov & Hoa & Hoc). destruct lo_scripts0 as (owner & Hs1 & Hs2 & Hs3).
  destruct (parsed_amounts _ _ _ lo_parsed0) as [Hin Hout]. pose proof Hag as Hag'. rewrite Ei in Hag'. inversion Hag' as [|? headOrigin ? payers Hh Hps E1 E2]; subst.
  destruct (check_value_ok _ _ _ _ _ Hin Hout Hag eq_refl Hval) as (Hc1 & Hc2 & Hch & Hfee). destruct Hh as [Ha Hs].
  rewrite Eo in Hfee, Hch, Hout. cbn [map amounts foldr] in Hfee. apply Forall_cons in Hout as [[Hcan _] _]. rewrite Hoa in Hcan. apply canonical_nonneg in Hcan.
  assert (dec_value (out_amount (lv_output v)) = dec_value (to_amount headOrigin) + amount) as Hsum.
  { rewrite Hoa, dec_value_toString by done. by rewrite Ha, Hha. }
  exists (lv_head v), (lv_artifact v), headOrigin, payers, amount, (lv_output v), change. split; try done.
  - rewrite Hid, <- lo_reference0. exact lo_id0.
  - by rewrite Ei, <- Hp.
  - split; [|done]. by intros ->; inversion Hps.
  - exists owner. by rewrite Hs, Hhs.
  - apply Forall_forall. intros o Ho. split; [by rewrite Forall_forall in Hcov; apply Hcov|].
    destruct change as [|c [|? ?]]; [by apply elem_of_nil in Ho| |cbn in Hl; lia]. apply list_elem_of_singleton in Ho as ->.
    specialize (Hch c eq_refl). rewrite lo_payers0, Ei in Hch. apply list_elem_of_fmap in Hch as (i & -> & Hi). cbn [tail] in Hi.
    apply list_elem_of_lookup in Hi as (k & Hi). destruct (Forall2_lookup_l _ _ _ _ _ Hps Hi) as (o & Ho & _ & Eo').
    exists o. split; [by eapply list_elem_of_lookup_2|done].
  - unfold amounts in *. lia.
Qed.

(** C21. An accepted payment was signed and authorized.  Whenever [verifyExactPayment]
    accepts: the one-time key of the grant signed the transaction in the head input's borrow
    witness, the key of every other input's script signed it in that input, and one of those
    keys signed the digest of the request's terms, transaction id, challenge and deadline,
    which the result reports with that key and the authorization's id. *)
Theorem accepted_payment_authorized verifier calls object request result :
  let cache := authenticate_all sha256 blake3 blake2b blake2b_keyed blake3_keyed lift_x schnorr_verify other_bigints other_numbers other_dates calls ∅ in
  verify verifier cache object request = Ok result ->
  exists head t, vr_hashChainHead request = Some head /\ transactionV1Id blake2b_keyed blake3_keyed t = Ok (xv_transactionId result) /\
    head_signed head t /\
    (forall i, (0 < i < length (inputs t))%nat -> exists key, payer_signed t i key) /\
    (exists i, xv_inputIndex result = Z.of_nat i /\ (0 < i < length (inputs t))%nat /\ payer_signed t i (xv_publicKey result)) /\
    exactRequestAuthorizationDigest sha256 (request_digest_input request head (xv_transactionId result)) = Ok (xv_digest result) /\
    signs (xv_publicKey result) (xv_digest result) (xa_signature (vr_authorization request)) /\
    exactRequestAuthorizationId sha256 (vr_authorization request) = Ok (xv_authorizationId result).
Proof using.
  intros cache H. apply verify_sound in H as (v & trusted & selected & Hv & _ & _ & _ & _ & _ & Haid & Hid & Hd & Hk & Hix & _);
    [|by apply authenticate_all_authentic; intros ? ?].
  apply validate_sound in Hv. destruct Hv. exists (lv_head v), (lv_reference v).
  assert (length (inputs (lv_reference v)) = length (art_inputs (lv_artifact v))) as Hl by (rewrite lo_reference0; cbn; by rewrite length_imap).
  rewrite Hl, Hid, Hd, Hk, Hix. destruct lo_digest0 as [Hdig Hsig]. rewrite lo_authorization0 in *.
  split; [exact lo_head0|]. split; [exact lo_id0|]. split; [exact lo_head_signed0|]. split; [exact lo_payer_signed0|].
  split; [exact lo_authorized0|]. split; [exact Hdig|]. split; [exact Hsig|exact Haid].
Qed.
End Sound.

(** ** The two sides of an exchange *)

(** The challenge as the client receives it *)
Definition client_head (head : HashChainHeadChallenge) (grantClaimUrl : string) : ClientHashChainHead := {|
  ch_headId := hc_headId head; ch_headVersion := hc_headVersion head; ch_covenantId := hc_covenantId head;
  ch_expectedHeadOutpoint := hc_expectedHeadOutpoint head; ch_headAmount := hc_headAmount head;
  ch_headScriptPublicKey := hc_headScriptPublicKey head; ch_headRedeemScript := hc_headRedeemScript head;
  ch_currentGuard := hc_currentGuard head; ch_nextGuard := hc_nextGuard head; ch_oneTimePublicKey := hc_oneTimePublicKey head;
  ch_grantId := hc_grantId head; ch_grantClaimUrl := grantClaimUrl; ch_challengeId := hc_challengeId head;
  ch_challengeExpiresAt := hc_challengeExpiresAt head |}.
(** The server's verification request for what the client signed *)
Definition verification_request (payment : HashChainPaymentRequest) (head : HashChainHeadChallenge) (signed : ExactTransactionPaymentResult)
    (finality : string) : ExactTransactionVerificationRequest := {|
  vr_network := pr_network payment; vr_profile := pr_profile payment; vr_transaction := er_transaction signed;
  vr_transactionEncoding := er_transactionEncoding signed; vr_paymentOutputIndex := er_paymentOutputIndex signed;
  vr_amount := pr_amount payment; vr_payTo := pr_payTo payment; vr_payToScriptPublicKey := pr_payToScriptPublicKey payment;
  vr_requiredFinality := finality; vr_requestHash := pr_requestHash payment; vr_paymentIdentifier := pr_paymentIdentifier payment;
  vr_paymentRequirementsHash := pr_paymentRequirementsHash payment; vr_authorization := er_authorization signed;
  vr_hashChainHead := Some head |}.

(** ** A concrete payment *)

Module SamplePayment.
Import SampleArtifacts.

(** A signature scheme with the sizes of BIP-340 *)
Definition toy_key (secret : bytes) : result bytes := Ok (toy_sha256 secret).
Definition toy_signature (message key : bytes) : bytes := toy_sha256 (key ++ message) ++ toy_sha256 (message ++ key).
Definition toy_sign (message secret : bytes) (aux : option bytes) : result bytes := Ok (toy_signature message (toy_sha256 secret)).
Definition toy_verify (signature message key : bytes) : result bool := Ok (bool_decide (signature = toy_signature message key)).
Definition no_numbers (text : string) : jsnumber := Unsafe text.
Definition no_bigints (text : string) : result Z := Throw (Error "SyntaxError").
Definition no_dates (text : string) : option Z := None.

Definition key_text (secret : string) : string := bytesToHex (toy_sha256 (hex_decode secret)).
Definition owner : string := hash32 "a0".
Definition next_guard : string := hash32 "5e".
Definition one_time_secret : string := hash32 "07".
Definition current_guard : string := text_of (hashChainBorrowGuard toy_sha256 next_guard (key_text one_time_secret)).
Definition head_spk (guard : string) : string :=
  text_of (hashChainHeadScriptPublicKey toy_sha256 (fun _ => Ok tt) {| hp_ownerPublicKey := owner; hp_guard := guard |}).
Definition sample_head : HashChainHeadChallenge := {|
  hc_headId := hash32 "1d"; hc_headVersion := "3"; hc_covenantId := hash32 "cc"; hc_expectedHeadOutpoint := Outpoint (hash32 "aa") 0;
  hc_headAmount := "10000000000"; hc_headScriptPublicKey := head_spk current_guard;
  hc_headRedeemScript := text_of (buildHashChainHeadRedeemScript (fun _ => Ok tt) {| hp_ownerPublicKey := owner; hp_guard := current_guard |});
  hc_currentGuard := current_guard; hc_nextGuard := next_guard; hc_oneTimePublicKey := key_text one_time_secret;
  hc_grantId := hash32 "90"; hc_challengeId := hash32 "c4"; hc_challengeIssuedAt := "2024-02-29T23:00:00.000Z";
  hc_challengeExpiresAt := "2024-02-29T23:59:59.999Z"; hc_grantExpiresAt := Absent |}.
Definition sample_funding : HashChainPayerFundingInput := {|
  fi_outpoint := Outpoint (hash32 "bb") 1; fi_amount := "10000000000";
  fi_scriptPublicKey := "000020" +:+ key_text (hash32 "09") +:+ "ac"; fi_privateKey := hash32 "09"; fi_payerAddress := "kaspatest:payer" |}.
Definition sample_payment (head : ClientHashChainHead) : HashChainPaymentRequest := {|
  pr_network := "kaspa:testnet-10"; pr_profile := "hash-chain-additive"; pr_amount := "250000000"; pr_payTo := "kaspatest:head";
  pr_payToScriptPublicKey := head_spk next_guard; pr_paymentOutputIndex := Some 0; pr_requestHash := hash32 "7e";
  pr_paymentRequirementsHash := hash32 "7a"; pr_paymentIdentifier := "order-1"; pr_authorizationExpiresAt := "2024-02-29T23:59:59.999Z";
  pr_hashChainHead := Some head;
  pr_grant := {| gd_grantId := hash32 "90"; gd_headVersion := 3; gd_nextGuard := next_guard; gd_oneTimePublicKey := key_text one_time_secret;
                 gd_oneTimePrivateKey := one_time_secret; gd_expiresAt := "2024-02-29T23:59:59.999Z" |} |}.
Definition sample_client_head : ClientHashChainHead := client_head sample_head "https://example.test/grant".
Abbreviation sample_signed :=
  (signHashChainExactTransaction toy_sha256 toy_sha256 toy_sha256 keyed keyed toy_key (fun _ => Ok tt) toy_sign no_numbers
    (sample_payment sample_client_head) sample_funding "20000" None).
Definition sample_request (signed : ExactTransactionPaymentResult) : ExactTransactionVerificationRequest :=
  verification_request (sample_payment sample_client_head) sample_head signed "accepted".
Definition sample_chain : HashChainChainView := {|
  view_network := Some "kaspa:testnet-10";
  getAcceptedOrigins := fun _ =>
    Ok [Some {| to_amount := hc_headAmount sample_head; to_scriptPublicKey := hc_headScriptPublicKey sample_head;
                to_covenantId := Some (hc_covenantId sample_head) |};
        Some {| to_amount := fi_amount sample_funding; to_scriptPublicKey := fi_scriptPublicKey sample_funding; to_covenantId := None |}];
  getSelectedTransaction := fun _ => Ok None |}.
Definition sample_verifier : result HashChainExactTransactionVerifier :=
  new_HashChainExactTransactionVerifier sample_chain MAX_FEE 8 None false.
Definition sample_authenticated (signed : ExactTransactionPaymentResult) : gmap N CachedValidation :=
  authenticate_all toy_sha256 toy_sha256 toy_sha256 keyed keyed (fun _ => Ok tt) toy_verify no_bigints no_numbers no_dates
    [(7%N, sample_request signed)] ∅.
Lemma sample_run : exists signed verifier result, sample_signed = Ok signed /\ sample_verifier = Ok verifier /\
  verifyExactPayment toy_sha256 toy_sha256 toy_sha256 keyed keyed (fun _ => Ok tt) toy_verify no_bigints no_numbers no_dates
    verifier (sample_authenticated signed) 7 (sample_request signed) = Ok result /\ xv_continuationAmount result = "10250000000".
Proof.
  assert (is_ok (signed ← sample_signed; verifier ← sample_verifier;
    result ← verifyExactPayment toy_sha256 toy_sha256 toy_sha256 keyed keyed (fun _ => Ok tt) toy_verify no_bigints no_numbers no_dates
      verifier (sample_authenticated signed) 7 (sample_request signed);
    throw_if (xv_continuationAmount result !== "10250000000") "") = true) as V by (vm_compute; reflexivity).
  apply is_ok_value in V as [[] V].
  apply bind_ok in V as (signed & Hs & V). apply bind_ok in V as (verifier & Hv & V). apply bind_ok in V as (result & Hr & V%throw_if_ok).
  exists signed, verifier, result. split; [exact Hs|]. split; [exact Hv|]. split; [exact Hr|]. by apply negb_false_iff, bool_decide_eq_true in V.
Qed.
Lemma accepted_payment_increases_head_witness : exists verifier request result head artifact headOrigin payerOrigins amount successor change,
  xv_continuationAmount result = "10250000000" /\
  head_increase toy_sha256 toy_sha256 keyed keyed (fun _ => Ok tt) no_bigints no_numbers verifier request result head artifact headOrigin payerOrigins
    amount successor change.
Proof.
  destruct sample_run as (signed & verifier & result & _ & _ & Hr & Ha).
  destruct (accepted_payment_increases_head toy_sha256 toy_sha256 toy_sha256 keyed keyed (fun _ => Ok tt) toy_verify no_bigints no_numbers no_dates
    verifier [(7%N, sample_request signed)] 7 (sample_request signed) result Hr) as (head & artifact & ho & po & amount & successor & change & H).
  exists verifier, (sample_request signed), result, head, artifact, ho, po, amount, successor, change. split; [exact Ha|exact H].
Defined.
Lemma accepted_payment_authorized_witness : exists signed result, sample_signed = Ok signed /\
  signs toy_verify (xv_publicKey result) (xv_digest result) (xa_signature (er_authorization signed)).
Proof.
  destruct sample_run as (signed & verifier & result & Hs & _ & Hr & _). exists signed, result. split; [exact Hs|].
  destruct (accepted_payment_authorized toy_sha256 toy_sha256 toy_sha256 keyed keyed (fun _ => Ok tt) toy_verify no_bigints no_numbers no_dates
    verifier [(7%N, sample_request signed)] 7 (sample_request signed) result Hr) as (head & t & _ & _ & _ & _ & _ & _ & H & _).
  exact H.
Defined.
End SamplePayment.
