(* ===== verification/HashChainExchange.v ===== *)
(** * What the signer signs, the verifier accepts

    The composition of HashChainSigner and HashChainVerifier: a payment that the client signs
    for an advertised head is accepted by the server's verifier, when the selected chain
    reports the head and the funding output and the request is within the resource budget of
    canonical JSON.  BIP-340 correctness and the digest lengths are hypotheses. *)

From S2P Require Import Prelude Amount Json Binary ResourceBudget ChainTruth Dates Template HashChain TxV1 TxV1Artifacts TxV1Commitments JsonText Authorization HashChainVerifier HashChainSigner HashChainPayment.

(** ** Bytes and scripts *)

Lemma Buffer_of_hex b : Buffer_from_hex (bytesToHex b) = b.
Proof.
  induction b as [|c b IH]; [done|]. cbn [bytesToHex Buffer_from_hex]. rewrite IH.
  assert (is_hex (hex_digit (code c / 16)) && is_hex (hex_digit (code c mod 16)) = true) as ->
    by (destruct c as [[] [] [] [] [] [] [] []]; reflexivity).
  f_equal. by destruct c as [[] [] [] [] [] [] [] []].
Qed.
Lemma Buffer_of_hash32 s : is_hash32 s = true -> Buffer_from_hex s = hex_decode s.
Proof.
  intros [Hs _]%andb_true_iff. induction s as [|c|a b s IH] using string_pair_ind; [done..|].
  cbn [string_forall Buffer_from_hex hex_decode] in *. apply andb_true_iff in Hs as [Ha [Hb Hs]%andb_true_iff].
  by rewrite Ha, Hb, IH.
Qed.
Lemma lower_is_hash32 s : is_lower_hash32 s = true -> is_hash32 s = true.
Proof. unfold is_lower_hash32, is_hash32. intros [H ->]%andb_true_iff. by rewrite lower_hex_hex. Qed.
Lemma hash32_size s : is_hash32 s = true -> length (hex_decode s) = 32%nat.
Proof. intros H. exact (proj2 (hash32_hex s H)). Qed.

Section Scripts.
Context (blake2b : bytes -> bytes) (lift_x : bytes -> result ()) (Hblake2b : forall x, length (blake2b x) = 32%nat).
(** A head's script: version 0, P2SH *)
Lemma head_script_text p s : hashChainHeadScriptPublicKey blake2b lift_x p = Ok s ->
  exists h, s = "0000" +:+ bytesToHex ([byte_of 170; byte_of 32] ++ h ++ [byte_of 135]) /\ length h = 32%nat.
Proof using Hblake2b.
  unfold hashChainHeadScriptPublicKey, payToScriptHashScript, serializedScriptPublicKey. intros H.
  apply bind_ok in H as (script & _ & H). apply bind_ok in H as (spk & Hs & H). apply bind_ok in Hs as (redeem & _ & Hs%Ok_inj). subst spk.
  apply bind_ok in H as ([] & _ & H). apply bind_ok in H as (script' & Hx & H%Ok_inj). cbn [spk_version spk_script] in *.
  rewrite hex_of_bytes in Hx by done. apply Ok_inj in Hx. subst s script'. exists (blake2b redeem). split; [|apply Hblake2b].
  unfold concatBytes, bytes_of. cbn [map List.concat app]. rewrite !app_nil_r. reflexivity.
Qed.
End Scripts.
Lemma head_script_canonical h : canonical_hex ("0000" +:+ bytesToHex h).
Proof. exists (byte_of 0 :: byte_of 0 :: h). reflexivity. Qed.
Lemma canonical_lower_case s : canonical_hex s -> toLowerCase s = s.
Proof. intros [b ->]. apply toLowerCase_hex. Qed.

(** ** Signature hashes do not cover the witnesses. *)

Lemma sighash_without_witness blake2b_keyed head funding w1 w2 outs m i ty :
  transactionV1Sighash blake2b_keyed (signer_transaction (signer_inputs head funding w1 w2) outs m) i ty =
  transactionV1Sighash blake2b_keyed (signer_transaction (signer_inputs head funding "" "") outs m) i ty.
Proof.
  unfold transactionV1Sighash, writeSighashPreimage, signer_transaction, signer_inputs. cbn [inputs].
  destruct i as [|[|i]]; reflexivity.
Qed.

(** ** The borrow witness *)

Lemma push_short b : (length b <= 75)%nat -> push_item b = Ok (byte_of (Z.of_nat (length b)) :: b).
Proof.
  intros H. unfold push_item. cbv zeta. decide_guards. unfold concatBytes, bytes_of. cbn [map List.concat app]. by rewrite app_nil_r.
Qed.
(** The items a borrow witness pushes before the redeem script *)
Definition borrow_items (guard key signature : bytes) (flag : ascii) : bytes :=
  (byte_of 32 :: guard) ++ (byte_of 32 :: key) ++ (byte_of 65 :: signature ++ [flag]).
Lemma borrow_items_read guard key signature flag rest :
  length guard = 32%nat -> length key = 32%nat -> length signature = 64%nat ->
  let w := borrow_items guard key signature flag ++ rest in
  w !! 66%nat = Some (byte_of 65) /\ w !! 131%nat = Some flag /\ take 64 (drop 67 w) = signature.
Proof.
  intros Hg Hk Hs w. subst w. unfold borrow_items. rewrite <- !app_assoc.
  assert (forall n (l : bytes), length l = n -> forall k r, (l ++ r) !! (n + k)%nat = r !! k) as Hskip.
  { intros n l <- k r. rewrite lookup_app_r by lia. f_equal. lia. }
  assert (length (byte_of 32 :: guard) = 33%nat /\ length (byte_of 32 :: key) = 33%nat) as [H1 H2] by (cbn [length]; lia).
  split; [|split].
  - rewrite (Hskip 33%nat _ H1 33%nat), (Hskip 33%nat _ H2 0%nat). reflexivity.
  - rewrite (Hskip 33%nat _ H1 98%nat), (Hskip 33%nat _ H2 65%nat). cbn [app]. change ((byte_of 65 :: ?l) !! 65%nat) with (l !! 64%nat).
    rewrite <- app_assoc. by rewrite (Hskip 64%nat _ Hs 0%nat).
  - assert (forall n (l : bytes), length l = n -> forall k r, drop (n + k) (l ++ r) = drop k r) as Hd.
    { intros n l <- k r. by rewrite drop_app_add. }
    rewrite (Hd 33%nat _ H1 34%nat), (Hd 33%nat _ H2 1%nat). cbn [app drop].
    rewrite drop_0, <- app_assoc. by rewrite take_app_length'.
Qed.

(** ** A successful run of the signer *)

(** The values it computes *)
Record signing_values := {
  sv_owner : string;
  sv_oneTimeKey : bytes;
  sv_payerPublicKey : bytes;
  sv_amount : Z;
  sv_headAmount : Z;
  sv_fundingAmount : Z;
  sv_targetFee : Z;
  sv_outputs : list TxV1ReferenceOutput;
  sv_mass : Z;
  sv_headDigest : TxV1SighashDebug;
  sv_payerDigest : TxV1SighashDebug;
  sv_headSignature : bytes;
  sv_payerSignature : bytes;
  sv_headWitness : string;
  sv_payerWitness : string;
  sv_digest : string;
  sv_requestSignature : bytes
}.
Definition positive_amount (s : string) (n : Z) : Prop := canonical_decimal s = true /\ dec_value s = n /\ 0 < n <= U64_MAX.
Lemma canonicalPositive_ok s label n : canonicalPositive s label = Ok n -> positive_amount s n.
Proof.
  unfold canonicalPositive. intros H. apply bind_ok in H as ([] & Hc%throw_if_ok & H). cbv zeta in H.
  apply bind_ok in H as ([] & Hb%throw_if_ok & [= <-]). inv_bool. split; [done|]. split; [done|]. split; [|done].
  assert (s <> "0") as Hne by done. pose proof (canonical_lower s) as Hl.
  pose proof (dec_value_bounds s ltac:(by apply canonical_digits)) as Hv. specialize (Hl ltac:(done) Hne).
  assert (0 < 10 ^ (byte_length s - 1)); [|lia]. apply Z.pow_pos_nonneg; [lia|]. destruct s; [done|]. rewrite byte_length_cons. pose proof (byte_length_nonneg s). lia.
Qed.
Lemma mass_nonneg ins outs p m : calculateKaspaStorageMass ins outs p = Ok m -> 0 <= m.
Proof.
  unfold calculateKaspaStorageMass. cbv zeta. intros H. apply bind_ok in H as ([] & _ & H).
  do 2 apply bind_ok in H as (? & _ & H). apply bind_ok in H as ([] & _ & H).
  destruct (_ || _); injection H as <-; destruct (_ <? _) eqn:E; lia.
Qed.

Section Signer.
Context (sha256 blake3 blake2b : bytes -> bytes) (blake2b_keyed blake3_keyed : bytes -> bytes -> bytes).
Context (getPublicKey : bytes -> result bytes) (lift_x : bytes -> result ()).
Context (schnorr_sign : bytes -> bytes -> option bytes -> result bytes) (other_numbers : string -> jsnumber).
#[local] Abbreviation sign :=
  (signHashChainExactTransaction sha256 blake3 blake2b blake2b_keyed blake3_keyed getPublicKey lift_x schnorr_sign other_numbers).
#[local] Abbreviation script_of := (hashChainHeadScriptPublicKey blake2b lift_x).

Definition unsigned_transaction (head : ClientHashChainHead) (funding : HashChainPayerFundingInput) (v : signing_values) : TxV1ReferenceTransaction :=
  signer_transaction (signer_inputs head funding "" "") (sv_outputs v) (sv_mass v).
Definition signed_transaction (head : ClientHashChainHead) (funding : HashChainPayerFundingInput) (v : signing_values) : TxV1ReferenceTransaction :=
  signer_transaction (signer_inputs head funding (sv_headWitness v) (sv_payerWitness v)) (sv_outputs v) (sv_mass v).

Record signing (payment : HashChainPaymentRequest) (head : ClientHashChainHead) (funding : HashChainPayerFundingInput) (aux : option bytes)
    (v : signing_values) (r : ExactTransactionPaymentResult) : Prop := {
  sn_head : pr_hashChainHead payment = Some head;
  sn_profile : existsb (String.eqb (pr_network payment)) ["kaspa:testnet-10"; "kaspa:mainnet"] = true /\ pr_profile payment = "hash-chain-additive";
  sn_oneTimeKey : is_hash32 (gd_oneTimePrivateKey (pr_grant payment)) = true /\
    getPublicKey (hex_decode (gd_oneTimePrivateKey (pr_grant payment))) = Ok (sv_oneTimeKey v) /\ ch_oneTimePublicKey head = bytesToHex (sv_oneTimeKey v);
  sn_guard : hashChainBorrowGuard blake3 (ch_nextGuard head) (ch_oneTimePublicKey head) = Ok (ch_currentGuard head);
  sn_scripts : parseHashChainHeadRedeemScript lift_x (ch_headRedeemScript head) = Ok {| hp_ownerPublicKey := sv_owner v; hp_guard := ch_currentGuard head |} /\
    script_of {| hp_ownerPublicKey := sv_owner v; hp_guard := ch_currentGuard head |} = Ok (ch_headScriptPublicKey head) /\
    script_of {| hp_ownerPublicKey := sv_owner v; hp_guard := ch_nextGuard head |} = Ok (pr_payToScriptPublicKey payment);
  sn_payer : is_lower_hash32 (fi_privateKey funding) = true /\ getPublicKey (hex_decode (fi_privateKey funding)) = Ok (sv_payerPublicKey v) /\
    fi_scriptPublicKey funding = "000020" +:+ bytesToHex (sv_payerPublicKey v) +:+ "ac";
  sn_amounts : positive_amount (pr_amount payment) (sv_amount v) /\ positive_amount (ch_headAmount head) (sv_headAmount v) /\
    positive_amount (fi_amount funding) (sv_fundingAmount v) /\ 0 < sv_targetFee v <= MAX_FEE;
  sn_covered : sv_headAmount v + sv_amount v <= U64_MAX /\ sv_amount v + sv_targetFee v <= sv_fundingAmount v;
  sn_distinct : fi_outpoint funding <> ch_expectedHeadOutpoint head;
  sn_outputs : let change := sv_fundingAmount v - sv_amount v - sv_targetFee v in
    let successor := successor_output payment head (sv_headAmount v + sv_amount v) in
    sv_outputs v = [successor; change_output funding change] /\ 0 < change \/
    sv_outputs v = [successor] /\ sv_targetFee v + change <= MAX_FEE;
  sn_mass : storageMass (signer_inputs head funding "" "") (sv_outputs v) = Ok (sv_mass v) /\ 0 <= sv_mass v < MAX_STORAGE_MASS;
  sn_headSigned : transactionV1Sighash blake2b_keyed (unsigned_transaction head funding v) 0 1 = Ok (sv_headDigest v) /\
    schnorr_sign (Buffer_from_hex (sg_digest (sv_headDigest v))) (hex_decode (gd_oneTimePrivateKey (pr_grant payment))) aux = Ok (sv_headSignature v);
  sn_payerSigned : transactionV1Sighash blake2b_keyed (unsigned_transaction head funding v) 1 1 = Ok (sv_payerDigest v) /\
    schnorr_sign (Buffer_from_hex (sg_digest (sv_payerDigest v))) (hex_decode (fi_privateKey funding)) aux = Ok (sv_payerSignature v);
  sn_headWitness : buildHashChainBorrowSignatureScript lift_x {| bw_revealedGuard := ch_nextGuard head;
      bw_oneTimePublicKey := ch_oneTimePublicKey head; bw_signature := bytesToHex (sv_headSignature v); bw_sighashType := None;
      bw_redeemScript := ch_headRedeemScript head |} = Ok (sv_headWitness v);
  sn_payerWitness : buildTxV1P2pkSignatureScript (Hex (bytesToHex (sv_payerSignature v))) None = Ok (sv_payerWitness v);
  sn_id : transactionV1Id blake2b_keyed blake3_keyed (signed_transaction head funding v) = Ok (er_transactionId r);
  sn_digest : exactRequestAuthorizationDigest sha256 (signer_digest_input payment head (er_transactionId r)) = Ok (sv_digest v) /\
    schnorr_sign (Buffer_from_hex (sv_digest v)) (hex_decode (fi_privateKey funding)) aux = Ok (sv_requestSignature v);
  sn_result : er_transaction r = JSON_stringify (safe_transaction (er_transactionId r) (signed_transaction head funding v)) /\
    er_transactionEncoding r = "kaspa-sdk-safe-json-v2.0.0" /\ er_paymentOutputIndex r = 0 /\
    er_authorization r = {| xa_version := "kaspa-x402-exact-request-authorization-v2"; xa_inputIndex := 1;
      xa_expiresAt := pr_authorizationExpiresAt payment; xa_digest := sv_digest v; xa_signature := bytesToHex (sv_requestSignature v) |}
}.

Lemma check_grant_ok grant head : check_grant blake3 getPublicKey other_numbers grant head = Ok tt -> exists key,
  is_hash32 (gd_oneTimePrivateKey grant) = true /\ getPublicKey (hex_decode (gd_oneTimePrivateKey grant)) = Ok key /\
  ch_oneTimePublicKey head = bytesToHex key /\ hashChainBorrowGuard blake3 (ch_nextGuard head) (ch_oneTimePublicKey head) = Ok (ch_currentGuard head).
Proof using.
  unfold check_grant. intros H. apply bind_ok in H as (bad & Hb & ->%throw_if_ok). apply or_else_false in Hb as [_ Hb].
  apply or_else_false in Hb as [Hk Hg]. apply bind_ok in Hk as (k & Hk & Ek%Ok_inj). apply bind_ok in Hg as (g & Hg & Eg%Ok_inj). inv_bool. subst k g.
  unfold hashChainOneTimePublicKey in Hk. apply bind_ok in Hk as (secret & [-> Hs]%fixedBytes_ok & Hk).
  apply bind_ok in Hk as (key & Hkey & Hk%Ok_inj). exists key. done.
Qed.
Lemma check_scripts_ok payment head : check_scripts blake2b lift_x payment head = Ok tt -> exists owner,
  parseHashChainHeadRedeemScript lift_x (ch_headRedeemScript head) = Ok {| hp_ownerPublicKey := owner; hp_guard := ch_currentGuard head |} /\
  script_of {| hp_ownerPublicKey := owner; hp_guard := ch_currentGuard head |} = Ok (ch_headScriptPublicKey head) /\
  script_of {| hp_ownerPublicKey := owner; hp_guard := ch_nextGuard head |} = Ok (pr_payToScriptPublicKey payment).
Proof using.
  unfold check_scripts. intros H. apply bind_ok in H as ([owner guard] & Hp & H). apply bind_ok in H as (bad & Hb & ->%throw_if_ok).
  apply or_else_false in Hb as [Hg%Ok_inj Hb]. apply or_else_false in Hb as [H1 H2]. apply bind_ok in H1 as (s1 & H1 & E1%Ok_inj).
  apply bind_ok in H2 as (s2 & H2 & E2%Ok_inj). cbn [hp_guard hp_ownerPublicKey] in *. inv_bool. subst. by exists owner.
Qed.
Lemma check_funding_ok funding key : check_funding getPublicKey funding = Ok key -> exists pub,
  key = hex_decode (fi_privateKey funding) /\ is_lower_hash32 (fi_privateKey funding) = true /\
  getPublicKey (hex_decode (fi_privateKey funding)) = Ok pub /\ fi_scriptPublicKey funding = "000020" +:+ bytesToHex pub +:+ "ac".
Proof using.
  unfold check_funding. cbv zeta. intros H. apply bind_ok in H as (bad & Hb & H). apply bind_ok in H as ([] & ->%throw_if_ok & [= <-]).
  apply or_else_false in Hb as [Hl%Ok_inj Hb]. apply bind_ok in Hb as (pub & Hp & E%Ok_inj). inv_bool. exists pub.
  rewrite Buffer_of_hash32 in * by (by apply lower_is_hash32). done.
Qed.
Lemma choose_outputs_ok inputs successor funding change targetFee outs m :
  targetFee <= MAX_FEE -> 0 <= change -> choose_outputs inputs successor funding change targetFee = Ok (outs, m) ->
  (outs = [successor; change_output funding change] /\ 0 < change \/ outs = [successor] /\ targetFee + change <= MAX_FEE) /\
  storageMass inputs outs = Ok m /\ 0 <= m < MAX_STORAGE_MASS.
Proof using.
  intros Hfee Hch. unfold choose_outputs. cbv zeta. intros H. apply bind_ok in H as (m0 & Hm & H). apply bind_ok in H as ([outs' m'] & Hd & H).
  apply bind_ok in H as ([] & Hmax%throw_if_ok & [= -> ->]). inv_bool.
  assert (storageMass inputs outs = Ok m -> 0 <= m) as Hpos by (unfold storageMass; apply mass_nonneg).
  destruct (_ && _) eqn:E in Hd.
  - apply bind_ok in Hd as (m1 & Hm1 & [= <- <-]). inv_bool. split; [right; split; [done|lia]|]. split; [done|]. split; [auto|done].
  - injection Hd as <- <-. split; [|split; [done|split; [auto|done]]]. destruct (0 <? change) eqn:Ec; inv_bool; [by left|right; split; [done|lia]].
Qed.
Lemma check_request_ok payment head : check_request payment = Ok head -> pr_hashChainHead payment = Some head /\
  existsb (String.eqb (pr_network payment)) ["kaspa:testnet-10"; "kaspa:mainnet"] = true /\ pr_profile payment = "hash-chain-additive".
Proof using.
  unfold check_request. cbv zeta. destruct (pr_hashChainHead payment); [|done]. intros H. apply bind_ok in H as ([] & Hb%throw_if_ok & [= ->]).
  inv_bool. done.
Qed.
Lemma sign_hex_ok digest key aux s : sign_hex schnorr_sign digest key aux = Ok s ->
  exists b, s = bytesToHex b /\ schnorr_sign (Buffer_from_hex digest) key aux = Ok b.
Proof using. unfold sign_hex. intros H. apply bind_ok in H as (b & Hb & H%Ok_inj). by exists b. Qed.
Lemma sign_ok payment funding feeSompi aux r : sign payment funding feeSompi aux = Ok r ->
  exists head v, signing payment head funding aux v r.
Proof using.
  unfold signHashChainExactTransaction. intros H. apply bind_ok in H as ([] & _ & H).
  apply bind_ok in H as (head & (Hh & Hn & Hp)%check_request_ok & H). exists head.
  apply bind_ok in H as ([] & (oneTimeKey & Hk1 & Hk2 & Hk3 & Hg)%check_grant_ok & H).
  apply bind_ok in H as ([] & (owner & Hs1 & Hs2 & Hs3)%check_scripts_ok & H).
  apply bind_ok in H as (payerKey & (pub & -> & Hf1 & Hf2 & Hf3)%check_funding_ok & H).
  apply bind_ok in H as (amount & Ha%canonicalPositive_ok & H). apply bind_ok in H as (headAmount & Hha%canonicalPositive_ok & H).
  apply bind_ok in H as (fundingAmount & Hfa%canonicalPositive_ok & H). apply bind_ok in H as (targetFee & Hfee%canonicalPositive_ok & H).
  apply bind_ok in H as ([] & Hcov%throw_if_ok & H). apply bind_ok in H as ([] & Hne%throw_if_ok & H).
  destruct Hfee as (_ & _ & Hfee). inv_bool.
  apply bind_ok in H as ([outs m] & (Ho & Hm & Hm')%choose_outputs_ok & H); [|lia..].
  apply bind_ok in H as (t & Ht & H). apply bind_ok in H as (id & Hid & H). apply bind_ok in H as (digest & Hd & H).
  apply bind_ok in H as (sig & (rs & -> & Hrs)%sign_hex_ok & H). apply Ok_inj in H.
  unfold sign_transaction in Ht. cbv zeta in Ht. apply bind_ok in Ht as (s0 & Hs0 & Ht). apply bind_ok in Ht as (hs & (hb & -> & Hhb)%sign_hex_ok & Ht).
  apply bind_ok in Ht as (s1 & Hps & Ht). apply bind_ok in Ht as (ps & (pb & -> & Hpb)%sign_hex_ok & Ht).
  apply bind_ok in Ht as (hw & Hhw & Ht). apply bind_ok in Ht as (pw & Hpw & Ht%Ok_inj). rewrite (Buffer_of_hash32 (gd_oneTimePrivateKey (pr_grant payment)) Hk1) in Hhb.
  exists {| sv_owner := owner; sv_oneTimeKey := oneTimeKey; sv_payerPublicKey := pub; sv_amount := amount; sv_headAmount := headAmount;
    sv_fundingAmount := fundingAmount; sv_targetFee := targetFee; sv_outputs := outs; sv_mass := m; sv_headDigest := s0; sv_payerDigest := s1;
    sv_headSignature := hb; sv_payerSignature := pb; sv_headWitness := hw; sv_payerWitness := pw; sv_digest := digest; sv_requestSignature := rs |}.
  assert (er_transactionId r = id) as Er by (by subst r).
  split; cbn [sv_owner sv_oneTimeKey sv_payerPublicKey sv_amount sv_headAmount sv_fundingAmount sv_targetFee sv_outputs sv_mass sv_headDigest
    sv_payerDigest sv_headSignature sv_payerSignature sv_headWitness sv_payerWitness sv_digest sv_requestSignature]; rewrite ?Er.
  - exact Hh.
  - split; assumption.
  - split_and!; assumption.
  - exact Hg.
  - split_and!; assumption.
  - split_and!; assumption.
  - split_and!; (assumption || lia).
  - lia.
  - intros E. rewrite E in Hne. rewrite bool_decide_eq_true_2, Z.eqb_refl in Hne by reflexivity. discriminate Hne.
  - exact Ho.
  - split; assumption.
  - split; assumption.
  - split; assumption.
  - exact Hhw.
  - exact Hpw.
  - unfold signed_transaction. cbn [sv_headWitness sv_payerWitness sv_outputs sv_mass]. rewrite Ht. exact Hid.
  - split; assumption.
  - subst r t. split_and!; reflexivity.
Qed.
End Signer.

(** ** A signed text is short. *)

Lemma text_units s : js_length s <= 2 * byte_length s.
Proof.
  induction s as [|c s IH]; [done|]. cbn [js_length]. rewrite byte_length_cons. destruct (in_range _ _ _); [lia|]. destruct (_ <=? _); lia.
Qed.
Lemma sized_units n s : sized n s -> js_length s <= 4 * Z.of_nat n.
Proof. intros (b & -> & <-). pose proof (text_units (bytesToHex b)) as H. rewrite bytesToHex_length in H. lia. Qed.
Lemma amount_units s : amount_text s -> js_length s <= 40.
Proof.
  intros [Hc Hv]. pose proof (text_units s) as Hu. enough (byte_length s <= 20) by lia.
  destruct (decide (s = "0")) as [->|Hne]; [done|]. pose proof (canonical_lower s Hc Hne) as Hl.
  destruct (Z.le_gt_cases (byte_length s) 20) as [|Hgt]; [done|]. exfalso.
  pose proof (Z.pow_le_mono_r 10 20 (byte_length s - 1) ltac:(lia) ltac:(lia)) as Hp.
  assert (U64_MAX < 10 ^ 20) by done. lia.
Qed.
Lemma amount_of_number n : 0 <= n <= U64_MAX -> amount_text (toString n).
Proof. intros Hn. destruct (toString_spec n) as [H1 H2]; [lia|]. split; [done|lia]. Qed.
Lemma number_units n : 0 <= n <= U32_MAX -> js_length (toString n) <= 40.
Proof. intros Hn. apply amount_units, amount_of_number. assert (U32_MAX <= U64_MAX) by done. lia. Qed.
(** Measures the literal texts of a goal. *)
Ltac measure := cbn [text_bound foldr fst snd];
  repeat match goal with |- context [js_length (String ?c ?s)] =>
    let n := eval vm_compute in (js_length (String c s)) in change (js_length (String c s)) with n end.
Lemma short_input i : wf_input i -> js_length (default "" (utxo_covenantId i)) <= 128 ->
  text_bound (safe_input i) <= 4500 + 6 * (js_length (in_signatureScript i) + js_length (utxo_scriptPublicKey i)).
Proof.
  intros W Hc. pose proof (sized_units _ _ (wi_txid _ W)). pose proof (number_units _ (wi_index _ W)).
  pose proof (number_units _ (wi_computeBudget _ W)). pose proof (amount_units _ (wi_sequence _ W)). pose proof (amount_units _ (wi_amount _ W)).
  assert (text_bound (jnullable (utxo_covenantId i)) <= 6 + 6 * 128) by (destruct (utxo_covenantId i); cbn [jnullable text_bound from_option id] in *; unfold id in *; lia).
  unfold safe_input. measure. change (js_length (toString 0)) with 1. lia.
Qed.
Lemma short_output o : wf_output o -> text_bound (safe_output o) <= 3000 + 6 * js_length (out_scriptPublicKey o).
Proof.
  intros W. pose proof (amount_units _ (wo_amount _ W)). unfold safe_output.
  destruct (covenant o) as [c|] eqn:E; [|measure; lia]. destruct (wo_covenant _ W c E) as [Ha Hc]. pose proof (sized_units _ _ Hc).
  pose proof (number_units _ Ha). measure. lia.
Qed.
Lemma render_readable j : readable j = true -> js_length (JSON_stringify j) <= text_bound j.
Proof. intros H. unfold JSON_stringify. rewrite serializable_readable by done. apply render_length. Qed.
Lemma short_text id t i1 i2 : wf_signed id t -> inputs t = [i1; i2] ->
  Forall (fun i => js_length (default "" (utxo_covenantId i)) <= 128 /\ js_length (in_signatureScript i) + js_length (utxo_scriptPublicKey i) <= 4000) [i1; i2] ->
  Forall (fun o => js_length (out_scriptPublicKey o) <= 200) (outputs t) -> js_length (subnetworkId t) <= 80 -> payload t = "" ->
  js_length (JSON_stringify (safe_transaction id t)) <= 131072.
Proof.
  intros W Hi Hin Hout Hs Hp. pose proof (render_readable _ (safe_transaction_readable _ _ W)) as Hr. etransitivity; [exact Hr|clear Hr].
  pose proof (sized_units _ _ (ws_id _ _ W)). pose proof (amount_units _ (ws_lockTime _ _ W)). pose proof (amount_units _ (ws_gas _ _ W)).
  pose proof (amount_units _ (ws_mass _ _ W)). destruct (ws_inputs _ _ W) as [Wi _]. destruct (ws_outputs _ _ W) as [Wo Lo].
  rewrite Hi in Wi. inversion Wi as [|? ? W1 W']; subst. inversion W' as [|? ? W2 _]; subst. inversion Hin as [|? ? [Hc1 Hs1] H']; subst.
  inversion H' as [|? ? [Hc2 Hs2] _]; subst. pose proof (short_input _ W1 Hc1). pose proof (short_input _ W2 Hc2).
  assert (text_bound (JArray (map safe_output (outputs t))) <= 9000) as Ho.
  { destruct (outputs t) as [|o1 [|o2 [|? ?]]]; cbn in Lo; [lia|..|lia]; inversion Wo as [|? ? V1 V']; subst; inversion Hout as [|? ? U1 U']; subst;
      pose proof (short_output _ V1); cbn [map]; measure; [lia|]. inversion V' as [|? ? V2 _]; subst. inversion U' as [|? ? U2 _]; subst.
    pose proof (short_output _ V2). lia. }
  unfold safe_transaction. rewrite Hi, Hp. cbn [map]. set (outs := map safe_output (outputs t)) in *. cbn [text_bound foldr fst snd] in *. measure.
  change (js_length (toString 1)) with 1. change (js_length "") with 0. lia.
Qed.

(** ** What a borrow witness holds *)

Lemma push_item_ok b p : push_item b = Ok p -> (length p <= length b + 3)%nat.
Proof.
  unfold push_item. cbv zeta. unfold concatBytes, bytes_of. repeat destruct (_ <=? _); intros H; inv_ok; cbn [map List.concat app length];
    rewrite ?app_nil_r; cbn [length]; lia.
Qed.
Lemma redeem_length lift_x s p : parseHashChainHeadRedeemScript lift_x s = Ok p -> length (hex_decode s) = 647%nat.
Proof.
  unfold parseHashChainHeadRedeemScript. intros H. apply bind_ok in H as ([] & _ & H). apply bind_ok in H as ([] & Hl%throw_if_ok & _).
  inv_bool. apply Nat.eqb_eq in Hl. rewrite Hl. reflexivity.
Qed.
Lemma signature_of_bytes b : length b = 64%nat -> is_signature (bytesToHex b) = true.
Proof. intros H. unfold is_signature. rewrite bytesToHex_length, H, lower_hex_hex by apply bytesToHex_lower. reflexivity. Qed.
Lemma borrow_witness_ok lift_x guard key signature redeem w : length signature = 64%nat ->
  buildHashChainBorrowSignatureScript lift_x {| bw_revealedGuard := guard; bw_oneTimePublicKey := key; bw_signature := bytesToHex signature;
    bw_sighashType := None; bw_redeemScript := redeem |} = Ok w ->
  exists rest, w = bytesToHex (borrow_items (hex_decode guard) (hex_decode key) signature (byte_of 1) ++ rest) /\
    length (hex_decode guard) = 32%nat /\ length (hex_decode key) = 32%nat /\ (length rest <= 660)%nat.
Proof.
  intros Hs H. unfold buildHashChainBorrowSignatureScript in H. cbn [bw_revealedGuard bw_oneTimePublicKey bw_signature bw_sighashType bw_redeemScript] in H.
  apply bind_ok in H as (p & Hp%redeem_length & H). apply bind_ok in H as ([] & _ & H). apply bind_ok in H as (g & [-> Hg]%fixedBytes_ok & H).
  apply bind_ok in H as (p1 & H1 & H). apply bind_ok in H as (k & [-> Hk]%fixedBytes_ok & H). apply bind_ok in H as (p2 & H2 & H).
  apply bind_ok in H as (ty & Ht%sighash_type_ok & H). apply bind_ok in H as (p3 & H3 & H). apply bind_ok in H as (p4 & H4 & H).
  apply bind_ok in H as (p5 & H5 & [= <-]). apply hash32_size in Hg, Hk. cbn [from_option id] in Ht. subst ty. rewrite hex_decode_bytesToHex in H3.
  rewrite push_short in H1, H2 by lia. rewrite push_short in H3 by (rewrite length_app, Hs; cbn; lia). rewrite push_short in H4 by (vm_compute; lia).
  apply push_item_ok in H5. exists (p4 ++ p5). split; [|split; [done|split; [done|]]].
  - f_equal. apply Ok_inj in H1, H2, H3. subst. unfold concatBytes, borrow_items. cbn [List.concat]. rewrite app_nil_r, <- !app_assoc.
    rewrite length_app, Hs, Hg, Hk. reflexivity.
  - apply Ok_inj in H4. subst p4. rewrite length_app. change (length (_ :: hex_decode borrow_selector)) with 5%nat. lia.
Qed.

(** ** The exchange *)

Lemma lower_hash_sized s : is_lower_hash32 s = true -> sized 32 s.
Proof.
  intros H. exists (hex_decode s). split; [|by apply hash32_size, lower_is_hash32]. unfold is_lower_hash32 in H.
  apply andb_true_iff in H as [Hl H]. rewrite bytesToHex_hex_decode; [by rewrite toLowerCase_lower|].
  apply Z.eqb_eq in H. unfold HEX_BYTE_PATTERN. by rewrite lower_hex_hex, H.
Qed.
Lemma positive_text_amount s n : positive_amount s n -> amount_text s.
Proof. intros (Hc & Hv & Hn). split; [done|lia]. Qed.
Lemma funding_script_text pub : length pub = 32%nat ->
  script_text ("000020" +:+ bytesToHex pub +:+ "ac") /\ js_length ("000020" +:+ bytesToHex pub +:+ "ac") <= 148.
Proof.
  intros H. split.
  - exists (byte_of 32 :: pub ++ [byte_of 172]). split; [|done].
    change (byte_of 32 :: pub ++ [byte_of 172]) with ([byte_of 32] ++ pub ++ [byte_of 172]). by rewrite !hex_app.
  - rewrite !js_length_app. pose proof (text_units (bytesToHex pub)) as Hu. rewrite bytesToHex_length, H in Hu.
    change (js_length "000020") with 6. change (js_length "ac") with 2. lia.
Qed.
Lemma script_text_canonical s : script_text s -> canonical_hex s.
Proof. intros (b & -> & _). apply head_script_canonical. Qed.

Section Exchange.
Context (sha256 blake3 blake2b : bytes -> bytes) (blake2b_keyed blake3_keyed : bytes -> bytes -> bytes).
Context (getPublicKey : bytes -> result bytes) (lift_x : bytes -> result ()).
Context (schnorr_sign : bytes -> bytes -> option bytes -> result bytes) (schnorr_verify : bytes -> bytes -> bytes -> result bool).
Context (other_bigints : string -> result Z) (other_numbers : string -> jsnumber) (other_dates : string -> option Z).
#[local] Abbreviation sign :=
  (signHashChainExactTransaction sha256 blake3 blake2b blake2b_keyed blake3_keyed getPublicKey lift_x schnorr_sign other_numbers).
#[local] Abbreviation validate :=
  (locallyValidateHashChainPayment sha256 blake3 blake2b blake2b_keyed blake3_keyed lift_x schnorr_verify other_bigints other_numbers other_dates).
#[local] Abbreviation verify :=
  (verifyExactPayment sha256 blake3 blake2b blake2b_keyed blake3_keyed lift_x schnorr_verify other_bigints other_numbers other_dates).
#[local] Abbreviation signing :=
  (signing sha256 blake3 blake2b blake2b_keyed blake3_keyed getPublicKey lift_x schnorr_sign).

(** BIP-340 and the digests: sizes, and that a signature verifies under its key *)
Record cryptography : Prop := {
  cr_blake2b : forall x, length (blake2b x) = 32%nat;
  cr_blake3 : forall k x, length (blake3_keyed k x) = 32%nat;
  cr_key : forall k p, getPublicKey k = Ok p -> length p = 32%nat;
  cr_signature : forall m k aux s, schnorr_sign m k aux = Ok s -> length s = 64%nat;
  cr_verifies : forall m k aux s p, schnorr_sign m k aux = Ok s -> getPublicKey k = Ok p -> schnorr_verify s m p = Ok true
}.
(** A challenge as the server advertises it: a covenant id and an outpoint in lower case *)
Record advertised (head : HashChainHeadChallenge) : Prop := {
  ad_covenantId : is_lower_hash32 (hc_covenantId head) = true /\ is_zero64 (hc_covenantId head) = false;
  ad_outpoint : is_lower_hash32 (txid (hc_expectedHeadOutpoint head)) = true /\ index (hc_expectedHeadOutpoint head) = 0
}.
Definition sound_outpoint (o : FundingOutpoint) : Prop := is_lower_hash32 (txid o) = true /\ 0 <= index o <= U32_MAX.

Context (Hcrypto : cryptography).
Context (payment : HashChainPaymentRequest) (head : HashChainHeadChallenge) (url : string) (funding : HashChainPayerFundingInput)
  (aux : option bytes) (v : signing_values) (r : ExactTransactionPaymentResult).
Context (Hsigned : signing payment (client_head head url) funding aux v r) (Hhead : advertised head) (Hfunding : sound_outpoint (fi_outpoint funding)).
#[local] Abbreviation chead := (client_head head url).
#[local] Abbreviation t := (signed_transaction chead funding v).
#[local] Abbreviation unsigned := (unsigned_transaction chead funding v).

Lemma id_sized x : transactionV1Id blake2b_keyed blake3_keyed x = Ok (er_transactionId r) -> sized 32 (er_transactionId r).
Proof using Hcrypto.
  unfold transactionV1Id, buildDigestDebug. intros H. apply bind_ok in H as (d & Hd & [= <-]). do 6 apply bind_ok in Hd as (? & _ & Hd).
  injection Hd as <-. eexists. split; [reflexivity|]. apply Hcrypto.
Qed.
Lemma witnesses_ok : exists rest,
  sv_headWitness v = bytesToHex (borrow_items (hex_decode (hc_nextGuard head)) (sv_oneTimeKey v) (sv_headSignature v) (byte_of 1) ++ rest) /\
  length (hex_decode (hc_nextGuard head)) = 32%nat /\ length (sv_oneTimeKey v) = 32%nat /\ length (sv_headSignature v) = 64%nat /\
  (length rest <= 660)%nat.
Proof using Hsigned Hcrypto.
  destruct Hsigned. destruct sn_headSigned0 as [_ Hs]. apply (cr_signature Hcrypto) in Hs.
  apply borrow_witness_ok in sn_headWitness0 as (rest & Hw & Hg & Hk & Hr); [|done].
  destruct sn_oneTimeKey0 as (_ & _ & Ek). cbn [client_head ch_oneTimePublicKey ch_nextGuard] in *.
  rewrite Ek, hex_decode_bytesToHex in Hw, Hk. exists rest. done.
Qed.
Lemma payer_witness_ok : canonical_hex (sv_payerWitness v) /\ js_length (sv_payerWitness v) <= 300.
Proof using Hsigned.
  destruct Hsigned. unfold buildTxV1P2pkSignatureScript in sn_payerWitness0.
  apply bind_ok in sn_payerWitness0 as (raw & [Hraw _]%signature_bytes & H). apply bind_ok in H as (flag & _ & H%Ok_inj). rewrite <- H.
  split; [by eexists|]. pose proof (text_units (bytesToHex (concatBytes [bytes_of [65]; raw; bytes_of [flag]]))) as Hu.
  rewrite bytesToHex_length in Hu. destruct (push_lookup raw flag Hraw) as (_ & _ & _ & Hl). rewrite Hl in Hu. lia.
Qed.
Lemma head_witness_text : canonical_hex (sv_headWitness v) /\ js_length (sv_headWitness v) <= 3200.
Proof using Hsigned Hcrypto.
  destruct witnesses_ok as (rest & -> & Hg & Hk & Hs & Hr). split; [by eexists|].
  match goal with |- context [bytesToHex ?b] => pose proof (text_units (bytesToHex b)) as Hu; rewrite bytesToHex_length in Hu;
    assert (length b <= 800)%nat end; [|lia].
  unfold borrow_items. rewrite !length_app. cbn [length]. rewrite length_app, Hg, Hk, Hs. cbn [length]. lia.
Qed.
(** The scripts that the signer checked are P2SH and P2PK scripts in lower case. *)
Lemma scripts_ok :
  (script_text (hc_headScriptPublicKey head) /\ js_length (hc_headScriptPublicKey head) <= 200) /\
  (script_text (pr_payToScriptPublicKey payment) /\ js_length (pr_payToScriptPublicKey payment) <= 200) /\
  (script_text (fi_scriptPublicKey funding) /\ js_length (fi_scriptPublicKey funding) <= 200).
Proof using Hsigned Hcrypto.
  assert (forall p s, hashChainHeadScriptPublicKey blake2b lift_x p = Ok s -> script_text s /\ js_length s <= 200) as H.
  { intros p s (h & -> & Hh)%(head_script_text _ _ (cr_blake2b Hcrypto)). split; [by eexists|]. rewrite js_length_app.
    match goal with |- context [bytesToHex ?b] => pose proof (text_units (bytesToHex b)) as Hu end. rewrite bytesToHex_length, !length_app, Hh in Hu.
    change (js_length "0000") with 4. cbn [length] in Hu. lia. }
  destruct Hsigned. destruct sn_scripts0 as (_ & H1 & H2). destruct sn_payer0 as (_ & Hp & ->).
  split; [exact (H _ _ H1)|]. split; [exact (H _ _ H2)|]. destruct (funding_script_text _ (cr_key Hcrypto _ _ Hp)). split; [done|lia].
Qed.
Lemma signed_wf : wf_signed (er_transactionId r) t.
Proof using Hsigned Hcrypto Hhead Hfunding.
  pose proof scripts_ok as ([Hsh _] & [Hsp _] & [Hsf _]). pose proof head_witness_text as [Hhw _]. pose proof payer_witness_ok as [Hpw _].
  destruct Hhead as [[Hc _] [Ho Hoi]]. destruct Hfunding as [Hft Hfi]. destruct Hsigned. destruct sn_amounts0 as (Ha & Hha & Hfa & Hfee).
  assert (amount_text "0") as H0 by (split; [reflexivity|by vm_compute]). destruct sn_mass0 as [_ Hm].
  split; unfold signed_transaction, signer_transaction; cbn [inputs outputs lockTime subnetworkId gas payload mass].
  - by eapply id_sized.
  - split; [|cbn; lia]. unfold signer_inputs. constructor; [|constructor; [|constructor]]; split; cbn - [U32_MAX U64_MAX]; try done;
      try (by apply lower_hash_sized); try (by eapply positive_text_amount); try lia.
  - cbn. apply NoDup_cons. split; [|apply NoDup_singleton]. intros E%list_elem_of_singleton. by apply sn_distinct0.
  - assert (forall c, Some {| authorizingInput := 0; cb_covenantId := hc_covenantId head |} = Some c ->
      0 <= authorizingInput c <= U32_MAX /\ sized 32 (cb_covenantId c)) as Hbind by (intros c [= <-]; split; [by cbn|by apply lower_hash_sized]).
    destruct Ha as (_ & _ & Ha), Hha as (_ & _ & Hha), Hfa as (_ & _ & Hfa).
    assert (wf_output (successor_output payment chead (sv_headAmount v + sv_amount v))) as Wo by (split; [apply amount_of_number; lia|done|exact Hbind]).
    destruct sn_outputs0 as [[-> Hch]|[-> _]]; (split; [|cbn; lia]); (constructor; [exact Wo|]); [|constructor].
    constructor; [|constructor]. split; [apply amount_of_number; lia|done|intros c E; discriminate E].
  - exact H0.
  - by exists (repeat (byte_of 0) 20).
  - exact H0.
  - by exists [].
  - apply amount_of_number. assert (MAX_STORAGE_MASS <= U64_MAX) by done. lia.
Qed.

(** *** The verifier's checks *)

Lemma parsed_ok : parseArtifact other_numbers (er_transaction r) = Ok (parsed_artifact (er_transactionId r) t).
Proof using Hsigned Hcrypto Hhead Hfunding.
  pose proof signed_wf as W. pose proof scripts_ok as ([_ Lh] & [_ Lp] & [_ Lf]). pose proof head_witness_text as [_ Lw].
  pose proof payer_witness_ok as [_ Lpw]. destruct Hsigned. destruct sn_result0 as (-> & _). apply signed_text_read_back; [exact W|].
  eapply short_text; [exact W|reflexivity|..].
  - constructor; [|constructor; [|constructor]]; cbn; (split; [|lia]); [|done].
    destruct Hhead as [[Hc _] _]. apply lower_hash_sized, sized_units in Hc. lia.
  - unfold signed_transaction. cbn [outputs signer_transaction]. destruct sn_outputs0 as [[-> _]|[-> _]]; repeat constructor; cbn; lia.
  - by vm_compute.
  - reflexivity.
Qed.
Lemma reference_ok : reference_transaction head (parsed_artifact (er_transactionId r) t) = t.
Proof using. reflexivity. Qed.

Context (finality : string).
#[local] Abbreviation request := (verification_request payment head r finality).
Definition spent_head : ParsedInput := {|
  pin_previousOutpoint := hc_expectedHeadOutpoint head; pin_signatureScript := sv_headWitness v; pin_sequence := "0"; pin_computeBudget := 10;
  hintedAmount := hc_headAmount head; hintedScript := hc_headScriptPublicKey head |}.
#[local] Abbreviation successor := (successor_output payment chead (sv_headAmount v + sv_amount v)).

Lemma profile_checked : check_profile request = Ok head.
Proof using Hsigned.
  destruct Hsigned. destruct sn_profile0 as [Hn Hp], sn_result0 as (_ & He & Hi & _). unfold check_profile, verification_request.
  cbn [vr_hashChainHead vr_network vr_profile vr_paymentOutputIndex vr_transactionEncoding]. rewrite Hn, Hp, He, Hi. reflexivity.
Qed.
Lemma head_checked : check_head blake3 blake2b lift_x request head = Ok (pr_payToScriptPublicKey payment).
Proof using Hsigned Hcrypto Hhead.
  pose proof scripts_ok as (_ & [Ht _] & _). apply script_text_canonical, canonical_lower_case in Ht.
  destruct Hhead as [[Hc Hz] [_ Hi]]. destruct Hsigned. destruct sn_scripts0 as (H1 & H2 & H3). cbn [client_head ch_nextGuard ch_oneTimePublicKey
    ch_currentGuard ch_headRedeemScript ch_headScriptPublicKey] in *.
  unfold check_head. rewrite Hc, Hz, Hi, sn_guard0. cbn [negb orb Z.eqb or_else mbind result_bind].
  rewrite bool_decide_eq_true_2 by done. cbn [negb throw_if mbind result_bind]. rewrite H1. cbn [mbind result_bind hp_ownerPublicKey hp_guard].
  rewrite H3. cbn [mbind result_bind]. unfold or_else. cbn [mbind result_bind]. rewrite bool_decide_eq_true_2 by done. cbn [negb].
  rewrite H2. cbn [mbind result_bind]. unfold verification_request. cbn [vr_payToScriptPublicKey]. rewrite Ht.
  rewrite !bool_decide_eq_true_2 by done. reflexivity.
Qed.
Lemma amount_read s n : positive_amount s n -> BigInt_of other_bigints s = Ok n.
Proof using. intros (Hc & <- & _). unfold BigInt_of. by rewrite Hc. Qed.
Lemma artifact_checked n : 2 <= n -> check_artifact other_bigints request head (pr_payToScriptPublicKey payment)
  (parsed_artifact (er_transactionId r) t) n = Ok (spent_head, successor).
Proof using Hsigned Hhead.
  intros Hn. destruct Hhead as [_ [_ Hi]]. destruct Hsigned. destruct sn_amounts0 as (Ha & Hha & _), sn_covered0 as [Hc _].
  assert (exists change, sv_outputs v = successor :: change /\ (length change <= 1)%nat /\
    match change !! 0%nat with Some c => isSome (covenant c) | None => false end = false) as (change & Ho & Hl & Hch).
  { destruct sn_outputs0 as [[-> _]|[-> _]]; eexists; (split; [reflexivity|]); (split; [cbn; lia|done]). }
  unfold check_artifact, signed_transaction, parsed_artifact, signer_transaction, signer_inputs.
  cbn [art_inputs art_outputs art_version art_lockTime art_subnetworkId art_gas art_payload inputs outputs lockTime subnetworkId gas payload map length].
  rewrite Ho. eapply bind_step; [apply (throw_if_ok _ _ tt), Z.ltb_ge; cbn [map length]; lia|]. cbn beta.
  eapply bind_step.
  { apply (throw_if_ok _ _ tt). rewrite !bool_decide_eq_true_2 by done. cbn [negb orb length Z.eqb Pos.eqb Nat.ltb Nat.leb].
    destruct change as [|? [|? ?]]; cbn in *; [done|done|lia]. }
  eapply bind_step.
  { apply (throw_if_ok _ _ tt). cbn. rewrite !bool_decide_eq_true_2 by done. rewrite Hi. done. }
  eapply bind_step; [reflexivity|]. eapply bind_step; [by apply amount_read|]. eapply bind_step; [by apply amount_read|].
  eapply bind_step; [|reflexivity]. apply (throw_if_ok _ _ tt). cbn [out_amount out_scriptPublicKey covenant successor_output].
  rewrite !bool_decide_eq_true_2 by done. change ((successor :: change) !! 1%nat) with (change !! 0%nat). rewrite Hch.
  replace (U64_MAX <? _) with false by lia. reflexivity.
Qed.

(** The sighash of the signed transaction is that of the unsigned one. *)
Lemma same_sighash i ty : transactionV1Sighash blake2b_keyed t i ty = transactionV1Sighash blake2b_keyed unsigned i ty.
Proof using. apply sighash_without_witness. Qed.
Lemma signature_verifies d k s p : schnorr_sign (Buffer_from_hex d) k aux = Ok s -> getPublicKey k = Ok p ->
  signature_fails schnorr_verify (bytesToHex s) d (bytesToHex p) = Ok false.
Proof using Hcrypto.
  intros Hs Hp. unfold signature_fails. rewrite !Buffer_of_hex, (cr_verifies Hcrypto _ _ _ _ _ Hs Hp). reflexivity.
Qed.
Lemma head_witness_checked : check_head_witness blake2b_keyed lift_x schnorr_verify head t spent_head = Ok tt.
Proof using Hsigned Hcrypto.
  destruct witnesses_ok as (rest & Hw & Hg & Hk & Hs & _). destruct (borrow_items_read _ _ _ (byte_of 1) rest Hg Hk Hs) as (L66 & L131 & Lt).
  destruct Hsigned. destruct sn_headSigned0 as [Hd Hsig], sn_oneTimeKey0 as (_ & Hp & Ek). cbn [client_head ch_oneTimePublicKey ch_nextGuard ch_headRedeemScript] in *.
  unfold check_head_witness. cbn [spent_head pin_signatureScript]. cbv zeta.
  assert (hex_decode (sv_headWitness v) = borrow_items (hex_decode (hc_nextGuard head)) (sv_oneTimeKey v) (sv_headSignature v) (byte_of 1) ++ rest) as ->
    by (rewrite Hw; apply hex_decode_bytesToHex). rewrite L66, L131, Lt.
  rewrite bool_decide_eq_true_2 by done. eapply bind_step; [reflexivity|]. eapply bind_step; [reflexivity|].
  eapply (bind_step _ _ false); [|reflexivity]. apply or_else_false. change (code (byte_of 1)) with 1. split.
  - eapply bind_step; [exact sn_headWitness0|]. cbv beta. rewrite bool_decide_eq_true_2 by done. reflexivity.
  - eapply bind_step; [rewrite same_sighash; exact Hd|]. rewrite Ek. exact (signature_verifies _ _ _ _ Hsig Hp).
Qed.
Lemma payer_checked : fold_result (check_payer_input blake2b_keyed schnorr_verify t) [1%nat] [] = Ok [(1, bytesToHex (sv_payerPublicKey v))].
Proof using Hsigned Hcrypto.
  destruct Hsigned. destruct sn_payerSigned0 as [Hd Hsig], sn_payer0 as (_ & Hp & Hspk).
  pose proof (cr_key Hcrypto _ _ Hp) as Hl. rewrite <- same_sighash in Hd.
  destruct (p2pk_evidence_roundtrip blake2b_keyed t 1 _ (Hex (bytesToHex (sv_payerSignature v))) None (sv_payerWitness v) (bytesToHex (sv_payerPublicKey v))
    (sv_payerDigest v) eq_refl) as [He _]; [by eexists|exact Hspk|done|done|exact Hd|].
  cbn [fold_result]. eapply bind_step; [|reflexivity]. unfold check_payer_input. eapply bind_step; [exact He|].
  cbn [ev_signature ev_digest ev_publicKey]. rewrite toLowerCase_hex. eapply bind_step; [exact (signature_verifies _ _ _ _ Hsig Hp)|]. reflexivity.
Qed.

Context (Hdate : is_Some (Date_parse other_dates (pr_authorizationExpiresAt payment))).
Lemma authorization_checked : check_authorization sha256 schnorr_verify other_dates request head (er_transactionId r) [(1, bytesToHex (sv_payerPublicKey v))]
  = Ok (bytesToHex (sv_payerPublicKey v), sv_digest v).
Proof using Hsigned Hcrypto Hdate.
  destruct Hsigned. destruct sn_digest0 as [Hd Hsig], sn_payer0 as (_ & Hp & _), sn_result0 as (_ & _ & _ & Ha).
  assert (toLowerCase (sv_digest v) = sv_digest v) as Hl.
  { unfold exactRequestAuthorizationDigest in Hd. apply fmap_ok in Hd as (x & _ & E). rewrite E. apply toLowerCase_hex. }
  unfold check_authorization, verification_request. cbn [vr_authorization]. rewrite Ha. cbn [xa_inputIndex xa_version xa_expiresAt xa_digest xa_signature].
  cbv zeta. change (map_get 1 [(1, bytesToHex (sv_payerPublicKey v))]) with (Some (bytesToHex (sv_payerPublicKey v))). eapply bind_step.
  { apply (throw_if_ok _ _ tt). destruct Hdate as [d ->]. rewrite bool_decide_eq_false_2; [by rewrite bool_decide_eq_true_2|].
    pose proof (cr_key Hcrypto _ _ Hp) as Hk. destruct (sv_payerPublicKey v); [done|discriminate]. }
  eapply bind_step; [exact Hd|]. cbv beta. eapply (bind_step _ _ false); [|reflexivity].
  apply or_else_false. split; [by rewrite Hl, bool_decide_eq_true_2|]. exact (signature_verifies _ _ _ _ Hsig Hp).
Qed.
Lemma id_checked : transactionV1Id blake2b_keyed blake3_keyed (reference_transaction head (parsed_artifact (er_transactionId r) t)) = Ok (er_transactionId r).
Proof using Hsigned. rewrite reference_ok. by destruct Hsigned. Qed.
Definition validated : LocallyValidatedHashChainPayment := {|
  lv_head := head; lv_artifact := parsed_artifact (er_transactionId r) t; lv_reference := t; lv_transactionId := er_transactionId r;
  lv_output := successor; lv_payerScripts := [fi_scriptPublicKey funding]; lv_authorization := er_authorization r;
  lv_publicKey := bytesToHex (sv_payerPublicKey v); lv_digest := sv_digest v |}.
Lemma validate_complete n : 2 <= n -> validate request n = Ok validated.
Proof using Hsigned Hcrypto Hhead Hfunding Hdate.
  intros Hn. unfold locallyValidateHashChainPayment. cbv zeta. eapply bind_step; [exact profile_checked|]. cbv beta.
  eapply bind_step; [exact head_checked|]. cbv beta. eapply bind_step; [exact parsed_ok|]. cbv beta. eapply bind_step; [exact (artifact_checked n Hn)|].
  cbv beta iota. eapply bind_step; [exact id_checked|]. cbv beta. eapply bind_step; [by apply (throw_if_ok _ _ tt); rewrite bool_decide_eq_true_2|].
  eapply bind_step; [exact head_witness_checked|]. eapply bind_step; [exact payer_checked|]. eapply bind_step; [exact authorization_checked|]. reflexivity.
Qed.

(** *** The outputs on the selected chain *)

(** What the chain view reports: the head and the funding output, and no spender yet *)
Record observed (chain : HashChainChainView) : Prop := {
  ob_origins : getAcceptedOrigins chain [hc_expectedHeadOutpoint head; fi_outpoint funding] =
    Ok [Some {| to_amount := hc_headAmount head; to_scriptPublicKey := hc_headScriptPublicKey head; to_covenantId := Some (hc_covenantId head) |};
        Some {| to_amount := fi_amount funding; to_scriptPublicKey := fi_scriptPublicKey funding; to_covenantId := None |}];
  ob_selected : forall id, getSelectedTransaction chain id = Ok None
}.
#[local] Abbreviation origins := [
  {| to_amount := hc_headAmount head; to_scriptPublicKey := hc_headScriptPublicKey head; to_covenantId := Some (hc_covenantId head) |};
  {| to_amount := fi_amount funding; to_scriptPublicKey := fi_scriptPublicKey funding; to_covenantId := None |}].
Lemma origins_checked : check_origins (art_inputs (parsed_artifact (er_transactionId r) t)) (map Some origins) = Ok origins.
Proof using Hsigned Hcrypto Hhead.
  pose proof scripts_ok as ([Hh _] & _ & [Hf _]). apply script_text_canonical, canonical_lower_case in Hh, Hf. destruct Hhead as [[Hc _] _].
  apply lower_hash_sized, sized_canonical, canonical_lower_case in Hc.
  cbn. rewrite Hh, Hf, Hc, !bool_decide_eq_true_2 by done. reflexivity.
Qed.
Lemma value_checked verifier : MAX_FEE <= hv_maxFeeSompi verifier -> check_value other_bigints verifier validated origins = Ok tt.
Proof using Hsigned.
  intros Hfee. destruct Hsigned. destruct sn_amounts0 as (Ha & Hha & Hfa & Ht), sn_covered0 as [Hc1 Hc2], sn_mass0 as [Hm Hmb].
  assert (0 < sv_amount v) as Hpos by apply Ha.
  assert (forall n, 0 <= n -> BigInt_of other_bigints (toString n) = Ok n) as Hnum.
  { intros n Hn. unfold BigInt_of. by destruct (toString_spec n Hn) as [-> ->]. }
  unfold check_value. cbv zeta. change (lv_artifact validated) with (parsed_artifact (er_transactionId r) t).
  change (art_outputs (parsed_artifact (er_transactionId r) t)) with (sv_outputs v).
  change (art_storageMass (parsed_artifact (er_transactionId r) t)) with (toString (sv_mass v)).
  change (lv_payerScripts validated) with [fi_scriptPublicKey funding]. change (lv_head validated) with head.
  eapply bind_step; [apply (throw_if_ok _ _ tt); cbn; by rewrite bool_decide_eq_true_2|].
  set (change := sv_fundingAmount v - sv_amount v - sv_targetFee v) in *.
  eapply bind_step.
  { apply (throw_if_ok _ _ tt). destruct sn_outputs0 as [[-> _]|[-> _]]; [|done]. cbn. by rewrite String.eqb_refl. }
  eapply (bind_step _ _ (sv_headAmount v + sv_fundingAmount v)).
  { cbn [map to_amount fold_result]. unfold add_amount. cbn [client_head ch_headAmount] in Hha. rewrite (amount_read _ _ Hha), (amount_read _ _ Hfa). cbn [mbind result_bind]. f_equal. }
  assert (exists paid, fold_result (add_amount other_bigints) (map out_amount (sv_outputs v)) 0 = Ok paid /\
    0 <= sv_headAmount v + sv_fundingAmount v - paid <= MAX_FEE) as (paid & Hpaid & Hf).
  { destruct Ha as (_ & _ & Ha), Hha as (_ & _ & Hha). destruct sn_outputs0 as [[-> Hch]|[-> Hch]]; eexists; cbn [map fold_result successor_output change_output out_amount];
      unfold add_amount; rewrite !Hnum by lia; (split; [reflexivity|]); lia. }
  eapply bind_step; [exact Hpaid|]. eapply bind_step; [apply (throw_if_ok _ _ tt); lia|].
  eapply bind_step; [exact Hm|]. eapply bind_step; [apply Hnum; lia|]. apply throw_if_ok. lia.
Qed.

Lemma verify_complete calls verifier object fingerprint id :
  hv_network verifier = pr_network payment -> MAX_FEE <= hv_maxFeeSompi verifier -> 2 <= hv_maxInputs verifier -> observed (hv_chain verifier) ->
  localValidationFingerprint request = Ok fingerprint -> exactRequestAuthorizationId sha256 (er_authorization r) = Ok id ->
  verify verifier (authenticate_all sha256 blake3 blake2b blake2b_keyed blake3_keyed lift_x schnorr_verify other_bigints other_numbers other_dates calls ∅)
    object request =
  Ok {| xv_transactionId := er_transactionId r; xv_amount := pr_amount payment; xv_scriptPublicKey := pr_payToScriptPublicKey payment;
        xv_address := pr_payTo payment; xv_outpoint := Outpoint (er_transactionId r) 0;
        xv_continuationAmount := toString (sv_headAmount v + sv_amount v);
        xv_continuationScriptPublicKey := pr_payToScriptPublicKey payment; xv_authorizationId := id;
        xv_digest := xa_digest (er_authorization r); xv_inputIndex := 1; xv_publicKey := bytesToHex (sv_payerPublicKey v); xv_finality := None |}.
Proof using Hsigned Hcrypto Hhead Hfunding Hdate.
  intros Hn Hfee Hmax [Ho Hsel] Hf Hid. unfold verifyExactPayment. eapply bind_step.
  { apply (throw_if_ok _ _ tt). unfold verification_request. cbn [vr_network]. by rewrite Hn, bool_decide_eq_true_2. }
  rewrite validation_authentic by (apply authenticate_all_authentic; intros ? ?; done).
  eapply bind_step; [eapply bind_step; [exact Hf|exact (validate_complete _ Hmax)]|]. cbv beta zeta.
  eapply bind_step; [exact Ho|]. eapply bind_step; [reflexivity|]. eapply bind_step; [exact origins_checked|].
  eapply bind_step; [exact (value_checked _ Hfee)|]. eapply bind_step; [apply Hsel|]. eapply bind_step; [reflexivity|].
  eapply bind_step; [exact Hid|]. destruct Hsigned. destruct sn_result0 as (_ & _ & _ & Ha). unfold validated. cbn. by rewrite Ha.
Qed.
End Exchange.

(** C20. What the client signs, the server accepts.
    Take a challenge that the server advertises, a payment request of the client for it, and a
    funding output of the payer.  Whenever the client's signer succeeds on them, a verifier
    of the request's network that allows the signer's fee ceiling accepts the result, after
    any authentications, as long as the selected chain reports the head and the funding output
    as advertised and no spender yet, the deadline is a date, and the request is within the
    budget of canonical JSON.  It reports the signer's transaction id, as the new head outpoint
    the first output with the head's amount plus the payment's, and the payer's key and
    digest. *)
Theorem signed_payment_verified sha256 blake3 blake2b blake2b_keyed blake3_keyed getPublicKey lift_x schnorr_sign schnorr_verify
    other_bigints other_numbers other_dates payment head url funding feeSompi aux signed finality verifier calls object fingerprint id :
  let request := verification_request payment head signed finality in
  cryptography blake2b blake3_keyed getPublicKey schnorr_sign schnorr_verify ->
  advertised head -> pr_hashChainHead payment = Some (client_head head url) -> sound_outpoint (fi_outpoint funding) ->
  signHashChainExactTransaction sha256 blake3 blake2b blake2b_keyed blake3_keyed getPublicKey lift_x schnorr_sign other_numbers
    payment funding feeSompi aux = Ok signed ->
  is_Some (Date_parse other_dates (pr_authorizationExpiresAt payment)) ->
  hv_network verifier = pr_network payment -> MAX_FEE <= hv_maxFeeSompi verifier -> 2 <= hv_maxInputs verifier ->
  observed head funding (hv_chain verifier) ->
  localValidationFingerprint request = Ok fingerprint -> exactRequestAuthorizationId sha256 (er_authorization signed) = Ok id ->
  exists key, getPublicKey (hex_decode (fi_privateKey funding)) = Ok key /\
    verifyExactPayment sha256 blake3 blake2b blake2b_keyed blake3_keyed lift_x schnorr_verify other_bigints other_numbers other_dates verifier
      (authenticate_all sha256 blake3 blake2b blake2b_keyed blake3_keyed lift_x schnorr_verify other_bigints other_numbers other_dates calls ∅)
      object request =
    Ok {| xv_transactionId := er_transactionId signed; xv_amount := pr_amount payment; xv_scriptPublicKey := pr_payToScriptPublicKey payment;
          xv_address := pr_payTo payment; xv_outpoint := Outpoint (er_transactionId signed) 0;
          xv_continuationAmount := toString (dec_value (hc_headAmount head) + dec_value (pr_amount payment));
          xv_continuationScriptPublicKey := pr_payToScriptPublicKey payment; xv_authorizationId := id;
          xv_digest := xa_digest (er_authorization signed); xv_inputIndex := 1; xv_publicKey := bytesToHex key; xv_finality := None |}.
Proof.
  cbv zeta. intros Hcrypto Hhead Hp Hf Hs Hdate Hn Hfee Hmax Ho Hfp Hid. destruct (sign_ok _ _ _ _ _ _ _ _ _ _ _ _ _ _ Hs) as (chead & v & S).
  assert (chead = client_head head url) as -> by (destruct S; congruence).
  exists (sv_payerPublicKey v). split; [by destruct S as [? ? ? ? ? (_ & ? & _)]|].
  rewrite (verify_complete sha256 blake3 blake2b blake2b_keyed blake3_keyed getPublicKey lift_x schnorr_sign schnorr_verify other_bigints other_numbers
    other_dates Hcrypto payment head url funding aux v signed S Hhead Hf finality Hdate calls verifier object fingerprint id); try assumption.
  destruct S as [? ? ? ? ? ? ((_ & <- & _) & (_ & <- & _) & _)]. reflexivity.
Qed.

(** ** A concrete exchange *)

Module SampleExchange.
Import SampleArtifacts SamplePayment.

Lemma toy_cryptography : cryptography toy_sha256 keyed toy_key toy_sign toy_verify.
Proof.
  assert (forall m k, length (toy_signature m k) = 64%nat) as H by (intros; unfold toy_signature; by rewrite length_app, !toy_sha256_length).
  split; intros; [apply toy_sha256_length..| | |]; unfold toy_key, toy_sign, toy_verify in *; simplify_eq;
    [apply toy_sha256_length|apply H|by rewrite bool_decide_eq_true_2].
Qed.
Lemma sample_inputs : exists signed fingerprint id, sample_signed = Ok signed /\
  localValidationFingerprint (sample_request signed) = Ok fingerprint /\ exactRequestAuthorizationId toy_sha256 (er_authorization signed) = Ok id.
Proof.
  assert (is_ok (signed ← sample_signed; _ ← localValidationFingerprint (sample_request signed);
    exactRequestAuthorizationId toy_sha256 (er_authorization signed)) = true) as V by (vm_compute; reflexivity).
  apply is_ok_value in V as [id V]. apply bind_ok in V as (signed & Hs & V).
  apply bind_ok in V as (fingerprint & Hf & V). exists signed, fingerprint, id. split; [exact Hs|]. split; [exact Hf|exact V].
Qed.
Definition the_verifier : HashChainExactTransactionVerifier := {|
  hv_chain := sample_chain; hv_maxFeeSompi := MAX_FEE; hv_maxInputs := 8; hv_network := "kaspa:testnet-10" |}.
Lemma the_verifier_constructed : sample_verifier = Ok the_verifier.
Proof. reflexivity. Qed.
Lemma signed_payment_verified_witness : exists signed result, sample_signed = Ok signed /\ sample_verifier = Ok the_verifier /\
  verifyExactPayment toy_sha256 toy_sha256 toy_sha256 keyed keyed (fun _ => Ok tt) toy_verify no_bigints no_numbers no_dates the_verifier
    (authenticate_all toy_sha256 toy_sha256 toy_sha256 keyed keyed (fun _ => Ok tt) toy_verify no_bigints no_numbers no_dates [] ∅) 7
    (sample_request signed) = Ok result /\ xv_transactionId result = er_transactionId signed /\ xv_continuationAmount result = "10250000000".
Proof.
  destruct sample_inputs as (signed & fingerprint & id & Hs & Hf & Hid).
  assert (advertised sample_head) as Hhead by (split; (split; vm_compute; reflexivity)).
  assert (sound_outpoint (fi_outpoint sample_funding)) as Hfunding by (split; [vm_compute; reflexivity|cbn; unfold U32_MAX; lia]).
  assert (is_Some (Date_parse no_dates "2024-02-29T23:59:59.999Z")) as Hdate by (eexists; vm_compute; reflexivity).
  assert (observed sample_head sample_funding sample_chain) as Hchain by (split; reflexivity).
  destruct (signed_payment_verified toy_sha256 toy_sha256 toy_sha256 keyed keyed toy_key (fun _ => Ok tt) toy_sign toy_verify no_bigints no_numbers
    no_dates (sample_payment sample_client_head) sample_head "https://example.test/grant" sample_funding "20000" None signed "accepted" the_verifier [] 7
    fingerprint id toy_cryptography Hhead eq_refl Hfunding Hs Hdate eq_refl (Z.le_refl _) ltac:(cbn; lia) Hchain Hf Hid) as (key & _ & H).
  eexists signed, _. split; [exact Hs|]. split; [exact the_verifier_constructed|]. split; [exact H|]. split; [reflexivity|vm_compute; reflexivity].
Defined.
End SampleExchange.
