(* ===== verification/ClientStore.v ===== *)
(** * Client channels and payment attempts

    Models the records of [protocol/packages/client/src/types.ts] that the client's channel
    store keeps, and the checks of [channel-store.ts] that relate them: channel snapshots,
    lineage consistency, funding, refund and exact attempts.  The store itself is in
    ClientStoreOps.v.  [new URL] is a parameter. *)

From S2P Require Import Prelude Amount Json Binary ResourceBudget Commitment ChainTruth Template Channels.

(** ** Records *)

Inductive ChannelStatus := dc_active | dc_retired | dc_refundable | dc_refunded | dc_suspicious.
#[export] Instance client_status_eq_dec : EqDecision ChannelStatus.
Proof. solve_decision. Defined.
Definition client_status_text (s : ChannelStatus) : string :=
  match s with
  | dc_active => "active" | dc_retired => "retired" | dc_refundable => "refundable"
  | dc_refunded => "refunded" | dc_suspicious => "suspicious"
  end.

(** The client's genesis evidence has the fields of the server's. *)
Definition CovenantGenesisEvidence : Type := CovenantGenesisVerification.
Record CovenantTopUpEvidence := {
  te_covenantId : string;
  te_spentOutpoint : FundingOutpoint;
  te_successorOutpoint : FundingOutpoint;
  te_successorScriptPublicKey : string;
  te_successorAmount : string;
  te_authorizedSuccessorCount : Z;
  te_authorizingInput : Z;
  te_acceptance : AcceptedTransactionEvidence
}.
Record DirectModeChannel := {
  dc_id : string;
  dc_covenantId : string;
  dc_genesisEvidence : CovenantGenesisEvidence;
  dc_lastTopUpEvidence : prop CovenantTopUpEvidence;
  dc_origin : string;
  dc_resourceUrl : prop string;
  dc_config : ChannelConfig;
  dc_clientPrivateKey : prop string;
  dc_clientPublicKey : string;
  dc_serverPublicKey : string;
  dc_activeOutpoint : FundingOutpoint;
  dc_activeScriptPublicKey : string;
  dc_escrowAddress : string;
  dc_fundingSource : string;
  dc_fundingAmount : string;
  dc_chargedCumulativeAmount : string;
  dc_claimedCumulativeAmount : string;
  dc_signedMaxClaimable : string;
  dc_latestVoucher : prop Voucher;
  dc_requiresDepositVoucher : bool;
  dc_refundTimeoutDaa : string;
  dc_templateId : string;
  dc_lineage : CovenantLineageState;
  dc_status : ChannelStatus
}.
#[export] Instance direct_channel_eta : Settable DirectModeChannel := fun c =>
  Build_DirectModeChannel (dc_id c) (dc_covenantId c) (dc_genesisEvidence c) (dc_lastTopUpEvidence c) (dc_origin c)
    (dc_resourceUrl c) (dc_config c) (dc_clientPrivateKey c) (dc_clientPublicKey c) (dc_serverPublicKey c)
    (dc_activeOutpoint c) (dc_activeScriptPublicKey c) (dc_escrowAddress c) (dc_fundingSource c) (dc_fundingAmount c)
    (dc_chargedCumulativeAmount c) (dc_claimedCumulativeAmount c) (dc_signedMaxClaimable c) (dc_latestVoucher c)
    (dc_requiresDepositVoucher c) (dc_refundTimeoutDaa c) (dc_templateId c) (dc_lineage c) (dc_status c).

Record FundingSuccessorIntent := {
  fs_outpoint : FundingOutpoint;
  fs_covenantId : string;
  fs_amount : string;
  fs_scriptPublicKey : string
}.
Record GenesisChannelIntent := {
  gi_channelId : string;
  gi_origin : string;
  gi_resourceUrl : option string;
  gi_config : ChannelConfig;
  gi_clientPrivateKey : option string;
  gi_escrowAddress : string;
  gi_fundingSource : string
}.
Inductive AttemptStatus := at_pending | at_broadcast | at_applied.
#[export] Instance attempt_status_eq_dec : EqDecision AttemptStatus.
Proof. solve_decision. Defined.
(** ["genesis"] carries the intent, ["top-up"] the channel it was prepared for. *)
Inductive FundingKind :=
  | GenesisKind (intent : GenesisChannelIntent)
  | TopUpKind (expectedChannel : DirectModeChannel).
Record FundingTransitionAttemptRecord := {
  fa_channelId : string;
  fa_transaction : string;
  fa_transactionId : string;
  fa_inputOutpoints : list FundingOutpoint;
  fa_intendedSuccessor : FundingSuccessorIntent;
  fa_fundingSource : string;
  fa_status : AttemptStatus;
  fa_finality : option string;
  fa_acceptance : option AcceptedTransactionEvidence;
  fa_requiredConfirmations : Z;
  fa_kind : FundingKind
}.
#[export] Instance funding_attempt_eta : Settable FundingTransitionAttemptRecord := fun a =>
  Build_FundingTransitionAttemptRecord (fa_channelId a) (fa_transaction a) (fa_transactionId a) (fa_inputOutpoints a)
    (fa_intendedSuccessor a) (fa_fundingSource a) (fa_status a) (fa_finality a) (fa_acceptance a)
    (fa_requiredConfirmations a) (fa_kind a).
Inductive FundingEvidence :=
  | GenesisEvidence (evidence : CovenantGenesisEvidence)
  | TopUpEvidence (evidence : CovenantTopUpEvidence).
Record FundingTransitionAttemptApplyRequest := {
  fr_channelId : string;
  fr_transactionId : string;
  fr_acceptance : AcceptedTransactionEvidence;
  (** [kind] and [evidence] *)
  fr_evidence : FundingEvidence
}.
Record RefundAttemptRecord := {
  ra_channelId : string;
  ra_covenantId : string;
  ra_activeOutpoint : FundingOutpoint;
  ra_activeScriptPublicKey : string;
  ra_fundingAmount : string;
  ra_channelStatus : ChannelStatus;
  ra_refundAmount : string;
  ra_transaction : string;
  ra_transactionId : string;
  ra_status : AttemptStatus;
  ra_finality : option string;
  ra_acceptance : option AcceptedTransactionEvidence;
  ra_requiredConfirmations : Z;
  ra_refundScriptPublicKey : string
}.
#[export] Instance refund_attempt_eta : Settable RefundAttemptRecord := fun a =>
  Build_RefundAttemptRecord (ra_channelId a) (ra_covenantId a) (ra_activeOutpoint a) (ra_activeScriptPublicKey a)
    (ra_fundingAmount a) (ra_channelStatus a) (ra_refundAmount a) (ra_transaction a) (ra_transactionId a) (ra_status a)
    (ra_finality a) (ra_acceptance a) (ra_requiredConfirmations a) (ra_refundScriptPublicKey a).
Record RefundAttemptApplyRequest := {
  rr_channelId : string;
  rr_transactionId : string;
  rr_acceptance : AcceptedTransactionEvidence
}.

Inductive ExactPaymentAttemptStatus := ex_pending | ex_accepted | ex_absent.
#[export] Instance exact_status_eq_dec : EqDecision ExactPaymentAttemptStatus.
Proof. solve_decision. Defined.
Record ExactPaymentOutputEvidence := {
  oe_transactionId : string;
  oe_outputIndex : Z;
  oe_scriptPublicKey : string;
  oe_amount : string
}.
(** The part of [CreatePaymentResult] that the store reads; requirements and payload are the
    JSON objects of the protocol. *)
Record CreatePaymentResult := {
  cp_resourceUrl : string;
  cp_accepted : json;
  cp_paymentPayload : json;
  cp_scheme : string;
  cp_transactionId : option string;
  cp_exactAttemptId : option string
}.
Record ExactPaymentAttemptRecord := {
  ep_attemptId : string;
  ep_intentHash : string;
  ep_requestHash : string;
  ep_origin : string;
  ep_resourceUrl : string;
  ep_paymentIdentifier : string;
  ep_transactionId : string;
  ep_inputOutpoints : list FundingOutpoint;
  ep_payment : CreatePaymentResult;
  ep_status : ExactPaymentAttemptStatus;
  ep_evidence : option TrustedTransactionEvidence;
  ep_output : option ExactPaymentOutputEvidence;
  ep_providerFinalized : bool
}.
#[export] Instance exact_attempt_eta : Settable ExactPaymentAttemptRecord := fun a =>
  Build_ExactPaymentAttemptRecord (ep_attemptId a) (ep_intentHash a) (ep_requestHash a) (ep_origin a) (ep_resourceUrl a)
    (ep_paymentIdentifier a) (ep_transactionId a) (ep_inputOutpoints a) (ep_payment a) (ep_status a) (ep_evidence a)
    (ep_output a) (ep_providerFinalized a).

(** ** JSON of a channel *)

Definition topup_evidence_json (e : CovenantTopUpEvidence) : json :=
  JObject [("covenantId", JString (te_covenantId e)); ("spentOutpoint", outpoint_json (te_spentOutpoint e));
           ("successorOutpoint", outpoint_json (te_successorOutpoint e));
           ("successorScriptPublicKey", JString (te_successorScriptPublicKey e));
           ("successorAmount", JString (te_successorAmount e));
           ("authorizedSuccessorCount", JNumber (te_authorizedSuccessorCount e));
           ("authorizingInput", JNumber (te_authorizingInput e)); ("acceptance", accepted_json (te_acceptance e))].
Definition voucher_json (v : Voucher) : json :=
  JObject [("covenantId", JString (v_covenantId v)); ("authorizedCumulativeAmount", JString (v_authorizedCumulativeAmount v));
           ("signature", JString (v_signature v))].
Definition direct_channel_json (c : DirectModeChannel) : json :=
  JObject ([("id", JString (dc_id c)); ("covenantId", JString (dc_covenantId c));
            ("genesisEvidence", genesis_evidence_json (dc_genesisEvidence c))]
           ++ jprop "lastTopUpEvidence" topup_evidence_json (dc_lastTopUpEvidence c)
           ++ [("origin", JString (dc_origin c))] ++ jprop "resourceUrl" JString (dc_resourceUrl c)
           ++ [("config", config_json (dc_config c))] ++ jprop "clientPrivateKey" JString (dc_clientPrivateKey c)
           ++ [("clientPublicKey", JString (dc_clientPublicKey c)); ("serverPublicKey", JString (dc_serverPublicKey c));
               ("activeOutpoint", outpoint_json (dc_activeOutpoint c));
               ("activeScriptPublicKey", JString (dc_activeScriptPublicKey c)); ("escrowAddress", JString (dc_escrowAddress c));
               ("fundingSource", JString (dc_fundingSource c)); ("fundingAmount", JString (dc_fundingAmount c));
               ("chargedCumulativeAmount", JString (dc_chargedCumulativeAmount c));
               ("claimedCumulativeAmount", JString (dc_claimedCumulativeAmount c));
               ("signedMaxClaimable", JString (dc_signedMaxClaimable c))]
           ++ jprop "latestVoucher" voucher_json (dc_latestVoucher c)
           ++ [("requiresDepositVoucher", JBool (dc_requiresDepositVoucher c));
               ("refundTimeoutDaa", JString (dc_refundTimeoutDaa c)); ("templateId", JString (dc_templateId c));
               ("lineage", state_json (dc_lineage c)); ("status", JString (client_status_text (dc_status c)))]).

(** ** Comparisons *)

Definition sameHex (a b : string) : bool := toLowerCase a === toLowerCase b.
Definition channelKey (channelId : string) : string := toLowerCase channelId.
Definition sameManifest (a b : CovenantLaunchManifest) : bool := JSON_stringify (manifest_json a) === JSON_stringify (manifest_json b).
Definition sameLineage (a b : CovenantLineageState) : bool := JSON_stringify (state_json a) === JSON_stringify (state_json b).
(** [left.amount] of a voucher, which has no such property *)
Definition voucher_amount (v : Voucher) : option json := None.
Definition sameVoucher (a b : option Voucher) : bool :=
  match a, b with
  | Some a, Some b =>
      sameHex (v_covenantId a) (v_covenantId b) && isNone (voucher_amount a) && isNone (voucher_amount b)
      && sameHex (v_signature a) (v_signature b)
  | None, None => true
  | _, _ => false
  end.
Definition sameChannelSnapshot (a b : DirectModeChannel) : bool :=
  sameHex (dc_id a) (dc_id b) && sameHex (dc_covenantId a) (dc_covenantId b)
  && sameOutpoint (dc_activeOutpoint a) (dc_activeOutpoint b)
  && sameHex (dc_activeScriptPublicKey a) (dc_activeScriptPublicKey b)
  && (dc_fundingAmount a === dc_fundingAmount b)
  && (dc_chargedCumulativeAmount a === dc_chargedCumulativeAmount b)
  && (dc_claimedCumulativeAmount a === dc_claimedCumulativeAmount b)
  && (dc_signedMaxClaimable a === dc_signedMaxClaimable b)
  && (dc_status a === dc_status b) && sameLineage (dc_lineage a) (dc_lineage b)
  && sameVoucher (get (dc_latestVoucher a)) (get (dc_latestVoucher b)).
Definition sameSuccessor (a b : FundingSuccessorIntent) : bool :=
  sameOutpoint (fs_outpoint a) (fs_outpoint b) && sameHex (fs_covenantId a) (fs_covenantId b)
  && (fs_amount a === fs_amount b) && sameHex (fs_scriptPublicKey a) (fs_scriptPublicKey b).
Definition sameIntendedHead (channel : DirectModeChannel) (successor : FundingSuccessorIntent) : bool :=
  sameHex (dc_covenantId channel) (fs_covenantId successor) && sameOutpoint (dc_activeOutpoint channel) (fs_outpoint successor)
  && sameHex (dc_activeScriptPublicKey channel) (fs_scriptPublicKey successor)
  && (dc_fundingAmount channel === fs_amount successor).
Fixpoint sameOutpoints (a b : list FundingOutpoint) : bool :=
  match a, b with
  | [], [] => true
  | x :: a, y :: b => sameOutpoint x y && sameOutpoints a b
  | _, _ => false
  end.
Definition same_config (a b : ChannelConfig) : bool := JSON_stringify (config_json a) === JSON_stringify (config_json b).
Definition sameGenesisLane (a b : GenesisChannelIntent) : bool :=
  (gi_origin a === gi_origin b) && (gi_resourceUrl a === gi_resourceUrl b)
  && (cc_network (gi_config a) === cc_network (gi_config b)) && (cc_payTo (gi_config a) === cc_payTo (gi_config b))
  && sameHex (cc_serverPublicKey (gi_config a)) (cc_serverPublicKey (gi_config b)).
Definition sameGenesisIntent (a b : GenesisChannelIntent) : bool :=
  sameHex (gi_channelId a) (gi_channelId b) && (gi_origin a === gi_origin b) && (gi_resourceUrl a === gi_resourceUrl b)
  && same_config (gi_config a) (gi_config b) && (gi_clientPrivateKey a === gi_clientPrivateKey b)
  && (gi_escrowAddress a === gi_escrowAddress b) && (gi_fundingSource a === gi_fundingSource b).
Definition sameFundingArtifact (a b : FundingTransitionAttemptRecord) : bool :=
  let same_kind := match fa_kind a, fa_kind b with
                   | GenesisKind i, GenesisKind j => sameGenesisIntent i j
                   | TopUpKind c, TopUpKind d => sameChannelSnapshot c d
                   | _, _ => false
                   end in
  sameHex (fa_channelId a) (fa_channelId b) && sameHex (fa_transaction a) (fa_transaction b)
  && sameHex (fa_transactionId a) (fa_transactionId b) && sameOutpoints (fa_inputOutpoints a) (fa_inputOutpoints b)
  && sameSuccessor (fa_intendedSuccessor a) (fa_intendedSuccessor b) && (fa_fundingSource a === fa_fundingSource b)
  && (fa_requiredConfirmations a =? fa_requiredConfirmations b) && same_kind.
Definition sameRefundArtifact (a b : RefundAttemptRecord) : bool :=
  sameHex (ra_channelId a) (ra_channelId b) && sameHex (ra_covenantId a) (ra_covenantId b)
  && sameOutpoint (ra_activeOutpoint a) (ra_activeOutpoint b)
  && sameHex (ra_activeScriptPublicKey a) (ra_activeScriptPublicKey b) && (ra_fundingAmount a === ra_fundingAmount b)
  && (ra_channelStatus a === ra_channelStatus b) && (ra_refundAmount a === ra_refundAmount b)
  && sameHex (ra_refundScriptPublicKey a) (ra_refundScriptPublicKey b)
  && (ra_requiredConfirmations a =? ra_requiredConfirmations b) && sameHex (ra_transaction a) (ra_transaction b)
  && sameHex (ra_transactionId a) (ra_transactionId b).
Definition sameAcceptedEvidence (a b : AcceptedTransactionEvidence) : bool :=
  sameHex (ae_transactionId a) (ae_transactionId b) && sameHex (acceptingBlockHash a) (acceptingBlockHash b)
  && (acceptingBlockBlueScore a === acceptingBlockBlueScore b) && (confirmationCount a =? confirmationCount b)
  && sameHex (blockHash (ae_checkpoint a)) (blockHash (ae_checkpoint b))
  && (blueScore (ae_checkpoint a) === blueScore (ae_checkpoint b)) && (daaScore (ae_checkpoint a) === daaScore (ae_checkpoint b)).

Definition isRefundOnlyStatus (s : ChannelStatus) : bool :=
  (s === dc_suspicious) || (s === dc_refundable) || (s === dc_refunded).
Definition isRefundable (channel : DirectModeChannel) (nowDaa : option string) : result bool :=
  if negb ((dc_status channel === dc_active) || (dc_status channel === dc_retired) || (dc_status channel === dc_refundable))
  then Ok false
  else match nowDaa with
       | None => Ok true
       | Some now => n ← parseSompiString now; t ← parseSompiString (dc_refundTimeoutDaa channel); Ok (t <? n)
       end.
Record ChannelLookupScope := {
  sc_origin : option string;
  sc_resourceUrl : option string;
  sc_network : option string;
  sc_status : option string
}.
(** [if (scope.x && scope.x !== value) return false] *)
Definition scope_allows (wanted value : option string) : bool :=
  match wanted with Some w => (w === "") || (Some w === value) | None => true end.
Definition matches_scope (scope : ChannelLookupScope) (origin : string) (resourceUrl : option string) (network status : string) : bool :=
  scope_allows (sc_origin scope) (Some origin) && scope_allows (sc_resourceUrl scope) resourceUrl
  && scope_allows (sc_network scope) (Some network) && scope_allows (sc_status scope) (Some status).
Definition matchesScope (channel : DirectModeChannel) (scope : ChannelLookupScope) : bool :=
  matches_scope scope (dc_origin channel) (get (dc_resourceUrl channel)) (cc_network (dc_config channel))
    (client_status_text (dc_status channel)).
Definition matchesFundingAttemptScope (attempt : FundingTransitionAttemptRecord) (scope : ChannelLookupScope) : bool :=
  match fa_kind attempt with
  | GenesisKind i => matches_scope scope (gi_origin i) (gi_resourceUrl i) (cc_network (gi_config i)) "active"
  | TopUpKind c => matchesScope c scope
  end.

(** ** Attempts *)

Definition isOpenFundingAttempt (attempt : option FundingTransitionAttemptRecord) : bool :=
  match attempt with Some a => fa_status a !== at_applied | None => false end.
Definition isOpenRefundAttempt (attempt : option RefundAttemptRecord) : bool :=
  match attempt with Some a => ra_status a !== at_applied | None => false end.
Definition fundingAttemptChannelId (attempt : FundingTransitionAttemptRecord) : string :=
  match fa_kind attempt with GenesisKind i => gi_channelId i | TopUpKind c => dc_id c end.
(** [new Set(...).size === outpoints.length] *)
Definition unique_outpoints (l : list FundingOutpoint) : bool :=
  (length (remove_dups (map (fun o => toLowerCase (txid o) +:+ ":" +:+ toString (index o)) l)) =? length l)%nat.
Definition well_formed_outpoint (o : FundingOutpoint) : bool :=
  is_hash32 (txid o) && isSafeInteger (index o) && (0 <=? index o).

Definition genesisEvidenceMatchesSuccessor (e : CovenantGenesisEvidence) (s : FundingSuccessorIntent) : bool :=
  (totalOutputCount e =? 1) && (authorizedOutputCount e =? 1) && sameHex (gv_covenantId e) (fs_covenantId s)
  && sameOutpoint (genesisOutpoint e) (fs_outpoint s) && sameHex (genesisScriptPublicKey e) (fs_scriptPublicKey s)
  && (genesisAmount e === fs_amount s).
Definition topUpEvidenceMatchesAttempt (e : CovenantTopUpEvidence) (attempt : FundingTransitionAttemptRecord)
    (expected : DirectModeChannel) : bool :=
  let s := fa_intendedSuccessor attempt in
  (te_authorizedSuccessorCount e =? 1) && isSafeInteger (te_authorizingInput e) && (0 <=? te_authorizingInput e)
  && sameHex (te_covenantId e) (fs_covenantId s) && sameOutpoint (te_spentOutpoint e) (dc_activeOutpoint expected)
  && sameOutpoint (te_successorOutpoint e) (fs_outpoint s)
  && sameHex (te_successorScriptPublicKey e) (fs_scriptPublicKey s) && (te_successorAmount e === fs_amount s).
Definition evidenceMatchesFundingAttempt (request : FundingTransitionAttemptApplyRequest)
    (attempt : FundingTransitionAttemptRecord) : bool :=
  match fr_evidence request, fa_kind attempt with
  | GenesisEvidence e, GenesisKind _ =>
      sameHex (ae_transactionId (gv_acceptance e)) (ae_transactionId (fr_acceptance request))
      && sameAcceptedEvidence (gv_acceptance e) (fr_acceptance request)
      && genesisEvidenceMatchesSuccessor e (fa_intendedSuccessor attempt)
  | TopUpEvidence e, TopUpKind c =>
      sameHex (ae_transactionId (te_acceptance e)) (ae_transactionId (fr_acceptance request))
      && sameAcceptedEvidence (te_acceptance e) (fr_acceptance request)
      && topUpEvidenceMatchesAttempt e attempt c
  | _, _ => false
  end.
Definition openFundingAttemptMatchesChannel (channel : option DirectModeChannel) (attempt : FundingTransitionAttemptRecord) : bool :=
  match fa_kind attempt, channel with
  | GenesisKind _, _ => isNone channel
  | TopUpKind c, Some channel => sameChannelSnapshot channel c
  | TopUpKind _, None => false
  end.
Definition appliedFundingAttemptMatchesChannel (channel : option DirectModeChannel) (attempt : FundingTransitionAttemptRecord) : bool :=
  match channel with
  | None => false
  | Some channel =>
      sameIntendedHead channel (fa_intendedSuccessor attempt)
      && match fa_kind attempt with
         | GenesisKind i =>
             sameHex (dc_id channel) (gi_channelId i)
             && sameHex (dc_covenantId channel) (fs_covenantId (fa_intendedSuccessor attempt))
             && (dc_origin channel === gi_origin i) && (get (dc_resourceUrl channel) === gi_resourceUrl i)
             && same_config (dc_config channel) (gi_config i)
             && (get (dc_clientPrivateKey channel) === gi_clientPrivateKey i)
             && (dc_escrowAddress channel === gi_escrowAddress i) && (dc_fundingSource channel === fa_fundingSource attempt)
             && genesisEvidenceMatchesSuccessor (dc_genesisEvidence channel) (fa_intendedSuccessor attempt)
             && (dc_status channel === dc_active)
         | TopUpKind c =>
             sameHex (dc_id channel) (dc_id c) && sameHex (dc_covenantId channel) (dc_covenantId c)
             && (dc_chargedCumulativeAmount channel === dc_chargedCumulativeAmount c)
             && (dc_claimedCumulativeAmount channel === dc_claimedCumulativeAmount c)
             && (dc_signedMaxClaimable channel === dc_signedMaxClaimable c) && (dc_status channel === dc_status c)
             && dc_requiresDepositVoucher channel
             && match get (dc_lastTopUpEvidence channel) with
                | Some e => topUpEvidenceMatchesAttempt e attempt c
                | None => false
                end
         end
  end.

Definition channelHeadMatchesRefundAttempt (channel : option DirectModeChannel) (attempt : RefundAttemptRecord) : bool :=
  match channel with
  | None => false
  | Some c =>
      sameHex (dc_id c) (ra_channelId attempt) && sameHex (dc_covenantId c) (ra_covenantId attempt)
      && sameOutpoint (dc_activeOutpoint c) (ra_activeOutpoint attempt)
      && sameHex (dc_activeScriptPublicKey c) (ra_activeScriptPublicKey attempt)
      && (dc_fundingAmount c === ra_fundingAmount attempt) && (ra_refundAmount attempt === ra_fundingAmount attempt)
  end.
Definition channelMatchesRefundAttempt (channel : option DirectModeChannel) (attempt : RefundAttemptRecord) : bool :=
  channelHeadMatchesRefundAttempt channel attempt
  && match channel with Some c => dc_status c === ra_channelStatus attempt | None => false end.
Definition persistedRefundAttemptMatchesChannel (channel : option DirectModeChannel) (attempt : RefundAttemptRecord) : bool :=
  let accepted_own := match ra_acceptance attempt with
                      | Some e => sameHex (ae_transactionId e) (ra_transactionId attempt)
                      | None => false
                      end in
  match ra_status attempt with
  | at_pending => isNone (ra_finality attempt) && isNone (ra_acceptance attempt) && channelMatchesRefundAttempt channel attempt
  | at_broadcast =>
      (ra_finality attempt === Some "broadcast") && (isNone (ra_acceptance attempt) || accepted_own)
      && channelMatchesRefundAttempt channel attempt
  | at_applied =>
      channelHeadMatchesRefundAttempt channel attempt
      && match channel with Some c => dc_status c === dc_refunded | None => false end
      && (ra_finality attempt === Some "confirmed") && accepted_own
  end.

Section Checks.
(** [new URL(text).href], absent where the constructor throws *)
Context (sha256 : bytes -> bytes) (url_href : string -> option string).

Definition config_owns (config : ChannelConfig) (id : string) : result bool :=
  own ← channelId sha256 config; Ok (sameHex own id).

Definition fundingAttemptArtifactIsConsistent (attempt : FundingTransitionAttemptRecord) : result bool :=
  let s := fa_intendedSuccessor attempt in
  and_also (Ok (isSafeInteger (fa_requiredConfirmations attempt) && (0 <? fa_requiredConfirmations attempt)
                && negb (length (fa_inputOutpoints attempt) =? 0)%nat && unique_outpoints (fa_inputOutpoints attempt)
                && forallb well_formed_outpoint (fa_inputOutpoints attempt)
                && sameHex (fa_channelId attempt) (fundingAttemptChannelId attempt)
                && sameHex (fa_transactionId attempt) (txid (fs_outpoint s)) && negb (is_zero64 (fs_covenantId s))))
    match fa_kind attempt with
    | GenesisKind i =>
        and_also (Ok (gi_fundingSource i === fa_fundingSource attempt)) (config_owns (gi_config i) (fa_channelId attempt))
    | TopUpKind c =>
        Ok (sameHex (fs_covenantId s) (dc_covenantId c) && sameHex (fs_scriptPublicKey s) (dc_activeScriptPublicKey c))
    end.
Definition isNewFundingAttempt (attempt : FundingTransitionAttemptRecord) : result bool :=
  and_also (Ok ((fa_status attempt === at_pending) && isNone (fa_finality attempt)))
    (fundingAttemptArtifactIsConsistent attempt).
Definition newFundingAttemptMatchesChannel (channel : option DirectModeChannel) (attempt : FundingTransitionAttemptRecord) : result bool :=
  match fa_kind attempt, channel with
  | GenesisKind i, _ => and_also (Ok (isNone channel)) (config_owns (gi_config i) (fa_channelId attempt))
  | TopUpKind c, Some channel =>
      and_also (Ok ((dc_status channel === dc_active) && sameChannelSnapshot channel c
                    && sameHex (fs_covenantId (fa_intendedSuccessor attempt)) (dc_covenantId channel)
                    && sameHex (fs_scriptPublicKey (fa_intendedSuccessor attempt)) (dc_activeScriptPublicKey channel)))
        (a ← parseSompiString (fs_amount (fa_intendedSuccessor attempt)); b ← parseSompiString (dc_fundingAmount channel); Ok (b <? a))
  | TopUpKind _, None => Ok false
  end.
Definition persistedFundingAttemptMatchesChannel (channel : option DirectModeChannel) (attempt : FundingTransitionAttemptRecord) : result bool :=
  and_also (fundingAttemptArtifactIsConsistent attempt)
    (Ok match fa_status attempt with
        | at_pending => isNone (fa_finality attempt) && openFundingAttemptMatchesChannel channel attempt
        | at_broadcast => (fa_finality attempt === Some "broadcast") && openFundingAttemptMatchesChannel channel attempt
        | at_applied =>
            ((fa_finality attempt === Some "accepted") || (fa_finality attempt === Some "confirmed"))
            && appliedFundingAttemptMatchesChannel channel attempt
        end).

(** *** Channels and lineages *)

Definition client_manifest_differs (channel : DirectModeChannel) : result bool :=
  let manifest := manifest (dc_lineage channel) in
  let identity := ESCROW_V5_LAUNCH_IDENTITY sha256 in
  let genesis := genesis manifest in
  let evidence := dc_genesisEvidence channel in
  or_else (Ok ((network manifest !== cc_network (dc_config channel)) || (templateId (bytecode manifest) !== dc_templateId channel))) (
  or_else (texts_differ (compiler_json (compiler manifest)) (compiler_json (li_compiler identity))) (
  or_else (texts_differ (source_json (source manifest)) (source_json (li_source identity))) (
  or_else (texts_differ (bytecode_json (bytecode manifest)) (bytecode_json (li_bytecode identity))) (
  or_else (texts_differ (constructorSlots manifest) (li_constructorSlots identity)) (
  or_else (texts_differ (abi manifest) (li_abi identity)) (
  or_else (texts_differ (selectors manifest) (li_selectors identity)) (
  or_else (Ok (negb (sameHex (identitySha256 manifest) (li_identitySha256 identity))
               || negb (sameHex (genesis_covenantId genesis) (dc_covenantId channel))
               || negb (sameHex (genesis_transactionId genesis) (txid (genesisOutpoint evidence)))
               || negb (sameOutpoint (authorizingInputOutpoint genesis) (gv_authorizingInput evidence))
               || negb (sameOutpoint (genesis_outpoint genesis) (genesisOutpoint evidence))
               || negb (sameHex (genesis_scriptPublicKey genesis) (genesisScriptPublicKey evidence))
               || (genesis_value genesis !== genesisAmount evidence)))
    (texts_differ (accepted_json (acceptance genesis)) (accepted_json (gv_acceptance evidence)))))))))).
Definition assertChannelLineageConsistency (channel : DirectModeChannel) : result () :=
  differs ← client_manifest_differs channel;
  _ ← throw_if differs "channel does not match its immutable covenant launch manifest";
  let head := currentHead (dc_lineage channel) in
  if dc_status channel === dc_refunded then
    throw_if (isSome head) "refunded channel still has a derived covenant head"
  else
    throw_if (match head with
              | None => true
              | Some head =>
                  negb (sameOutpoint (outpoint head) (dc_activeOutpoint channel))
                  || negb (sameHex (scriptPublicKey head) (dc_activeScriptPublicKey channel))
                  || (value head !== dc_fundingAmount channel)
                  || (claimedCumulativeAmount head !== dc_claimedCumulativeAmount channel)
              end) "channel head does not match its derived covenant lineage index".

(** [...(text ? { key: text } : {})] *)
Definition present_text (o : option string) : prop string :=
  match o with Some s => if s === "" then Absent else Present s | None => Absent end.
Definition launch_manifest (intent : GenesisChannelIntent) (transactionId : string) (e : CovenantGenesisEvidence) : CovenantLaunchManifest :=
  let identity := ESCROW_V5_LAUNCH_IDENTITY sha256 in
  {| format := "kaspa-x402-covenant-launch-v1"; network := cc_network (gi_config intent);
     compiler := li_compiler identity; source := li_source identity; bytecode := li_bytecode identity;
     constructorSlots := li_constructorSlots identity; abi := li_abi identity; selectors := li_selectors identity;
     identitySha256 := li_identitySha256 identity;
     genesis := {| derivation := "kip20-covenant-id-v1"; genesis_covenantId := gv_covenantId e;
                   authorizingInputOutpoint := gv_authorizingInput e; genesis_transactionId := transactionId;
                   genesis_outpoint := genesisOutpoint e; genesis_scriptPublicKey := genesisScriptPublicKey e;
                   genesis_value := genesisAmount e; genesis_claimedCumulativeAmount := "0";
                   acceptance := gv_acceptance e |} |}.
Definition channelFromGenesisAttempt (attempt : FundingTransitionAttemptRecord) (intent : GenesisChannelIntent)
    (evidence : FundingEvidence) : result DirectModeChannel :=
  match evidence with
  | TopUpEvidence _ => Throw (Error "genesis transition requires genesis evidence")
  | GenesisEvidence e =>
      let s := fa_intendedSuccessor attempt in
      lineage ← createCovenantLineageState sha256 (launch_manifest intent (fa_transactionId attempt) e);
      Ok {| dc_id := fa_channelId attempt; dc_covenantId := fs_covenantId s; dc_genesisEvidence := e;
            dc_lastTopUpEvidence := Absent; dc_origin := gi_origin intent; dc_resourceUrl := present_text (gi_resourceUrl intent);
            dc_config := gi_config intent; dc_clientPrivateKey := present_text (gi_clientPrivateKey intent);
            dc_clientPublicKey := cc_clientPublicKey (gi_config intent); dc_serverPublicKey := cc_serverPublicKey (gi_config intent);
            dc_activeOutpoint := fs_outpoint s; dc_activeScriptPublicKey := fs_scriptPublicKey s;
            dc_escrowAddress := gi_escrowAddress intent; dc_fundingSource := fa_fundingSource attempt;
            dc_fundingAmount := fs_amount s; dc_chargedCumulativeAmount := "0"; dc_claimedCumulativeAmount := "0";
            dc_signedMaxClaimable := "0"; dc_latestVoucher := Absent; dc_requiresDepositVoucher := true;
            dc_refundTimeoutDaa := cc_refundTimeoutDaa (gi_config intent); dc_templateId := cc_templateId (gi_config intent);
            dc_lineage := lineage; dc_status := dc_active |}
  end.
(** A complete update that adds one block with one transition *)
Definition one_transition_update (lineage : CovenantLineageState) (acceptance : AcceptedTransactionEvidence)
    (transition : CovenantLineageTransition) : CovenantSelectedChainUpdate :=
  {| fromCheckpoint := checkpoint lineage; update_checkpoint := ae_checkpoint acceptance; continuity := "complete";
     removedChainBlockHashes := [];
     addedChainBlocks := [{| block_blockHash := acceptingBlockHash acceptance; block_genesisAcceptance := None;
                             transitions := [transition] |}] |}.
Definition top_up_transition (attempt : FundingTransitionAttemptRecord) (expected : DirectModeChannel)
    (e : CovenantTopUpEvidence) : CovenantLineageTransition :=
  Transition "top-up" (te_covenantId e) (dc_templateId expected) (te_spentOutpoint e) (fa_transactionId attempt)
    (te_authorizedSuccessorCount e)
    (Some (Successor (Head (te_successorOutpoint e) (te_successorScriptPublicKey e) (te_successorAmount e)
                        (dc_claimedCumulativeAmount expected)) (te_covenantId e) (te_authorizingInput e)))
    None (te_acceptance e).
Definition channelFromTopUpAttempt (attempt : FundingTransitionAttemptRecord) (expected : DirectModeChannel)
    (evidence : FundingEvidence) : result DirectModeChannel :=
  match evidence with
  | GenesisEvidence _ => Throw (Error "top-up transition requires top-up evidence")
  | TopUpEvidence e =>
      let s := fa_intendedSuccessor attempt in
      lineage ← applyCovenantSelectedChainUpdate sha256 (dc_lineage expected)
                  (one_transition_update (dc_lineage expected) (te_acceptance e) (top_up_transition attempt expected e));
      Ok (expected <| dc_activeOutpoint := fs_outpoint s |> <| dc_activeScriptPublicKey := fs_scriptPublicKey s |>
            <| dc_fundingAmount := fs_amount s |> <| dc_lastTopUpEvidence := Present e |> <| dc_lineage := lineage |>
            <| dc_requiresDepositVoucher := true |>)
  end.

(** *** Exact payments *)

Definition sameCanonicalUrl (a b : string) : bool :=
  match url_href a, url_href b with Some x, Some y => x === y | _, _ => false end.
Definition exactIntentHash (attempt : ExactPaymentAttemptRecord) : result string :=
  text ← stableStringify (JObject
    [("scope", JString "kaspa:x402:exact-intent:v1"); ("origin", JString (ep_origin attempt));
     ("resourceUrl", JString (ep_resourceUrl attempt)); ("requestHash", JString (toLowerCase (ep_requestHash attempt)));
     ("paymentIdentifier", JString (ep_paymentIdentifier attempt)); ("accepted", cp_accepted (ep_payment attempt))]);
  Ok (sha256Hex sha256 text).
(** [value[key]] of a JSON object *)
Definition json_field (key : string) (j : json) : option json := match j with JObject l => map_get key l | _ => None end.
(** [!text || !sameHex(text, expected)] of an optional text *)
Definition names_other (text : option string) (expected : string) : bool :=
  match text with Some s => (s === "") || negb (sameHex s expected) | None => true end.
Definition exactPaymentAttemptIsConsistent (attempt : ExactPaymentAttemptRecord) : result bool :=
  let payment := ep_payment attempt in
  let inputs := ep_inputOutpoints attempt in
  bad ← or_else (Ok (negb (is_hash32 (ep_attemptId attempt)) || negb (is_hash32 (ep_intentHash attempt))
                     || negb (is_hash32 (ep_requestHash attempt)) || negb (is_hash32 (ep_transactionId attempt))
                     || blank (ep_paymentIdentifier attempt) || (ep_origin attempt === "") || (ep_resourceUrl attempt === "")
                     || (length inputs =? 0)%nat || negb (unique_outpoints inputs)
                     || existsb (fun i => negb (well_formed_outpoint i)) inputs
                     || (cp_scheme payment !== "exact")
                     || match json_field "scheme" (cp_accepted payment) with Some (JString s) => s !== "exact" | _ => true end
                     || names_other (cp_transactionId payment) (ep_transactionId attempt)
                     || names_other (cp_exactAttemptId payment) (ep_attemptId attempt)
                     || negb (sameCanonicalUrl (cp_resourceUrl payment) (ep_resourceUrl attempt))))
          (hash ← exactIntentHash attempt; Ok (hash !== toLowerCase (ep_intentHash attempt)));
  if bad : bool then Ok false
  else match ep_status attempt with
       | ex_pending => Ok (isNone (ep_evidence attempt) && isNone (ep_output attempt) && negb (ep_providerFinalized attempt))
       | ex_accepted =>
           Ok (match ep_evidence attempt with
               | Some (StatusAccepted e) => sameHex (ae_transactionId e) (ep_transactionId attempt) && isSome (ep_output attempt)
               | _ => false
               end)
       | ex_absent =>
           Ok (match ep_evidence attempt with
               | Some (StatusAbsent e) => sameHex (abs_transactionId e) (ep_transactionId attempt) && isNone (ep_output attempt)
               | _ => false
               end)
       end.
Definition sameExactPaymentIntent (a b : ExactPaymentAttemptRecord) : result bool :=
  and_also (Ok (sameHex (ep_attemptId a) (ep_attemptId b) && sameHex (ep_intentHash a) (ep_intentHash b)
                && (ep_paymentIdentifier a === ep_paymentIdentifier b) && sameHex (ep_transactionId a) (ep_transactionId b)))
    (and_also (differ ← texts_differ (cp_paymentPayload (ep_payment a)) (cp_paymentPayload (ep_payment b)); Ok (negb differ))
       (differ ← texts_differ (JArray (map outpoint_json (ep_inputOutpoints a))) (JArray (map outpoint_json (ep_inputOutpoints b)));
        Ok (negb differ))).
End Checks.
