(* ===== verification/ClientStoreOps.v ===== *)
(** * The client's channel store

    Models [MemoryChannelStore] of [protocol/packages/client/src/channel-store.ts]: its
    construction from persisted records and every method that reads or changes its tables.
    A method contains no suspension point, so it is one step; it answers with the store it
    leaves behind, also when it throws.  [withChannelOperationLease] only orders promises. *)

From S2P Require Import Prelude Amount Json Binary ResourceBudget Commitment ChainTruth Template Channels ClientStore.

(** ** State *)

(** The five maps, in insertion order *)
Record ClientStore := {
  cs_channels : list (string * DirectModeChannel);
  cs_fundingAttempts : list (string * FundingTransitionAttemptRecord);
  cs_refundAttempts : list (string * RefundAttemptRecord);
  cs_exactPaymentAttempts : list (string * ExactPaymentAttemptRecord);
  cs_exactPaymentIdentifiers : list (string * string)
}.
#[export] Instance client_store_eta : Settable ClientStore := fun s =>
  Build_ClientStore (cs_channels s) (cs_fundingAttempts s) (cs_refundAttempts s) (cs_exactPaymentAttempts s)
    (cs_exactPaymentIdentifiers s).
Definition empty_client_store : ClientStore :=
  {| cs_channels := []; cs_fundingAttempts := []; cs_refundAttempts := []; cs_exactPaymentAttempts := [];
     cs_exactPaymentIdentifiers := [] |}.
Definition set_channel (key : string) (c : DirectModeChannel) (s : ClientStore) : ClientStore :=
  s <| cs_channels := map_set key c (cs_channels s) |>.
Definition set_funding (key : string) (a : FundingTransitionAttemptRecord) (s : ClientStore) : ClientStore :=
  s <| cs_fundingAttempts := map_set key a (cs_fundingAttempts s) |>.
Definition set_refund (key : string) (a : RefundAttemptRecord) (s : ClientStore) : ClientStore :=
  s <| cs_refundAttempts := map_set key a (cs_refundAttempts s) |>.
Definition set_exact (key : string) (a : ExactPaymentAttemptRecord) (s : ClientStore) : ClientStore :=
  s <| cs_exactPaymentAttempts := map_set key a (cs_exactPaymentAttempts s) |>.
Definition set_identifier (identifier key : string) (s : ClientStore) : ClientStore :=
  s <| cs_exactPaymentIdentifiers := map_set identifier key (cs_exactPaymentIdentifiers s) |>.
Definition get_channel (s : ClientStore) (key : string) : option DirectModeChannel := map_get key (cs_channels s).
Definition get_funding (s : ClientStore) (key : string) : option FundingTransitionAttemptRecord := map_get key (cs_fundingAttempts s).
Definition get_refund (s : ClientStore) (key : string) : option RefundAttemptRecord := map_get key (cs_refundAttempts s).
Definition get_exact (s : ClientStore) (key : string) : option ExactPaymentAttemptRecord := map_get key (cs_exactPaymentAttempts s).

(** A method that throws before it changes anything *)
Definition atomic {A} (s : ClientStore) (m : result (ClientStore * A)) : ClientStore * result A :=
  match m with Ok (s', a) => (s', Ok a) | Throw e => (s, Throw e) end.
(** [if (x === undefined) throw new Error(message)] *)
Definition required {A} (x : option A) (message : string) : result A :=
  match x with Some a => Ok a | None => Throw (Error message) end.

Definition assertChannelMutable (s : ClientStore) (id : string) : result () :=
  let key := channelKey id in
  _ ← throw_if (isOpenFundingAttempt (get_funding s key)) "channel has an open funding transition";
  _ ← throw_if (isOpenRefundAttempt (get_refund s key)) "channel has an open refund attempt";
  throw_if (match get_refund s key with Some a => ra_status a === at_applied | None => false end)
    "channel has a terminal refund attempt".

(** ** Reads *)

Definition loadChannels (s : ClientStore) (scope : ChannelLookupScope) : list DirectModeChannel :=
  List.filter (fun c => matchesScope c scope) (map snd (cs_channels s)).
Definition loadOpenFundingTransitionAttempts (s : ClientStore) (scope : ChannelLookupScope) : list FundingTransitionAttemptRecord :=
  List.filter (fun a => isOpenFundingAttempt (Some a) && matchesFundingAttemptScope a scope) (map snd (cs_fundingAttempts s)).
Fixpoint filter_result {A} (p : A -> result bool) (l : list A) : result (list A) :=
  match l with
  | [] => Ok []
  | x :: l => b ← p x; rest ← filter_result p l; Ok (if b : bool then x :: rest else rest)
  end.
Definition listRefundableChannels (s : ClientStore) (nowDaa : option string) : result (list DirectModeChannel) :=
  filter_result (fun c =>
    and_also (isRefundable c nowDaa)
      (Ok (negb (isOpenFundingAttempt (get_funding s (channelKey (dc_id c))))
           && negb (isOpenRefundAttempt (get_refund s (channelKey (dc_id c))))))) (map snd (cs_channels s)).
Definition loadExactPaymentAttemptByIdentifier (s : ClientStore) (identifier : string) : option ExactPaymentAttemptRecord :=
  match map_get identifier (cs_exactPaymentIdentifiers s) with
  | Some key => if key === "" then None else get_exact s key
  | None => None
  end.

Section Store.
Context (sha256 : bytes -> bytes) (url_href : string -> option string).

(** ** Construction *)

Definition add_channel (s : ClientStore) (channel : DirectModeChannel) : result ClientStore :=
  let key := channelKey (dc_id channel) in
  _ ← throw_if (map_has key (cs_channels s)) "persisted channels contain a duplicate channel id";
  _ ← assertChannelLineageConsistency sha256 channel;
  Ok (set_channel key channel s).
Definition add_funding (s : ClientStore) (attempt : FundingTransitionAttemptRecord) : result ClientStore :=
  let key := channelKey (fa_channelId attempt) in
  _ ← throw_if (map_has key (cs_fundingAttempts s)) "persisted funding attempts contain a duplicate channel";
  matches ← persistedFundingAttemptMatchesChannel sha256 (get_channel s key) attempt;
  _ ← throw_if (negb matches) "persisted funding attempt does not match channel state";
  Ok (set_funding key attempt s).
Definition add_refund (s : ClientStore) (attempt : RefundAttemptRecord) : result ClientStore :=
  let key := channelKey (ra_channelId attempt) in
  _ ← throw_if (map_has key (cs_refundAttempts s)) "persisted refund attempts contain a duplicate channel";
  _ ← throw_if (negb (persistedRefundAttemptMatchesChannel (get_channel s key) attempt)
                || isOpenRefundAttempt (Some attempt) && isOpenFundingAttempt (get_funding s key))
        "persisted refund attempt does not match channel state";
  Ok (set_refund key attempt s).
Definition add_exact (s : ClientStore) (attempt : ExactPaymentAttemptRecord) : result ClientStore :=
  let key := channelKey (ep_attemptId attempt) in
  bad ← or_else (Ok (map_has key (cs_exactPaymentAttempts s) || map_has (ep_paymentIdentifier attempt) (cs_exactPaymentIdentifiers s)))
          (consistent ← exactPaymentAttemptIsConsistent sha256 url_href attempt; Ok (negb consistent));
  _ ← throw_if bad "persisted exact payment attempt is invalid or duplicated";
  Ok (set_identifier (ep_paymentIdentifier attempt) key (set_exact key attempt s)).
Definition new_client_store (channels : list DirectModeChannel) (refunds : list RefundAttemptRecord)
    (fundings : list FundingTransitionAttemptRecord) (exacts : list ExactPaymentAttemptRecord) : result ClientStore :=
  s ← fold_result add_channel channels empty_client_store;
  s ← fold_result add_funding fundings s;
  s ← fold_result add_refund refunds s;
  fold_result add_exact exacts s.

(** ** Channels *)

(** [parseSompiString(a) < parseSompiString(b)] *)
Definition amount_below (a b : string) : result bool := x ← parseSompiString a; y ← parseSompiString b; Ok (x <? y).
Definition voucher_regresses (next existing : DirectModeChannel) : result bool :=
  match get (dc_latestVoucher existing), get (dc_latestVoucher next) with
  | None, _ => Ok false
  | Some _, None => Ok true
  | Some v, Some w => amount_below (v_authorizedCumulativeAmount w) (v_authorizedCumulativeAmount v)
  end.
Definition saveChannel (expected : option DirectModeChannel) (channel : DirectModeChannel) (s : ClientStore) : ClientStore * result () :=
  let key := channelKey (dc_id channel) in
  atomic s (
    _ ← assertChannelMutable s (dc_id channel);
    _ ← assertChannelLineageConsistency sha256 channel;
    lost ← match get_channel s key, expected with
           | None, e => Ok (isSome e)
           | Some _, None => Ok true
           | Some existing, Some e => texts_differ (direct_channel_json existing) (direct_channel_json e)
           end;
    _ ← throw_if lost "channel changed before compare-and-set save";
    _ ← match get_channel s key with
        | None => Ok tt
        | Some existing =>
            regress ← or_else (amount_below (dc_signedMaxClaimable channel) (dc_signedMaxClaimable existing)) (
                      or_else (amount_below (dc_chargedCumulativeAmount channel) (dc_chargedCumulativeAmount existing)) (
                      or_else (amount_below (dc_claimedCumulativeAmount channel) (dc_claimedCumulativeAmount existing))
                        (voucher_regresses channel existing)));
            _ ← throw_if regress "channel save would regress monotonic payment state";
            _ ← throw_if (negb (sameLineage (dc_lineage existing) (dc_lineage channel)))
                  "generic channel save cannot replace authoritative covenant lineage";
            throw_if (isRefundOnlyStatus (dc_status existing) && (dc_status channel !== dc_status existing))
              "refund-only channel status requires authoritative lineage reconciliation"
        end;
    Ok (set_channel key channel s, tt)).

Definition applySettledChannel (expected channel : DirectModeChannel) (s : ClientStore) : ClientStore * result DirectModeChannel :=
  let key := channelKey (dc_id expected) in
  atomic s (
    let changed := "channel changed before settlement apply" in
    current ← required (get_channel s key) changed;
    _ ← throw_if (negb (sameChannelSnapshot current expected)) changed;
    _ ← throw_if ((dc_status current !== dc_active) || (dc_status channel !== dc_active))
          "refund-only channel cannot accept a delayed settlement";
    let unchanged := channel <| dc_chargedCumulativeAmount := dc_chargedCumulativeAmount expected |>
                       <| dc_signedMaxClaimable := dc_signedMaxClaimable expected |>
                       <| dc_requiresDepositVoucher := dc_requiresDepositVoucher expected |> in
    differs ← texts_differ (direct_channel_json unchanged) (direct_channel_json expected);
    _ ← throw_if differs "settlement changed fields outside channel accounting";
    _ ← assertChannelLineageConsistency sha256 channel;
    Ok (set_channel key channel s, channel)).

Definition quarantineChannel (expected : DirectModeChannel) (s : ClientStore) : ClientStore * result DirectModeChannel :=
  let key := channelKey (dc_id expected) in
  atomic s (
    let changed := "channel identity changed before quarantine" in
    current ← required (get_channel s key) changed;
    _ ← throw_if (negb (sameHex (dc_covenantId current) (dc_covenantId expected))
                  || negb (sameManifest (manifest (dc_lineage current)) (manifest (dc_lineage expected)))) changed;
    if dc_status current !== dc_active then Ok (s, current)
    else let quarantined := current <| dc_status := dc_suspicious |> in Ok (set_channel key quarantined s, quarantined)).

Definition retireChannel (id : string) (s : ClientStore) : ClientStore * result () :=
  let key := channelKey id in
  atomic s (
    _ ← assertChannelMutable s id;
    match get_channel s key with
    | None => Ok (s, tt)
    | Some channel => Ok (set_channel key (channel <| dc_status := dc_retired |>) s, tt)
    end).

Definition deleteChannel (id : string) (s : ClientStore) : ClientStore * result () :=
  let key := channelKey id in
  atomic s (
    _ ← assertChannelMutable s id;
    let s := match get_funding s key with
             | Some a => if fa_status a === at_applied
                         then s <| cs_fundingAttempts := map_delete key (cs_fundingAttempts s) |> else s
             | None => s
             end in
    Ok (s <| cs_channels := map_delete key (cs_channels s) |>, tt)).

(** ** Funding transitions *)

(** Whether an open attempt is for the covenant or the lane of a new one *)
Definition blocks_lane (attempt candidate : FundingTransitionAttemptRecord) : bool :=
  isOpenFundingAttempt (Some candidate)
  && (sameHex (fs_covenantId (fa_intendedSuccessor candidate)) (fs_covenantId (fa_intendedSuccessor attempt))
      || match fa_kind candidate, fa_kind attempt with
         | GenesisKind i, GenesisKind j => sameGenesisLane i j
         | _, _ => false
         end).
Definition claimFundingTransitionAttempt (attempt : FundingTransitionAttemptRecord) (s : ClientStore) : ClientStore * result () :=
  let key := channelKey (fa_channelId attempt) in
  atomic s (
    new ← isNewFundingAttempt sha256 attempt;
    _ ← throw_if (negb new) "new funding transition attempt must be pending";
    _ ← throw_if (isOpenFundingAttempt (get_funding s key)) "funding transition attempt is already pending";
    _ ← throw_if (existsb (blocks_lane attempt) (map snd (cs_fundingAttempts s))) "payment lane already has an open funding transition";
    _ ← throw_if (isOpenRefundAttempt (get_refund s key)) "channel has an open refund attempt";
    matches ← newFundingAttemptMatchesChannel sha256 (get_channel s key) attempt;
    _ ← throw_if (negb matches) "channel state changed before funding transition claim";
    Ok (set_funding key attempt s, tt)).

Definition saveFundingTransitionAttempt (attempt : FundingTransitionAttemptRecord) (s : ClientStore) : ClientStore * result () :=
  let key := channelKey (fa_channelId attempt) in
  atomic s (
    let closed := "funding transition attempt is not open" in
    existing ← required (get_funding s key) closed;
    _ ← throw_if (fa_status existing === at_applied) closed;
    _ ← throw_if ((fa_status existing !== at_pending) || (fa_status attempt !== at_broadcast)
                  || (fa_finality attempt !== Some "broadcast") || negb (sameFundingArtifact existing attempt))
          "funding transition update does not match pending artifact";
    Ok (set_funding key attempt s, tt)).

(** [decision.status === "confirmed"] for an accepted evidence *)
Definition confirmed (acceptance : AcceptedTransactionEvidence) (requiredConfirmations : Z) : result bool :=
  decision ← decideChainEvidence (StatusAccepted acceptance) requiredConfirmations;
  Ok (match decision with DecidedConfirmed _ => true | _ => false end).
Definition same_kind (e : FundingEvidence) (k : FundingKind) : bool :=
  match e, k with
  | GenesisEvidence _, GenesisKind _ | TopUpEvidence _, TopUpKind _ => true
  | _, _ => false
  end.
Definition applyFundingTransitionAttempt (request : FundingTransitionAttemptApplyRequest) (s : ClientStore) :
    ClientStore * result (DirectModeChannel * FundingTransitionAttemptRecord) :=
  let key := channelKey (fr_channelId request) in
  atomic s (
    attempt ← required (get_funding s key) "funding transition attempt was not found";
    _ ← throw_if (negb (same_kind (fr_evidence request) (fa_kind attempt))) "funding transition kind does not match pending attempt";
    _ ← throw_if (negb (sameHex (fa_transactionId attempt) (fr_transactionId request)))
          "funding transaction id does not match pending attempt";
    final ← confirmed (fr_acceptance request) (fa_requiredConfirmations attempt);
    _ ← throw_if (negb final || negb (sameHex (ae_transactionId (fr_acceptance request)) (fa_transactionId attempt)))
          "funding transition has not reached the configured confirmation threshold";
    let current := get_channel s key in
    if fa_status attempt === at_applied then
      let inconsistent := "applied funding attempt has inconsistent channel state" in
      _ ← throw_if (negb (appliedFundingAttemptMatchesChannel current attempt)) inconsistent;
      channel ← required current inconsistent;
      Ok (s, (channel, attempt))
    else
      _ ← throw_if (negb (openFundingAttemptMatchesChannel current attempt)) "channel state changed before funding transition apply";
      _ ← throw_if (negb (evidenceMatchesFundingAttempt request attempt)) "funding transition evidence does not match reserved successor";
      channel ← match fa_kind attempt with
                | GenesisKind i => channelFromGenesisAttempt sha256 attempt i (fr_evidence request)
                | TopUpKind c => channelFromTopUpAttempt sha256 attempt c (fr_evidence request)
                end;
      let applied := attempt <| fa_status := at_applied |> <| fa_finality := Some "confirmed" |>
                       <| fa_acceptance := Some (fr_acceptance request) |> in
      Ok (set_funding key applied (set_channel key channel s), (channel, applied))).

Definition releaseFundingTransitionAttempt (id transactionId : string) (s : ClientStore) : ClientStore * result () :=
  let key := channelKey id in
  atomic s (
    let closed := "funding transition attempt is not open" in
    attempt ← required (get_funding s key) closed;
    _ ← throw_if (fa_status attempt === at_applied) closed;
    _ ← throw_if (negb (sameHex (fa_transactionId attempt) transactionId)) "funding transaction id does not match pending attempt";
    _ ← throw_if (negb (openFundingAttemptMatchesChannel (get_channel s key) attempt)) "channel state changed before funding transition release";
    Ok (s <| cs_fundingAttempts := map_delete key (cs_fundingAttempts s) |>, tt)).

(** ** Refunds *)

Definition claimRefundAttempt (attempt : RefundAttemptRecord) (s : ClientStore) : ClientStore * result () :=
  let key := channelKey (ra_channelId attempt) in
  atomic s (
    _ ← throw_if ((ra_status attempt !== at_pending) || isSome (ra_finality attempt) || isSome (ra_acceptance attempt))
          "new refund attempt must be pending";
    _ ← throw_if (isOpenRefundAttempt (get_refund s key)) "refund attempt is already pending";
    _ ← throw_if (isSome (get_refund s key)) "refund attempt is already applied";
    _ ← throw_if (isOpenFundingAttempt (get_funding s key)) "channel has an open funding transition";
    _ ← throw_if (negb (channelMatchesRefundAttempt (get_channel s key) attempt)) "channel state changed before refund claim";
    Ok (set_refund key attempt s, tt)).

Definition saveRefundAttempt (attempt : RefundAttemptRecord) (s : ClientStore) : ClientStore * result () :=
  let key := channelKey (ra_channelId attempt) in
  atomic s (
    let closed := "refund attempt is not open" in
    existing ← required (get_refund s key) closed;
    _ ← throw_if (ra_status existing === at_applied) closed;
    _ ← throw_if ((ra_status existing !== at_pending) || (ra_status attempt !== at_broadcast)
                  || (ra_finality attempt !== Some "broadcast") || negb (sameRefundArtifact existing attempt))
          "refund attempt update does not match pending artifact";
    Ok (set_refund key attempt s, tt)).

Definition refund_transition (attempt : RefundAttemptRecord) (current : DirectModeChannel)
    (acceptance : AcceptedTransactionEvidence) : CovenantLineageTransition :=
  Transition "refund" (ra_covenantId attempt) (dc_templateId current) (ra_activeOutpoint attempt) (ra_transactionId attempt) 0
    None (Some (TerminalOutput 0 (ra_refundScriptPublicKey attempt) (ra_refundAmount attempt))) acceptance.
Definition applyRefundAttempt (request : RefundAttemptApplyRequest) (s : ClientStore) :
    ClientStore * result (DirectModeChannel * RefundAttemptRecord) :=
  let key := channelKey (rr_channelId request) in
  atomic s (
    attempt ← required (get_refund s key) "refund attempt was not found";
    _ ← throw_if (negb (sameHex (ra_transactionId attempt) (rr_transactionId request)))
          "refund transaction id does not match pending attempt";
    final ← confirmed (rr_acceptance request) (ra_requiredConfirmations attempt);
    _ ← throw_if (negb final || negb (sameHex (ae_transactionId (rr_acceptance request)) (ra_transactionId attempt)))
          "refund has not reached the configured confirmation threshold";
    let current := get_channel s key in
    if ra_status attempt === at_applied then
      let inconsistent := "applied refund attempt has inconsistent channel state" in
      channel ← required (if channelHeadMatchesRefundAttempt current attempt then current else None) inconsistent;
      _ ← throw_if ((dc_status channel !== dc_refunded)
                    || ((ra_finality attempt !== Some "accepted") && (ra_finality attempt !== Some "confirmed"))) inconsistent;
      Ok (s, (channel, attempt))
    else
      channel ← required (if channelMatchesRefundAttempt current attempt then current else None) "channel state changed before refund apply";
      lineage ← applyCovenantSelectedChainUpdate sha256 (dc_lineage channel)
                  (one_transition_update (dc_lineage channel) (rr_acceptance request) (refund_transition attempt channel (rr_acceptance request)));
      let refunded := channel <| dc_lineage := lineage |> <| dc_status := dc_refunded |> in
      let applied := attempt <| ra_status := at_applied |> <| ra_finality := Some "confirmed" |>
                       <| ra_acceptance := Some (rr_acceptance request) |> in
      Ok (set_refund key applied (set_channel key refunded s), (refunded, applied))).

Definition releaseRefundAttempt (id transactionId : string) (s : ClientStore) : ClientStore * result () :=
  let key := channelKey id in
  atomic s (
    let closed := "refund attempt is not open" in
    attempt ← required (get_refund s key) closed;
    _ ← throw_if (ra_status attempt === at_applied) closed;
    _ ← throw_if (negb (sameHex (ra_transactionId attempt) transactionId)) "refund transaction id does not match pending attempt";
    _ ← throw_if (negb (channelMatchesRefundAttempt (get_channel s key) attempt)) "channel state changed before refund release";
    Ok (s <| cs_refundAttempts := map_delete key (cs_refundAttempts s) |>, tt)).

(** ** Lineage reconciliation *)

(** Whether the appended events remove this transaction from the block that accepted it *)
Definition removal_recorded (appended : list CovenantLineageEvent) (acceptance : option AcceptedTransactionEvidence)
    (transactionId : string) : bool :=
  match acceptance with
  | None => false
  | Some a =>
      existsb (fun event => match event with
        | EventRemoved _ hash ids => sameHex hash (acceptingBlockHash a) && existsb (fun id => sameHex id transactionId) ids
        | _ => false
        end) appended
  end.
(** An applied top-up that left the canonical chain is open again. *)
Definition reopen_top_up (key : string) (lineage : CovenantLineageState) (channel : DirectModeChannel)
    (appended : list CovenantLineageEvent) (anchored : list string) (s : ClientStore) : result ClientStore :=
  match get_funding s key with
  | Some a =>
      match fa_kind a with
      | TopUpKind _ =>
          if fa_status a !== at_applied then Ok s else
          canonical ← or_else (Ok (existsb (fun id => id === toLowerCase (fa_transactionId a)) anchored))
                        (l ← canonicalCovenantTransitions sha256 lineage;
                         Ok (existsb (fun t => sameHex (transactionId t) (fa_transactionId a)) l));
          if canonical : bool then Ok s else
          _ ← throw_if (negb ((dc_status channel === dc_refundable) && removal_recorded appended (fa_acceptance a) (fa_transactionId a)))
                "applied top-up can only reopen after its selected-chain removal";
          Ok (set_funding key (a <| fa_kind := TopUpKind channel |> <| fa_status := at_broadcast |>
                                 <| fa_finality := Some "broadcast" |> <| fa_acceptance := None |>) s)
      | GenesisKind _ => Ok s
      end
  | None => Ok s
  end.
(** An applied refund that left the canonical chain is forgotten. *)
Definition roll_back_refund (key : string) (current : DirectModeChannel) (lineage : CovenantLineageState) (channel : DirectModeChannel)
    (appended : list CovenantLineageEvent) (anchored : list string) (s : ClientStore) : result ClientStore :=
  match get_refund s key with
  | Some a =>
      if ra_status a !== at_applied then Ok s else
      canonical ← or_else (Ok (existsb (fun id => id === toLowerCase (ra_transactionId a)) anchored))
                    (l ← canonicalCovenantTransitions sha256 lineage;
                     Ok (existsb (fun t => (kind t === "refund") && sameHex (transactionId t) (ra_transactionId a)
                                           && sameOutpoint (consumedOutpoint t) (ra_activeOutpoint a)) l));
      if canonical : bool then Ok s else
      _ ← throw_if (negb ((dc_status current === dc_refunded) && isNone (currentHead (dc_lineage current))
                          && isSome (currentHead lineage) && (dc_status channel === dc_refundable)
                          && removal_recorded appended (ra_acceptance a) (ra_transactionId a)))
            "applied refund can only roll back after its selected-chain removal restores a refund-only head";
      Ok (s <| cs_refundAttempts := map_delete key (cs_refundAttempts s) |>)
  | None => Ok s
  end.
(** The only method that can throw after a change: a top-up is reopened before the refund is
    examined. *)
Definition applyCovenantLineage (expectedChannel : DirectModeChannel) (lineage : CovenantLineageState) (channel : DirectModeChannel)
    (s : ClientStore) : ClientStore * result DirectModeChannel :=
  let key := channelKey (dc_id expectedChannel) in
  let checked :=
    let changed := "channel changed before covenant lineage reconciliation" in
    current ← required (get_channel s key) changed;
    _ ← throw_if (negb (sameChannelSnapshot current expectedChannel)) changed;
    _ ← throw_if (isOpenFundingAttempt (get_funding s key)) "channel has an open funding transition";
    _ ← throw_if (isOpenRefundAttempt (get_refund s key)) "channel has an open refund attempt";
    _ ← throw_if (negb (sameManifest (manifest (dc_lineage current)) (manifest lineage))) "covenant launch manifest is immutable";
    _ ← assertCovenantLineageExtension sha256 (dc_lineage current) lineage;
    let compacted := compactedEvents (anchor lineage) - compactedEvents (anchor (dc_lineage current)) in
    let appended := drop (Z.to_nat (Z.of_nat (length (journal (dc_lineage current))) - compacted)) (journal lineage) in
    let anchored := accepted_ids (take (Z.to_nat compacted) (journal (dc_lineage current))) in
    _ ← throw_if (negb (sameHex (dc_id channel) (dc_id current)) || negb (sameLineage (dc_lineage channel) lineage))
          "reconciled channel does not own the supplied lineage";
    _ ← assertChannelLineageConsistency sha256 channel;
    reopened ← reopen_top_up key lineage channel appended anchored s;
    Ok (current, appended, anchored, reopened) in
  match checked with
  | Throw e => (s, Throw e)
  | Ok (current, appended, anchored, reopened) =>
      atomic reopened (
        s ← roll_back_refund key current lineage channel appended anchored reopened;
        Ok (set_channel key channel s, channel))
  end.

(** ** Exact payments *)

Definition claimExactPaymentAttempt (attempt : ExactPaymentAttemptRecord) (s : ClientStore) : ClientStore * result ExactPaymentAttemptRecord :=
  let key := channelKey (ep_attemptId attempt) in
  atomic s (
    ok ← and_also (exactPaymentAttemptIsConsistent sha256 url_href attempt) (Ok (ep_status attempt === ex_pending));
    _ ← throw_if (negb ok) "new exact payment attempt is inconsistent";
    let existing := match get_exact s key with
                    | Some a => Some a
                    | None => loadExactPaymentAttemptByIdentifier s (ep_paymentIdentifier attempt)
                    end in
    match existing with
    | Some existing =>
        same ← sameExactPaymentIntent existing attempt;
        _ ← throw_if (negb same) "exact payment attempt conflicts with an existing logical payment";
        Ok (s, existing)
    | None => Ok (set_identifier (ep_paymentIdentifier attempt) key (set_exact key attempt s), attempt)
    end).

Definition resolveExactPaymentAttempt (attemptId transactionId : string) (outcome : ExactPaymentAttemptStatus)
    (evidence : TrustedTransactionEvidence) (output : option ExactPaymentOutputEvidence) (s : ClientStore) :
    ClientStore * result ExactPaymentAttemptRecord :=
  let key := channelKey attemptId in
  atomic s (
    attempt ← required (get_exact s key) "exact payment attempt was not found";
    _ ← throw_if (negb (sameHex (ep_transactionId attempt) transactionId)) "exact transaction id does not match pending attempt";
    if ep_status attempt !== ex_pending then
      _ ← throw_if (ep_status attempt !== outcome) "exact payment terminal outcome cannot change";
      Ok (s, attempt)
    else
      let evidence_id := match evidence with
                         | StatusAccepted e => ae_transactionId e
                         | StatusAbsent e => abs_transactionId e
                         | StatusUnknown e => unk_transactionId e
                         end in
      let is_accepted := match evidence with StatusAccepted _ => true | _ => false end in
      let is_absent := match evidence with StatusAbsent _ => true | _ => false end in
      _ ← throw_if (negb (sameHex evidence_id (ep_transactionId attempt))
                    || (outcome === ex_accepted) && (negb is_accepted || isNone output)
                    || (outcome === ex_absent) && (negb is_absent || isSome output))
            "exact payment resolution evidence is inconsistent";
      let resolved := attempt <| ep_status := outcome |> <| ep_evidence := Some evidence |>
                        <| ep_output := match output with Some o => Some o | None => ep_output attempt end |>
                        <| ep_providerFinalized := false |> in
      ok ← exactPaymentAttemptIsConsistent sha256 url_href resolved;
      _ ← throw_if (negb ok) "resolved exact payment attempt is inconsistent";
      Ok (set_exact key resolved s, resolved)).

Definition markExactPaymentProviderFinalized (attemptId transactionId : string) (s : ClientStore) :
    ClientStore * result ExactPaymentAttemptRecord :=
  let key := channelKey attemptId in
  atomic s (
    attempt ← required (get_exact s key) "exact payment attempt was not found";
    _ ← throw_if (negb (sameHex (ep_transactionId attempt) transactionId)) "exact transaction id does not match pending attempt";
    _ ← throw_if (ep_status attempt === ex_pending) "pending exact payment cannot finalize provider state";
    let finalized := attempt <| ep_providerFinalized := true |> in
    Ok (set_exact key finalized s, finalized)).

(** ** Sequences of calls *)

Inductive ClientCommand :=
  | SaveChannel (expected : option DirectModeChannel) (channel : DirectModeChannel)
  | ApplySettled (expected channel : DirectModeChannel)
  | Quarantine (expected : DirectModeChannel)
  | Retire (id : string)
  | Delete (id : string)
  | ClaimFunding (attempt : FundingTransitionAttemptRecord)
  | SaveFunding (attempt : FundingTransitionAttemptRecord)
  | ApplyFunding (request : FundingTransitionAttemptApplyRequest)
  | ReleaseFunding (id transactionId : string)
  | ClaimRefund (attempt : RefundAttemptRecord)
  | SaveRefund (attempt : RefundAttemptRecord)
  | ApplyRefund (request : RefundAttemptApplyRequest)
  | ReleaseRefund (id transactionId : string)
  | ApplyLineage (expected : DirectModeChannel) (lineage : CovenantLineageState) (channel : DirectModeChannel)
  | ClaimExact (attempt : ExactPaymentAttemptRecord)
  | ResolveExact (attemptId transactionId : string) (outcome : ExactPaymentAttemptStatus) (evidence : TrustedTransactionEvidence)
      (output : option ExactPaymentOutputEvidence)
  | FinalizeExact (attemptId transactionId : string).
(** The store a call leaves behind, and whether it returned *)
Definition call {A} (r : ClientStore * result A) : ClientStore * bool := (r.1, is_ok r.2).
Definition exec (c : ClientCommand) (s : ClientStore) : ClientStore * bool :=
  match c with
  | SaveChannel e c => call (saveChannel e c s)
  | ApplySettled e c => call (applySettledChannel e c s)
  | Quarantine e => call (quarantineChannel e s)
  | Retire id => call (retireChannel id s)
  | Delete id => call (deleteChannel id s)
  | ClaimFunding a => call (claimFundingTransitionAttempt a s)
  | SaveFunding a => call (saveFundingTransitionAttempt a s)
  | ApplyFunding r => call (applyFundingTransitionAttempt r s)
  | ReleaseFunding id t => call (releaseFundingTransitionAttempt id t s)
  | ClaimRefund a => call (claimRefundAttempt a s)
  | SaveRefund a => call (saveRefundAttempt a s)
  | ApplyRefund r => call (applyRefundAttempt r s)
  | ReleaseRefund id t => call (releaseRefundAttempt id t s)
  | ApplyLineage e l c => call (applyCovenantLineage e l c s)
  | ClaimExact a => call (claimExactPaymentAttempt a s)
  | ResolveExact id t o e out => call (resolveExactPaymentAttempt id t o e out s)
  | FinalizeExact id t => call (markExactPaymentProviderFinalized id t s)
  end.
Definition exec_all (cs : list ClientCommand) (s : ClientStore) : ClientStore := foldl (fun s c => (exec c s).1) s cs.
End Store.
