(* ===== verification/ClientStoreSteps.v ===== *)
(** * What the client's store can do

    An abstract machine of [MemoryChannelStore]: one step per kind of change, with the
    conditions under which the store makes it.  Every method call of ClientStoreOps.v leaves
    the store as it was or makes one such step. *)

From S2P Require Import Prelude Amount Json Binary ResourceBudget Commitment ChainTruth Template Channels ClientStore.
From S2P Require Import ClientStoreOps.

(** ** Tables *)

Section Tables.
Context {V : Type}.
Implicit Types (m : list (string * V)) (k : string).
Definition unique_keys m : Prop := NoDup (map fst m).

Lemma map_set_unique k v m : unique_keys m -> unique_keys (map_set k v m).
Proof.
  unfold unique_keys. induction m as [|[k' w] m IH]; cbn [map_set map fst]; [intros _; by apply NoDup_singleton|].
  intros [Hk Hm]%NoDup_cons. destruct (decide (k = k')) as [->|]; cbn [map fst]; constructor; auto.
  rewrite <- map_get_None in *. rewrite map_set_get. by rewrite decide_False.
Qed.
Lemma map_delete_keys_sub k k' m : k' ∈ map fst (map_delete k m) -> k' ∈ map fst m.
Proof.
  induction m as [|[k2 w] m IH]; cbn [map_delete map fst]; [done|].
  destruct (decide _); cbn [map fst]; rewrite !elem_of_cons; [by right|]. intros [?|?]; auto.
Qed.
Lemma map_delete_unique k m : unique_keys m -> unique_keys (map_delete k m).
Proof.
  unfold unique_keys. induction m as [|[k' w] m IH]; cbn [map_delete map fst]; [done|].
  intros [Hk Hm]%NoDup_cons. destruct (decide _); [done|]. cbn [map fst]. constructor; [|auto].
  intros H%map_delete_keys_sub. done.
Qed.
Lemma map_delete_get k k' m : unique_keys m -> map_get k' (map_delete k m) = if decide (k' = k) then None else map_get k' m.
Proof.
  unfold unique_keys. induction m as [|[k2 w] m IH]; cbn [map_delete map_get map fst]; [by destruct (decide _)|].
  intros [Hk Hm]%NoDup_cons. destruct (decide (k = k2)) as [->|].
  - destruct (decide (k' = k2)) as [->|]; [by apply map_get_None|done].
  - cbn [map_get]. destruct (decide (k' = k2)) as [->|]; [by rewrite decide_False|auto].
Qed.
Lemma map_delete_get_ne k k' m : k' <> k -> map_get k' (map_delete k m) = map_get k' m.
Proof.
  intros Hk. induction m as [|[k2 w] m IH]; cbn [map_delete map_get]; [done|].
  destruct (decide (k = k2)) as [->|]; [by rewrite decide_False|]. cbn [map_get]. destruct (decide (k' = k2)); [done|auto].
Qed.
End Tables.

Lemma set_channel_get k c s k' : get_channel (set_channel k c s) k' = if decide (k' = k) then Some c else get_channel s k'.
Proof. apply map_set_get. Qed.
Lemma set_funding_get k a s k' : get_funding (set_funding k a s) k' = if decide (k' = k) then Some a else get_funding s k'.
Proof. apply map_set_get. Qed.
Lemma set_refund_get k a s k' : get_refund (set_refund k a s) k' = if decide (k' = k) then Some a else get_refund s k'.
Proof. apply map_set_get. Qed.
Lemma set_exact_get k a s k' : get_exact (set_exact k a s) k' = if decide (k' = k) then Some a else get_exact s k'.
Proof. apply map_set_get. Qed.

(** ** Comparisons *)

Lemma sameHex_iff a b : sameHex a b = true <-> toLowerCase a = toLowerCase b.
Proof. unfold sameHex. by rewrite bool_decide_eq_true. Qed.
Lemma sameHex_key a b : sameHex a b = true <-> channelKey a = channelKey b.
Proof. apply sameHex_iff. Qed.

Lemma texts_same a b : texts_differ a b = Ok false -> sorted_keys a = sorted_keys b.
Proof.
  unfold texts_differ. intros H. inv_ok. subst. by eapply stableStringify_inj.
Qed.

(** The head of a channel: what refunds and snapshots identify it by *)
Record same_head (c c' : DirectModeChannel) : Prop := {
  sh_id : channelKey (dc_id c) = channelKey (dc_id c');
  sh_covenantId : toLowerCase (dc_covenantId c) = toLowerCase (dc_covenantId c');
  sh_outpoint : sameOutpoint (dc_activeOutpoint c) (dc_activeOutpoint c') = true;
  sh_script : toLowerCase (dc_activeScriptPublicKey c) = toLowerCase (dc_activeScriptPublicKey c');
  sh_amount : dc_fundingAmount c = dc_fundingAmount c'
}.
Lemma snapshot_head a b : sameChannelSnapshot a b = true -> same_head a b /\ dc_status a = dc_status b.
Proof. unfold sameChannelSnapshot. intros H. inv_bool. split; [constructor|]; try done; by apply sameHex_iff. Qed.

Lemma sameOutpoint_trans a b c : sameOutpoint a b = true -> sameOutpoint b c = true -> sameOutpoint a c = true.
Proof. unfold sameOutpoint. intros. inv_bool. apply andb_true_iff. rewrite bool_decide_eq_true, Z.eqb_eq. split; congruence. Qed.

(** ** The machine *)

(** No attempt is open on the key and no refund is on record. *)
Definition channel_mutable (s : ClientStore) (key : string) : Prop :=
  isOpenFundingAttempt (get_funding s key) = false /\ get_refund s key = None.
(** A kept channel: the head is the one before, the status may only become "suspicious". *)
Definition touched (c c' : DirectModeChannel) : Prop :=
  same_head c c' /\ dc_status c = dc_active /\ (dc_status c' = dc_active \/ dc_status c' = dc_suspicious).
Definition drop_funding (key : string) (s : ClientStore) : ClientStore :=
  s <| cs_fundingAttempts := map_delete key (cs_fundingAttempts s) |>.
Definition drop_refund (key : string) (s : ClientStore) : ClientStore :=
  s <| cs_refundAttempts := map_delete key (cs_refundAttempts s) |>.
Definition drop_channel (key : string) (s : ClientStore) : ClientStore :=
  s <| cs_channels := map_delete key (cs_channels s) |>.

(** An applied top-up that becomes an open one for the reconciled channel *)
Definition reopens (s : ClientStore) (key : string) (a a' : FundingTransitionAttemptRecord) : Prop :=
  get_funding s key = Some a /\ fa_status a = at_applied /\ fa_channelId a' = fa_channelId a /\ fa_status a' = at_broadcast /\
  exists c, fa_kind a' = TopUpKind c /\ channelKey (dc_id c) = key /\ dc_status c = dc_refundable.
(** The part of an exact attempt that does not depend on its outcome *)
Definition exact_intent (a : ExactPaymentAttemptRecord) : ExactPaymentAttemptRecord :=
  a <| ep_status := ex_pending |> <| ep_evidence := None |> <| ep_output := None |> <| ep_providerFinalized := false |>.

Inductive client_step : ClientStore -> ClientStore -> Prop :=
  | step_put key c s : channelKey (dc_id c) = key -> channel_mutable s key -> client_step s (set_channel key c s)
  | step_retire key c s :
      get_channel s key = Some c -> channel_mutable s key -> client_step s (set_channel key (c <| dc_status := dc_retired |>) s)
  | step_delete key s s' : channel_mutable s key -> s' = s \/ s' = drop_funding key s -> client_step s (drop_channel key s')
  (* a settlement or a quarantine, both possible while an attempt is open *)
  | step_touch key c c' s : get_channel s key = Some c -> touched c c' -> client_step s (set_channel key c' s)
  | step_claim_funding key a s :
      channelKey (fa_channelId a) = key -> fa_status a = at_pending -> channelKey (fundingAttemptChannelId a) = key ->
      isOpenFundingAttempt (get_funding s key) = false -> isOpenRefundAttempt (get_refund s key) = false ->
      openFundingAttemptMatchesChannel (get_channel s key) a = true -> client_step s (set_funding key a s)
  | step_save_funding key a a' s :
      get_funding s key = Some a -> channelKey (fa_channelId a') = key -> fa_status a = at_pending -> fa_status a' = at_broadcast ->
      sameFundingArtifact a a' = true -> client_step s (set_funding key a' s)
  | step_apply_funding key a a' c s :
      get_funding s key = Some a -> fa_status a <> at_applied -> openFundingAttemptMatchesChannel (get_channel s key) a = true ->
      fa_status a' = at_applied -> fa_channelId a' = fa_channelId a -> fa_kind a' = fa_kind a ->
      channelKey (dc_id c) = channelKey (fa_channelId a) \/ channelKey (dc_id c) = channelKey (fundingAttemptChannelId a) ->
      client_step s (set_funding key a' (set_channel key c s))
  | step_release_funding key a s :
      get_funding s key = Some a -> fa_status a <> at_applied -> openFundingAttemptMatchesChannel (get_channel s key) a = true ->
      client_step s (drop_funding key s)
  | step_claim_refund key a s :
      channelKey (ra_channelId a) = key -> ra_status a = at_pending -> get_refund s key = None ->
      isOpenFundingAttempt (get_funding s key) = false -> channelMatchesRefundAttempt (get_channel s key) a = true ->
      client_step s (set_refund key a s)
  | step_save_refund key a a' s :
      get_refund s key = Some a -> channelKey (ra_channelId a') = key -> ra_status a = at_pending -> ra_status a' = at_broadcast ->
      sameRefundArtifact a a' = true -> client_step s (set_refund key a' s)
  | step_apply_refund key a a' c c' s :
      get_refund s key = Some a -> ra_status a <> at_applied -> get_channel s key = Some c ->
      channelMatchesRefundAttempt (Some c) a = true -> ra_status a' = at_applied -> ra_channelId a' = ra_channelId a ->
      dc_status c' = dc_refunded -> dc_id c' = dc_id c -> client_step s (set_refund key a' (set_channel key c' s))
  | step_release_refund key a s :
      get_refund s key = Some a -> ra_status a <> at_applied -> channelMatchesRefundAttempt (get_channel s key) a = true ->
      client_step s (drop_refund key s)
  (* reconciliation: the channel is replaced, unless the call throws between its changes *)
  | step_reopen key a a' s :
      reopens s key a a' -> is_Some (get_channel s key) -> isOpenRefundAttempt (get_refund s key) = false -> client_step s (set_funding key a' s)
  | step_reconcile key c s s1 s2 :
      channelKey (dc_id c) = key -> is_Some (get_channel s key) ->
      isOpenFundingAttempt (get_funding s key) = false -> isOpenRefundAttempt (get_refund s key) = false ->
      s1 = s \/ (exists a a', reopens s key a a' /\ s1 = set_funding key a' s) ->
      s2 = s1 \/ (dc_status c = dc_refundable /\ s2 = drop_refund key s1) -> client_step s (set_channel key c s2)
  | step_claim_exact key a s :
      channelKey (ep_attemptId a) = key -> key <> "" -> ep_status a = ex_pending -> get_exact s key = None ->
      loadExactPaymentAttemptByIdentifier s (ep_paymentIdentifier a) = None ->
      client_step s (set_identifier (ep_paymentIdentifier a) key (set_exact key a s))
  | step_resolve_exact key a a' s :
      get_exact s key = Some a -> ep_status a = ex_pending -> ep_status a' <> ex_pending -> exact_intent a' = exact_intent a ->
      client_step s (set_exact key a' s)
  | step_finalize_exact key a s :
      get_exact s key = Some a -> ep_status a <> ex_pending ->
      client_step s (set_exact key (a <| ep_providerFinalized := true |>) s).

(** ** Every call is a step *)

Lemma atomic_step {A} s (m : result (ClientStore * A)) :
  (forall s' a, m = Ok (s', a) -> s' = s \/ client_step s s') -> (atomic s m).1 = s \/ client_step s (atomic s m).1.
Proof. destruct m as [[s' a]|e]; cbn; [intros H; by eapply H|by left]. Qed.

Lemma required_ok {A} (x : option A) msg a : required x msg = Ok a <-> x = Some a.
Proof. destruct x; cbn; naive_solver. Qed.

Lemma mutable_ok s id u : assertChannelMutable s id = Ok u -> channel_mutable s (channelKey id).
Proof.
  unfold assertChannelMutable. intros H. inv_ok. split; [done|].
  unfold isOpenRefundAttempt in *. destruct (get_refund s (channelKey id)); [|done]. inv_bool. done.
Qed.

(** An unchanged object has the head of the original. *)
Lemma channel_json_head c c' :
  sorted_keys (direct_channel_json c) = sorted_keys (direct_channel_json c') -> same_head c c' /\ dc_id c = dc_id c'.
Proof.
  unfold direct_channel_json. intros E.
  same_field E "id" (JString (dc_id c)).
  same_field E "covenantId" (JString (dc_covenantId c)).
  same_field E "activeScriptPublicKey" (JString (dc_activeScriptPublicKey c)).
  same_field E "fundingAmount" (JString (dc_fundingAmount c)).
  same_field E "activeOutpoint" (outpoint_json (dc_activeOutpoint c)).
  split; [|done]. constructor; try congruence.
  unfold sameOutpoint. apply andb_true_iff. rewrite bool_decide_eq_true, Z.eqb_eq. by rewrite H, H5.
Qed.
Lemma same_head_trans c c' c'' : same_head c c' -> same_head c' c'' -> same_head c c''.
Proof.
  intros [] []. constructor; try congruence. by eapply sameOutpoint_trans.
Qed.
Lemma sameOutpoint_sym a b : sameOutpoint a b = sameOutpoint b a.
Proof. unfold sameOutpoint. f_equal; [by apply bool_decide_ext|apply Z.eqb_sym]. Qed.
Lemma same_head_sym c c' : same_head c c' -> same_head c' c.
Proof. intros []. constructor; try congruence. by rewrite sameOutpoint_sym. Qed.

Lemma and_also_true l r : and_also l r = Ok true <-> l = Ok true /\ r = Ok true.
Proof. destruct l as [[]|]; cbn; naive_solver. Qed.

(** The facts a call that returned has established *)
Ltac call_facts := cbv zeta in *;
  repeat progress (inv_ok; repeat match goal with H : required _ _ = Ok _ |- _ => apply required_ok in H
                              | H : and_also _ _ = Ok true |- _ => apply and_also_true in H as [? ?]
                              | H : ?x = true |- _ => is_var x; subst x | H : ?x = false |- _ => is_var x; subst x end).
Ltac step_of_call := apply atomic_step; intros ?s' ?r ?H; call_facts.

Section Refines.
Context (sha256 : bytes -> bytes) (url_href : string -> option string).
Notation exec := (exec sha256 url_href).

Lemma saveChannel_step e c s : let t := (saveChannel sha256 e c s).1 in t = s \/ client_step s t.
Proof. apply atomic_step. intros s' [] H. inv_ok. right. apply step_put; [done|by eapply mutable_ok]. Qed.

Lemma retireChannel_step id s : let t := (retireChannel id s).1 in t = s \/ client_step s t.
Proof.
  apply atomic_step. intros s' [] H. inv_ok. apply mutable_ok in H0.
  destruct (get_channel s (channelKey id)) as [c|] eqn:E; inv_ok; [|by left]. right. subst. by apply step_retire.
Qed.

Lemma deleteChannel_step id s : let t := (deleteChannel id s).1 in t = s \/ client_step s t.
Proof.
  apply atomic_step. intros s' [] H. inv_ok. right. apply (step_delete (channelKey id)); [by eapply mutable_ok|].
  destruct (get_funding s _); [destruct (bool_decide _)|]; auto.
Qed.

Lemma applySettledChannel_step e c s : let t := (applySettledChannel sha256 e c s).1 in t = s \/ client_step s t.
Proof.
  step_of_call. right. eapply step_touch; [done|]. apply texts_same, channel_json_head in H3 as [H3 _].
  apply snapshot_head in H1 as [H1 _]. split; [|auto]. eapply same_head_trans; [done|]. apply same_head_sym. by destruct H3.
Qed.

Lemma quarantineChannel_step e s : let t := (quarantineChannel e s).1 in t = s \/ client_step s t.
Proof.
  step_of_call. destruct (bool_decide (dc_status x = dc_active)) eqn:E; cbn [negb] in *; call_facts; [|by left].
  right. eapply step_touch; [done|]. split; [|auto]. constructor; try done. unfold sameOutpoint. apply andb_true_iff.
  by rewrite bool_decide_eq_true, Z.eqb_eq.
Qed.

Lemma claim_matches_open channel a :
  newFundingAttemptMatchesChannel sha256 channel a = Ok true -> openFundingAttemptMatchesChannel channel a = true.
Proof.
  unfold newFundingAttemptMatchesChannel, openFundingAttemptMatchesChannel.
  destruct (fa_kind a), channel; intros H; call_facts; done.
Qed.
Lemma artifact_owner a :
  fundingAttemptArtifactIsConsistent sha256 a = Ok true -> channelKey (fa_channelId a) = channelKey (fundingAttemptChannelId a).
Proof. unfold fundingAttemptArtifactIsConsistent. intros H. call_facts. by apply sameHex_key. Qed.
Lemma claimFunding_step a s : let t := (claimFundingTransitionAttempt sha256 a s).1 in t = s \/ client_step s t.
Proof.
  step_of_call. right. unfold isNewFundingAttempt in *. call_facts.
  apply step_claim_funding; try done; [symmetry; by apply artifact_owner|by apply claim_matches_open].
Qed.

Lemma saveFunding_step a s : let t := (saveFundingTransitionAttempt a s).1 in t = s \/ client_step s t.
Proof. step_of_call. right. by eapply step_save_funding. Qed.

Lemma funded_owner a request c :
  match fa_kind a with
  | GenesisKind i => channelFromGenesisAttempt sha256 a i (fr_evidence request)
  | TopUpKind e => channelFromTopUpAttempt sha256 a e (fr_evidence request)
  end = Ok c ->
  channelKey (dc_id c) = channelKey (fa_channelId a) \/ channelKey (dc_id c) = channelKey (fundingAttemptChannelId a).
Proof.
  unfold fundingAttemptChannelId, channelFromGenesisAttempt, channelFromTopUpAttempt.
  destruct (fa_kind a), (fr_evidence request); intros H; call_facts; auto.
Qed.
Lemma applyFunding_step r s : let t := (applyFundingTransitionAttempt sha256 r s).1 in t = s \/ client_step s t.
Proof.
  step_of_call. destruct (bool_decide (fa_status x = at_applied)) eqn:E; call_facts; [by left|].
  right. eapply step_apply_funding; try done. by eapply funded_owner.
Qed.
Lemma releaseFunding_step id t s : let t := (releaseFundingTransitionAttempt id t s).1 in t = s \/ client_step s t.
Proof. step_of_call. right. by eapply step_release_funding. Qed.

Lemma claimRefund_step a s : let t := (claimRefundAttempt a s).1 in t = s \/ client_step s t.
Proof.
  step_of_call. right. apply step_claim_refund; try done. unfold isSome in *. by destruct (get_refund s _).
Qed.
Lemma saveRefund_step a s : let t := (saveRefundAttempt a s).1 in t = s \/ client_step s t.
Proof. step_of_call. right. by eapply step_save_refund. Qed.
Lemma applyRefund_step r s : let t := (applyRefundAttempt sha256 r s).1 in t = s \/ client_step s t.
Proof.
  step_of_call. destruct (bool_decide (ra_status x = at_applied)) eqn:E; call_facts; [by left|].
  right. destruct (channelMatchesRefundAttempt (get_channel s (channelKey (rr_channelId r))) x) eqn:Em; [|done].
  match goal with Hc : get_channel s _ = Some _ |- _ => rewrite Hc in Em; by eapply step_apply_refund end.
Qed.
Lemma releaseRefund_step id t s : let t := (releaseRefundAttempt id t s).1 in t = s \/ client_step s t.
Proof. step_of_call. right. by eapply step_release_refund. Qed.

Lemma hash32_key h : is_hash32 h = true -> channelKey h <> "".
Proof. unfold is_hash32. intros H. call_facts. by destruct h. Qed.
Lemma consistent_key a : exactPaymentAttemptIsConsistent sha256 url_href a = Ok true -> channelKey (ep_attemptId a) <> "".
Proof.
  unfold exactPaymentAttemptIsConsistent. intros H. call_facts. destruct x; call_facts; [done|]. by apply hash32_key.
Qed.
Lemma claimExact_step a s : let t := (claimExactPaymentAttempt sha256 url_href a s).1 in t = s \/ client_step s t.
Proof.
  step_of_call. destruct (get_exact s (channelKey (ep_attemptId a))) eqn:E; call_facts; [by left|].
  destruct (loadExactPaymentAttemptByIdentifier s _) eqn:E'; call_facts; [by left|]. right. apply step_claim_exact; try done. by apply consistent_key.
Qed.
Lemma resolved_not_pending a :
  exactPaymentAttemptIsConsistent sha256 url_href a = Ok true -> isSome (ep_evidence a) = true -> ep_status a <> ex_pending.
Proof.
  unfold exactPaymentAttemptIsConsistent. intros H He Hs. call_facts. destruct x; call_facts; [done|].
  rewrite Hs in H. call_facts.
  unfold isSome in He. by destruct (ep_evidence a).
Qed.
Lemma resolveExact_step id t o e out s :
  let t := (resolveExactPaymentAttempt sha256 url_href id t o e out s).1 in t = s \/ client_step s t.
Proof.
  step_of_call. destruct (bool_decide (ep_status x = ex_pending)) eqn:E; cbn [negb] in *; call_facts; [|by left].
  right. eapply step_resolve_exact; try done. by eapply resolved_not_pending in H3.
Qed.
Lemma finalizeExact_step id t s : let t := (markExactPaymentProviderFinalized id t s).1 in t = s \/ client_step s t.
Proof. step_of_call. right. by eapply step_finalize_exact. Qed.

Lemma reopen_effect key l c appended anchored s s' :
  channelKey (dc_id c) = key -> reopen_top_up sha256 key l c appended anchored s = Ok s' ->
  s' = s \/ exists a a', reopens s key a a' /\ s' = set_funding key a' s.
Proof.
  intros Hk. unfold reopen_top_up. destruct (get_funding s key) as [a|] eqn:Ea; [|intros H; call_facts; by left].
  destruct (fa_kind a) eqn:Ek; [intros H; call_facts; by left|].
  destruct (bool_decide (fa_status a = at_applied)) eqn:Es; cbn [negb]; intros H; call_facts; [|by left].
  destruct x; call_facts; [by left|]. right. exists a. eexists. split; [|done]. split_and!; try done. by exists c.
Qed.
Lemma roll_back_effect key cur l c appended anchored s s' :
  roll_back_refund sha256 key cur l c appended anchored s = Ok s' ->
  s' = s \/ dc_status c = dc_refundable /\ s' = drop_refund key s.
Proof.
  unfold roll_back_refund. destruct (get_refund s key) as [a|] eqn:Ea; [|intros H; call_facts; by left].
  destruct (bool_decide (ra_status a = at_applied)) eqn:Es; cbn [negb]; intros H; call_facts; [|by left].
  destruct x; call_facts; [by left|]. by right.
Qed.
Lemma applyLineage_step e l c s : let t := (applyCovenantLineage sha256 e l c s).1 in t = s \/ client_step s t.
Proof.
  unfold applyCovenantLineage. cbv zeta.
  match goal with |- context [match ?m with Ok _ => _ | Throw _ => _ end] => destruct m as [[[[cur app] anch] re]|err] eqn:E end;
    [|by left].
  call_facts. match goal with H : sameChannelSnapshot _ _ = true |- _ => apply snapshot_head in H as [Hh _] end.
  match goal with H : sameHex (dc_id c) _ = true |- _ => apply sameHex_key in H as Hi end.
  rewrite (sh_id _ _ Hh) in Hi.
  match goal with H : reopen_top_up _ _ _ _ _ _ _ = _ |- _ => apply reopen_effect in H as Hr; [|done] end.
  destruct (roll_back_refund _ _ _ _ _ _ _ re) as [s2|err] eqn:Eb; cbn.
  - apply roll_back_effect in Eb. right. eapply step_reconcile; try done; eauto.
  - destruct Hr as [->|(a & a' & Ha & ->)]; [by left|]. right. by eapply step_reopen.
Qed.

(** The machine is a refinement: a call changes nothing or makes one step. *)
Lemma exec_step c s : (exec c s).1 = s \/ client_step s (exec c s).1.
Proof.
  destruct c; cbn [ClientStoreOps.exec call fst].
  all: eauto using saveChannel_step, applySettledChannel_step, quarantineChannel_step, retireChannel_step, deleteChannel_step,
    claimFunding_step, saveFunding_step, applyFunding_step, releaseFunding_step, claimRefund_step, saveRefund_step,
    applyRefund_step, releaseRefund_step, applyLineage_step, claimExact_step, resolveExact_step, finalizeExact_step.
Qed.

(** What every step preserves holds after any sequence of calls. *)
Lemma run_preserves (P : ClientStore -> Prop) cs s :
  (forall t t', P t -> client_step t t' -> P t') -> P s -> P (exec_all sha256 url_href cs s).
Proof.
  intros HP. revert s. induction cs as [|c cs IH]; intros s Hs; [done|]. cbn. apply IH.
  destruct (exec_step c s) as [->|Hst]; [done|by eapply HP].
Qed.
End Refines.
