(* ===== verification/ClientStoreInvariant.v ===== *)
(** * The invariant of the client's channel store

    Which attempts can be open together and what they stand for, key by key, and how exact
    attempts and payment identifiers point at each other.  The construction of the store
    establishes it and every step of the machine keeps it. *)

From S2P Require Import Prelude Amount Json Binary ResourceBudget Commitment ChainTruth Template Channels ClientStore.
From S2P Require Import ClientStoreOps ClientStoreSteps.

(** ** The invariant *)

(** What is known of the channel, the funding attempt and the refund attempt of one key *)
Record key_ok (k : string) (c : option DirectModeChannel) (f : option FundingTransitionAttemptRecord)
    (r : option RefundAttemptRecord) : Prop := {
  ko_channel d : c = Some d -> channelKey (dc_id d) = k;
  ko_funding a : f = Some a -> channelKey (fa_channelId a) = k /\ channelKey (fundingAttemptChannelId a) = k;
  ko_refund a : r = Some a -> channelKey (ra_channelId a) = k;
  ko_exclusive : isOpenFundingAttempt f = true -> isOpenRefundAttempt r = false;
  ko_open_funding a :
    f = Some a -> fa_status a <> at_applied -> match fa_kind a with GenesisKind _ => c = None | TopUpKind _ => is_Some c end;
  ko_open_refund a : r = Some a -> ra_status a <> at_applied -> channelHeadMatchesRefundAttempt c a = true
}.
(** Identifiers and exact attempts point at each other. *)
Record exact_ok (s : ClientStore) : Prop := {
  eo_identifier i k :
    map_get i (cs_exactPaymentIdentifiers s) = Some k -> exists a, get_exact s k = Some a /\ ep_paymentIdentifier a = i;
  eo_attempt k a :
    get_exact s k = Some a ->
    k <> "" /\ channelKey (ep_attemptId a) = k /\ map_get (ep_paymentIdentifier a) (cs_exactPaymentIdentifiers s) = Some k
}.
Record store_ok (s : ClientStore) : Prop := {
  so_channels : unique_keys (cs_channels s);
  so_fundings : unique_keys (cs_fundingAttempts s);
  so_refunds : unique_keys (cs_refundAttempts s);
  so_key k : key_ok k (get_channel s k) (get_funding s k) (get_refund s k);
  so_exact : exact_ok s
}.

Lemma open_funding f : isOpenFundingAttempt f = true <-> exists a, f = Some a /\ fa_status a <> at_applied.
Proof. destruct f as [a|]; cbn; [|naive_solver]. rewrite negb_true_iff, bool_decide_eq_false. naive_solver. Qed.
Lemma open_refund r : isOpenRefundAttempt r = true <-> exists a, r = Some a /\ ra_status a <> at_applied.
Proof. destruct r as [a|]; cbn; [|naive_solver]. rewrite negb_true_iff, bool_decide_eq_false. naive_solver. Qed.
Lemma closed_funding a : isOpenFundingAttempt (Some a) = false -> fa_status a = at_applied.
Proof. cbn. rewrite negb_false_iff, bool_decide_eq_true. done. Qed.
Lemma closed_refund a : isOpenRefundAttempt (Some a) = false -> ra_status a = at_applied.
Proof. cbn. rewrite negb_false_iff, bool_decide_eq_true. done. Qed.

Lemma key_ok_empty k : key_ok k None None None.
Proof. by split. Qed.
Lemma empty_store_ok : store_ok empty_client_store.
Proof. split; try apply NoDup_nil_2; [intros k; apply key_ok_empty|]. by split. Qed.

(** A change of the slots of one key *)
Lemma store_ok_at key s s' :
  store_ok s ->
  unique_keys (cs_channels s') -> unique_keys (cs_fundingAttempts s') -> unique_keys (cs_refundAttempts s') ->
  (forall k, k <> key -> get_channel s' k = get_channel s k /\ get_funding s' k = get_funding s k /\ get_refund s' k = get_refund s k) ->
  key_ok key (get_channel s' key) (get_funding s' key) (get_refund s' key) ->
  cs_exactPaymentAttempts s' = cs_exactPaymentAttempts s -> cs_exactPaymentIdentifiers s' = cs_exactPaymentIdentifiers s -> store_ok s'.
Proof.
  intros H Hc Hf Hr Hframe Hkey He Hi. split; try done.
  - intros k. destruct (decide (k = key)) as [->|Hk]; [done|]. destruct (Hframe k Hk) as (-> & -> & ->). apply (so_key s H).
  - destruct (so_exact s H) as [H1 H2]. unfold get_exact in *. split; unfold get_exact; by rewrite He, ?Hi.
Qed.
(** Discharges the bookkeeping of [store_ok_at] for a change of the slots of [key]. *)
Ltac slots := unfold get_channel, get_funding, get_refund; cbn; rewrite ?map_set_get, ?map_delete_get by done.
Ltac at_key key H :=
  apply (store_ok_at key _ _ H);
  [by first [apply map_set_unique, (so_channels _ H) | apply map_delete_unique, (so_channels _ H) | apply (so_channels _ H)]
  |by first [apply map_set_unique, (so_fundings _ H) | apply map_delete_unique, (so_fundings _ H) | apply (so_fundings _ H)]
  |by first [apply map_set_unique, (so_refunds _ H) | apply map_delete_unique, (so_refunds _ H) | apply (so_refunds _ H)]
  |intros k Hk; pose proof (so_channels _ H); pose proof (so_fundings _ H); pose proof (so_refunds _ H);
   slots; by rewrite ?(decide_False (P := k = key))
  |pose proof (so_channels _ H); pose proof (so_fundings _ H); pose proof (so_refunds _ H);
   slots; rewrite ?(decide_True (P := key = key)) by done; match type of H with store_ok ?t => fold (get_channel t key) (get_funding t key) (get_refund t key) end
  |done|done].

(** *** Changes of one key *)

Section Keys.
Context (k : string) (c : option DirectModeChannel) (f : option FundingTransitionAttemptRecord) (r : option RefundAttemptRecord)
  (H : key_ok k c f r).

Lemma key_put d :
  channelKey (dc_id d) = k -> isOpenFundingAttempt f = false -> isOpenRefundAttempt r = false -> key_ok k (Some d) f r.
Proof.
  intros Hd Hf Hr. split; [by intros ? [= <-]|apply H..| |].
  - intros a -> Ha. by apply closed_funding in Hf.
  - intros a -> Ha. by apply closed_refund in Hr.
Qed.
Lemma key_drop_channel : isOpenFundingAttempt f = false -> r = None -> key_ok k None f r.
Proof. intros Hf ->. split; try done; [apply H|]. intros a -> Ha. by apply closed_funding in Hf. Qed.
Lemma key_drop_funding : key_ok k c None r.
Proof. split; try done; apply H. Qed.
Lemma key_drop_refund : key_ok k c f None.
Proof. split; try done; apply H. Qed.

Lemma head_matches_touched d d' a :
  same_head d d' -> channelHeadMatchesRefundAttempt (Some d) a = true -> channelHeadMatchesRefundAttempt (Some d') a = true.
Proof.
  intros [Hid Hcov Hout Hscript Hamount] Hm. cbn in *. inv_bool.
  repeat match goal with Hs : sameHex _ _ = true |- _ => apply sameHex_iff in Hs end. unfold channelKey in Hid.
  rewrite sameOutpoint_sym in Hout.
  rewrite !andb_true_iff, !sameHex_iff, !bool_decide_eq_true. split_and!; try congruence. by eapply sameOutpoint_trans.
Qed.
Lemma key_touch d d' : c = Some d -> same_head d d' -> key_ok k (Some d') f r.
Proof.
  intros Hc Hh. split; [|apply H..| |].
  - intros ? [= <-]. rewrite <- (sh_id _ _ Hh). by apply H.
  - intros a Hf Ha. pose proof (ko_open_funding _ _ _ _ H a Hf Ha) as Ho. rewrite Hc in Ho. by destruct (fa_kind a).
  - intros a Hr Ha. pose proof (ko_open_refund _ _ _ _ H a Hr Ha) as Ho. rewrite Hc in Ho. by eapply head_matches_touched.
Qed.
Lemma key_set_funding a :
  channelKey (fa_channelId a) = k -> channelKey (fundingAttemptChannelId a) = k -> isOpenRefundAttempt r = false ->
  (fa_status a <> at_applied -> match fa_kind a with GenesisKind _ => c = None | TopUpKind _ => is_Some c end) ->
  key_ok k c (Some a) r.
Proof. intros Ha Ho Hr Hm. split; try apply H; try done; intros ? [= <-]; auto. Qed.
Lemma key_set_refund a :
  channelKey (ra_channelId a) = k -> (isOpenFundingAttempt f = true -> ra_status a = at_applied) ->
  (ra_status a <> at_applied -> channelHeadMatchesRefundAttempt c a = true) -> key_ok k c f (Some a).
Proof. intros Ha Hf Hm. split; try apply H; try done; try (intros ? [= <-]; auto).
  intros Hopen. cbn. by rewrite (Hf Hopen). Qed.
End Keys.

(** *** The steps keep it *)

Lemma open_matches_slot channel a :
  openFundingAttemptMatchesChannel channel a = true ->
  match fa_kind a with GenesisKind _ => channel = None | TopUpKind _ => is_Some channel end.
Proof. unfold openFundingAttemptMatchesChannel. by destruct (fa_kind a), channel; cbn; eauto. Qed.
Lemma same_artifact_kind a b :
  sameFundingArtifact a b = true ->
  channelKey (fa_channelId a) = channelKey (fa_channelId b) /\
  match fa_kind a, fa_kind b with
  | GenesisKind i, GenesisKind j => channelKey (gi_channelId i) = channelKey (gi_channelId j)
  | TopUpKind c, TopUpKind d => same_head c d /\ dc_status c = dc_status d
  | _, _ => False
  end.
Proof.
  unfold sameFundingArtifact. cbv zeta. intros H. inv_bool. split; [by apply sameHex_key|].
  destruct (fa_kind a), (fa_kind b); try done; [|by apply snapshot_head].
  match goal with Hg : sameGenesisIntent _ _ = true |- _ => unfold sameGenesisIntent in Hg end. inv_bool. by apply sameHex_key.
Qed.

Lemma same_refund_head a b c :
  sameRefundArtifact a b = true -> channelHeadMatchesRefundAttempt c a = true -> channelHeadMatchesRefundAttempt c b = true.
Proof.
  unfold sameRefundArtifact, channelHeadMatchesRefundAttempt. destruct c as [c|]; [|done]. intros. inv_bool.
  repeat match goal with Hs : sameHex _ _ = true |- _ => apply sameHex_iff in Hs end.
  rewrite !andb_true_iff, !sameHex_iff, !bool_decide_eq_true. split_and!; try congruence. by eapply sameOutpoint_trans.
Qed.
Lemma channel_matches_head c a : channelMatchesRefundAttempt c a = true -> channelHeadMatchesRefundAttempt c a = true.
Proof. unfold channelMatchesRefundAttempt. intros H. by inv_bool. Qed.

Section KeyAttempts.
Context (k : string) (c : option DirectModeChannel).

Lemma key_save_funding a a' r :
  key_ok k c (Some a) r -> fa_status a = at_pending -> fa_status a' = at_broadcast -> channelKey (fa_channelId a') = k ->
  sameFundingArtifact a a' = true -> key_ok k c (Some a') r.
Proof.
  intros H Hs Hs' Hid [_ Hart]%same_artifact_kind. pose proof (ko_funding _ _ _ _ H a eq_refl) as [_ Hown].
  assert (isOpenFundingAttempt (Some a) = true) as Hopen by (apply open_funding; exists a; by rewrite Hs).
  pose proof (ko_open_funding _ _ _ _ H a eq_refl ltac:(by rewrite Hs)) as Hslot.
  unfold fundingAttemptChannelId in Hown. eapply key_set_funding; [exact H|done| |by apply H|];
    unfold fundingAttemptChannelId; destruct (fa_kind a), (fa_kind a'); try done; [by rewrite <- Hart|].
  destruct Hart as [Hh _]. by rewrite <- (sh_id _ _ Hh).
Qed.
Lemma key_apply_funding a a' d r :
  key_ok k c (Some a) r -> fa_status a <> at_applied -> fa_status a' = at_applied -> fa_channelId a' = fa_channelId a ->
  fa_kind a' = fa_kind a -> channelKey (dc_id d) = channelKey (fa_channelId a) \/ channelKey (dc_id d) = channelKey (fundingAttemptChannelId a) ->
  key_ok k (Some d) (Some a') r.
Proof.
  intros H Hs Hs' Hid Hkind Hd. pose proof (ko_funding _ _ _ _ H a eq_refl) as [Hk Hown].
  assert (isOpenRefundAttempt r = false) as Hr by (apply H, open_funding; eauto).
  eapply key_set_funding; [eapply key_put; [by apply key_drop_funding in H|by destruct Hd; congruence|done|done]|..]; try done.
  - congruence.
  - unfold fundingAttemptChannelId in *. by rewrite Hkind.
Qed.
Lemma key_save_refund f a a' :
  key_ok k c f (Some a) -> ra_status a = at_pending -> channelKey (ra_channelId a') = k ->
  sameRefundArtifact a a' = true -> key_ok k c f (Some a').
Proof.
  intros H Hs Hid Hart. eapply key_set_refund; [exact H|done| |].
  - intros Hf. pose proof (ko_exclusive _ _ _ _ H Hf) as Hr. apply closed_refund in Hr. congruence.
  - intros _. eapply same_refund_head; [done|]. apply (ko_open_refund _ _ _ _ H a); [done|by rewrite Hs].
Qed.
Lemma key_apply_refund f a a' d :
  key_ok k c f (Some a) -> ra_status a <> at_applied -> ra_status a' = at_applied -> ra_channelId a' = ra_channelId a ->
  channelKey (dc_id d) = k -> key_ok k (Some d) f (Some a').
Proof.
  intros H Hs Hs' Hid Hd.
  assert (isOpenFundingAttempt f = false) as Hf.
  { destruct (isOpenFundingAttempt f) eqn:Hf; [|done]. pose proof (ko_exclusive _ _ _ _ H Hf) as Hr. by apply closed_refund in Hr. }
  eapply key_set_refund; [eapply key_put; [by apply key_drop_refund in H|done..]|by rewrite Hid; apply H|done..].
Qed.
Lemma key_reopen a a' d r :
  key_ok k c (Some a) r -> is_Some c -> isOpenRefundAttempt r = false -> fa_channelId a' = fa_channelId a ->
  fa_kind a' = TopUpKind d -> channelKey (dc_id d) = k -> key_ok k c (Some a') r.
Proof.
  intros H Hc Hr Hid Hkind Hd. pose proof (ko_funding _ _ _ _ H a eq_refl) as [Hk _].
  eapply key_set_funding; [exact H|congruence| |done|]; unfold fundingAttemptChannelId; by rewrite Hkind.
Qed.
End KeyAttempts.

(** *** Every step keeps the invariant *)

Lemma exact_ok_other s s' :
  cs_exactPaymentAttempts s' = cs_exactPaymentAttempts s -> cs_exactPaymentIdentifiers s' = cs_exactPaymentIdentifiers s ->
  exact_ok s -> exact_ok s'.
Proof. intros He Hi [H1 H2]. unfold get_exact in *. split; unfold get_exact; by rewrite He, ?Hi. Qed.
Lemma exact_intent_fields a a' :
  exact_intent a = exact_intent a' -> ep_attemptId a = ep_attemptId a' /\ ep_paymentIdentifier a = ep_paymentIdentifier a'.
Proof. destruct a, a'. intros H. injection H. done. Qed.
Lemma exact_ok_update s key a a' :
  exact_ok s -> get_exact s key = Some a -> exact_intent a' = exact_intent a -> exact_ok (set_exact key a' s).
Proof.
  intros [H1 H2] Ha [Hid Hp]%exact_intent_fields. split.
  - intros i k Hi. rewrite set_exact_get. destruct (H1 i k Hi) as (b & Hb & <-).
    destruct (decide (k = key)) as [->|]; [|eauto]. exists a'. split; [done|]. congruence.
  - intros k b. rewrite set_exact_get. destruct (decide (k = key)) as [->|]; [|auto]. intros [= <-].
    rewrite Hid, Hp. by apply (H2 key).
Qed.
Lemma exact_ok_claim s key a :
  exact_ok s -> channelKey (ep_attemptId a) = key -> key <> "" -> get_exact s key = None ->
  loadExactPaymentAttemptByIdentifier s (ep_paymentIdentifier a) = None ->
  exact_ok (set_identifier (ep_paymentIdentifier a) key (set_exact key a s)).
Proof.
  intros [H1 H2] Hid Hne Hnone Hfree.
  assert (forall k, map_get (ep_paymentIdentifier a) (cs_exactPaymentIdentifiers s) <> Some k) as Hnew.
  { intros k Hk. destruct (H1 _ _ Hk) as (b & Hb & _). unfold loadExactPaymentAttemptByIdentifier in Hfree.
    rewrite Hk, Hb in Hfree. destruct (H2 _ _ Hb) as [Hb' _]. by rewrite bool_decide_false in Hfree. }
  split; unfold set_identifier, get_exact; cbn.
  - intros i k. rewrite !map_set_get. destruct (decide (i = ep_paymentIdentifier a)) as [->|].
    + intros [= <-]. rewrite decide_True by done. eauto.
    + intros Hi. destruct (H1 i k Hi) as (b & Hb & <-). rewrite decide_False; [eauto|]. unfold get_exact in *. congruence.
  - intros k b. rewrite !map_set_get. destruct (decide (k = key)) as [->|].
    + intros [= <-]. by rewrite decide_True.
    + intros Hb. rewrite decide_False; [by apply H2|]. intros E. destruct (H2 k b Hb) as (_ & _ & Hk). rewrite E in Hk. by apply Hnew in Hk.
Qed.

Lemma put_keeps_ok key c s :
  store_ok s -> channelKey (dc_id c) = key -> isOpenFundingAttempt (get_funding s key) = false ->
  isOpenRefundAttempt (get_refund s key) = false -> store_ok (set_channel key c s).
Proof. intros H Hc Hf Hr. pose proof (so_key _ H key). at_key key H. by eapply key_put. Qed.
Lemma drop_funding_keeps_ok key s : store_ok s -> store_ok (drop_funding key s).
Proof. intros H. pose proof (so_key _ H key). at_key key H. by eapply key_drop_funding. Qed.
Lemma drop_refund_keeps_ok key s : store_ok s -> store_ok (drop_refund key s).
Proof. intros H. pose proof (so_key _ H key). at_key key H. by eapply key_drop_refund. Qed.
Lemma reopen_keeps_ok key a a' s :
  store_ok s -> reopens s key a a' -> is_Some (get_channel s key) -> isOpenRefundAttempt (get_refund s key) = false ->
  store_ok (set_funding key a' s).
Proof.
  intros H (Ha & Hs & Hid & Hs' & c & Hkind & Hc & _) Hsome Hr. pose proof (so_key _ H key) as Hkey. rewrite Ha in Hkey.
  at_key key H. by eapply key_reopen.
Qed.
Lemma delete_keeps_ok key s s' :
  store_ok s -> channel_mutable s key -> s' = s \/ s' = drop_funding key s -> store_ok (drop_channel key s').
Proof.
  intros H [Hf Hr] Hs.
  assert (store_ok s' /\ isOpenFundingAttempt (get_funding s' key) = false /\ get_refund s' key = None) as (H' & Hf' & Hr').
  { destruct Hs as [->| ->]; [done|]. split_and!; [by apply drop_funding_keeps_ok| |done].
    unfold get_funding. cbn. rewrite map_delete_get by apply H. by rewrite decide_True. }
  clear H Hs. pose proof (so_key _ H' key). at_key key H'. by eapply key_drop_channel.
Qed.
Lemma reconcile_keeps_ok key c s s1 s2 :
  store_ok s -> channelKey (dc_id c) = key -> is_Some (get_channel s key) ->
  isOpenFundingAttempt (get_funding s key) = false -> isOpenRefundAttempt (get_refund s key) = false ->
  s1 = s \/ (exists a a', reopens s key a a' /\ s1 = set_funding key a' s) ->
  s2 = s1 \/ dc_status c = dc_refundable /\ s2 = drop_refund key s1 -> store_ok (set_channel key c s2).
Proof.
  intros H Hid Hc Hf Hr H1 H2.
  assert (store_ok s1 /\ is_Some (get_channel s1 key) /\ isOpenRefundAttempt (get_refund s1 key) = false) as (Hs1 & Hc1 & Hr1).
  { destruct H1 as [->|(a & a' & Hre & ->)]; [done|]. split_and!; [by eapply reopen_keeps_ok|done|done]. }
  assert (store_ok s2 /\ is_Some (get_channel s2 key) /\ isOpenRefundAttempt (get_refund s2 key) = false) as (Hs2 & Hc2 & Hr2).
  { destruct H2 as [->|[_ ->]]; [done|]. split_and!; [by apply drop_refund_keeps_ok|done|].
    unfold get_refund. cbn. rewrite map_delete_get by apply Hs1. by rewrite decide_True. }
  clear H H1 H2. pose proof (so_key _ Hs2 key) as Hkey. at_key key Hs2.
  destruct Hc2 as [d Hd]. split; [by intros ? [= <-]|apply Hkey..| |].
  - intros a Ha Hs. pose proof (ko_open_funding _ _ _ _ Hkey a Ha Hs) as Ho. rewrite Hd in Ho. by destruct (fa_kind a).
  - intros a Ha Hs. rewrite Ha in Hr2. by apply closed_refund in Hr2.
Qed.

Lemma apply_refund_keeps_ok key a a' c c' s :
  store_ok s -> get_refund s key = Some a -> ra_status a <> at_applied -> get_channel s key = Some c ->
  ra_status a' = at_applied -> ra_channelId a' = ra_channelId a -> dc_id c' = dc_id c ->
  store_ok (set_refund key a' (set_channel key c' s)).
Proof.
  intros H Ha Hs Hc Hs' Hid Hid'. pose proof (so_key _ H key) as Hkey. rewrite Ha in Hkey. at_key key H.
  eapply key_apply_refund; try done. rewrite Hid'. by apply Hkey.
Qed.

Lemma step_keeps_ok s s' : client_step s s' -> store_ok s -> store_ok s'.
Proof.
  intros Hst H. destruct Hst; try pose proof (so_key _ H key) as Hkey;
    try match goal with Hs : channel_mutable _ _ |- _ => pose proof Hs as [Hf Hr] end.
  - apply put_keeps_ok; try done. by rewrite Hr.
  - apply put_keeps_ok; try done; [|by rewrite Hr]. cbn. by apply Hkey.
  - by eapply delete_keeps_ok.
  - match goal with Ht : touched _ _ |- _ => destruct Ht as [Hh _] end.
    at_key key H. by eapply key_touch.
  - at_key key H. eapply key_set_funding; try done. intros _. by apply open_matches_slot.
  - at_key key H. rewrite H0 in Hkey. by eapply key_save_funding.
  - at_key key H. rewrite H0 in Hkey. by eapply key_apply_funding.
  - by apply drop_funding_keeps_ok.
  - at_key key H. eapply key_set_refund; try done; [congruence|]. intros _. by apply channel_matches_head.
  - at_key key H. rewrite H0 in Hkey. by eapply key_save_refund.
  - by eapply apply_refund_keeps_ok.
  - by apply drop_refund_keeps_ok.
  - by eapply reopen_keeps_ok.
  - by eapply reconcile_keeps_ok.
  - split; try apply H. apply exact_ok_claim; try done. apply H.
  - split; try apply H. eapply exact_ok_update; try done. apply H.
  - split; try apply H. eapply exact_ok_update; try done. apply H.
Qed.

(** ** Construction *)

Section Guarantees.
Context (sha256 : bytes -> bytes) (url_href : string -> option string).
Notation exec_all := (exec_all sha256 url_href).
Notation new_client_store := (new_client_store sha256 url_href).

Definition no_attempts (s : ClientStore) : Prop := cs_fundingAttempts s = [] /\ cs_refundAttempts s = [].
Lemma add_channel_ok s c s' : store_ok s /\ no_attempts s -> add_channel sha256 s c = Ok s' -> store_ok s' /\ no_attempts s'.
Proof.
  intros [H [Hf Hr]]. unfold add_channel. cbv zeta. intros E. call_facts. split; [|done].
  apply put_keeps_ok; try done; unfold get_funding, get_refund; by rewrite ?Hf, ?Hr.
Qed.
Lemma no_refunds_get s k : cs_refundAttempts s = [] -> get_refund s k = None.
Proof. unfold get_refund. by intros ->. Qed.
Lemma add_funding_ok s a s' :
  store_ok s /\ cs_refundAttempts s = [] -> add_funding sha256 s a = Ok s' -> store_ok s' /\ cs_refundAttempts s' = [].
Proof.
  intros [H Hr]. unfold add_funding, persistedFundingAttemptMatchesChannel. cbv zeta. intros E. call_facts. split; [|done].
  match goal with Hc : fundingAttemptArtifactIsConsistent _ _ = _ |- _ => apply artifact_owner in Hc as Hown end.
  pose proof (so_key _ H (channelKey (fa_channelId a))) as Hkey.
  at_key (channelKey (fa_channelId a)) H. eapply key_set_funding; try done; [by rewrite no_refunds_get|].
  intros Hs. apply open_matches_slot. destruct (fa_status a); by inv_bool.
Qed.
Lemma add_refund_ok s a s' : store_ok s -> add_refund s a = Ok s' -> store_ok s'.
Proof.
  intros H. unfold add_refund. cbv zeta. intros E. call_facts.
  pose proof (so_key _ H (channelKey (ra_channelId a))) as Hkey. unfold map_has in *.
  match goal with Hm : persistedRefundAttemptMatchesChannel _ _ = true |- _ => unfold persistedRefundAttemptMatchesChannel in Hm; cbv zeta in Hm end.
  at_key (channelKey (ra_channelId a)) H. eapply key_set_refund; try done.
  - intros Hf. destruct (isOpenRefundAttempt (Some a)) eqn:Ho; [|by apply closed_refund].
    match goal with Hx : _ && _ = false |- _ => rewrite Hf in Hx end. done.
  - intros Hs. apply channel_matches_head. destruct (ra_status a); by inv_bool.
Qed.
Lemma add_exact_ok s a s' : store_ok s -> add_exact sha256 url_href s a = Ok s' -> store_ok s'.
Proof.
  intros H. unfold add_exact. cbv zeta. intros E. call_facts. split; try apply H. apply exact_ok_claim; try done.
  - apply H.
  - by eapply consistent_key.
  - unfold map_has, isSome in *. unfold get_exact. by destruct (map_get (channelKey (ep_attemptId a)) _).
  - unfold loadExactPaymentAttemptByIdentifier. unfold map_has, isSome in *. by destruct (map_get (ep_paymentIdentifier a) _).
Qed.
Lemma new_client_store_ok channels refunds fundings exacts s :
  new_client_store channels refunds fundings exacts = Ok s -> store_ok s.
Proof.
  unfold ClientStoreOps.new_client_store. intros H. call_facts.
  assert (store_ok x /\ no_attempts x) as [Hx [Hf Hr]].
  { eapply (fold_result_inv (fun s => store_ok s /\ no_attempts s)); [|by split; [apply empty_store_ok|]|done].
    intros t c t' _. apply add_channel_ok. }
  assert (store_ok x0 /\ cs_refundAttempts x0 = []) as [Hx0 _].
  { eapply (fold_result_inv (fun s => store_ok s /\ cs_refundAttempts s = [])); [|by split|done]. intros t c t' _. apply add_funding_ok. }
  eapply (fold_result_inv store_ok); [|eapply (fold_result_inv store_ok); [|exact Hx0|done]|done];
    [intros t c t' _; apply add_exact_ok|intros t c t' _; apply add_refund_ok].
Qed.
Lemma client_run_ok cs s : store_ok s -> store_ok (exec_all cs s).
Proof. apply run_preserves. intros t t' Ht Hst. by eapply step_keeps_ok. Qed.

End Guarantees.
