(* ===== verification/ClientStoreProperties.v ===== *)
(** * Guarantees of the client's channel store

    What [MemoryChannelStore] promises from its construction on, over any sequence of calls:
    exclusive attempts, final outcomes of exact payments, repeatable applications; and a
    state it cannot leave.  A concrete store exercises them. *)

From S2P Require Import Prelude Amount Json Binary ResourceBudget Commitment ChainTruth Template Channels ClientStore.
From S2P Require Import ClientStoreOps ClientStoreSteps ClientStoreInvariant Compaction.

(** ** A concrete store *)

Module SampleClient.
Definition no_urls (s : string) : option string := Some s.
Abbreviation run := (exec_all toy_sha256 no_urls).

Definition config : ChannelConfig := sample_config (hex64 "0a").
Definition value_or {A} (d : A) (m : result A) : A := match m with Ok a => a | Throw _ => d end.
Definition id : string := value_or "" (channelId toy_sha256 config).
Definition intent : GenesisChannelIntent := {|
  gi_channelId := id; gi_origin := "https://shop.example"; gi_resourceUrl := Some "https://shop.example/a"; gi_config := config;
  gi_clientPrivateKey := None; gi_escrowAddress := "kaspatest:escrow"; gi_fundingSource := "wallet" |}.
Definition head_of (tx : Z) (amount : string) : FundingSuccessorIntent := {|
  fs_outpoint := Outpoint (Sample.hash tx) 0; fs_covenantId := Sample.covenant; fs_amount := amount; fs_scriptPublicKey := Sample.script |}.
Definition attempt (tx : Z) (input : FundingOutpoint) (amount : string) (k : FundingKind) : FundingTransitionAttemptRecord := {|
  fa_channelId := id; fa_transaction := "00"; fa_transactionId := Sample.hash tx; fa_inputOutpoints := [input];
  fa_intendedSuccessor := head_of tx amount; fa_fundingSource := "wallet"; fa_status := at_pending; fa_finality := None;
  fa_acceptance := None; fa_requiredConfirmations := 1; fa_kind := k |}.
Definition genesis_attempt : FundingTransitionAttemptRecord := attempt 100 (Outpoint (Sample.hash 1) 0) "1000" (GenesisKind intent).
Definition genesis_request : FundingTransitionAttemptApplyRequest := {|
  fr_channelId := id; fr_transactionId := Sample.hash 100; fr_acceptance := Sample.evidence 100 10;
  fr_evidence := GenesisEvidence {|
    gv_covenantId := Sample.covenant; gv_authorizingInput := Outpoint (Sample.hash 1) 0;
    genesisOutpoint := Outpoint (Sample.hash 100) 0; genesisScriptPublicKey := Sample.script; genesisAmount := "1000";
    totalOutputCount := 1; authorizedOutputCount := 1; gv_acceptance := Sample.evidence 100 10 |} |}.
Definition opening : list ClientCommand := [ClaimFunding genesis_attempt; ApplyFunding genesis_request].
Definition opened : ClientStore := run opening empty_client_store.
(** A channel of 1000 sompi *)
Definition channel : option DirectModeChannel := get_channel opened (channelKey id).

(** The top-up that spends the head of [c] for one of 1500 sompi *)
Definition top_up_of (c : DirectModeChannel) : FundingTransitionAttemptRecord := attempt 101 (dc_activeOutpoint c) "1500" (TopUpKind c).
Definition top_up_request : FundingTransitionAttemptApplyRequest := {|
  fr_channelId := id; fr_transactionId := Sample.hash 101; fr_acceptance := Sample.evidence 101 11;
  fr_evidence := TopUpEvidence {|
    te_covenantId := Sample.covenant; te_spentOutpoint := Outpoint (Sample.hash 100) 0;
    te_successorOutpoint := Outpoint (Sample.hash 101) 0; te_successorScriptPublicKey := Sample.script; te_successorAmount := "1500";
    te_authorizedSuccessorCount := 1; te_authorizingInput := 0; te_acceptance := Sample.evidence 101 11 |} |}.
Definition refund_of (c : DirectModeChannel) : RefundAttemptRecord := {|
  ra_channelId := dc_id c; ra_covenantId := dc_covenantId c; ra_activeOutpoint := dc_activeOutpoint c;
  ra_activeScriptPublicKey := dc_activeScriptPublicKey c; ra_fundingAmount := dc_fundingAmount c; ra_channelStatus := dc_status c;
  ra_refundAmount := dc_fundingAmount c; ra_transaction := "00"; ra_transactionId := Sample.hash 102; ra_status := at_pending;
  ra_finality := None; ra_acceptance := None; ra_requiredConfirmations := 1; ra_refundScriptPublicKey := "51" |}.
Definition refund_request : RefundAttemptApplyRequest := {|
  rr_channelId := id; rr_transactionId := Sample.hash 102; rr_acceptance := Sample.evidence 102 11 |}.
(** Calls on the stored channel *)
Definition on_channel (f : DirectModeChannel -> list ClientCommand) : list ClientCommand :=
  match channel with Some c => f c | None => [] end.
Definition topping_up : ClientStore := run (on_channel (fun c => [ClaimFunding (top_up_of c)])) opened.
Definition refunding : ClientStore := run (on_channel (fun c => [ClaimRefund (refund_of c)])) opened.

(** An exact payment *)
Definition payment (attemptId transactionId : string) : CreatePaymentResult := {|
  cp_resourceUrl := "https://shop.example/a"; cp_accepted := JObject [("scheme", JString "exact")]; cp_paymentPayload := JObject [];
  cp_scheme := "exact"; cp_transactionId := Some transactionId; cp_exactAttemptId := Some attemptId |}.
Definition unhashed : ExactPaymentAttemptRecord := {|
  ep_attemptId := hex64 "a1"; ep_intentHash := ""; ep_requestHash := hex64 "a2"; ep_origin := "https://shop.example";
  ep_resourceUrl := "https://shop.example/a"; ep_paymentIdentifier := "order-1"; ep_transactionId := Sample.hash 200;
  ep_inputOutpoints := [Outpoint (Sample.hash 3) 0]; ep_payment := payment (hex64 "a1") (Sample.hash 200); ep_status := ex_pending;
  ep_evidence := None; ep_output := None; ep_providerFinalized := false |}.
Definition exact_attempt : ExactPaymentAttemptRecord := unhashed <| ep_intentHash := value_or "" (exactIntentHash toy_sha256 unhashed) |>.
Definition exact_output : ExactPaymentOutputEvidence := {|
  oe_transactionId := Sample.hash 200; oe_outputIndex := 0; oe_scriptPublicKey := "51"; oe_amount := "1000" |}.
Definition paying : list ClientCommand :=
  [ClaimExact exact_attempt;
   ResolveExact (hex64 "a1") (Sample.hash 200) ex_accepted (StatusAccepted (Sample.evidence 200 12)) (Some exact_output)].
End SampleClient.
Import SampleClient.

Example channel_opened : (fun c => (dc_fundingAmount c, dc_status c)) <$> channel = Some ("1000", dc_active).
Proof. vm_compute. reflexivity. Qed.
Example topped_up :
  dc_fundingAmount <$> get_channel (run [ApplyFunding top_up_request] topping_up) (channelKey id) = Some "1500".
Proof. vm_compute. reflexivity. Qed.
Example refunded :
  (fun c => (dc_status c, isNone (currentHead (dc_lineage c)))) <$> get_channel (run [ApplyRefund refund_request] refunding) (channelKey id)
    = Some (dc_refunded, true).
Proof. vm_compute. reflexivity. Qed.
Example paid : ep_status <$> loadExactPaymentAttemptByIdentifier (run paying empty_client_store) "order-1" = Some ex_accepted.
Proof. vm_compute. reflexivity. Qed.

(** ** Exact attempts through a step *)

Lemma step_keeps_exact s s' key a b :
  client_step s s' -> get_exact s key = Some b -> exact_intent b = exact_intent a ->
  (ep_status a <> ex_pending -> b = a \/ b = a <| ep_providerFinalized := true |>) ->
  exists b', get_exact s' key = Some b' /\ exact_intent b' = exact_intent a /\
    (ep_status a <> ex_pending -> b' = a \/ b' = a <| ep_providerFinalized := true |>).
Proof.
  intros Hst Hb Hi Hf. destruct Hst as [| |key0 s s' _ [->| ->]| | | | | | | | | | |key0 c s s1 s2 _ _ _ _ H1 H2|key0 a0 s|key0 a0 a' s Ha Hp Hp' Hint|key0 a0 s Ha Hp];
    try by (exists b).
  - assert (get_exact s2 key = Some b) as Hb2; [|by exists b].
    destruct H2 as [->|[_ ->]], H1 as [->|(? & ? & _ & ->)]; done.
  - unfold get_exact, set_identifier, set_exact in *. cbn. rewrite map_set_get. destruct (decide (key = key0)) as [->|]; [congruence|by exists b].
  - rewrite set_exact_get. destruct (decide (key = key0)) as [->|]; [|by exists b]. rewrite Ha in Hb. injection Hb as ->.
    exists a'. split_and!; [done|congruence|]. intros Hs. exfalso. by destruct (Hf Hs) as [-> | ->].
  - rewrite set_exact_get. destruct (decide (key = key0)) as [->|]; [|by exists b]. rewrite Ha in Hb. injection Hb as ->.
    eexists. split_and!; [done| |]; [by rewrite <- Hi; destruct b|]. intros Hs. right. by destruct (Hf Hs) as [-> | ->]; destruct a.
Qed.

(** ** Guarantees *)

Section Guarantees.
Context (sha256 : bytes -> bytes) (url_href : string -> option string).
Notation exec_all := (exec_all sha256 url_href).
Notation new_client_store := (new_client_store sha256 url_href).

(** C23. Attempts on a channel exclude each other and stand for what they claim.
    In a store built from any persisted records and after any sequence of calls: a channel
    key with an open funding transition has no open refund; an open refund names the
    covenant, the outpoint, the script and the whole amount of the stored channel's head; an
    open genesis has no channel under its key yet and an open top-up has one; every record is
    stored under the key of its own id. *)
Theorem client_attempts_exclusive channels refunds fundings exacts s cs key :
  new_client_store channels refunds fundings exacts = Ok s ->
  let t := exec_all cs s in
  (isOpenFundingAttempt (get_funding t key) = true -> isOpenRefundAttempt (get_refund t key) = false) /\
  (forall a, get_refund t key = Some a -> ra_status a <> at_applied -> channelHeadMatchesRefundAttempt (get_channel t key) a = true) /\
  (forall a, get_funding t key = Some a -> fa_status a <> at_applied ->
     match fa_kind a with GenesisKind _ => get_channel t key = None | TopUpKind _ => is_Some (get_channel t key) end) /\
  (forall c, get_channel t key = Some c -> channelKey (dc_id c) = key) /\
  (forall a, get_funding t key = Some a -> channelKey (fundingAttemptChannelId a) = key).
Proof.
  intros Hs t. destruct (so_key _ (client_run_ok sha256 url_href cs s (new_client_store_ok _ _ _ _ _ _ _ Hs)) key). split_and!; auto.
  intros a Ha. by apply ko_funding.
Qed.

(** C24. What an exact payment stands for never changes, and its outcome is final.
    For an attempt on record at any point of any run: after any further calls the attempt is
    still on record, with the same intent, payload, inputs and transaction, it is what its
    payment identifier leads to, and once it was accepted or found absent its status, its
    evidence and its output stay; only the mark that the provider was finalized can be added. *)
Theorem exact_outcome_final channels refunds fundings exacts s cs cs' key a :
  new_client_store channels refunds fundings exacts = Ok s ->
  get_exact (exec_all cs s) key = Some a ->
  let t := exec_all cs' (exec_all cs s) in
  exists a', get_exact t key = Some a' /\ exact_intent a' = exact_intent a /\
    loadExactPaymentAttemptByIdentifier t (ep_paymentIdentifier a) = Some a' /\
    (ep_status a <> ex_pending -> a' = a \/ a' = a <| ep_providerFinalized := true |>).
Proof.
  intros Hs Ha t.
  assert (store_ok t /\ exists a', get_exact t key = Some a' /\ exact_intent a' = exact_intent a /\
    (ep_status a <> ex_pending -> a' = a \/ a' = a <| ep_providerFinalized := true |>)) as [Ht (a' & Ha' & Hi & Hf)].
  { apply run_preserves; [|split; [by eapply client_run_ok, new_client_store_ok|eauto]].
    intros u u' [Hu (b & Hb & Hi & Hf)] Hst. split; [by eapply step_keeps_ok|]. by eapply step_keeps_exact. }
  exists a'. split_and!; try done. apply exact_intent_fields in Hi as [_ <-].
  destruct (eo_attempt _ (so_exact _ Ht) _ _ Ha') as (Hne & _ & Hid). unfold loadExactPaymentAttemptByIdentifier.
  rewrite Hid. by rewrite bool_decide_false.
Qed.

(** *** Repeated applications *)

Lemma same_hex_refl h : sameHex h h = true.
Proof. by apply sameHex_iff. Qed.
Lemma outpoint_same_refl o : sameOutpoint o o = true.
Proof. unfold sameOutpoint. by rewrite bool_decide_eq_true_2, Z.eqb_refl. Qed.
(** The optional texts of a genesis intent are not empty. *)
Definition texts_given (a : FundingTransitionAttemptRecord) : Prop :=
  match fa_kind a with GenesisKind i => gi_resourceUrl i <> Some "" /\ gi_clientPrivateKey i <> Some "" | TopUpKind _ => True end.
Lemma present_text_get o : o <> Some "" -> get (present_text o) = o.
Proof. destruct o as [s|]; [|done]. intros H. unfold present_text. by rewrite bool_decide_eq_false_2 by congruence. Qed.

(** The channel an application builds is the one the applied attempt describes. *)
Lemma applied_matches r a c :
  fundingAttemptArtifactIsConsistent sha256 a = Ok true -> texts_given a -> evidenceMatchesFundingAttempt r a = true ->
  match fa_kind a with
  | GenesisKind i => channelFromGenesisAttempt sha256 a i (fr_evidence r)
  | TopUpKind e => channelFromTopUpAttempt sha256 a e (fr_evidence r)
  end = Ok c ->
  appliedFundingAttemptMatchesChannel (Some c) a = true.
Proof.
  unfold fundingAttemptArtifactIsConsistent, texts_given, evidenceMatchesFundingAttempt, appliedFundingAttemptMatchesChannel,
    channelFromGenesisAttempt, channelFromTopUpAttempt, sameIntendedHead, fundingAttemptChannelId. cbv zeta.
  destruct (fa_kind a) as [i|e], (fr_evidence r) as [g|g]; intros Hc Ht He Hb; call_facts; try done; cbn in *.
  - destruct Ht as [Hu Hp]. rewrite !present_text_get by done. rewrite !same_hex_refl, outpoint_same_refl.
    unfold same_config. rewrite !bool_decide_eq_true_2 by done. cbn.
    rewrite !andb_true_r. by apply andb_true_iff.
  - rewrite !same_hex_refl, outpoint_same_refl, !bool_decide_eq_true_2 by done. cbn.
    rewrite !andb_true_r. apply andb_true_iff. split; [|done]. apply sameHex_iff. symmetry. by apply sameHex_iff.
Qed.

Lemma atomic_ok {A} s (m : result (ClientStore * A)) s' x : atomic s m = (s', Ok x) -> m = Ok (s', x).
Proof. destruct m as [[t y]|e]; cbn; [by intros [= -> ->]|done]. Qed.

(** Calls that find the attempt applied answer with what is stored. *)
Lemma applyFunding_applied r s a c :
  let key := channelKey (fr_channelId r) in
  get_funding s key = Some a -> get_channel s key = Some c -> fa_status a = at_applied ->
  same_kind (fr_evidence r) (fa_kind a) = true -> sameHex (fa_transactionId a) (fr_transactionId r) = true ->
  confirmed (fr_acceptance r) (fa_requiredConfirmations a) = Ok true ->
  sameHex (ae_transactionId (fr_acceptance r)) (fa_transactionId a) = true ->
  appliedFundingAttemptMatchesChannel (Some c) a = true ->
  applyFundingTransitionAttempt sha256 r s = (s, Ok (c, a)).
Proof.
  intros key Ha Hc Hs Hk Ht Hf He Hm. unfold applyFundingTransitionAttempt. fold key. rewrite Ha. cbn [required mbind result_bind].
  rewrite Hk, Ht, Hf, He. cbn. rewrite bool_decide_eq_true_2 by done. by rewrite Hc, Hm.
Qed.
Lemma applyRefund_applied r s a c :
  let key := channelKey (rr_channelId r) in
  get_refund s key = Some a -> get_channel s key = Some c -> ra_status a = at_applied -> dc_status c = dc_refunded ->
  ra_finality a = Some "confirmed" -> sameHex (ra_transactionId a) (rr_transactionId r) = true ->
  confirmed (rr_acceptance r) (ra_requiredConfirmations a) = Ok true ->
  sameHex (ae_transactionId (rr_acceptance r)) (ra_transactionId a) = true ->
  channelHeadMatchesRefundAttempt (Some c) a = true ->
  applyRefundAttempt sha256 r s = (s, Ok (c, a)).
Proof.
  intros key Ha Hc Hs Hst Hfin Ht Hf He Hm. unfold applyRefundAttempt. fold key. rewrite Ha. cbn [required mbind result_bind].
  rewrite Ht, Hf, He. cbn. rewrite bool_decide_eq_true_2 by done. rewrite Hc, Hm. cbn [required mbind result_bind].
  by rewrite Hst, Hfin.
Qed.

(** C25. Applying a confirmed transaction twice is applying it once.
    When [applyFundingTransitionAttempt] or [applyRefundAttempt] returns, the same request on
    the store it left returns the same channel and the same attempt and changes nothing: the
    channel an application builds is the one that the applied attempt describes.  (For a
    funding attempt as it was claimed, whose optional texts are not empty: an empty resource
    URL or key is dropped from the channel but stays in the attempt.) *)
Theorem applications_repeat s s' :
  (forall r c a a0,
     get_funding s (channelKey (fr_channelId r)) = Some a0 -> fundingAttemptArtifactIsConsistent sha256 a0 = Ok true -> texts_given a0 ->
     applyFundingTransitionAttempt sha256 r s = (s', Ok (c, a)) -> applyFundingTransitionAttempt sha256 r s' = (s', Ok (c, a))) /\
  (forall r c a, applyRefundAttempt sha256 r s = (s', Ok (c, a)) -> applyRefundAttempt sha256 r s' = (s', Ok (c, a))).
Proof.
  split.
  - intros r c a a0 Ha Hart Ht Happ. pose proof Happ as E. apply atomic_ok in E. cbv zeta in E. rewrite Ha in E. cbn [required] in E.
    call_facts. destruct (bool_decide (fa_status x = at_applied)) eqn:Es; call_facts; [done|].
    apply applyFunding_applied; try done; [by rewrite set_funding_get, decide_True| |].
    + unfold get_channel. cbn. by rewrite map_set_get, decide_True.
    + by eapply (applied_matches r x).
  - intros r c a Happ. pose proof Happ as E. apply atomic_ok in E. cbv zeta in E. call_facts.
    destruct (bool_decide (ra_status x = at_applied)) eqn:Es; call_facts; [done|].
    destruct (channelMatchesRefundAttempt (get_channel s (channelKey (rr_channelId r))) x) eqn:Em; [|done].
    apply channel_matches_head in Em.
    match goal with Hc : get_channel s _ = Some _ |- _ => rewrite Hc in Em end.
    apply applyRefund_applied; try done; [by rewrite set_refund_get, decide_True|].
    unfold get_channel. cbn. by rewrite map_set_get, decide_True.
Qed.

(** *** A state without exit *)

(** A suspicious channel with an attempt that was opened on it while it was active *)
Record wedged (key : string) (s : ClientStore) : Prop := {
  wd_channel : exists c, get_channel s key = Some c /\ dc_status c = dc_suspicious;
  wd_attempt :
    (exists a e, get_funding s key = Some a /\ fa_status a <> at_applied /\ fa_kind a = TopUpKind e /\ dc_status e = dc_active /\
       isOpenRefundAttempt (get_refund s key) = false) \/
    (exists a, get_refund s key = Some a /\ ra_status a <> at_applied /\ ra_channelStatus a = dc_active /\
       isOpenFundingAttempt (get_funding s key) = false)
}.

Lemma wedged_same key s s' :
  get_channel s' key = get_channel s key -> get_funding s' key = get_funding s key -> get_refund s' key = get_refund s key ->
  wedged key s -> wedged key s'.
Proof. intros Hc Hf Hr [H1 H2]. split; by rewrite ?Hc, ?Hf, ?Hr. Qed.
Lemma wedged_open key s : wedged key s -> isOpenFundingAttempt (get_funding s key) = true \/ isOpenRefundAttempt (get_refund s key) = true.
Proof. intros [_ [(a & e & Ha & Hs & _)|(a & Ha & Hs & _)]]; [left; apply open_funding|right; apply open_refund]; eauto. Qed.
Lemma wedged_not_mutable key s : wedged key s -> channel_mutable s key -> False.
Proof. intros [H|H]%wedged_open [Hf Hr]; [congruence|]. by rewrite Hr in H. Qed.
Lemma wedged_funding key s a :
  wedged key s -> get_funding s key = Some a -> fa_status a <> at_applied ->
  openFundingAttemptMatchesChannel (get_channel s key) a = false.
Proof.
  intros [(c & Hc & Hst) [(b & e & Hb & _ & Hk & He & _)|(b & _ & _ & _ & Hf)]] Ha Hs.
  - rewrite Ha in Hb. injection Hb as ->. unfold openFundingAttemptMatchesChannel. rewrite Hk, Hc.
    destruct (sameChannelSnapshot c e) eqn:E; [|done]. apply snapshot_head in E as [_ E]. congruence.
  - rewrite Ha in Hf. by apply closed_funding in Hf.
Qed.
Lemma wedged_refund key s a :
  wedged key s -> get_refund s key = Some a -> ra_status a <> at_applied -> channelMatchesRefundAttempt (get_channel s key) a = false.
Proof.
  intros [(c & Hc & Hst) [(b & e & _ & _ & _ & _ & Hr)|(b & Hb & _ & He & _)]] Ha Hs.
  - rewrite Ha in Hr. by apply closed_refund in Hr.
  - rewrite Ha in Hb. injection Hb as ->. unfold channelMatchesRefundAttempt. rewrite Hc, Hst, He. by rewrite andb_false_r.
Qed.
Lemma wedged_touch key c s :
  wedged key s -> dc_status c = dc_suspicious -> wedged key (set_channel key c s).
Proof. intros [_ H] Hc. split; [|done]. exists c. by rewrite set_channel_get, decide_True. Qed.
Lemma wedged_save_funding key a a' s :
  wedged key s -> get_funding s key = Some a -> fa_status a = at_pending -> fa_status a' = at_broadcast ->
  sameFundingArtifact a a' = true -> wedged key (set_funding key a' s).
Proof.
  intros [Hc H] Ha Hs Hs' [_ Hart]%same_artifact_kind. split; [done|]. rewrite set_funding_get, decide_True by done.
  destruct H as [(b & e & Hb & _ & Hk & He & Hr)|(b & _ & _ & _ & Hf)].
  - rewrite Ha in Hb. injection Hb as ->. rewrite Hk in Hart. destruct (fa_kind a') as [|e'] eqn:Hk'; [done|].
    destruct Hart as [_ Hst]. left. exists a', e'. split_and!; try done; congruence.
  - rewrite Ha in Hf. apply closed_funding in Hf. congruence.
Qed.
Lemma wedged_save_refund key a a' s :
  wedged key s -> get_refund s key = Some a -> ra_status a = at_pending -> ra_status a' = at_broadcast ->
  sameRefundArtifact a a' = true -> wedged key (set_refund key a' s).
Proof.
  intros [Hc H] Ha Hs Hs' Hart. split; [done|]. rewrite set_refund_get, decide_True by done.
  destruct H as [(b & e & _ & _ & _ & _ & Hr)|(b & Hb & _ & He & Hf)].
  - rewrite Ha in Hr. apply closed_refund in Hr. congruence.
  - rewrite Ha in Hb. injection Hb as ->. right. exists a'. split_and!; try done; [congruence|].
    unfold sameRefundArtifact in Hart. inv_bool. congruence.
Qed.

(** A change of another key *)
Ltac frame := eapply wedged_same; [..|eassumption];
  unfold get_channel, get_funding, get_refund; cbn; rewrite ?map_set_get, ?map_delete_get_ne, ?decide_False by congruence; done.

Lemma wedged_step key s s' : client_step s s' -> wedged key s -> wedged key s'.
Proof.
  intros Hst Hw.
  destruct Hst as [k c s Hk Hm|k c s Hc Hm|k s s' Hm Hs|k c c' s Hc (Hh & Ha & Ht)|k a s _ _ _ Hf Hr _|k a a' s Ha _ Hs Hs' Hart
    |k a a' c s Ha Hs Hm|k a s Ha Hs Hm|k a s _ _ Hr Hf _|k a a' s Ha _ Hs Hs' Hart|k a a' c c' s Ha Hs Hc Hm|k a s Ha Hs Hm
    |k a a' s (Ha & Hs & _) _ Hr|k c s s1 s2 _ _ Hf Hr H1 H2|k a s|k a a' s|k a s]; try (by apply (wedged_same key s));
    destruct (decide (k = key)) as [->|Hne].
  all: try (exfalso; by eapply wedged_not_mutable).
  all: try (exfalso; destruct (wedged_open _ _ Hw) as [Ho|Ho]; rewrite ?Ha, ?Hr in Ho; try congruence; by apply closed_funding in Hf).
  all: try frame.
  - destruct Hs as [->| ->]; frame.
  - apply wedged_touch; [done|]. destruct Ht as [Ht|Ht]; [|done]. destruct Hw as [(d & Hd & Hds) _]. congruence.
  - by eapply wedged_save_funding.
  - by rewrite (wedged_funding key s a Hw Ha Hs) in Hm.
  - by rewrite (wedged_funding key s a Hw Ha Hs) in Hm.
  - by eapply wedged_save_refund.
  - rewrite <- Hc in Hm. by rewrite (wedged_refund key s a Hw Ha Hs) in Hm.
  - by rewrite (wedged_refund key s a Hw Ha Hs) in Hm.
  - exfalso. destruct (wedged_open _ _ Hw) as [Ho|Ho]; [|congruence]. rewrite Ha in Ho. cbn in Ho. by rewrite Hs in Ho.
  - assert (wedged key s2); [|frame]. 
    assert (wedged key s1) by (destruct H1 as [->|(a & a' & _ & ->)]; [done|frame]).
    destruct H2 as [->|[_ ->]]; [done|frame].
Qed.

(** C40. Quarantining a channel while one of its attempts is open strands both.
    [quarantineChannel] does not look at open attempts.  If the channel has an open top-up that
    matches it, or an open refund that was claimed while it was active, then after the
    quarantine no sequence of calls, with any arguments, ever closes the attempt or takes the
    channel out of "suspicious": applying and releasing both require the status the attempt
    was claimed with, and reconciliation, saving, retiring and deleting require that no attempt
    is open.  The records cannot even be loaded into a new store: its constructor rejects the
    attempt. *)
Theorem quarantine_wedges_attempt channels refunds fundings exacts s0 cs0 cs key c :
  new_client_store channels refunds fundings exacts = Ok s0 ->
  let s := exec_all cs0 s0 in
  get_channel s key = Some c -> dc_status c = dc_active ->
  (exists a e, get_funding s key = Some a /\ fa_status a <> at_applied /\ fa_kind a = TopUpKind e /\ sameChannelSnapshot c e = true) \/
  (exists a, get_refund s key = Some a /\ ra_status a <> at_applied /\ channelMatchesRefundAttempt (Some c) a = true) ->
  let u := exec_all cs (quarantineChannel c s).1 in
  (exists c', get_channel u key = Some c' /\ dc_status c' = dc_suspicious) /\
  (isOpenFundingAttempt (get_funding u key) = true \/ isOpenRefundAttempt (get_refund u key) = true) /\
  (forall a, get_funding u key = Some a -> fa_status a <> at_applied ->
     persistedFundingAttemptMatchesChannel sha256 (get_channel u key) a <> Ok true) /\
  (forall a, get_refund u key = Some a -> ra_status a <> at_applied ->
     persistedRefundAttemptMatchesChannel (get_channel u key) a = false).
Proof.
  intros Hs0 s Hc Hst Hopen u.
  pose proof (so_key _ (client_run_ok sha256 url_href cs0 s0 (new_client_store_ok _ _ _ _ _ _ _ Hs0)) key) as Hkey. fold s in Hkey.
  assert (channelKey (dc_id c) = key) as Hid by (by apply Hkey).
  assert (wedged key (quarantineChannel c s).1) as Hw0.
  { unfold quarantineChannel. rewrite Hid, Hc. cbn. rewrite same_hex_refl. unfold sameManifest. rewrite !bool_decide_eq_true_2 by done.
    cbn. split; [eexists; by rewrite set_channel_get, decide_True|].
    destruct Hopen as [(a & e & Ha & Hs & Hk & Hm)|(a & Ha & Hs & Hm)]; [left|right].
    - apply snapshot_head in Hm as [_ Hm]. exists a, e. split_and!; try done; [congruence|]. apply Hkey, open_funding. eauto.
    - exists a. unfold channelMatchesRefundAttempt in Hm. inv_bool. split_and!; try done; [congruence|].
      change (isOpenFundingAttempt (get_funding s key) = false). destruct (isOpenFundingAttempt (get_funding s key)) eqn:Hf; [|done].
      pose proof (ko_exclusive _ _ _ _ Hkey Hf) as Hr. rewrite Ha in Hr. by apply closed_refund in Hr. }
  assert (wedged key u) as Hw by (apply run_preserves; [intros t t' Ht Hstep; by eapply wedged_step|done]).
  split_and!; [apply Hw|by apply wedged_open| |].
  - intros a Ha Hs. pose proof (wedged_funding _ _ _ Hw Ha Hs) as Hf. unfold persistedFundingAttemptMatchesChannel. rewrite Hf.
    intros E. call_facts. destruct (fa_status a); inv_bool; done.
  - intros a Ha Hs. pose proof (wedged_refund _ _ _ Hw Ha Hs) as Hf. unfold persistedRefundAttemptMatchesChannel. rewrite Hf.
    destruct (ra_status a); by rewrite ?andb_false_r.
Qed.
End Guarantees.

(** ** Instances of the theorems *)

Lemma empty_new : new_client_store toy_sha256 no_urls [] [] [] [] = Ok empty_client_store.
Proof. reflexivity. Qed.
Definition opening_and (f : DirectModeChannel -> list ClientCommand) : list ClientCommand := opening ++ on_channel f.
Definition claim_refund : list ClientCommand := opening_and (fun c => [ClaimRefund (refund_of c)]).
Definition claim_top_up : list ClientCommand := opening_and (fun c => [ClaimFunding (top_up_of c)]).

(** A refund is open: no funding transition is, and it names the stored head. *)
Lemma client_attempts_exclusive_witness :
  exists a, get_refund (run claim_refund empty_client_store) (channelKey id) = Some a /\ ra_status a = at_pending /\
    channelHeadMatchesRefundAttempt (get_channel (run claim_refund empty_client_store) (channelKey id)) a = true.
Proof.
  pose proof (client_attempts_exclusive toy_sha256 no_urls [] [] [] [] empty_client_store claim_refund (channelKey id) empty_new)
    as (_ & H & _).
  assert (ra_status <$> get_refund (run claim_refund empty_client_store) (channelKey id) = Some at_pending) as E
    by (vm_compute; reflexivity).
  destruct (get_refund (run claim_refund empty_client_store) (channelKey id)) as [a|]; [|discriminate E].
  injection E as E. exists a. split; [reflexivity|]. split; [exact E|]. apply (H a eq_refl). rewrite E. discriminate.
Defined.

(** The payment was accepted; resolving it as absent and finalizing it leave it accepted. *)
Definition after_paying : list ClientCommand :=
  [ResolveExact (hex64 "a1") (Sample.hash 200) ex_absent (StatusAccepted (Sample.evidence 200 12)) None;
   FinalizeExact (hex64 "a1") (Sample.hash 200)].
Lemma exact_outcome_final_witness :
  exists a', get_exact (run after_paying (run paying empty_client_store)) (hex64 "a1") = Some a' /\ ep_status a' = ex_accepted.
Proof.
  assert (ep_status <$> get_exact (run paying empty_client_store) (hex64 "a1") = Some ex_accepted) as E by (vm_compute; reflexivity).
  destruct (get_exact (run paying empty_client_store) (hex64 "a1")) as [a|] eqn:Ha; [|discriminate E]. injection E as E.
  destruct (exact_outcome_final toy_sha256 no_urls [] [] [] [] empty_client_store paying after_paying (hex64 "a1") a empty_new Ha)
    as (a' & Ha' & _ & _ & Hf).
  exists a'. split; [exact Ha'|]. destruct (Hf ltac:(rewrite E; discriminate)) as [-> | ->]; exact E.
Defined.

(** The genesis and the refund of the sample are applied twice. *)
Lemma applications_repeat_witness :
  (let once := applyFundingTransitionAttempt toy_sha256 genesis_request (run [ClaimFunding genesis_attempt] empty_client_store) in
   is_ok once.2 = true /\ applyFundingTransitionAttempt toy_sha256 genesis_request once.1 = once) /\
  (let once := applyRefundAttempt toy_sha256 refund_request refunding in
   is_ok once.2 = true /\ applyRefundAttempt toy_sha256 refund_request once.1 = once).
Proof.
  split; intros once.
  - assert (is_ok once.2 = true) as Ho by (vm_compute; reflexivity). split; [exact Ho|].
    destruct once as [s' [[c a]|e]] eqn:E; [|discriminate Ho].
    refine (proj1 (applications_repeat toy_sha256 (run [ClaimFunding genesis_attempt] empty_client_store) s') genesis_request c a
              genesis_attempt _ _ _ E); [vm_compute; reflexivity|vm_compute; reflexivity|split; discriminate].
  - assert (is_ok once.2 = true) as Ho by (vm_compute; reflexivity). split; [exact Ho|].
    destruct once as [s' [[c a]|e]] eqn:E; [|discriminate Ho].
    exact (proj2 (applications_repeat toy_sha256 refunding s') refund_request c a E).
Defined.

(** A channel is quarantined while its top-up is open.  Without the quarantine the top-up can
    be applied ([topped_up]); with it, it cannot, whatever else is called before. *)
Definition pending_top_up (c : option DirectModeChannel) (a : option FundingTransitionAttemptRecord) : bool :=
  match c, a with
  | Some c, Some a =>
      match fa_kind a with
      | TopUpKind e => (dc_status c === dc_active) && (fa_status a !== at_applied) && sameChannelSnapshot c e
      | GenesisKind _ => false
      end
  | _, _ => false
  end.
Lemma pending_top_up_elim c a :
  pending_top_up c a = true -> exists d b e, c = Some d /\ a = Some b /\ dc_status d = dc_active /\ fa_status b <> at_applied /\
    fa_kind b = TopUpKind e /\ sameChannelSnapshot d e = true.
Proof.
  destruct c as [d|], a as [b|]; try done. cbn. destruct (fa_kind b) as [|e] eqn:Hk; [done|]. intros H. inv_bool. by exists d, b, e.
Qed.
Lemma top_up_pending :
  pending_top_up (get_channel (run claim_top_up empty_client_store) (channelKey id))
    (get_funding (run claim_top_up empty_client_store) (channelKey id)) = true.
Proof. vm_compute. reflexivity. Qed.
Lemma quarantine_wedges_attempt_witness :
  exists c, get_channel (run claim_top_up empty_client_store) (channelKey id) = Some c /\
    let u := run [ApplyFunding top_up_request] (quarantineChannel c (run claim_top_up empty_client_store)).1 in
    (exists c', get_channel u (channelKey id) = Some c' /\ dc_status c' = dc_suspicious) /\
    (isOpenFundingAttempt (get_funding u (channelKey id)) = true \/ isOpenRefundAttempt (get_refund u (channelKey id)) = true).
Proof.
  destruct (pending_top_up_elim _ _ top_up_pending) as (c & a & e & Hc & Ha & Hst & Hs & Hk & Hm). exists c. split; [exact Hc|]. intros u.
  destruct (quarantine_wedges_attempt toy_sha256 no_urls [] [] [] [] empty_client_store claim_top_up [ApplyFunding top_up_request]
    (channelKey id) c empty_new Hc Hst (or_introl (ex_intro _ a (ex_intro _ e (conj Ha (conj Hs (conj Hk Hm))))))) as (H1 & H2 & _).
  exact (conj H1 H2).
Defined.

(** Retiring lifts a quarantine: a retired channel may be saved as an active one. *)
Definition requarantine : list ClientCommand :=
  opening_and (fun c => [Quarantine c; Retire id; SaveChannel (Some (c <| dc_status := dc_retired |>)) c]).
Example retirement_lifts_quarantine :
  dc_status <$> get_channel (run requarantine empty_client_store) (channelKey id) = Some dc_active.
Proof. vm_compute. reflexivity. Qed.
